(** * nanomux: template engine, URL splitter and responder tree

    A shallow embedding of the core of the nanomux HTTP router
    (package [nanomux]): the template DSL ([Template], [TryToParse],
    [Match], [Apply], [SimilarityWith]), the URL splitter
    ([splitHostAndPath]) and the registration part of the responder tree
    ([_ResponderBase]).

    Conventions.
    - A Go [string] is a sequence of bytes; it is modelled by [string]
      (a list of [ascii], i.e. of 8-bit characters).  Go's [int] indices
      are modelled by [Z]; [-1] is the "not found" result of
      [strings.IndexByte].
    - A Go function returning [(…, error)] returns a record or a sum with
      the error kind; the message text added by [newError]/[newErr]
      ([%w] wrapping) is not modelled, only the wrapped sentinel error.
    - A nil-pointer dereference (a run-time panic) is the [Panics] result. *)

From Stdlib Require Import ZArith Ascii String List Bool Lia.
From stdpp Require Import base gmap strings list.

Local Open Scope string_scope.
Local Open Scope Z_scope.

#[local] Arguments String.append !_ _ / : simpl nomatch.

(** Go's [append(l, x)] *)
Definition appendSlice {A : Type} (l : list A) (x : A) : list A := (l ++ [x])%list.

(** ** Go string primitives *)

Module GoStr.

(** [len(s)] *)
Definition len (s : string) : Z := Z.of_nat (String.length s).

Fixpoint drop (n : nat) (s : string) : string :=
  match n, s with
  | O, _ => s
  | S n', String _ s' => drop n' s'
  | S _, EmptyString => EmptyString
  end.

Fixpoint take (n : nat) (s : string) : string :=
  match n, s with
  | O, _ => EmptyString
  | S n', String c s' => String c (take n' s')
  | S _, EmptyString => EmptyString
  end.

(** [s[a:b]], [s[a:]] and [s[:b]].  Go panics when the bounds are out of
    range; every use below is in range, the functions clamp. *)
Definition slice (s : string) (a b : Z) : string :=
  take (Z.to_nat (b - a)) (drop (Z.to_nat a) s).
Definition from (s : string) (a : Z) : string := drop (Z.to_nat a) s.
Definition upto (s : string) (b : Z) : string := take (Z.to_nat b) s.

(** [s[i]] as an optional byte ([None] out of range). *)
Definition at_ (s : string) (i : Z) : option ascii :=
  if i <? 0 then None else String.get (Z.to_nat i) s.

(** [strings.HasPrefix(s, p)] *)
Fixpoint HasPrefix (s p : string) {struct p} : bool :=
  match p, s with
  | EmptyString, _ => true
  | String c p', String d s' => if Ascii.eqb c d then HasPrefix s' p' else false
  | String _ _, EmptyString => false
  end.

(** [strings.TrimPrefix(s, p)] *)
Definition TrimPrefix (s p : string) : string :=
  if HasPrefix s p then drop (String.length p) s else s.

(** [strings.HasSuffix(s, p)] *)
Definition HasSuffix (s p : string) : bool :=
  (String.length p <=? String.length s)%nat
  && String.eqb (drop (String.length s - String.length p) s) p.

(** [strings.IndexByte(s, c)]: the index of the first [c], or [-1]. *)
Fixpoint IndexByte (s : string) (c : ascii) : Z :=
  match s with
  | EmptyString => -1
  | String d s' =>
      if Ascii.eqb d c then 0
      else let i := IndexByte s' c in if i <? 0 then -1 else i + 1
  end.

(** The last byte of [s], if any. *)
Definition last (s : string) : option ascii := at_ s (len s - 1).

Fixpoint contains (s : string) (c : ascii) : bool :=
  match s with
  | EmptyString => false
  | String d s' => Ascii.eqb d c || contains s' c
  end.

End GoStr.

(** ** Error kinds (the sentinel [Err…] variables) *)

Inductive error : Type :=
  | ErrInvalidTemplate
  | ErrInvalidValue
  | ErrMissingValue
  | ErrDifferentPattern
  | ErrRepeatedWildcardName
  | ErrAnotherWildcardName
  | ErrInvalidRegex            (* an error of [regexp.Compile] *)
  | ErrDifferentTemplates
  | ErrDifferentValueNames
  | ErrDifferentNames
  | ErrNilArgument
  | ErrConflictingHost
  | ErrConflictingPath
  | ErrConflictingPathSegment
  | ErrConflictingSecurity
  | ErrConflictingTrailingSlash
  | ErrConflictingConfig
  | ErrEmptyPathSegmentTemplate
  | ErrWildcardHostTemplate
  | ErrNonRouterParent
  | ErrDuplicateResourceTemplate
  | ErrDuplicateNameInTheURL
  | ErrDuplicateValueNameInTheURL
  | ErrDuplicateNameAmongSiblings
  | ErrRegisteredResource.

#[global] Instance error_eq_dec : EqDecision error.
Proof. solve_decision. Defined.

(** ** utils.go: the URL splitter *)

Module Utils.
Import GoStr.

Record split_result : Type := mkSplit {
  hostTmplStr : string;
  pathTmplStr : string;
  secure : bool;
  tslash : bool;
  err : option error
}.

(** The last block of [splitHostAndPath]: strip one trailing slash of a
    path longer than one byte. *)
Definition stripLastSlash (host path : string) (sec : bool) : split_result :=
  let lastIdx := len path - 1 in
  if (0 <? lastIdx) && bool_decide (at_ path lastIdx = Some "/"%char)
  then mkSplit host (upto path lastIdx) sec true None
  else mkSplit host path sec false None.

Definition splitHostAndPath (urlTmplStr : string) : split_result :=
  if String.eqb urlTmplStr "" then mkSplit "" "" false false (Some ErrInvalidTemplate)
  else
    let lurlTmplStr := len urlTmplStr in
    let t1 := TrimPrefix urlTmplStr "https://" in
    let '(urlTmplStr, absolute, sec) :=
      if len t1 <? lurlTmplStr then (t1, true, true)
      else
        let t2 := TrimPrefix t1 "http://" in
        if len t2 <? lurlTmplStr then (t2, true, false) else (t2, false, false) in
    (* [inl]: the early return of a host without a path *)
    let hp : split_result + string * string :=
      if (absolute : bool) then
        let idx := IndexByte urlTmplStr "/" in
        if idx <? 0 then inl (mkSplit urlTmplStr "" sec false None)
        else inr (upto urlTmplStr idx, from urlTmplStr idx)
      else inr ("", urlTmplStr) in
    match hp with
    | inl r => r
    | inr (host, path) =>
        if negb (String.eqb host "") && String.eqb path "/"
        then mkSplit host "" sec true None
        else if String.eqb host "" && String.eqb path ""
        then mkSplit host path false false (Some ErrInvalidTemplate)
        else stripLastSlash host path sec
    end.

(** The scheme prefix that conveys the [secure] bit. *)
Definition scheme (sec : bool) : string := if sec then "https://" else "http://".

End Utils.

(** ** Outcome of a Go call that can panic *)

(** [Panics] stands for a run-time panic: a nil-pointer dereference or an
    index out of range. *)
Inductive outcome (A : Type) : Type :=
  | Returns (a : A)
  | Panics.
Arguments Returns {A} a.
Arguments Panics {A}.

Definition obind {A B : Type} (o : outcome A) (k : A -> outcome B) : outcome B :=
  match o with
  | Returns a => k a
  | Panics => Panics
  end.

Notation "'do!' x <- o ; k" := (obind o (fun x => k))
  (at level 10, x pattern, o at level 100, k at level 200).

(** ** The [regexp] package, as far as the templates use it *)

(** [Compile] is [regexp.Compile] ([None]: a syntax error), [re_String] is
    [Regexp.String], the source text the expression was compiled from.
    [FindStringIndex] gives the leftmost match as a pair of byte indices,
    [FindAllStringIndex] (called with [n = -1]) all successive matches;
    the empty list is the [nil] result. *)
Class RegexEngine : Type := {
  Regexp : Type;
  Compile : string -> option Regexp;
  re_String : Regexp -> string;
  FindStringIndex : Regexp -> string -> option (Z * Z);
  FindAllStringIndex : Regexp -> string -> list (Z * Z);
  Compile_String : forall p re, Compile p = Some re -> re_String re = p
}.

(** ** template.go *)

Module Tmpl.
Import GoStr.

Inductive Similarity : Type :=
  | Different
  | DifferentValueNames
  | DifferentNames
  | TheSame.

#[global] Instance Similarity_eq_dec : EqDecision Similarity.
Proof. solve_decision. Defined.

(** [Similarity.Err] *)
Definition Similarity_Err (s : Similarity) : option error :=
  match s with
  | Different => Some ErrDifferentTemplates
  | DifferentValueNames => Some ErrDifferentValueNames
  | DifferentNames => Some ErrDifferentNames
  | TheSame => None
  end.

Section WithEngine.
Context `{RE : RegexEngine}.

(** [_ValuePattern]; [vp_re = None] is the nil regexp of a wildcard. *)
Record _ValuePattern : Type := mkVP {
  vp_name : string;
  vp_re : option Regexp
}.

(** [_TemplateSlice]; [valuePattern = None] is the nil pointer of a
    static slice.  The slices of a template hold their value pattern by
    value: the parser never updates a [_ValuePattern] that two slices
    share (see [parse]). *)
Record _TemplateSlice : Type := mkSlice {
  staticStr : string;
  valuePattern : option _ValuePattern
}.

Definition staticS (s : string) : _TemplateSlice := mkSlice s None.
Definition dynamicS (vp : _ValuePattern) : _TemplateSlice := mkSlice "" (Some vp).

Record Template : Type := mkTemplate {
  name : string;
  slices : list _TemplateSlice;
  wildCardIdx : Z
}.

Definition Name (t : Template) : string := name t.

Definition SetName (t : Template) (n : string) : Template :=
  mkTemplate n (slices t) (wildCardIdx t).

(** [len(t.slices) == 1 && t.slices[0].staticStr != ""] *)
Definition IsStatic (t : Template) : bool :=
  match slices t with
  | [slc] => negb (String.eqb (staticStr slc) "")
  | _ => false
  end.

Definition IsWildcard (t : Template) : bool :=
  match slices t with
  | [slc] =>
      match valuePattern slc with
      | Some vp => match vp_re vp with None => true | Some _ => false end
      | None => false
      end
  | _ => false
  end.

(** [slc.valuePattern.re], which panics on a nil [valuePattern]. *)
Definition slice_re (slc : _TemplateSlice) : outcome (option Regexp) :=
  match valuePattern slc with
  | Some vp => Returns (vp_re vp)
  | None => Panics
  end.

(** [slc.valuePattern.name] *)
Definition slice_name (slc : _TemplateSlice) : outcome string :=
  match valuePattern slc with
  | Some vp => Returns (vp_name vp)
  | None => Panics
  end.

(** The slice loop of [SimilarityWith] over [t.slices[i]] and
    [anotherT.slices[i]]; the lists have the same length.
    [Returns None] is the early [return Different], [Returns (Some s)]
    the value of [similarity] when the loop ends. *)
Fixpoint similarityLoop (ts1 ts2 : list _TemplateSlice) (similarity : Similarity)
  : outcome (option Similarity) :=
  match ts1, ts2 with
  | slc1 :: ts1', slc2 :: ts2' =>
      if negb (String.eqb (staticStr slc1) "") then
        if negb (String.eqb (staticStr slc1) (staticStr slc2)) then Returns None
        else similarityLoop ts1' ts2' similarity
      else
        do! re1 <- slice_re slc1;
        match re1 with
        | Some r1 =>
            (* [slc1.valuePattern.re != nil && slc2.valuePattern.re != nil] *)
            do! re2 <- slice_re slc2;
            match re2 with
            | Some r2 =>
                if negb (String.eqb (re_String r1) (re_String r2)) then Returns None
                else
                  do! n1 <- slice_name slc1;
                  do! n2 <- slice_name slc2;
                  similarityLoop ts1' ts2'
                    (if negb (String.eqb n1 n2) then DifferentValueNames else similarity)
            | None => Returns None
            end
        | None =>
            (* [slc1.valuePattern.re == nil && slc2.valuePattern.re == nil] *)
            do! re2 <- slice_re slc2;
            match re2 with
            | None =>
                do! n1 <- slice_name slc1;
                do! n2 <- slice_name slc2;
                similarityLoop ts1' ts2'
                  (if negb (String.eqb n1 n2) then DifferentValueNames else similarity)
            | Some _ => Returns None
            end
        end
  | _, _ => Returns (Some similarity)
  end.

(** [t.SimilarityWith(anotherT)] for a non-nil [anotherT]. *)
Definition SimilarityWith (t anotherT : Template) : outcome Similarity :=
  if IsStatic t then
    match slices t, slices anotherT with
    | [s1], [s2] =>
        if IsStatic anotherT && String.eqb (staticStr s1) (staticStr s2) then
          if negb (String.eqb (name t) (name anotherT)) then Returns DifferentNames
          else Returns TheSame
        else Returns Different
    | _, _ => Returns Different
    end
  else if IsWildcard t then
    if IsWildcard anotherT then
      match slices t, slices anotherT with
      | [s1], [s2] =>
          do! n1 <- slice_name s1;
          do! n2 <- slice_name s2;
          if String.eqb n1 n2 then
            if negb (String.eqb (name t) (name anotherT)) then Returns DifferentNames
            else Returns TheSame
          else Returns DifferentValueNames
      | _, _ => Panics
      end
    else Returns Different
  else if IsStatic anotherT || IsWildcard anotherT then Returns Different
  else if negb (wildCardIdx t =? wildCardIdx anotherT) then Returns Different
  else if negb (Nat.eqb (List.length (slices t)) (List.length (slices anotherT)))
  then Returns Different
  else
    do! r <- similarityLoop (slices t) (slices anotherT) TheSame;
    match r with
    | None => Returns Different
    | Some similarity =>
        if bool_decide (similarity = TheSame) && negb (String.eqb (name t) (name anotherT))
        then Returns DifferentNames
        else Returns similarity
    end.

(** *** [Match] *)

(** [if vf, found := values[vp.name]; found { if v != vf { return false } }
    else { values[vp.name] = v }]: [None] is the failed match. *)
Definition recordValue (values : gmap string string) (n v : string)
  : option (gmap string string) :=
  match values !! n with
  | Some vf => if negb (String.eqb v vf) then None else Some values
  | None => Some (<[n := v]> values)
  end.

(** The first loop of [Match], over [t.slices[0 .. k-1]]: it consumes the
    slices from the start of [str].  [Returns None] is [return false, nil]. *)
Fixpoint matchLeft (ts : list _TemplateSlice) (str : string) (values : gmap string string)
  : outcome (option (string * gmap string string)) :=
  match ts with
  | [] => Returns (Some (str, values))
  | slc :: ts' =>
      let sstr := staticStr slc in
      if negb (String.eqb sstr "") then
        if HasPrefix str sstr then matchLeft ts' (from str (len sstr)) values
        else Returns None
      else
        match valuePattern slc with
        | None => Panics
        | Some vp =>
            match vp_re vp with
            | None => Panics
            | Some re =>
                match FindStringIndex re str with
                | Some (_, i1) =>
                    match recordValue values (vp_name vp) (upto str i1) with
                    | Some values' => matchLeft ts' (from str i1) values'
                    | None => Returns None
                    end
                | None => Returns None
                end
            end
        end
  end.

(** The second loop of [Match], over [t.slices[len-1 .. k+1]] given in that
    (descending) order: it consumes the slices from the end of [str]. *)
Fixpoint matchRight (ts : list _TemplateSlice) (str : string) (values : gmap string string)
  : outcome (option (string * gmap string string)) :=
  match ts with
  | [] => Returns (Some (str, values))
  | slc :: ts' =>
      let sstr := staticStr slc in
      if negb (String.eqb sstr "") then
        if HasSuffix str sstr then matchRight ts' (upto str (len str - len sstr)) values
        else Returns None
      else
        match valuePattern slc with
        | None => Panics
        | Some vp =>
            match vp_re vp with
            | None => Panics
            | Some re =>
                match List.last (map Some (FindAllStringIndex re str)) None with
                | Some (l0, _) =>
                    match recordValue values (vp_name vp) (from str l0) with
                    | Some values' => matchRight ts' (upto str l0) values'
                    | None => Returns None
                    end
                | None => Returns None
                end
            end
        end
  end.

(** The slices left of index [k], and those right of it from the last one
    down.  [t.slices[i]] with [i] out of range panics. *)
Definition leftSlices (t : Template) (k : Z) : list _TemplateSlice :=
  List.firstn (Z.to_nat k) (slices t).
Definition rightSlices (t : Template) (k : Z) : list _TemplateSlice :=
  List.rev (List.skipn (S (Z.to_nat k)) (slices t)).

(** [t.Match(str)]: the pair [(matched, values)]; [values = None] is the
    nil map. *)
Definition Match (t : Template) (str : string)
  : outcome (bool * option (gmap string string)) :=
  if IsStatic t then
    match slices t with
    | slc :: _ => Returns (String.eqb (staticStr slc) str, None)
    | [] => Panics
    end
  else if IsWildcard t then
    match slices t with
    | slc :: _ =>
        do! n <- slice_name slc;
        Returns (true, Some (<[n := str]> (∅ : gmap string string)))
    | [] => Panics
    end
  else
    let ltslices := Z.of_nat (List.length (slices t)) in
    let k := if 0 <=? wildCardIdx t then wildCardIdx t else ltslices in
    do! l <- matchLeft (leftSlices t k) str ∅;
    match l with
    | None => Returns (false, None)
    | Some (str, values) =>
        if ltslices <? k then Panics    (* the first loop reaches [i = len(t.slices)] *)
        else
          do! r <- matchRight (rightSlices t k) str values;
          match r with
          | None => Returns (false, None)
          | Some (str, values) =>
              if (0 <=? wildCardIdx t) && (0 <? len str) then
                match List.nth_error (slices t) (Z.to_nat (wildCardIdx t)) with
                | Some slc =>
                    do! vpName <- slice_name slc;
                    Returns (true, Some (<[vpName := str]> values))
                | None => Panics
                end
              else Returns (true, Some values)
          end
    end.

(** *** [Apply] *)

(** The loop of [Apply] with the string builder [strb]. *)
Fixpoint applyLoop (ts : list _TemplateSlice) (values : gmap string string)
  (ignoreMissing : bool) (strb : string) : outcome (string * option error) :=
  match ts with
  | [] => Returns (strb, None)
  | slc :: ts' =>
      if negb (String.eqb (staticStr slc) "") then
        applyLoop ts' values ignoreMissing (strb +:+ staticStr slc)
      else
        match valuePattern slc with
        | None => Panics
        | Some vp =>
            match values !! vp_name vp with
            | Some v =>
                let invalid :=
                  match vp_re vp with
                  | Some re =>
                      match FindStringIndex re v with
                      | None => true
                      | Some (i0, i1) => negb (i0 =? 0) && negb (i1 =? len v)
                      end
                  | None => false
                  end in
                if invalid then Returns ("", Some ErrInvalidValue)
                else applyLoop ts' values ignoreMissing (strb +:+ v)
            | None =>
                if ignoreMissing then applyLoop ts' values ignoreMissing strb
                else Returns ("", Some ErrMissingValue)
            end
        end
  end.

Definition Apply (t : Template) (values : gmap string string) (ignoreMissing : bool)
  : outcome (string * option error) :=
  applyLoop (slices t) values ignoreMissing "".

(** *** [Content] and [String] *)

(** The loops of [Content] and [String] over a name: every [:] is written
    as [\:]. *)
Fixpoint escapeColons (str : string) : string :=
  match str with
  | EmptyString => EmptyString
  | String ch str' =>
      if Ascii.eqb ch ":" then String "\" (String ":" (escapeColons str'))
      else String ch (escapeColons str')
  end.

(** The loop of [Content] over a static slice: [{] and [}] are written with
    a backslash before them. *)
Fixpoint escapeBraces (str : string) : string :=
  match str with
  | EmptyString => EmptyString
  | String ch str' =>
      if Ascii.eqb ch "{" || Ascii.eqb ch "}"
      then String "\" (String ch (escapeBraces str'))
      else String ch (escapeBraces str')
  end.

(** The slice loop of [Content]; [vns] is the set of the value names whose
    pattern has been written. *)
Fixpoint contentLoop (ts : list _TemplateSlice) (vns : gset string) (strb : string)
  : outcome string :=
  match ts with
  | [] => Returns strb
  | slc :: ts' =>
      if negb (String.eqb (staticStr slc) "") then
        contentLoop ts' vns (strb +:+ escapeBraces (staticStr slc))
      else
        match valuePattern slc with
        | None => Panics
        | Some vp =>
            let strb := strb +:+ "{" +:+ escapeColons (vp_name vp) in
            match vp_re vp with
            | Some re =>
                if negb (bool_decide (vp_name vp ∈ vns)) then
                  contentLoop ts' ({[vp_name vp]} ∪ vns)
                    (strb +:+ ":" +:+ re_String re +:+ "}")
                else contentLoop ts' vns (strb +:+ "}")
            | None => contentLoop ts' vns (strb +:+ "}")
            end
        end
  end.

Definition Content (t : Template) : outcome string :=
  let strb :=
    match slices t with
    | slc :: _ =>
        if String.eqb (name t) "" && bool_decide (at_ (staticStr slc) 0 = Some "$"%char)
        then "\" else ""
    | [] => ""
    end in
  contentLoop (slices t) ∅ strb.

Definition String_ (t : Template) : outcome string :=
  let strb :=
    if negb (String.eqb (name t) "") then "$" +:+ escapeColons (name t) +:+ ":" else "" in
  do! c <- Content t;
  Returns (strb +:+ c).

(** *** The parser *)

(** The loop of [templateNameAndContent] from index [i]; it gives the
    string builder and [idx].  The index grows at each iteration, so the
    fuel [len(tmplStr)] is never used up. *)
Fixpoint nameLoop (fuel : nat) (tmplStr : string) (i idx : Z) (strb : string)
  : string * Z :=
  match fuel with
  | O => (strb, idx)
  | S fuel' =>
      if i <? len tmplStr then
        let idx := IndexByte (from tmplStr i) ":" + i in
        if idx <? i then (strb +:+ from tmplStr i, len tmplStr - 1)
        else if i <? idx then
          if bool_decide (at_ tmplStr (idx - 1) = Some "\"%char)
          then nameLoop fuel' tmplStr (idx + 1) idx
                 (strb +:+ slice tmplStr i (idx - 1) +:+ ":")
          else (strb +:+ slice tmplStr i idx, idx)
        else (strb, idx)
      else (strb, idx)
  end.

(** [templateNameAndContent(tmplStr)] for a non-empty [tmplStr]. *)
Definition templateNameAndContent (tmplStr : string) : string * string * option error :=
  if bool_decide (at_ tmplStr 0 = Some "$"%char) then
    if len tmplStr =? 1 then ("", "", Some ErrInvalidTemplate)
    else
      let '(strb, idx) := nameLoop (String.length tmplStr) tmplStr 1 1 "" in
      (strb, from tmplStr (idx + 1), None)
  else if (1 <? len tmplStr)
          && bool_decide (at_ tmplStr 0 = Some "\"%char)
          && bool_decide (at_ tmplStr 1 = Some "$"%char)
  then ("", from tmplStr 1, None)
  else ("", tmplStr, None).

(** The loop of [staticSlice] over the bytes [rest] of [tmplStrSlc] from
    index [i] on; [pch] is the previous byte.  (The source ranges over
    runes; the bytes of [{], [}] and [\] occur in no other rune, so the
    byte loop visits the same braces.) *)
Fixpoint staticLoop (rest tmplStrSlc : string) (i idx : Z) (pch : ascii) (strb : string)
  : string * string * option error :=
  match rest with
  | EmptyString => (strb +:+ from tmplStrSlc idx, "", None)
  | String ch rest' =>
      if Ascii.eqb ch "{" then
        if negb (Ascii.eqb pch "\")
        then (strb +:+ slice tmplStrSlc idx i, from tmplStrSlc i, None)
        else staticLoop rest' tmplStrSlc (i + 1) (i + 1) ch
               (strb +:+ slice tmplStrSlc idx (i - 1) +:+ "{")
      else if Ascii.eqb ch "}" then
        if negb (Ascii.eqb pch "\")
        then ("", "", Some ErrInvalidTemplate)
        else staticLoop rest' tmplStrSlc (i + 1) (i + 1) ch
               (strb +:+ slice tmplStrSlc idx (i - 1) +:+ "}")
      else staticLoop rest' tmplStrSlc (i + 1) idx ch strb
  end.

(** [staticSlice(tmplStrSlc)]: [(staticStr, leftTmplStrSlc, err)]. *)
Definition staticSlice (tmplStrSlc : string) : string * string * option error :=
  staticLoop tmplStrSlc tmplStrSlc 0 0 "0" "".

(** The state of the loop of [dynamicSlice]. *)
Record dynState : Type := mkDyn {
  sliceType : Z;        (* 0: value name, 1: pattern *)
  depth : Z;
  dyn_idx : Z;
  chClsIdx : Z;
  dyn_strb : string;
  dyn_valueName : string
}.

(** The result of [dynamicSlice]:
    [(valueName, pattern, leftTmplStrSlc, err)]; the deferred function
    clears the strings of a failed call. *)
Definition dynResult : Type := string * string * string * option error.
Definition dynErr : dynResult := ("", "", "", Some ErrInvalidTemplate).

(** The loop of [dynamicSlice] over the bytes [rest] of [tmplStrSlc] from
    index [i] on.  [skip] is set when the previous iteration was the
    [i++; continue] of a backslash in a pattern. *)
Fixpoint dynLoop (rest tmplStrSlc : string) (i : Z) (skip : bool) (st : dynState)
  : dynResult :=
  match rest with
  | EmptyString =>
      if 0 <? depth st then dynErr else (dyn_valueName st, "", "", None)
  | String ch rest' =>
      let next := dynLoop rest' tmplStrSlc (i + 1) in
      if skip then next false st
      else if Ascii.eqb ch "{" then
        next false (mkDyn (sliceType st) (depth st + 1) (dyn_idx st) (chClsIdx st)
                          (dyn_strb st) (dyn_valueName st))
      else if (sliceType st =? 0) && Ascii.eqb ch ":" then
        if (1 <? i) && bool_decide (at_ tmplStrSlc (i - 1) = Some "\"%char) then
          next false (mkDyn 0 (depth st) (i + 1) (chClsIdx st)
                            (dyn_strb st +:+ slice tmplStrSlc (dyn_idx st) (i - 1) +:+ ":")
                            (dyn_valueName st))
        else if 1 <? depth st then dynErr
        else
          let strb := dyn_strb st +:+ slice tmplStrSlc (dyn_idx st) i in
          if String.eqb strb "" then dynErr
          else next false (mkDyn 1 (depth st) (i + 1) (chClsIdx st) "" strb)
      else if (sliceType st =? 0) && Ascii.eqb ch "}" then
        if 0 <? depth st - 1 then
          next false (mkDyn 0 (depth st - 1) (dyn_idx st) (chClsIdx st)
                            (dyn_strb st) (dyn_valueName st))
        else if negb (String.eqb (dyn_strb st) "") then
          (dyn_strb st +:+ slice tmplStrSlc (dyn_idx st) i, "", from tmplStrSlc (i + 1), None)
        else if i =? dyn_idx st then dynErr
        else (slice tmplStrSlc (dyn_idx st) i, "", from tmplStrSlc (i + 1), None)
      else if sliceType st =? 1 then
        if Ascii.eqb ch "\" then next true st
        else if 0 <=? chClsIdx st then
          if Ascii.eqb ch "]" then
            let d := i - chClsIdx st in
            if (1 <? d)
               && negb ((d =? 2) && bool_decide (at_ tmplStrSlc (i - 1) = Some "^"%char))
            then next false (mkDyn 1 (depth st) (dyn_idx st) (-1)
                                   (dyn_strb st) (dyn_valueName st))
            else next false st
          else next false st
        else if Ascii.eqb ch "[" then
          next false (mkDyn 1 (depth st) (dyn_idx st) i (dyn_strb st) (dyn_valueName st))
        else if Ascii.eqb ch "}" then
          if 0 <? depth st - 1 then
            next false (mkDyn 1 (depth st - 1) (dyn_idx st) (chClsIdx st)
                              (dyn_strb st) (dyn_valueName st))
          else if i =? dyn_idx st then dynErr
          else (dyn_valueName st, slice tmplStrSlc (dyn_idx st) i,
                from tmplStrSlc (i + 1), None)
        else next false st
      else next false st
  end.

(** [dynamicSlice(tmplStrSlc)]; the loop starts at index 1, after the
    opening brace. *)
Definition dynamicSlice (tmplStrSlc : string) : dynResult :=
  dynLoop (from tmplStrSlc 1) tmplStrSlc 1 false (mkDyn 0 1 1 (-1) "" "").

(** The anchor that [appendDynamicSliceTo] adds to a pattern. *)
Definition anchor (pattern : string) (wildCardIdx : Z) : string :=
  if 0 <=? wildCardIdx then pattern +:+ "$" else "^" +:+ pattern.

(** The loop of [appendDynamicSliceTo] over the entries of [valuePatterns]
    when the wildcard slice is appended: the pattern [p] of an entry becomes
    [p[1:] + "$"].  Go visits the entries in an unspecified order; the
    entries are taken in the order of [map_to_list].  [Returns None] is the
    error of [regexp.Compile]. *)
Fixpoint reanchorLoop (entries : list (string * _ValuePattern))
  (valuePatterns : gmap string _ValuePattern)
  : outcome (option (gmap string _ValuePattern)) :=
  match entries with
  | [] => Returns (Some valuePatterns)
  | (_, vp) :: entries' =>
      match vp_re vp with
      | None => Panics
      | Some re =>
          let p := re_String re in
          if String.eqb p "" then Panics          (* [p[1:]] of an empty string *)
          else
            match Compile (from p 1 +:+ "$") with
            | None => Returns None
            | Some re' =>
                reanchorLoop entries'
                  (<[vp_name vp := mkVP (vp_name vp) (Some re')]> valuePatterns)
            end
      end
  end.

(** The result of [appendDynamicSliceTo]: the slices, the wildcard index
    and the updated [valuePatterns] map, or an error. *)
Definition appendResult : Type :=
  (list _TemplateSlice * Z * gmap string _ValuePattern) + error.

Definition appendDynamicSliceTo (tss : list _TemplateSlice) (vName pattern : string)
  (valuePatterns : gmap string _ValuePattern) (wildCardIdx : Z) : outcome appendResult :=
  match valuePatterns !! vName with
  | Some vp =>
      if negb (String.eqb pattern "") then
        match vp_re vp with
        | None => Panics
        | Some re =>
            if negb (String.eqb (anchor pattern wildCardIdx) (re_String re))
            then Returns (inr ErrDifferentPattern)
            else Returns (inl (appendSlice tss (dynamicS vp), wildCardIdx, valuePatterns))
        end
      else Returns (inl (appendSlice tss (dynamicS vp), wildCardIdx, valuePatterns))
  | None =>
      if String.eqb pattern "" then
        if 0 <=? wildCardIdx then
          match List.nth_error tss (Z.to_nat wildCardIdx) with
          | None => Panics
          | Some wc =>
              do! wcName <- slice_name wc;
              if String.eqb vName wcName then Returns (inr ErrRepeatedWildcardName)
              else Returns (inr ErrAnotherWildcardName)
          end
        else
          let wildCardIdx := Z.of_nat (List.length tss) in
          let tss := appendSlice tss (dynamicS (mkVP vName None)) in
          do! r <- reanchorLoop (map_to_list valuePatterns) valuePatterns;
          match r with
          | None => Returns (inr ErrInvalidRegex)
          | Some valuePatterns' => Returns (inl (tss, wildCardIdx, valuePatterns'))
          end
      else
        match Compile (anchor pattern wildCardIdx) with
        | None => Returns (inr ErrInvalidRegex)
        | Some re =>
            let vp := mkVP vName (Some re) in
            Returns (inl (appendSlice tss (dynamicS vp), wildCardIdx, <[vName := vp]> valuePatterns))
        end
  end.

(** The patterns recorded while the template has no wildcard: the entry of
    [n] is named [n] and its regexp is start-anchored, [^x]. *)
Definition startAnchored (valuePatterns : gmap string _ValuePattern) : Prop :=
  forall n vp, valuePatterns !! n = Some vp ->
    vp_name vp = n /\ exists re x, vp_re vp = Some re /\ re_String re = "^" +:+ x.

(** The loop of [parse].  Each iteration shortens [tmplStrSlc], so the
    fuel [len(tmplStr) + 1] is never used up. *)
Fixpoint parseLoop (fuel : nat) (tmplStrSlc : string) (tss : list _TemplateSlice)
  (valuePatterns : gmap string _ValuePattern) (wildcardIdx : Z)
  : outcome ((list _TemplateSlice * Z) + error) :=
  match fuel with
  | O => Panics
  | S fuel' =>
      if 0 <? len tmplStrSlc then
        let '(staticStr, tmplStrSlc, err) := staticSlice tmplStrSlc in
        match err with
        | Some e => Returns (inr e)
        | None =>
            let tss := if negb (String.eqb staticStr "") then appendSlice tss (staticS staticStr)
                       else tss in
            if String.eqb tmplStrSlc "" then Returns (inl (tss, wildcardIdx))
            else
              let '(vName, pattern, tmplStrSlc, err) := dynamicSlice tmplStrSlc in
              match err with
              | Some e => Returns (inr e)
              | None =>
                  do! r <- appendDynamicSliceTo tss vName pattern valuePatterns wildcardIdx;
                  match r with
                  | inr e => Returns (inr e)
                  | inl (tss, wildcardIdx, valuePatterns) =>
                      parseLoop fuel' tmplStrSlc tss valuePatterns wildcardIdx
                  end
              end
        end
      else Returns (inl (tss, wildcardIdx))
  end.

(** [parse(tmplStr)] *)
Definition parse (tmplStr : string) : outcome ((list _TemplateSlice * Z) + error) :=
  if String.eqb tmplStr "" then Returns (inr ErrInvalidTemplate)
  else
    do! r <- parseLoop (S (String.length tmplStr)) tmplStr [] ∅ (-1);
    match r with
    | inr e => Returns (inr e)
    | inl (tmplSlcs, wildcardIdx) =>
        match tmplSlcs with
        | [slc] =>
            match valuePattern slc with
            | Some (mkVP n (Some re)) =>
                (* the single value-pattern slice matches the whole string *)
                match Compile (re_String re +:+ "$") with
                | None => Returns (inr ErrInvalidRegex)
                | Some re' =>
                    Returns (inl ([mkSlice (staticStr slc) (Some (mkVP n (Some re')))],
                                  wildcardIdx))
                end
            | _ => Returns (inl (tmplSlcs, wildcardIdx))
            end
        | _ => Returns (inl (tmplSlcs, wildcardIdx))
        end
    end.

(** The name that [TryToParse] gives to a nameless template with dynamic
    slices that is not a wildcard: the value name of its dynamic slice if
    there is exactly one.  [idx] is the index of the dynamic slice seen so
    far, [None] for [-1]. *)
Fixpoint singleDynamicName (ts : list _TemplateSlice) (idx : option _ValuePattern)
  : string :=
  match ts with
  | [] => match idx with Some vp => vp_name vp | None => "" end
  | slc :: ts' =>
      match valuePattern slc with
      | Some vp =>
          match idx with
          | Some _ => ""            (* a second dynamic slice: [return tmpl, nil] *)
          | None => singleDynamicName ts' (Some vp)
          end
      | None => singleDynamicName ts' idx
      end
  end.

(** [TryToParse(tmplStr)] *)
Definition TryToParse (tmplStr : string) : outcome (Template + error) :=
  if String.eqb tmplStr "" then Returns (inr ErrInvalidTemplate)
  else
    let '(name, tmplStr, err) := templateNameAndContent tmplStr in
    match err with
    | Some e => Returns (inr e)
    | None =>
        do! r <- parse tmplStr;
        match r with
        | inr e => Returns (inr e)
        | inl (slices, wildCardIdx) =>
            let tmpl := mkTemplate name slices wildCardIdx in
            if negb (IsStatic tmpl) && String.eqb name "" then
              if IsWildcard tmpl then
                match slices with
                | slc :: _ =>
                    do! n <- slice_name slc;
                    Returns (inl (mkTemplate n slices wildCardIdx))
                | [] => Panics
                end
              else Returns (inl (mkTemplate (singleDynamicName slices None) slices wildCardIdx))
            else Returns (inl tmpl)
        end
    end.

(** *** Well-formed slices *)

(** A slice is static (a non-empty string and no value pattern) or dynamic
    (a value pattern and no string). *)
Definition wfSlice (slc : _TemplateSlice) : Prop :=
  (staticStr slc <> "" /\ valuePattern slc = None)
  \/ (staticStr slc = "" /\ valuePattern slc <> None).

Definition wfTemplate (t : Template) : Prop := Forall wfSlice (slices t).

(** *** Templates up to the identity of the compiled regexps *)

(** What a slice shows: its static string, or its value name and the
    source of its regexp. *)
Definition sliceImage (slc : _TemplateSlice)
  : string * option (string * option string) :=
  (staticStr slc,
   option_map (fun vp => (vp_name vp, option_map re_String (vp_re vp))) (valuePattern slc)).

(** The name, the slices and the wildcard index of a template. *)
Definition templateImage (t : Template)
  : string * list (string * option (string * option string)) * Z :=
  (name t, List.map sliceImage (slices t), wildCardIdx t).

(** *** The slices around a wildcard *)

(** The static slice of [str], if [str] is not empty. *)
Definition optStatic (str : string) : list _TemplateSlice :=
  if String.eqb str "" then [] else [staticS str].

End WithEngine.

Arguments _ValuePattern {RE}.
Arguments _TemplateSlice {RE}.
Arguments Template {RE}.

End Tmpl.

(** ** A regular-expression engine for the examples

    An executable instance of [RegexEngine] for a subset of the RE2 syntax
    of Go's [regexp]: literals, [.], bracket classes with ranges and
    negation, the escapes [\d], [\w], [\s] and escaped punctuation, groups,
    [|], the greedy [*], [+], [?], and the anchors [^] and [$] (begin and
    end of text).  Matching is leftmost-first, as in Go.  A pattern outside
    the subset does not compile; text is taken as ASCII. *)

Module MiniRegexp.
Import GoStr.

Inductive regex : Type :=
  | Eps
  | Chr (c : ascii)
  | AnyChar
  | Cls (negated : bool) (ranges : list (ascii * ascii))
  | Bol
  | Eol
  | Cat (r1 r2 : regex)
  | Alt (r1 r2 : regex)
  | Star (r : regex).

Definition in_range (c : ascii) (r : ascii * ascii) : bool :=
  (nat_of_ascii (fst r) <=? nat_of_ascii c)%nat
  && (nat_of_ascii c <=? nat_of_ascii (snd r))%nat.

Definition in_class (negated : bool) (ranges : list (ascii * ascii)) (c : ascii) : bool :=
  xorb negated (existsb (in_range c) ranges).

(** A matcher takes the position and the rest of the text and a
    continuation for what follows; it gives the end of the match. *)
Definition matcher : Type := nat -> string -> (nat -> string -> option nat) -> option nat.

Definition matchChar (p : ascii -> bool) : matcher :=
  fun pos s k =>
    match s with
    | String c s' => if p c then k (S pos) s' else None
    | EmptyString => None
    end.

(** At most [n] further non-empty iterations of [m], longest first. *)
Fixpoint matchStar (m : matcher) (n : nat) : matcher :=
  fun pos s k =>
    match n with
    | O => k pos s
    | S n' =>
        match m pos s (fun pos' s' =>
                         if (pos' <=? pos)%nat then None else matchStar m n' pos' s' k) with
        | Some e => Some e
        | None => k pos s
        end
    end.

Fixpoint matchRe (r : regex) : matcher :=
  fun pos s k =>
    match r with
    | Eps => k pos s
    | Chr c => matchChar (Ascii.eqb c) pos s k
    | AnyChar => matchChar (fun c => negb (Ascii.eqb c "010")) pos s k
    | Cls negated ranges => matchChar (in_class negated ranges) pos s k
    | Bol => if (pos =? 0)%nat then k pos s else None
    | Eol => match s with EmptyString => k pos s | _ => None end
    | Cat r1 r2 => matchRe r1 pos s (fun pos' s' => matchRe r2 pos' s' k)
    | Alt r1 r2 =>
        match matchRe r1 pos s k with
        | Some e => Some e
        | None => matchRe r2 pos s k
        end
    | Star r1 => matchStar (matchRe r1) (String.length s) pos s k
    end.

(** The leftmost match that starts at [pos] or later; [s] is the text from
    [pos] on. *)
Fixpoint findFrom (r : regex) (pos : nat) (s : string) : option (Z * Z) :=
  match matchRe r pos s (fun e _ => Some e) with
  | Some e => Some (Z.of_nat pos, Z.of_nat e)
  | None =>
      match s with
      | String _ s' => findFrom r (S pos) s'
      | EmptyString => None
      end
  end.

(** The loop of [Regexp.allMatches]: successive matches, an empty match
    right after the previous match is skipped. *)
Fixpoint allMatches (fuel : nat) (r : regex) (s : string) (pos prevMatchEnd : Z)
  : list (Z * Z) :=
  match fuel with
  | O => []
  | S fuel' =>
      if len s <? pos then []
      else
        match findFrom r (Z.to_nat pos) (from s pos) with
        | None => []
        | Some (m0, m1) =>
            let accept := negb ((m1 =? pos) && (m0 =? prevMatchEnd)) in
            let pos' := if m1 =? pos then pos + 1 else m1 in
            let rest := allMatches fuel' r s pos' m1 in
            if accept then (m0, m1) :: rest else rest
        end
  end.

(** *** The parser of the pattern syntax *)

Definition digit : regex := Cls false [("0", "9")]%char.
Definition word : regex := Cls false [("0", "9"); ("A", "Z"); ("a", "z"); ("_", "_")]%char.
Definition space : regex :=
  Cls false [(" ", " "); ("009", "010"); ("012", "013")]%char.

Definition is_punct (c : ascii) : bool :=
  let n := nat_of_ascii c in
  ((33 <=? n) && (n <=? 47) || (58 <=? n) && (n <=? 64)
   || (91 <=? n) && (n <=? 96) || (123 <=? n) && (n <=? 126))%nat.

(** The items of a bracket class up to the closing bracket. *)
Fixpoint parseClass (s : string) (acc : list (ascii * ascii))
  : option (list (ascii * ascii) * string) :=
  match s with
  | EmptyString => None
  | String "]" s' => match acc with [] => None | _ => Some (acc, s') end
  | String "\" (String c s') =>
      if is_punct c then parseClass s' (acc ++ [(c, c)]) else None
  | String a (String "-" (String b s') as t) =>
      if Ascii.eqb b "]" then parseClass t (acc ++ [(a, a)])
      else if (nat_of_ascii a <=? nat_of_ascii b)%nat
      then parseClass s' (acc ++ [(a, b)]) else None
  | String a s' => parseClass s' (acc ++ [(a, a)])
  end.

(** The postfix operators after an atom. *)
Fixpoint parseRepeat (r : regex) (s : string) : regex * string :=
  match s with
  | String "*" s' => parseRepeat (Star r) s'
  | String "+" s' => parseRepeat (Cat r (Star r)) s'
  | String "?" s' => parseRepeat (Alt r Eps) s'
  | _ => (r, s)
  end.

Fixpoint parseAlt (fuel : nat) (s : string) : option (regex * string) :=
  match fuel with
  | O => None
  | S fuel' =>
      match parseCat fuel' s with
      | Some (r1, String "|" s') =>
          match parseAlt fuel' s' with
          | Some (r2, s'') => Some (Alt r1 r2, s'')
          | None => None
          end
      | other => other
      end
  end
with parseCat (fuel : nat) (s : string) : option (regex * string) :=
  match fuel with
  | O => None
  | S fuel' =>
      match s with
      | EmptyString | String "|" _ | String ")" _ => Some (Eps, s)
      | _ =>
          match parseAtom fuel' s with
          | Some (a, s') =>
              let '(r1, s'') := parseRepeat a s' in
              match parseCat fuel' s'' with
              | Some (r2, s3) => Some (Cat r1 r2, s3)
              | None => None
              end
          | None => None
          end
      end
  end
with parseAtom (fuel : nat) (s : string) : option (regex * string) :=
  match fuel with
  | O => None
  | S fuel' =>
      match s with
      | EmptyString => None
      | String "(" s' =>
          match parseAlt fuel' s' with
          | Some (r, String ")" s'') => Some (r, s'')
          | _ => None
          end
      | String "[" (String "^" s') =>
          match parseClass s' [] with
          | Some (rs, s'') => Some (Cls true rs, s'')
          | None => None
          end
      | String "[" s' =>
          match parseClass s' [] with
          | Some (rs, s'') => Some (Cls false rs, s'')
          | None => None
          end
      | String "\" (String c s') =>
          if Ascii.eqb c "d" then Some (digit, s')
          else if Ascii.eqb c "w" then Some (word, s')
          else if Ascii.eqb c "s" then Some (space, s')
          else if is_punct c then Some (Chr c, s') else None
      | String "." s' => Some (AnyChar, s')
      | String "^" s' => Some (Bol, s')
      | String "$" s' => Some (Eol, s')
      | String c s' =>
          if existsb (Ascii.eqb c) ["*"; "+"; "?"; "{"; "}"; "]"; "\"]%char then None
          else Some (Chr c, s')
      end
  end.

(** A compiled expression keeps its source text. *)
Record compiled : Type := mkCompiled {
  source : string;
  program : regex
}.

Definition compile (p : string) : option compiled :=
  match parseAlt (4 * String.length p + 8) p with
  | Some (r, EmptyString) => Some (mkCompiled p r)
  | _ => None
  end.

Definition findStringIndex (re : compiled) (s : string) : option (Z * Z) :=
  findFrom (program re) 0 s.

Definition findAllStringIndex (re : compiled) (s : string) : list (Z * Z) :=
  allMatches (String.length s + 2) (program re) s 0 (-1).

#[export] Instance engine : RegexEngine.
Proof.
  refine {| Regexp := compiled;
            Compile := compile;
            re_String := source;
            FindStringIndex := findStringIndex;
            FindAllStringIndex := findAllStringIndex |}.
  intros p re. unfold compile.
  destruct (parseAlt _ p) as [[r [|c s]]|]; try discriminate.
  intros [= <-]. reflexivity.
Defined.

End MiniRegexp.

(** ** The templates of the examples *)

Module Examples.
Import GoStr Tmpl MiniRegexp.

(** [^[0-9]+] and [^^[0-9]+], compiled. *)
Definition re_digits : compiled :=
  mkCompiled "^[0-9]+" (Cat Bol (Cat (Cat digit (Star digit)) Eps)).
Definition re_digits2 : compiled :=
  mkCompiled "^^[0-9]+" (Cat Bol (Cat Bol (Cat (Cat digit (Star digit)) Eps))).

(** [[0-9]+$], compiled. *)
Definition re_digits_end : compiled :=
  mkCompiled "[0-9]+$" (Cat (Cat digit (Star digit)) (Cat Eol Eps)).

(** The templates that [TryToParse] gives for [a{w}], [{id:[0-9]+}abc],
    [abc{id:[0-9]+}], [{id:[0-9]+}x] and [{id:^[0-9]+}abc]. *)
Definition t_a_w : Template (RE := engine) :=
  mkTemplate "w" [staticS "a"; dynamicS (mkVP "w" None)] 1.
Definition t_id_abc : Template (RE := engine) :=
  mkTemplate "id" [dynamicS (mkVP "id" (Some re_digits)); staticS "abc"] (-1).
Definition t_abc_id : Template (RE := engine) :=
  mkTemplate "id" [staticS "abc"; dynamicS (mkVP "id" (Some re_digits))] (-1).
Definition t_id_x : Template (RE := engine) :=
  mkTemplate "id" [dynamicS (mkVP "id" (Some re_digits)); staticS "x"] (-1).
Definition t_id2_abc : Template (RE := engine) :=
  mkTemplate "id" [dynamicS (mkVP "id" (Some re_digits2)); staticS "abc"] (-1).

(** The templates that [TryToParse] gives for [a{w}b] and [{a\}]. *)
Definition t_a_w_b : Template (RE := engine) :=
  mkTemplate "w" [staticS "a"; dynamicS (mkVP "w" None); staticS "b"] 1.
Definition t_a_backslash : Template (RE := engine) :=
  mkTemplate "a\" [dynamicS (mkVP "a\" None)] 0.

(** The template that [TryToParse] gives for [$n\:m:a\{b{v\:w}c], with a
    colon in its name and in its value name and a brace in its static
    text. *)
Definition t_escapes : Template (RE := engine) :=
  mkTemplate "n:m" [staticS "a{b"; dynamicS (mkVP "v:w" None); staticS "c"] 1.

(** The templates that [TryToParse] gives for [$:\$x] and for [\$x]. *)
Definition t_escaped_dollar : Template (RE := engine) :=
  mkTemplate "" [staticS "\$x"] (-1).
Definition t_dollar : Template (RE := engine) :=
  mkTemplate "" [staticS "$x"] (-1).

End Examples.

(** ** responder.go: the responder tree *)

(** Go's [range] over a map visits every entry once, in an order that is not
    specified.  [rangeMap m] is the order in which the entries of [m] are
    visited. *)
Class MapRange : Type := {
  rangeMap : forall {V : Type}, gmap string V -> list (string * V);
  rangeMap_perm : forall (V : Type) (m : gmap string V), rangeMap m ≡ₚ map_to_list m
}.

(** The order of [map_to_list]. *)
#[export] Instance MapRange_list : MapRange.
Proof. refine {| rangeMap := fun V m => map_to_list m |}. reflexivity. Defined.

Module Resp.
Import GoStr Tmpl.

(** *** [_ConfigFlags]: an 8-bit set of flags *)

Definition flagActive : Z := 1.
Definition flagSubtreeHandler : Z := 2.
Definition flagSecure : Z := 4.
Definition flagRedirectInsecure : Z := 8.
Definition flagTrailingSlash : Z := 16.
Definition flagStrictOnTrailingSlash : Z := 32.
Definition flagLeniencyOnTrailingSlash : Z := 64.
Definition flagLeniencyOnUncleanPath : Z := 128.
Definition flagHandleThePathAsIs : Z :=
  Z.lor flagLeniencyOnTrailingSlash flagLeniencyOnUncleanPath.

(** [cfs.set(flags)]: [*cfs |= flags] *)
Definition cfs_set (cfs flags : Z) : Z := Z.lor cfs flags.

(** [cfs.has(flags)]: [(cfs & flags) == flags] *)
Definition cfs_has (cfs flags : Z) : bool := Z.land cfs flags =? flags.

(** The flags are a [uint8]. *)
Definition is_uint8 (cfs : Z) : Prop := 0 <= cfs < 256.

(** [Config] and [Config.asFlags] *)
Record Config : Type := mkConfig {
  SubtreeHandler : bool;
  Secure : bool;
  RedirectInsecureRequest : bool;
  TrailingSlash : bool;
  StrictOnTrailingSlash : bool;
  LeniencyOnTrailingSlash : bool;
  LeniencyOnUncleanPath : bool;
  HandleThePathAsIs : bool
}.

Definition asFlags (config : Config) : Z :=
  let cfs := 0 in
  let cfs := if SubtreeHandler config then cfs_set cfs flagSubtreeHandler else cfs in
  let cfs := if Secure config then cfs_set cfs flagSecure else cfs in
  let cfs := if RedirectInsecureRequest config
             then cfs_set cfs (Z.lor flagSecure flagRedirectInsecure) else cfs in
  let cfs := if TrailingSlash config then cfs_set cfs flagTrailingSlash else cfs in
  let cfs := if StrictOnTrailingSlash config
             then cfs_set cfs flagStrictOnTrailingSlash else cfs in
  let cfs := if LeniencyOnTrailingSlash config
             then cfs_set cfs flagLeniencyOnTrailingSlash else cfs in
  let cfs := if LeniencyOnUncleanPath config
             then cfs_set cfs flagLeniencyOnUncleanPath else cfs in
  if HandleThePathAsIs config then cfs_set cfs flagHandleThePathAsIs else cfs.

(** [rb.configCompatibility(secure, tslash, cfs)] on the flags [rbcfs] of
    the responder: the new flags and the error.  [cfs = None] is the nil
    pointer. *)
Definition configCompatibilityFlags (rbcfs : Z) (secure tslash : bool) (cfs : option Z)
  : Z * option error :=
  if cfs_has rbcfs flagActive then
    if negb (Bool.eqb (cfs_has rbcfs flagSecure) secure)
    then (rbcfs, Some ErrConflictingSecurity)
    else if negb (cfs_has rbcfs flagLeniencyOnTrailingSlash)
            && negb (Bool.eqb (cfs_has rbcfs flagTrailingSlash) tslash)
    then (rbcfs, Some ErrConflictingTrailingSlash)
    else
      match cfs with
      | Some c => if negb (cfs_has rbcfs c) then (rbcfs, Some ErrConflictingConfig)
                  else (rbcfs, None)
      | None => (rbcfs, None)
      end
  else
    let rbcfs := cfs_set rbcfs flagActive in
    let rbcfs := if secure then cfs_set rbcfs flagSecure else rbcfs in
    let rbcfs := if tslash then cfs_set rbcfs flagTrailingSlash else rbcfs in
    let rbcfs := match cfs with Some c => cfs_set rbcfs c | None => rbcfs end in
    (rbcfs, None).

(** A bit of [flags] that is not in [c]. *)
Definition bit_unset (c flags : Z) : Prop :=
  exists i, 0 <= i /\ Z.testbit flags i = true /\ Z.testbit c i = false.

(** The flags that an inactive responder gets from the arguments. *)
Definition configured (rbcfs : Z) (secure tslash : bool) (c : option Z) : Z :=
  Z.lor (Z.lor (Z.lor (Z.lor rbcfs flagActive) (if secure then flagSecure else 0))
               (if tslash then flagTrailingSlash else 0))
        (match c with Some cc => cc | None => 0 end).

(** *** The heap of responders *)

(** The address of a [*Resource] or [*Host]. *)
Abbreviation addr := positive (only parsing).

Section WithEngine.
Context `{RE : RegexEngine} `{MR : MapRange}.

(** A non-nil [_Parent]: the router or a responder. *)
Inductive _Parent : Type :=
  | ParentRouter
  | ParentResponder (a : addr).

(** The dynamic type of [rb.derived]. *)
Inductive derivedKind : Type :=
  | DerivedHost
  | DerivedResource.

(** A [*Template]: its address and the template it points to. *)
Record TemplatePtr : Type := mkTemplatePtr {
  taddr : positive;
  tval : Template
}.

(** [_ResponderBase].  [canHandle] is the value of [canHandleRequest()]:
    the responder has a [_RequestHandlerBase] with a method handler; the
    registration never changes it.  No entry is ever deleted from
    [staticResources], and [registerResource] makes the map when it puts the
    first entry, so the map without entries is the nil map: [∅]. *)
Record _ResponderBase : Type := mkResponder {
  derived : derivedKind;
  tmpl : TemplatePtr;
  papa : option _Parent;
  staticResources : gmap string addr;
  patternResources : list addr;
  wildcardResource : option addr;
  canHandle : bool;
  cfs : Z
}.

(** The heap: the responders by address. *)
Local Abbreviation store := (gmap addr _ResponderBase) (only parsing).

(** A call that reads and writes the heap and returns a value or an error;
    the heap is kept when an error is returned. *)
Definition M (A : Type) : Type := store -> outcome (store * (A + error)).

Definition ret {A : Type} (a : A) : M A := fun st => Returns (st, inl a).
Definition fail {A : Type} (e : error) : M A := fun st => Returns (st, inr e).
Definition panic {A : Type} : M A := fun _ => Panics.

Definition bind {A B : Type} (m : M A) (k : A -> M B) : M B :=
  fun st =>
    match m st with
    | Returns (st', inl a) => k a st'
    | Returns (st', inr e) => Returns (st', inr e)
    | Panics => Panics
    end.

(** The responder at an address; an address that is not in the heap is a
    dangling pointer. *)
Definition load (a : addr) : M _ResponderBase :=
  fun st => match st !! a with Some rb => Returns (st, inl rb) | None => Panics end.

Definition modify (a : addr) (f : _ResponderBase -> _ResponderBase) : M unit :=
  fun st =>
    match st !! a with
    | Some rb => Returns (<[a := f rb]> st, inl tt)
    | None => Panics
    end.

(** A call of a pure function that can panic. *)
Definition lift {A : Type} (o : outcome A) : M A :=
  fun st => match o with Returns a => Returns (st, inl a) | Panics => Panics end.

Notation "'run!' x <- m ; k" := (bind m (fun x => k))
  (at level 10, x pattern, m at level 100, k at level 200).
Notation "m ;;; k" := (bind m (fun _ => k)) (at level 100, k at level 200, right associativity).

(** [for _, x := range l { body(x) }] with the error of [body] returned at
    once. *)
Fixpoint forEach {A : Type} (l : list A) (body : A -> M unit) : M unit :=
  match l with
  | [] => ret tt
  | x :: l' => body x ;;; forEach l' body
  end.

(** *** Template methods used by the tree *)

(** Modelled from the spec: [Template.UnescapedContent] is missing from the
    sources at hand.  The spec keys the static children "by the unescaped
    static content" and calls a resource whose "template content" is [/] a
    root: the content is the text of the slices, without a name and without
    escapes. *)
Definition UnescapedContent (t : Template) : string :=
  fold_right
    (fun slc acc =>
       match valuePattern slc with
       | None => staticStr slc +:+ acc
       | Some vp =>
           "{" +:+ vp_name vp
           +:+ match vp_re vp with Some re => ":" +:+ re_String re | None => "" end
           +:+ "}" +:+ acc
       end) "" (slices t).

(** Modelled from the spec: [Template.ValueNames] is missing from the
    sources at hand; the value names of the dynamic slices of the template
    (the empty list is the nil slice). *)
Definition ValueNames (t : Template) : list string :=
  omap (fun slc => option_map vp_name (valuePattern slc)) (slices t).

(** Modelled from the spec: [Template.HasValueName] is missing from the
    sources at hand; "no ancestor template may share any value name": one
    of [names] is a value name of the template. *)
Definition HasValueName (t : Template) (names : list string) : bool :=
  existsb (fun n => existsb (String.eqb n) (ValueNames t)) names.


(** *** Parents and flags *)

Definition setPapa (rb : _ResponderBase) (p : option _Parent) : _ResponderBase :=
  mkResponder (derived rb) (tmpl rb) p
    (staticResources rb) (patternResources rb) (wildcardResource rb) (canHandle rb) (cfs rb).

(** [r.setParent(p)] for the responder at [r]. *)
Definition setParent (r : addr) (p : option _Parent) : M unit :=
  match p with
  | None => modify r (fun rb => setPapa rb None)
  | Some p' =>
      run! rb <- load r;
      let routerParent := match p' with ParentRouter => true | _ => false end in
      let isHost := match derived rb with DerivedHost => true | _ => false end in
      if isHost && negb routerParent then fail ErrNonRouterParent
      else if String.eqb (UnescapedContent (tval (tmpl rb))) "/" && negb routerParent
      then fail ErrNonRouterParent
      else modify r (fun rb => setPapa rb (Some p'))
  end.

Definition setCfs (rb : _ResponderBase) (c : Z) : _ResponderBase :=
  mkResponder (derived rb) (tmpl rb) (papa rb)
    (staticResources rb) (patternResources rb) (wildcardResource rb) (canHandle rb) c.

(** [r.configCompatibility(secure, tslash, cfs)] for the responder at [r]. *)
Definition configCompatibility (r : addr) (secure tslash : bool) (c : option Z) : M unit :=
  run! rb <- load r;
  let '(rbcfs, err) := configCompatibilityFlags (cfs rb) secure tslash c in
  match err with
  | Some e => fail e
  | None => modify r (fun rb => setCfs rb rbcfs)
  end.

(** *** Child lookup *)

(** The [switch] of [resourceWithTemplate] on the similarity of the template
    of a child with the argument: [Some (inl c)] returns the child,
    [Some (inr e)] the error, [None] goes on. *)
Definition similarChild (c : addr) (ctmpl t : TemplatePtr) : M (option addr) :=
  if Pos.eqb (taddr ctmpl) (taddr t) then ret (Some c)
  else
    run! sim <- lift (SimilarityWith (tval ctmpl) (tval t));
    match sim with
    | DifferentValueNames => fail ErrDifferentValueNames
    | DifferentNames => fail ErrDifferentNames
    | TheSame => ret (Some c)
    | Different => ret None
    end.

(** The loop of [resourceWithTemplate] over [rb.patternResources]. *)
Fixpoint patternWithTemplate (prs : list addr) (t : TemplatePtr) : M (option addr) :=
  match prs with
  | [] => ret None
  | pr :: prs' =>
      run! prb <- load pr;
      run! found <- similarChild pr (tmpl prb) t;
      match found with
      | Some c => ret (Some c)
      | None => patternWithTemplate prs' t
      end
  end.

(** [rb.resourceWithTemplate(tmpl)] for the responder at [rb]. *)
Definition resourceWithTemplate (rb : addr) (t : TemplatePtr) : M (option addr) :=
  run! node <- load rb;
  if IsStatic (tval t) then
    match staticResources node !! UnescapedContent (tval t) with
    | Some r =>
        run! rrb <- load r;
        let stmpl := tmpl rrb in
        if Pos.eqb (taddr stmpl) (taddr t) then ret (Some r)
        else if negb (String.eqb (Name (tval stmpl)) (Name (tval t)))
        then fail ErrDifferentNames
        else ret (Some r)
    | None => ret None
    end
  else if IsWildcard (tval t) then
    match wildcardResource node with
    | Some w =>
        run! wnode <- load w;
        similarChild w (tmpl wnode) t
    | None => ret None
    end
  else patternWithTemplate (patternResources node) t.

(** The name of the responder at [r]: [r.Name()]. *)
Definition nameOf (r : addr) : M string :=
  run! rb <- load r;
  ret (Name (tval (tmpl rb))).

(** The first address of [l] whose responder is named [name]. *)
Fixpoint firstNamed (l : list addr) (name : string) : M (option addr) :=
  match l with
  | [] => ret None
  | r :: l' =>
      run! n <- nameOf r;
      if String.eqb n name then ret (Some r) else firstNamed l' name
  end.

(** [rb.ChildResourceNamed(name)] for the responder at [rb]. *)
Definition ChildResourceNamed (rb : addr) (name : string) : M (option addr) :=
  if String.eqb name "" then ret None
  else
    run! node <- load rb;
    run! w <- firstNamed (option_list (wildcardResource node)) name;
    match w with
    | Some r => ret (Some r)
    | None =>
        run! p <- firstNamed (patternResources node) name;
        match p with
        | Some r => ret (Some r)
        | None => firstNamed (map snd (rangeMap (staticResources node))) name
        end
    end.

(** [rb.ChildResources()] for the responder [node]. *)
Definition ChildResources (node : _ResponderBase) : list addr :=
  (map snd (rangeMap (staticResources node)) ++ patternResources node
   ++ option_list (wildcardResource node))%list.

(** The address [r] is in the heap. *)
Definition allocated (st : store) (r : addr) : Prop := is_Some (st !! r).

(** The responder at [r] is named [name]. *)
Definition hasName (st : store) (name : string) (r : addr) : bool :=
  match st !! r with
  | Some rb => String.eqb (Name (tval (tmpl rb))) name
  | None => false
  end.

(** The children of a responder in the order in which [ChildResourceNamed]
    looks at them. *)
Definition searchOrder (node : _ResponderBase) : list addr :=
  (option_list (wildcardResource node) ++ patternResources node
   ++ map snd (rangeMap (staticResources node)))%list.

(** *** Registration *)

Definition setBuckets (rb : _ResponderBase) (s : gmap string addr) (p : list addr)
  (w : option addr) : _ResponderBase :=
  mkResponder (derived rb) (tmpl rb) (papa rb) s p w (canHandle rb) (cfs rb).

(** [rb.registerResource(r)] for the responder at [rb]. *)
Definition registerResource (rb r : addr) : M unit :=
  run! rrb <- load r;
  let t := tval (tmpl rrb) in
  modify rb (fun node =>
    if IsStatic t then
      setBuckets node (<[UnescapedContent t := r]> (staticResources node))
        (patternResources node) (wildcardResource node)
    else if IsWildcard t then
      setBuckets node (staticResources node) (patternResources node) (Some r)
    else
      setBuckets node (staticResources node) (appendSlice (patternResources node) r)
        (wildcardResource node)) ;;;
  setParent r (Some (ParentResponder rb)).

(** The index of [oldR] in [prs], or [-1]: the loop of [replaceResource]. *)
Fixpoint indexOf (prs : list addr) (oldR : addr) (i : Z) : Z :=
  match prs with
  | [] => -1
  | r :: prs' => if Pos.eqb r oldR then i else indexOf prs' oldR (i + 1)
  end.

(** The [switch] of [replaceResource]: [newR] is put where the child
    [oldR] with the template [t] is. *)
Definition replaceChild (node : _ResponderBase) (t : Template) (oldR newR : addr)
  : _ResponderBase :=
  if IsStatic t then
    setBuckets node (<[UnescapedContent t := newR]> (staticResources node))
      (patternResources node) (wildcardResource node)
  else if IsWildcard t then
    setBuckets node (staticResources node) (patternResources node) (Some newR)
  else
    setBuckets node (staticResources node)
      (<[Z.to_nat (indexOf (patternResources node) oldR 0) := newR]> (patternResources node))
      (wildcardResource node).

(** [rb.replaceResource(oldR, newR)] for the responder at [rb]. *)
Definition replaceResource (rb oldR newR : addr) : M unit :=
  run! onode <- load oldR;
  run! node <- load rb;
  let t := tval (tmpl onode) in
  (* the assignment to an entry of the nil map *)
  let nilMap := IsStatic t && bool_decide (staticResources node = ∅) in
  (* [rb.patternResources[-1]] *)
  let noIndex := negb (IsStatic t) && negb (IsWildcard t)
                 && (indexOf (patternResources node) oldR 0 <? 0) in
  (if nilMap || noIndex then panic
   else modify rb (fun node => replaceChild node t oldR newR)) ;;;
  setParent newR (Some (ParentResponder rb)) ;;;
  setParent oldR None.

(** [rb.passChildResourcesTo(r)] for the responder at [rb], given the
    method [keep] of the responders: [keep r rr] is
    [r.keepResourceOrItsChildResources(rr)].  Each loop runs over its bucket
    as it is when the loop starts: in a tree the calls of [keep] write [r],
    [rr] and what is below them, not the buckets of [rb]. *)
Definition passChildResourcesWith (keep : addr -> addr -> M unit) (rb r : addr) : M unit :=
  run! node <- load rb;
  forEach (map snd (rangeMap (staticResources node))) (keep r) ;;;
  run! node <- load rb;
  forEach (patternResources node) (keep r) ;;;
  run! node <- load rb;
  forEach (option_list (wildcardResource node)) (keep r) ;;;
  modify rb (fun node => setBuckets node ∅ [] None).

(** [rb.keepResourceOrItsChildResources(r)] for the responder at [rb].  The
    method and [passChildResourcesTo] call each other down the subtree of
    [r]; [fuel] bounds the depth of these calls, and a call that uses it up
    is a [Panics]. *)
Fixpoint keepResourceOrItsChildResources (fuel : nat) (rb r : addr) : M unit :=
  match fuel with
  | O => panic
  | S fuel' =>
      run! rrb <- load r;
      run! rwt <- resourceWithTemplate rb (tmpl rrb);
      match rwt with
      | None => registerResource rb r
      | Some rwt =>
          let rcfs := cfs rrb in
          configCompatibility rwt (cfs_has rcfs flagSecure) (cfs_has rcfs flagTrailingSlash)
            (Some rcfs) ;;;
          if negb (canHandle rrb) then
            passChildResourcesWith (keepResourceOrItsChildResources fuel') r rwt
          else
            run! rwtrb <- load rwt;
            if negb (canHandle rwtrb) then
              passChildResourcesWith (keepResourceOrItsChildResources fuel') rwt r ;;;
              replaceResource rb rwt r
            else
              (* the text of the error has [rwt.Template().String()] *)
              lift (String_ (tval (tmpl rwtrb))) ;;;
              fail ErrDuplicateResourceTemplate
      end
  end.

(** [rb.passChildResourcesTo(r)] *)
Definition passChildResourcesTo (fuel : nat) (rb r : addr) : M unit :=
  passChildResourcesWith (keepResourceOrItsChildResources fuel) rb r.

(** *** Footprints *)

(** [c] is in one of the three buckets of [node]. *)
Definition isChild (node : _ResponderBase) (c : addr) : Prop :=
  (exists k, staticResources node !! k = Some c)
  \/ c ∈ patternResources node
  \/ wildcardResource node = Some c.

(** The set [S] of addresses holds the children of its responders. *)
Definition closed (S : gset addr) (st : store) : Prop :=
  forall a node c, a ∈ S -> st !! a = Some node -> isChild node c -> c ∈ S.

(** From [st] to [st'] only responders of [S] are written, no responder is
    added or removed, and [S] still holds the children of its responders. *)
Definition writesWithin (S : gset addr) (st st' : store) : Prop :=
  (forall a, a ∉ S -> st' !! a = st !! a)
  /\ (forall a, is_Some (st' !! a) <-> is_Some (st !! a))
  /\ closed S st'.

(** The three buckets of a responder are empty. *)
Definition noChildren (node : _ResponderBase) : Prop :=
  staticResources node = ∅ /\ patternResources node = [] /\ wildcardResource node = None.

(** *** The checks of the names *)

(** [rb.checkNamesAreUniqueInTheURL(tmpl)]: the loop from the parent [p] up
    to the router; [fuel] bounds the length of the chain of parents. *)
Fixpoint uniqueInTheURLLoop (fuel : nat) (st : store) (p : option _Parent)
  (t : Template) (tmplValueNames : list string) : outcome (option error) :=
  match fuel with
  | O => Panics
  | S fuel' =>
      match p with
      | Some (ParentResponder a) =>
          match st !! a with
          | None => Panics
          | Some r =>
              if negb (String.eqb (name t) "")
                 && String.eqb (Name (tval (tmpl r))) (name t)
              then Returns (Some ErrDuplicateNameInTheURL)
              else if HasValueName (tval (tmpl r)) tmplValueNames
              then Returns (Some ErrDuplicateValueNameInTheURL)
              else uniqueInTheURLLoop fuel' st (papa r) t tmplValueNames
          end
      | _ => Returns None
      end
  end.

Definition checkNamesAreUniqueInTheURL (fuel : nat) (st : store) (rb : addr) (t : Template)
  : outcome (option error) :=
  let tmplValueNames := ValueNames t in
  if String.eqb (name t) "" && bool_decide (tmplValueNames = []) then Returns None
  else uniqueInTheURLLoop fuel st (Some (ParentResponder rb)) t tmplValueNames.




(** A read-only check run as a call on the heap. *)
Definition check (c : store -> outcome (option error)) : M unit :=
  fun st =>
    match c st with
    | Returns None => Returns (st, inl tt)
    | Returns (Some e) => Returns (st, inr e)
    | Panics => Panics
    end.



End WithEngine.

Abbreviation store := (gmap addr _ResponderBase) (only parsing).
Notation "'run!' x <- m ; k" := (bind m (fun x => k))
  (at level 10, x pattern, m at level 100, k at level 200).
Notation "m ;;; k" := (bind m (fun _ => k)) (at level 100, k at level 200, right associativity).

End Resp.

(** ** The trees of the examples *)

Module TreeExamples.
Import GoStr Tmpl Resp.

Definition staticT (a : positive) (s : string) : TemplatePtr (RE := MiniRegexp.engine) :=
  mkTemplatePtr a (mkTemplate "" [staticS s] (-1)).

Definition wildcardT (a : positive) (n : string) : TemplatePtr (RE := MiniRegexp.engine) :=
  mkTemplatePtr a (mkTemplate n [dynamicS (mkVP n None)] 0).

(** A resource: its template, parent, buckets, whether it has a request
    handler, and its flags. *)
Definition resource (t : TemplatePtr) (p : option addr) (s : gmap string addr)
  (w : option addr) (h : bool) (c : Z) : _ResponderBase (RE := MiniRegexp.engine) :=
  mkResponder DerivedResource t (option_map ParentResponder p) s [] w h c.

(** Scenario 4 of the spec: the resource [p] at 1 has the child [a] at 2,
    which has no handler and the children [x] at 3 and [y] at 4; the resource
    at 5 has the template [a] too, and a handler. *)
Definition collisionTree : gmap positive (_ResponderBase (RE := MiniRegexp.engine)) :=
  {[ 1%positive := resource (staticT 1 "p") None {["a" := 2%positive]} None false 1;
     2%positive := resource (staticT 2 "a") (Some 1%positive)
                     {["x" := 3%positive; "y" := 4%positive]} None false 1;
     3%positive := resource (staticT 3 "x") (Some 2%positive) ∅ None true 1;
     4%positive := resource (staticT 4 "y") (Some 2%positive) ∅ None true 1;
     5%positive := resource (staticT 5 "a") None ∅ None true 1 ]}.


(** The resource [p] at 1 has the child [a] at 2, a dummy resource without
    flags, whose wildcard child [{w}] at 3 has a handler.  The resource at 4
    has the template [a] too, no handler, the flags [active] and [secure],
    a static child [y] at 5 and a wildcard child [{w}] at 6 with a
    handler. *)
Definition mergeTree : gmap positive (_ResponderBase (RE := MiniRegexp.engine)) :=
  {[ 1%positive := resource (staticT 1 "p") None {["a" := 2%positive]} None false 1;
     2%positive := resource (staticT 2 "a") (Some 1%positive) ∅ (Some 3%positive) false 0;
     3%positive := resource (wildcardT 3 "w") (Some 2%positive) ∅ None true 1;
     4%positive := resource (staticT 4 "a") None {["y" := 5%positive]} (Some 6%positive)
                     false 5;
     5%positive := resource (staticT 5 "y") (Some 4%positive) ∅ None true 1;
     6%positive := resource (wildcardT 6 "w") (Some 4%positive) ∅ None true 1 ]}.

(** The tree that the failed registration of the resource at 4 leaves: the
    dummy at 2 has the flags of the resource at 4 and holds its child [y]. *)
Definition mergeTreeAfter : gmap positive (_ResponderBase (RE := MiniRegexp.engine)) :=
  {[ 1%positive := resource (staticT 1 "p") None {["a" := 2%positive]} None false 1;
     2%positive := resource (staticT 2 "a") (Some 1%positive) {["y" := 5%positive]}
                     (Some 3%positive) false 5;
     3%positive := resource (wildcardT 3 "w") (Some 2%positive) ∅ None true 1;
     4%positive := resource (staticT 4 "a") None {["y" := 5%positive]} (Some 6%positive)
                     false 5;
     5%positive := resource (staticT 5 "y") (Some 2%positive) ∅ None true 1;
     6%positive := resource (wildcardT 6 "w") (Some 4%positive) ∅ None true 1 ]}.

End TreeExamples.

Module TmplRender.
Import GoStr Tmpl.

(** The depth of braces after the bytes of a value name, as the loop of
    [dynamicSlice] counts it from the depth [d]: [{] opens, [}] closes, and a
    [}] that closes the slice itself is not a byte of the name. *)
Fixpoint braceDepth (v : string) (d : Z) : option Z :=
  match v with
  | EmptyString => Some d
  | String c v' =>
      if Ascii.eqb c "{" then braceDepth v' (d + 1)
      else if Ascii.eqb c "}" then
        if 0 <? d - 1 then braceDepth v' (d - 1) else None
      else braceDepth v' d
  end.

(** A value name as [dynamicSlice] returns it: not empty, with its braces
    in pairs. *)
Definition goodName (v : string) : Prop := v <> "" /\ braceDepth v 1 = Some 1.

(** The last byte of [p], or [d] for the empty string. *)
Fixpoint lastOr (d : ascii) (p : string) : ascii :=
  match p with
  | EmptyString => d
  | String c p' => lastOr c p'
  end.

Section WithEngine.
Context `{RE : RegexEngine}.

(** A pattern slice: a dynamic slice with a regexp. *)
Definition isPattern (slc : _TemplateSlice) : bool :=
  match valuePattern slc with
  | Some vp => match vp_re vp with Some _ => true | None => false end
  | None => false
  end.

Definition hasPatternSlice (t : Template) : bool := existsb isPattern (slices t).

(** The name of the template ends with a backslash. *)
Definition nameEndsWithBackslash (t : Template) : bool :=
  bool_decide (last (name t) = Some "\"%char).

(** A template without a name whose first slice is static text that
    starts with a backslash and a dollar sign. *)
Definition startsWithEscapedDollar (t : Template) : bool :=
  String.eqb (name t) ""
  && match slices t with
     | slc :: _ =>
         bool_decide (at_ (staticStr slc) 0 = Some "\"%char)
         && bool_decide (at_ (staticStr slc) 1 = Some "$"%char)
     | [] => false
     end.

(** The templates that [String] renders to a string of themselves: no
    pattern slice, no name that ends with a backslash, no text that reads
    as an escaped dollar sign. *)
Definition rendersBack (t : Template) : bool :=
  negb (hasPatternSlice t) && negb (nameEndsWithBackslash t)
  && negb (startsWithEscapedDollar t).

End WithEngine.

End TmplRender.

(** ** template.go: [HasPattern], [Parse] and the shape of parsed templates *)

Module TmplMore.
Import GoStr Tmpl.

Section WithEngine.
Context `{RE : RegexEngine}.

(** The loop of [HasPattern]: [t.slices[i].valuePattern.re != nil] reads
    the value pattern of every slice it reaches, also of a static one. *)
Fixpoint hasPatternLoop (ts : list _TemplateSlice) : outcome bool :=
  match ts with
  | [] => Returns false
  | slc :: ts' =>
      do! re <- slice_re slc;
      match re with
      | Some _ => Returns true
      | None => hasPatternLoop ts'
      end
  end.

(** [t.HasPattern()] *)
Definition HasPattern (t : Template) : outcome bool := hasPatternLoop (slices t).

(** [Parse(tmplStr)]: the error of [TryToParse] is a panic. *)
Definition Parse (tmplStr : string) : outcome Template :=
  do! r <- TryToParse tmplStr;
  match r with
  | inl tmpl => Returns tmpl
  | inr _ => Panics
  end.

(** A wildcard slice: a value pattern without a regexp. *)
Definition isWildcardSlice (slc : _TemplateSlice) : Prop :=
  exists vp, valuePattern slc = Some vp /\ vp_re vp = None.

(** A pattern slice: a value pattern with a regexp. *)
Definition isPatternSlice (slc : _TemplateSlice) : Prop :=
  exists vp re, valuePattern slc = Some vp /\ vp_re vp = Some re.

(** [w] is [-1] or an index of [ts], and the wildcard slices of [ts] are
    the one at [w]. *)
Definition wildcardAt (ts : list _TemplateSlice) (w : Z) : Prop :=
  (w = -1 \/ 0 <= w < Z.of_nat (List.length ts))
  /\ forall (i : nat) (slc : _TemplateSlice),
       ts !! i = Some slc -> (isWildcardSlice slc <-> Z.of_nat i = w).

(** The source of the regexp starts with [^], ends with [$]. *)
Definition startsWithCaret (re : Regexp) : Prop := exists x, re_String re = "^" +:+ x.
Definition endsWithDollar (re : Regexp) : Prop := exists x, re_String re = x +:+ "$".

(** The anchors of the pattern slices of [ts] around the wildcard index
    [w]: [^] left of the wildcard and when there is none, [$] right of it. *)
Definition anchoredAround (ts : list _TemplateSlice) (w : Z) : Prop :=
  forall (i : nat) (slc : _TemplateSlice) (vp : _ValuePattern) (re : Regexp),
    ts !! i = Some slc -> valuePattern slc = Some vp -> vp_re vp = Some re ->
    if (w <? 0) || (Z.of_nat i <? w) then startsWithCaret re else endsWithDollar re.

(** The recorded patterns after the wildcard: the entry of [n] is named
    [n] and its regexp is end-anchored, [x$]. *)
Definition endAnchored (valuePatterns : gmap string _ValuePattern) : Prop :=
  forall n vp, valuePatterns !! n = Some vp ->
    vp_name vp = n /\ exists re, vp_re vp = Some re /\ endsWithDollar re.

(** What the loop of [parse] keeps: the slices are well formed, the
    wildcard is where [w] says, the patterns are anchored around it, and the
    recorded patterns have the anchor of the slices to come. *)
Definition parseInv (tss : list _TemplateSlice) (w : Z)
  (valuePatterns : gmap string _ValuePattern) : Prop :=
  Forall wfSlice tss /\ wildcardAt tss w /\ anchoredAround tss w
  /\ (w < 0 -> startAnchored valuePatterns)
  /\ (0 <= w -> endAnchored valuePatterns).

(** A template of static slices around one wildcard slice named [w]:
    [a{w}b], where [a] and [b] may be empty. *)
Definition aroundWildcard (n a w b : string) : Template :=
  mkTemplate n
    (optStatic a ++ dynamicS (mkVP w None) :: optStatic b)%list
    (Z.of_nat (List.length (optStatic a))).

End WithEngine.

End TmplMore.

(** ** utils.go: hosts, path segments and the arguments of a request *)

Module UtilsMore.
Import GoStr Utils.

(** The errors of [getHost]. *)
Inductive hostError : Type :=
  | ErrEmptyHostTemplate
  | ErrUnwantedPathTemplate.

Record host_result : Type := mkHost {
  gh_hostTmplStr : string;
  gh_secure : bool;
  gh_tslash : bool;
  gh_err : option hostError
}.

(** [getHost(urlTmplStr)] *)
Definition getHost (urlTmplStr : string) : host_result :=
  if String.eqb urlTmplStr "" then mkHost "" false false (Some ErrEmptyHostTemplate)
  else
    let lurlTmplStr := len urlTmplStr in
    let t1 := TrimPrefix urlTmplStr "https://" in
    let '(urlTmplStr, secure) :=
      if len t1 <? lurlTmplStr then (t1, true) else (TrimPrefix t1 "http://", false) in
    let idx := IndexByte urlTmplStr "/" in
    if idx <? 0 then mkHost urlTmplStr secure false None
    else
      let hostTmplStr := upto urlTmplStr idx in
      let urlTmplStr := from urlTmplStr idx in
      if String.eqb urlTmplStr "/" then mkHost hostTmplStr secure true None
      else mkHost "" false false (Some ErrUnwantedPathTemplate).

(** [slashDecoderRe.ReplaceAllLiteralString(s, "/")] for the expression
    [(%2f)|(%2F)]: every [%2f] and [%2F], found from left to right, is
    replaced by a slash. *)
Fixpoint decodeSlashes (s : string) : string :=
  match s with
  | EmptyString => EmptyString
  | String a s1 =>
      match s1 with
      | String b (String c s3) =>
          if Ascii.eqb a "%" && Ascii.eqb b "2" && (Ascii.eqb c "f" || Ascii.eqb c "F")
          then String "/" (decodeSlashes s3)
          else String a (decodeSlashes s1)
      | _ => String a (decodeSlashes s1)
      end
  end.

(** [strings.LastIndexByte(s, c)]: the index of the last [c], or [-1]. *)
Fixpoint LastIndexByte (s : string) (c : ascii) : Z :=
  match s with
  | EmptyString => -1
  | String d s' =>
      let i := LastIndexByte s' c in
      if 0 <=? i then i + 1 else if Ascii.eqb d c then 0 else -1
  end.

Record url_result : Type := mkUrl {
  su_hostTmplStr : string;
  su_prefixPathTmplStr : string;
  su_resourceTmplStr : string;
  su_secure : bool;
  su_tslash : bool;
  su_err : option error
}.

(** [splitURL(urlTmplStr)] *)
Definition splitURL (urlTmplStr : string) : url_result :=
  let r := splitHostAndPath urlTmplStr in
  let urlTmplStr := pathTmplStr r in
  match err r with
  | Some e => mkUrl (hostTmplStr r) "" "" (secure r) (tslash r) (Some e)
  | None =>
      if String.eqb urlTmplStr "" || String.eqb urlTmplStr "/"
      then mkUrl (hostTmplStr r) "" urlTmplStr (secure r) (tslash r) None
      else
        let idx := LastIndexByte urlTmplStr "/" in
        if idx <? 0
        then mkUrl (hostTmplStr r) "" (decodeSlashes urlTmplStr) (secure r) (tslash r) None
        else mkUrl (hostTmplStr r) (upto urlTmplStr idx)
               (decodeSlashes (from urlTmplStr (idx + 1))) (secure r) (tslash r) None
  end.

(** [_PathSegmentIterator] *)
Record _PathSegmentIterator : Type := mkPsi {
  psi_path : string;
  psi_root : bool;
  psi_tslash : bool
}.

Definition makePathSegmentIterator (path : string) : _PathSegmentIterator :=
  mkPsi path (String.eqb path "/")
    (negb (String.eqb path "") && negb (String.eqb path "/")
     && bool_decide (last path = Some "/"%char)).

Definition pathIsRoot (psi : _PathSegmentIterator) : bool := psi_root psi.

(** [psi.nextSegment()]: the segment and the iterator after the call. *)
Definition nextSegment (psi : _PathSegmentIterator) : string * _PathSegmentIterator :=
  if String.eqb (psi_path psi) "" then ("", psi)
  else
    let path :=
      if bool_decide (at_ (psi_path psi) 0 = Some "/"%char)
      then from (psi_path psi) 1 else psi_path psi in
    let idx := IndexByte path "/" in
    if idx <? 0
    then (decodeSlashes path, mkPsi "" (psi_root psi) (psi_tslash psi))
    else (decodeSlashes (upto path idx),
          mkPsi (from path (idx + 1)) (psi_root psi) (psi_tslash psi)).

(** [psi.remainingPath()]: the path and the iterator after the call. *)
Definition remainingPath (psi : _PathSegmentIterator) : string * _PathSegmentIterator :=
  let path :=
    if negb (String.eqb (psi_path psi) "")
       && bool_decide (at_ (psi_path psi) 0 = Some "/"%char)
    then from (psi_path psi) 1 else psi_path psi in
  (path, mkPsi path (psi_root psi) (psi_tslash psi)).

Definition pathHasTrailingSlash (psi : _PathSegmentIterator) : bool := psi_tslash psi.

(** The loop of [splitPathSegments]: the segments up to the first empty
    one.  A call of [nextSegment] that gives a segment shortens the path, so
    the fuel [len(path) + 1] is never used up. *)
Fixpoint segmentsLoop (fuel : nat) (psi : _PathSegmentIterator) (pss : list string)
  : outcome (list string * _PathSegmentIterator) :=
  match fuel with
  | O => Panics
  | S fuel' =>
      let '(ps, psi) := nextSegment psi in
      if String.eqb ps "" then Returns (pss, psi)
      else segmentsLoop fuel' psi (appendSlice pss ps)
  end.

(** [splitPathSegments(path)]: [(pss, root, tslash, err)]. *)
Definition splitPathSegments (path : string)
  : outcome (list string * bool * bool * option error) :=
  if String.eqb path "/" then Returns (["/"], true, false, None)
  else
    do! r <- segmentsLoop (S (String.length path)) (makePathSegmentIterator path) [];
    let '(pss, psi) := r in
    let '(rest, psi) := remainingPath psi in
    if negb (String.eqb rest "") then Returns (pss, false, false, Some ErrEmptyPathSegmentTemplate)
    else Returns (pss, false, pathHasTrailingSlash psi, None).

(** The segments [s1 ... sn] joined by slashes: [s1/s2/.../sn]. *)
Fixpoint joinSegments (segments : list string) : string :=
  match segments with
  | [] => ""
  | [ps] => ps
  | ps :: segments' => ps +:+ "/" +:+ joinSegments segments'
  end.

(** An optional slash. *)
Definition tailSlash (tail : bool) : string := if tail then "/" else "".

(** A segment that [nextSegment] gives back as it is: not empty, without a
    slash and without a percent sign. *)
Definition cleanSegment (ps : string) : Prop :=
  ps <> "" /\ contains ps "/" = false /\ contains ps "%" = false.

(** *** [_Args]: the custom arguments of a request *)

Section Args.
(** The keys are compared with [==]: they are of comparable types.  [nil]
    is the nil interface value. *)
Context {K V : Type} `{EqDecision K} (nil : V).

Definition _Args : Type := list (K * V).

(** The loop of [get] from index [i]. *)
Fixpoint getFrom (args : _Args) (key : K) (i : Z) : Z * V :=
  match args with
  | [] => (-1, nil)
  | (k, v) :: args' => if decide (k = key) then (i, v) else getFrom args' key (i + 1)
  end.

(** [args.get(key)] *)
Definition get (args : _Args) (key : K) : Z * V := getFrom args key 0.

(** [pargs.set(key, value)] *)
Definition set (args : _Args) (key : K) (value : V) : _Args :=
  let '(i, _) := get args key in
  if i <? 0 then appendSlice args (key, value)
  else alter (fun a => (a.1, value)) (Z.to_nat i) args.


End Args.

End UtilsMore.

(** ** responder.go: configuration and children *)

Module RespMore.
Import GoStr Tmpl Resp.

(** [cfs.asConfig()] *)
Definition asConfig (cfs : Z) : Config :=
  mkConfig (cfs_has cfs flagSubtreeHandler) (cfs_has cfs flagSecure)
    (cfs_has cfs flagRedirectInsecure) (cfs_has cfs flagTrailingSlash)
    (cfs_has cfs flagStrictOnTrailingSlash) (cfs_has cfs flagLeniencyOnTrailingSlash)
    (cfs_has cfs flagLeniencyOnUncleanPath) (cfs_has cfs flagHandleThePathAsIs).

Section WithEngine.
Context `{RE : RegexEngine} `{MR : MapRange}.

(** [rb.Configure(config)]: [rb.updateConfigFlags(flagActive | config.asFlags())] *)
Definition Configure (rb : addr) (config : Config) : M unit :=
  modify rb (fun node => setCfs node (Z.lor flagActive (asFlags config))).

(** [rb.Config()] *)
Definition Config_ (rb : addr) : M Config :=
  run! node <- load rb;
  ret (asConfig (cfs node)).

(** [rb.IsSubtreeHandler()], [rb.IsSecure()], ... on the responder. *)
Definition IsSubtreeHandler (node : _ResponderBase) : bool :=
  cfs_has (cfs node) flagSubtreeHandler.
Definition IsSecure (node : _ResponderBase) : bool := cfs_has (cfs node) flagSecure.
Definition RedirectsInsecureRequest (node : _ResponderBase) : bool :=
  cfs_has (cfs node) flagRedirectInsecure.
Definition HasTrailingSlash (node : _ResponderBase) : bool :=
  cfs_has (cfs node) flagTrailingSlash.
Definition IsStrictOnTrailingSlash (node : _ResponderBase) : bool :=
  cfs_has (cfs node) flagStrictOnTrailingSlash.
Definition IsLenientOnTrailingSlash (node : _ResponderBase) : bool :=
  cfs_has (cfs node) flagLeniencyOnTrailingSlash.
Definition IsLenientOnUncleanPath (node : _ResponderBase) : bool :=
  cfs_has (cfs node) flagLeniencyOnUncleanPath.
Definition HandlesThePathAsIs (node : _ResponderBase) : bool :=
  cfs_has (cfs node) flagHandleThePathAsIs.

(** [rb.HasChildResource(r)]; [r = None] is the nil argument. *)
Definition HasChildResource (rb : addr) (r : option addr) : M bool :=
  match r with
  | None => ret false
  | Some r =>
      run! rrb <- load r;
      run! node <- load rb;
      let t := tval (tmpl rrb) in
      if IsStatic t then
        ret (existsb (Pos.eqb r) (map snd (rangeMap (staticResources node))))
      else if IsWildcard t && bool_decide (wildcardResource node = Some r) then ret true
      else ret (existsb (Pos.eqb r) (patternResources node))
  end.

(** [rb.HasAnyChildResources()] *)
Definition HasAnyChildResources (node : _ResponderBase) : bool :=
  negb (bool_decide (staticResources node = ∅))
  || negb (bool_decide (patternResources node = []))
  || bool_decide (wildcardResource node <> None).

(** The first loop of [resourcesInThePath]: from [p] up to the router or to
    the responder without a parent.  [fuel] bounds the length of the chain
    of parents; a call that uses it up is a [Panics]. *)
Fixpoint pathLoop (fuel : nat) (st : store) (p : option _Parent) (resources : list addr)
  : outcome (list addr) :=
  match fuel with
  | O => Panics
  | S fuel' =>
      match p with
      | None => Returns resources
      | Some ParentRouter => Returns resources
      | Some (ParentResponder a) =>
          match st !! a with
          | None => Panics
          | Some node => pathLoop fuel' st (papa node) (appendSlice resources a)
          end
      end
  end.

(** [rb.resourcesInThePath()]: the second loop reverses the slice. *)
Definition resourcesInThePath (fuel : nat) (st : store) (rb : addr) : outcome (list addr) :=
  do! resources <- pathLoop fuel st (Some (ParentResponder rb)) [];
  Returns (List.rev resources).

(** [chain] is the chain of the responders from [p] upwards, as far as the
    router or a responder without a parent. *)
Fixpoint isChain (st : store) (p : option _Parent) (chain : list addr) : Prop :=
  match chain with
  | [] => p = None \/ p = Some ParentRouter
  | a :: chain' =>
      p = Some (ParentResponder a)
      /\ exists node, st !! a = Some node /\ isChain st (papa node) chain'
  end.

(** What the registration never changes: the template, the kind and the
    request handlers of a responder. *)
Definition identityOf (node : _ResponderBase) : TemplatePtr * derivedKind * bool :=
  (tmpl node, derived node, canHandle node).

(** From [st] to [st'] no responder is added or removed, and every
    responder keeps its template, its kind and its request handlers. *)
Definition sameIdentity (st st' : store) : Prop :=
  forall a, identityOf <$> (st' !! a) = identityOf <$> (st !! a).

(** The responder [node] with the resource at [r], whose template is [t],
    in its bucket: the [switch] of [registerResource]. *)
Definition withChild (node : _ResponderBase) (t : Template) (r : addr) : _ResponderBase :=
  if IsStatic t then
    setBuckets node (<[UnescapedContent t := r]> (staticResources node))
      (patternResources node) (wildcardResource node)
  else if IsWildcard t then
    setBuckets node (staticResources node) (patternResources node) (Some r)
  else
    setBuckets node (staticResources node) (appendSlice (patternResources node) r)
      (wildcardResource node).

(** The call [m] keeps the identity of the responders, whatever it
    returns. *)
Definition keepsIdentity {A : Type} (m : M A) : Prop :=
  forall st st' res, m st = Returns (st', res) -> sameIdentity st st'.

End WithEngine.

End RespMore.

(** ** More trees for the examples *)

Module TreeMoreExamples.
Import GoStr Tmpl Resp TreeExamples.

(** [collisionTree] after the resource at 5 is registered at the resource
    at 2, which has no child with the template [a]. *)
Definition registeredTree : gmap positive (_ResponderBase (RE := MiniRegexp.engine)) :=
  {[ 1%positive := resource (staticT 1 "p") None {["a" := 2%positive]} None false 1;
     2%positive := resource (staticT 2 "a") (Some 1%positive)
                     {["a" := 5%positive; "x" := 3%positive; "y" := 4%positive]} None false 1;
     3%positive := resource (staticT 3 "x") (Some 2%positive) ∅ None true 1;
     4%positive := resource (staticT 4 "y") (Some 2%positive) ∅ None true 1;
     5%positive := resource (staticT 5 "a") (Some 2%positive) ∅ None true 1 ]}.

End TreeMoreExamples.

(** * Properties *)

(** ** Go string primitives *)

Module GoStrFacts.
Import GoStr.

Lemma append_cons (c : ascii) (a b : string) :
  String c a +:+ b = String c (a +:+ b).
Proof. reflexivity. Qed.

Lemma append_nil_l (b : string) : "" +:+ b = b.
Proof. reflexivity. Qed.

Lemma length_append (a b : string) :
  String.length (a +:+ b) = (String.length a + String.length b)%nat.
Proof. induction a as [|c a IH]; simpl; [reflexivity | now rewrite IH]. Qed.

Lemma len_append (a b : string) : len (a +:+ b) = len a + len b.
Proof. unfold len. rewrite length_append. lia. Qed.

Lemma len_nonneg (s : string) : 0 <= len s.
Proof. unfold len. lia. Qed.

Lemma len_0 (s : string) : len s = 0 -> s = "".
Proof. destruct s; [reflexivity | unfold len; simpl; lia]. Qed.

Lemma drop_append (a b : string) : drop (String.length a) (a +:+ b) = b.
Proof. induction a; simpl; auto. Qed.

Lemma take_append (a b : string) : take (String.length a) (a +:+ b) = a.
Proof. induction a as [|c a IH]; simpl; [now destruct b | now rewrite IH]. Qed.

Lemma upto_append (a b : string) : upto (a +:+ b) (len a) = a.
Proof. unfold upto, len. rewrite Nat2Z.id. apply take_append. Qed.

Lemma from_append (a b : string) : from (a +:+ b) (len a) = b.
Proof. unfold from, len. rewrite Nat2Z.id. apply drop_append. Qed.

Lemma take_drop (n : nat) (s : string) : take n s +:+ drop n s = s.
Proof.
  revert s; induction n as [|n IH]; intros [|c s]; simpl; try reflexivity.
  f_equal. apply IH.
Qed.

Lemma length_drop (n : nat) (s : string) :
  String.length (drop n s) = (String.length s - n)%nat.
Proof. revert s; induction n as [|n IH]; intros [|c s]; simpl; auto; lia. Qed.

Lemma length_take (n : nat) (s : string) :
  String.length (take n s) = Nat.min n (String.length s).
Proof. revert s; induction n as [|n IH]; intros [|c s]; simpl; auto. Qed.

Lemma HasPrefix_append (p s : string) : HasPrefix (p +:+ s) p = true.
Proof. induction p as [|c p IH]; simpl; [reflexivity|]. now rewrite Ascii.eqb_refl. Qed.

Lemma HasPrefix_split (s p : string) :
  HasPrefix s p = true -> s = p +:+ drop (String.length p) s.
Proof.
  revert s; induction p as [|c p IH]; intros s H; simpl in *; [reflexivity|].
  destruct s as [|d s]; [discriminate|].
  destruct (Ascii.eqb_spec c d) as [->|]; [|discriminate].
  simpl. f_equal. now apply IH.
Qed.

Lemma HasPrefix_iff (s p : string) :
  HasPrefix s p = true <-> exists r, s = p +:+ r.
Proof.
  split.
  - intros H. eexists. now apply HasPrefix_split.
  - intros [r ->]. apply HasPrefix_append.
Qed.

(** [TrimPrefix] shortens the string exactly when a non-empty prefix is
    present. *)
Lemma TrimPrefix_shorter (s p : string) :
  p <> "" ->
  (len (TrimPrefix s p) <? len s) = HasPrefix s p.
Proof.
  intros Hp. unfold TrimPrefix.
  destruct (HasPrefix s p) eqn:E.
  - apply HasPrefix_split in E. apply Z.ltb_lt.
    rewrite E at 2. rewrite len_append.
    unfold len. rewrite length_drop.
    destruct p; [congruence|]. simpl String.length.
    assert (String.length (String a p) <= String.length s)%nat.
    { rewrite E, length_append. lia. }
    simpl in H. lia.
  - apply Z.ltb_ge. lia.
Qed.

Lemma IndexByte_range (s : string) (c : ascii) :
  -1 <= IndexByte s c < len s.
Proof.
  unfold len. induction s as [|d s IH]; simpl; [lia|].
  destruct (Ascii.eqb d c); [lia|].
  destruct (IndexByte s c <? 0) eqn:E; [lia|]. apply Z.ltb_ge in E. lia.
Qed.

Lemma IndexByte_neg (s : string) (c : ascii) :
  IndexByte s c < 0 <-> contains s c = false.
Proof.
  induction s as [|d s IH]; simpl; [split; [reflexivity | lia]|].
  destruct (Ascii.eqb d c); simpl; [split; [lia | discriminate]|].
  destruct (IndexByte s c <? 0) eqn:E.
  - apply Z.ltb_lt in E. split; [intros _; now apply IH | lia].
  - apply Z.ltb_ge in E. split; [lia | intros H; apply IH in H; lia].
Qed.

(** The first [c] of [h ++ c :: r] is right after a [c]-free [h]. *)
Lemma IndexByte_append (h r : string) (c : ascii) :
  contains h c = false ->
  IndexByte (h +:+ String c r) c = len h.
Proof.
  unfold len. induction h as [|d h IH]; simpl; intros H.
  - now rewrite Ascii.eqb_refl.
  - apply orb_false_iff in H as [Hd Hh]. rewrite Hd, (IH Hh).
    destruct (Z.ltb_spec (Z.of_nat (String.length h)) 0); lia.
Qed.

Lemma from_IndexByte (s : string) (c : ascii) :
  0 <= IndexByte s c ->
  exists r, from s (IndexByte s c) = String c r
            /\ contains (upto s (IndexByte s c)) c = false
            /\ s = upto s (IndexByte s c) +:+ String c r.
Proof.
  unfold from, upto. induction s as [|d s IH]; simpl; [lia|].
  destruct (Ascii.eqb_spec d c) as [->|Hdc]; simpl.
  - intros _. now exists s.
  - destruct (Z.ltb_spec (IndexByte s c) 0) as [|Hge]; [lia|]. intros _.
    destruct (IH Hge) as (r & H1 & H2 & H3).
    exists r. replace (Z.to_nat (IndexByte s c + 1)) with (S (Z.to_nat (IndexByte s c))) by lia.
    simpl. rewrite H1, H2. split; [reflexivity|]. split.
    + destruct (Ascii.eqb_spec d c); [congruence | reflexivity].
    + now rewrite <- H3.
Qed.

Lemma eqb_empty_append (a b : string) :
  String.eqb (a +:+ b) "" = String.eqb a "" && String.eqb b "".
Proof. destruct a; simpl; [now destruct b | reflexivity]. Qed.

Lemma at_last_append (a : string) (c : ascii) :
  at_ (a +:+ String c "") (len a) = Some c.
Proof.
  unfold at_, len. destruct (Z.ltb_spec (Z.of_nat (String.length a)) 0); [lia|].
  rewrite Nat2Z.id. clear. induction a as [|d a IH]; simpl; [reflexivity | exact IH].
Qed.

End GoStrFacts.

(** ** The example engine on a few patterns *)

Module MiniRegexpExamples.
Import MiniRegexp.

Example compile_digits :
  option_map program (compile "^[0-9]+") = Some (Cat Bol (Cat (Cat digit (Star digit)) Eps)).
Proof. reflexivity. Qed.

Example find_digits :
  option_map (fun re => findStringIndex re "12ab") (compile "^[0-9]+") = Some (Some (0, 2)).
Proof. reflexivity. Qed.

Example find_all_digits :
  option_map (fun re => findAllStringIndex re "a12b345") (compile "[0-9]+")
  = Some [(1, 3); (4, 7)].
Proof. reflexivity. Qed.

Example find_all_anchored :
  option_map (fun re => findAllStringIndex re "a12b345") (compile "[0-9]+$")
  = Some [(4, 7)].
Proof. reflexivity. Qed.

Example compile_rejects_open_class : compile "[0-9" = None.
Proof. reflexivity. Qed.

End MiniRegexpExamples.

(** ** utils.go: [splitHostAndPath] *)

Module UtilsFacts.
Import GoStr GoStrFacts Utils.

(** What follows the scheme of an absolute URL template. *)
Lemma splitHostAndPath_absolute (sec : bool) (r : string) :
  splitHostAndPath (scheme sec +:+ r) =
    let idx := IndexByte r "/" in
    if idx <? 0 then mkSplit r "" sec false None
    else
      let host := upto r idx in
      let path := from r idx in
      if negb (String.eqb host "") && String.eqb path "/"
      then mkSplit host "" sec true None
      else if String.eqb host "" && String.eqb path ""
      then mkSplit host path false false (Some ErrInvalidTemplate)
      else stripLastSlash host path sec.
Proof.
  unfold splitHostAndPath.
  assert (Hne : String.eqb (scheme sec +:+ r) "" = false) by now destruct sec.
  rewrite Hne.
  rewrite (TrimPrefix_shorter _ "https://") by discriminate.
  destruct sec.
  - rewrite HasPrefix_append. unfold TrimPrefix. rewrite HasPrefix_append.
    rewrite drop_append. cbv zeta.
    destruct (IndexByte r "/" <? 0); reflexivity.
  - assert (H1 : HasPrefix (scheme false +:+ r) "https://" = false) by reflexivity.
    rewrite H1.
    assert (H2 : TrimPrefix (scheme false +:+ r) "https://" = scheme false +:+ r).
    { unfold TrimPrefix. now rewrite H1. }
    rewrite H2. rewrite (TrimPrefix_shorter _ "http://") by discriminate.
    rewrite HasPrefix_append. unfold TrimPrefix. rewrite HasPrefix_append.
    rewrite drop_append. cbv zeta.
    destruct (IndexByte r "/" <? 0); reflexivity.
Qed.

(** A template without a scheme is a path template. *)
Lemma splitHostAndPath_relative (p : string) :
  p <> "" ->
  HasPrefix p "https://" = false -> HasPrefix p "http://" = false ->
  splitHostAndPath p = stripLastSlash "" p false.
Proof.
  intros Hne H1 H2. unfold splitHostAndPath.
  destruct (String.eqb_spec p ""); [contradiction|].
  rewrite (TrimPrefix_shorter _ "https://") by discriminate. rewrite H1.
  assert (E1 : TrimPrefix p "https://" = p) by (unfold TrimPrefix; now rewrite H1).
  rewrite E1. rewrite (TrimPrefix_shorter _ "http://") by discriminate. rewrite H2.
  assert (E2 : TrimPrefix p "http://" = p) by (unfold TrimPrefix; now rewrite H2).
  rewrite E2. cbv zeta. simpl.
  destruct (String.eqb_spec p ""); [contradiction | reflexivity].
Qed.

Lemma stripLastSlash_fields (h p : string) (sec : bool) :
  hostTmplStr (stripLastSlash h p sec) = h
  /\ secure (stripLastSlash h p sec) = sec
  /\ err (stripLastSlash h p sec) = None.
Proof. unfold stripLastSlash. now destruct (_ && _). Qed.

(** The three ways a template starts. *)
Lemma scheme_cases (s : string) :
  (exists r, s = scheme true +:+ r /\ HasPrefix s "https://" = true)
  \/ (exists r, s = scheme false +:+ r /\ HasPrefix s "https://" = false
                /\ HasPrefix s "http://" = true)
  \/ (HasPrefix s "https://" = false /\ HasPrefix s "http://" = false).
Proof.
  destruct (HasPrefix s "https://") eqn:E1.
  - left. apply HasPrefix_split in E1. eauto.
  - destruct (HasPrefix s "http://") eqn:E2.
    + right; left. apply HasPrefix_split in E2. eauto.
    + right; right. auto.
Qed.

Lemma eqb_slash_length (p : string) : 1 < len p -> String.eqb p "/" = false.
Proof.
  intros H. destruct (String.eqb_spec p "/") as [->|]; [|reflexivity].
  unfold len in H. simpl in H. lia.
Qed.

Lemma stripLastSlash_strips (h p : string) (sec : bool) :
  1 < len p -> last p = Some "/"%char ->
  stripLastSlash h p sec = mkSplit h (upto p (len p - 1)) sec true None.
Proof.
  intros Hl Hlast. unfold stripLastSlash. unfold last in Hlast. rewrite Hlast.
  destruct (Z.ltb_spec 0 (len p - 1)); [|lia].
  now rewrite bool_decide_eq_true_2.
Qed.

(** C9.  [splitHostAndPath]: the empty template is invalid; only a template
    starting with [https://] or [http://] has a host, and [secure] is set
    exactly for the [https://] prefix; a non-empty host followed by exactly
    [/] gives [trailing_slash] and an empty path; a path of more than one
    byte ending in [/] loses that slash and gives [trailing_slash]. *)
Theorem splitHostAndPath_rules :
  err (splitHostAndPath "") = Some ErrInvalidTemplate
  /\ (forall s, hostTmplStr (splitHostAndPath s) <> "" ->
        HasPrefix s "https://" = true \/ HasPrefix s "http://" = true)
  /\ (forall s, secure (splitHostAndPath s) = HasPrefix s "https://")
  /\ (forall sec h, h <> "" -> contains h "/" = false ->
        splitHostAndPath (scheme sec +:+ h +:+ "/") = mkSplit h "" sec true None)
  /\ (forall sec h p,
        contains h "/" = false -> HasPrefix p "/" = true ->
        1 < len p -> last p = Some "/"%char ->
        splitHostAndPath (scheme sec +:+ h +:+ p)
        = mkSplit h (upto p (len p - 1)) sec true None)
  /\ (forall p,
        HasPrefix p "https://" = false -> HasPrefix p "http://" = false ->
        1 < len p -> last p = Some "/"%char ->
        splitHostAndPath p = mkSplit "" (upto p (len p - 1)) false true None).
Proof.
  split; [reflexivity|]. split; [|split; [|split; [|split]]].
  - (* a host needs a scheme *)
    intros s Hh. destruct (scheme_cases s) as [(r & -> & H)|[(r & -> & H1 & H2)|[H1 H2]]];
      [now left | now right |].
    exfalso. apply Hh.
    destruct (String.eqb_spec s "") as [->|Hne]; [reflexivity|].
    rewrite splitHostAndPath_relative by assumption.
    apply stripLastSlash_fields.
  - (* secure *)
    intros s. destruct (scheme_cases s) as [(r & -> & H)|[(r & -> & H1 & H2)|[H1 H2]]].
    + rewrite H, splitHostAndPath_absolute. cbv zeta.
      destruct (Z.ltb_spec (IndexByte r "/") 0) as [|Hidx]; [reflexivity|].
      destruct (from_IndexByte r "/" Hidx) as (q & Hq & _ & _).
      rewrite Hq.
      destruct (negb _ && _); [reflexivity|].
      replace (String.eqb (String "/" q) "") with false by reflexivity.
      rewrite andb_false_r. apply stripLastSlash_fields.
    + rewrite H1, splitHostAndPath_absolute. cbv zeta.
      destruct (Z.ltb_spec (IndexByte r "/") 0) as [|Hidx]; [reflexivity|].
      destruct (negb _ && _); [reflexivity|].
      destruct (_ && _); [reflexivity|]. apply stripLastSlash_fields.
    + rewrite H1. destruct (String.eqb_spec s "") as [->|Hne]; [reflexivity|].
      rewrite splitHostAndPath_relative by assumption.
      apply stripLastSlash_fields.
  - (* host followed by exactly "/" *)
    intros sec h Hh Hc. rewrite splitHostAndPath_absolute. cbv zeta.
    rewrite (IndexByte_append h "" "/" Hc).
    destruct (Z.ltb_spec (len h) 0) as [Hl|_]; [pose proof (len_nonneg h); lia|].
    rewrite (upto_append h), (from_append h).
    destruct (String.eqb_spec h ""); [contradiction|]. reflexivity.
  - (* absolute template, path ending in "/" *)
    intros sec h p Hc Hp Hl Hlast. rewrite splitHostAndPath_absolute. cbv zeta.
    destruct p as [|c p']; [discriminate|].
    assert (c = "/"%char) as ->.
    { destruct (Ascii.eqb_spec "/"%char c) as [<-|Hn]; [reflexivity|].
      apply Ascii.eqb_neq in Hn. cbn [HasPrefix] in Hp. rewrite Hn in Hp. discriminate. }
    rewrite (IndexByte_append h p' "/" Hc).
    destruct (Z.ltb_spec (len h) 0) as [Hl'|_]; [pose proof (len_nonneg h); lia|].
    rewrite (upto_append h), (from_append h).
    rewrite (eqb_slash_length _ Hl), andb_false_r.
    replace (String.eqb (String "/" p') "") with false by reflexivity.
    rewrite andb_false_r. now apply stripLastSlash_strips.
  - (* path template ending in "/" *)
    intros p H1 H2 Hl Hlast.
    rewrite splitHostAndPath_relative; try assumption.
    + now apply stripLastSlash_strips.
    + intros ->. unfold len in Hl. simpl in Hl. lia.
Qed.

(** The rules of [splitHostAndPath_rules] at
    [https://example.com/], [http://example.com/a/b/] and [/a/b/]. *)
Lemma splitHostAndPath_rules_witness :
  (HasPrefix "https://example.com/" "https://" = true
   \/ HasPrefix "https://example.com/" "http://" = true)
  /\ splitHostAndPath "https://example.com/" = mkSplit "example.com" "" true true None
  /\ splitHostAndPath "http://example.com/a/b/" = mkSplit "example.com" "/a/b" false true None
  /\ splitHostAndPath "/a/b/" = mkSplit "" "/a/b" false true None.
Proof.
  destruct splitHostAndPath_rules as (_ & Hhost & _ & Hslash & Habs & Hrel).
  split; [apply (Hhost "https://example.com/"); intros H; vm_compute in H; discriminate H|].
  split; [apply (Hslash true "example.com"); [discriminate | reflexivity]|].
  split.
  - apply (Habs false "example.com" "/a/b/"); reflexivity.
  - apply (Hrel "/a/b/"); reflexivity.
Defined.

End UtilsFacts.

(** ** template.go: [Match], [Apply] and [SimilarityWith] on parsed templates *)

Module TmplExamples.
Import GoStr Tmpl MiniRegexp Examples.

Lemma compile_re_digits : compile "^[0-9]+" = Some re_digits.
Proof. reflexivity. Qed.

Lemma parse_a_w : TryToParse "a{w}" = Returns (inl t_a_w).
Proof. reflexivity. Qed.

Lemma parse_id_abc : TryToParse "{id:[0-9]+}abc" = Returns (inl t_id_abc).
Proof. reflexivity. Qed.

Lemma parse_abc_id : TryToParse "abc{id:[0-9]+}" = Returns (inl t_abc_id).
Proof. reflexivity. Qed.

Lemma parse_id_x : TryToParse "{id:[0-9]+}x" = Returns (inl t_id_x).
Proof. reflexivity. Qed.

(** C1.  The template [a{w}] has a wildcard slice and a static slice.  On the
    string [a] the static slice consumes everything, the remainder for the
    wildcard is empty, and [Match] still reports a match, with no value for
    [w].  A string with a non-empty remainder gives [w] that remainder. *)
Theorem Match_empty_wildcard_remainder :
  TryToParse "a{w}" = Returns (inl t_a_w)
  /\ Match t_a_w "a" = Returns (true, Some ∅)
  /\ Match t_a_w "ab" = Returns (true, Some {["w" := "b"]}).
Proof. split; [exact parse_a_w|]. split; reflexivity. Qed.

(** Without a wildcard the remainder is not looked at either. *)
Lemma Match_ignores_remainder :
  Match t_id_abc "12abcxyz" = Returns (true, Some {["id" := "12"]}).
Proof. reflexivity. Qed.

(** C3.  The pattern slice of [{id:[0-9]+}x] has the regexp [^[0-9]+]; on the
    value [12ab] it matches the proper prefix [12] only, and [Apply] accepts
    the value. *)
Theorem Apply_accepts_prefix_match :
  TryToParse "{id:[0-9]+}x" = Returns (inl t_id_x)
  /\ findStringIndex re_digits "12ab" = Some (0, 2)
  /\ Apply t_id_x {["id" := "12ab"]} false = Returns ("12abx", None).
Proof. split; [exact parse_id_x|]. split; reflexivity. Qed.

(** C8.  [{id:[0-9]+}abc] and [abc{id:[0-9]+}] are parsed templates with two
    slices and no wildcard.  With the first as the receiver the loop of
    [SimilarityWith] reads [slc2.valuePattern.re] of the static slice [abc],
    a nil pointer; with the second as the receiver the result is
    [Different]. *)
Theorem SimilarityWith_panics_one_way :
  TryToParse "{id:[0-9]+}abc" = Returns (inl t_id_abc)
  /\ TryToParse "abc{id:[0-9]+}" = Returns (inl t_abc_id)
  /\ SimilarityWith t_id_abc t_abc_id = Panics
  /\ SimilarityWith t_abc_id t_id_abc = Returns Different.
Proof.
  split; [exact parse_id_abc|]. split; [exact parse_abc_id|].
  split; reflexivity.
Qed.

End TmplExamples.

(** ** template.go: the anchors of the recorded patterns *)

Module AnchorFacts.
Import GoStr GoStrFacts Tmpl.

Section WithEngine.
Context `{RE : RegexEngine}.

Lemma startAnchored_empty : startAnchored ∅.
Proof. intros n vp H. rewrite lookup_empty in H. discriminate. Qed.

(** The loop over the recorded patterns: every entry of [entries] is
    replaced, the other entries of the map are kept. *)
Lemma reanchorLoop_spec (entries : list (string * _ValuePattern))
  (acc acc' : gmap string _ValuePattern) :
  NoDup (entries.*1) ->
  (forall n vp, (n, vp) ∈ entries -> vp_name vp = n) ->
  reanchorLoop entries acc = Returns (Some acc') ->
  (forall n vp, (n, vp) ∈ entries ->
     exists re re', vp_re vp = Some re
       /\ Compile (from (re_String re) 1 +:+ "$") = Some re'
       /\ acc' !! n = Some (mkVP n (Some re')))
  /\ (forall n, n ∉ entries.*1 -> acc' !! n = acc !! n).
Proof.
  revert acc. induction entries as [|[n vp] entries IH]; intros acc Hnd Hname Hloop.
  - injection Hloop as <-. split; [|reflexivity].
    intros n vp H. inversion H.
  - cbn [reanchorLoop] in Hloop.
    destruct (vp_re vp) as [re|] eqn:Ere; [|discriminate].
    destruct (String.eqb (re_String re) ""); [discriminate|].
    destruct (Compile (from (re_String re) 1 +:+ "$")) as [re'|] eqn:Ec; [|discriminate].
    rewrite fmap_cons in Hnd. apply NoDup_cons in Hnd as [Hn Hnd].
    assert (Hvn : vp_name vp = n) by (apply Hname; left).
    rewrite Hvn in Hloop.
    destruct (IH _ Hnd (fun m v Hm => Hname m v (list_elem_of_further _ _ _ Hm)) Hloop)
      as [Hin Hout].
    split.
    + intros m v Hm. apply elem_of_cons in Hm as [Heq|Hm]; [|now apply Hin].
      injection Heq as -> ->.
      exists re, re'. split; [assumption|]. split; [assumption|].
      rewrite (Hout n Hn). apply lookup_insert_eq.
    + intros m Hm. rewrite fmap_cons in Hm. apply not_elem_of_cons in Hm as [Hmn Hm].
      rewrite (Hout m Hm). apply lookup_insert_ne. cbn in Hmn. congruence.
Qed.

(** C2.  When [appendDynamicSliceTo] introduces the first wildcard slice (no
    wildcard yet, a value name that is not recorded, no pattern), the regexp
    [^x] of every recorded value pattern is replaced by [x$]; nothing else is
    recorded, and the wildcard slice is appended at the returned index. *)
Theorem wildcard_reanchors_recorded_patterns
  (tss tss' : list _TemplateSlice) (vName : string)
  (valuePatterns valuePatterns' : gmap string _ValuePattern) (wildCardIdx wildCardIdx' : Z) :
  startAnchored valuePatterns ->
  wildCardIdx < 0 ->
  valuePatterns !! vName = None ->
  appendDynamicSliceTo tss vName "" valuePatterns wildCardIdx
  = Returns (inl (tss', wildCardIdx', valuePatterns')) ->
  tss' = appendSlice tss (dynamicS (mkVP vName None))
  /\ wildCardIdx' = Z.of_nat (List.length tss)
  /\ (forall n vp re x,
        valuePatterns !! n = Some vp -> vp_re vp = Some re -> re_String re = "^" +:+ x ->
        exists re', valuePatterns' !! n = Some (mkVP n (Some re'))
                    /\ re_String re' = x +:+ "$")
  /\ (forall n, valuePatterns !! n = None -> valuePatterns' !! n = None).
Proof.
  intros Hsa Hw Hfresh Happ. unfold appendDynamicSliceTo in Happ.
  rewrite Hfresh in Happ. cbn [String.eqb] in Happ.
  destruct (Z.leb_spec 0 wildCardIdx) as [|_]; [lia|].
  unfold obind in Happ.
  destruct (reanchorLoop (map_to_list valuePatterns) valuePatterns)
    as [[vps|]|] eqn:Eloop; try discriminate.
  injection Happ as <- <- <-.
  destruct (reanchorLoop_spec _ _ _ (NoDup_fst_map_to_list valuePatterns)
              (fun n vp Hin => proj1 (Hsa n vp (proj1 (elem_of_map_to_list _ n vp) Hin)))
              Eloop) as [Hin Hout].
  split; [reflexivity|]. split; [reflexivity|]. split.
  - intros n vp re x Hn Hre Hsrc.
    destruct (Hin n vp (proj2 (elem_of_map_to_list _ n vp) Hn)) as (re0 & re' & Hre0 & Hc & Hl).
    exists re'. split; [assumption|].
    rewrite (Compile_String _ _ Hc).
    assert (re0 = re) as -> by congruence.
    rewrite Hsrc. reflexivity.
  - intros n Hn. rewrite Hout; [assumption|].
    intros Hin'. apply list_elem_of_fmap in Hin' as ([m vp] & -> & Hm).
    apply elem_of_map_to_list in Hm. cbn in Hn. congruence.
Qed.

(** Before the wildcard every recorded pattern is start-anchored: a slice
    that is appended while the template has no wildcard keeps it so. *)
Lemma appendDynamicSliceTo_startAnchored
  (tss tss' : list _TemplateSlice) (vName pattern : string)
  (valuePatterns valuePatterns' : gmap string _ValuePattern) (wildCardIdx wildCardIdx' : Z) :
  startAnchored valuePatterns ->
  wildCardIdx < 0 ->
  appendDynamicSliceTo tss vName pattern valuePatterns wildCardIdx
  = Returns (inl (tss', wildCardIdx', valuePatterns')) ->
  wildCardIdx' < 0 ->
  startAnchored valuePatterns'.
Proof.
  intros Hsa Hw Happ Hw'. unfold appendDynamicSliceTo in Happ.
  destruct (valuePatterns !! vName) as [vp|] eqn:Evp.
  - destruct (negb (String.eqb pattern "")).
    + destruct (vp_re vp); [|discriminate].
      destruct (negb _); [discriminate|]. now injection Happ as <- <- <-.
    + now injection Happ as <- <- <-.
  - destruct (String.eqb pattern "").
    + destruct (Z.leb_spec 0 wildCardIdx) as [|_]; [lia|].
      unfold obind in Happ.
      destruct (reanchorLoop _ _) as [[vps|]|]; try discriminate.
      injection Happ as <- <- <-. lia.
    + unfold anchor in Happ. destruct (Z.leb_spec 0 wildCardIdx) as [|_]; [lia|].
      destruct (Compile ("^" +:+ pattern)) as [re|] eqn:Ec; [|discriminate].
      injection Happ as <- <- <-.
      intros n vp Hn. destruct (decide (vName = n)) as [->|Hne].
      * rewrite lookup_insert_eq in Hn. injection Hn as <-. split; [reflexivity|].
        exists re, pattern. split; [reflexivity|]. exact (Compile_String _ _ Ec).
      * rewrite lookup_insert_ne in Hn by assumption. now apply Hsa.
Qed.

End WithEngine.

(** [wildcard_reanchors_recorded_patterns] on the parse of [{id:[0-9]+}{w}]:
    when [{w}] is appended, [^[0-9]+] of [id] becomes [[0-9]+$]. *)
Lemma wildcard_reanchors_recorded_patterns_witness :
  let vp := mkVP (RE := MiniRegexp.engine) "id" (Some Examples.re_digits) in
  let vps : gmap string _ := {["id" := vp]} in
  let vps' : gmap string _ :=
    {["id" := mkVP (RE := MiniRegexp.engine) "id" (Some Examples.re_digits_end)]} in
  appendDynamicSliceTo [dynamicS vp] "w" "" vps (-1)
  = Returns (inl (appendSlice [dynamicS vp] (dynamicS (mkVP "w" None)), 1, vps'))
  /\ exists re', vps' !! "id" = Some (mkVP "id" (Some re'))
                 /\ re_String re' = "[0-9]+$".
Proof.
  intros vp vps vps'.
  assert (E : appendDynamicSliceTo [dynamicS vp] "w" "" vps (-1)
              = Returns (inl (appendSlice [dynamicS vp] (dynamicS (mkVP "w" None)), 1, vps')))
    by reflexivity.
  split; [exact E|].
  assert (Hsa : startAnchored vps).
  { intros n v Hn. destruct (decide (n = "id")) as [->|Hne].
    - injection Hn as <-. split; [reflexivity|].
      exists Examples.re_digits, "[0-9]+". split; reflexivity.
    - subst vps. rewrite lookup_singleton_ne in Hn by congruence. discriminate. }
  assert (Hw : -1 < 0) by lia.
  assert (Hfresh : vps !! "w" = None) by reflexivity.
  destruct (wildcard_reanchors_recorded_patterns _ _ _ _ _ _ _ Hsa Hw Hfresh E)
    as (_ & _ & Hre & _).
  exact (Hre "id" vp Examples.re_digits "[0-9]+" eq_refl eq_refl eq_refl).
Defined.

End AnchorFacts.

(** ** template.go: rendering and parsing again *)

Module RoundTripFacts.
Import GoStr GoStrFacts Tmpl.

Section WithEngine.
Context `{RE : RegexEngine}.

(** *** Strings *)

Lemma len_String (c : ascii) (str : string) : len (String c str) = len str + 1.
Proof. unfold len. cbn [String.length]. lia. Qed.

Lemma append_assoc (a b c : string) : (a +:+ b) +:+ c = a +:+ (b +:+ c).
Proof. induction a as [|x a IH]; cbn; [reflexivity | now rewrite IH]. Qed.

Lemma append_empty_r (a : string) : a +:+ "" = a.
Proof. induction a as [|x a IH]; cbn; [reflexivity | now rewrite IH]. Qed.

Lemma slice_0 (str : string) (b : Z) : slice str 0 b = upto str b.
Proof. unfold slice, upto. now rewrite Z.sub_0_r. Qed.

Lemma from_0 (str : string) : from str 0 = str.
Proof. reflexivity. Qed.

Lemma len_pos_nonempty (n : string) : n <> "" -> 0 < len n.
Proof. destruct n; [congruence|]. intros _. rewrite len_String. pose proof (len_nonneg n). lia. Qed.

(** *** The first wildcard of a template without patterns *)

Lemma appendDynamicSliceTo_first_wildcard (tss : list _TemplateSlice) (n : string) :
  appendDynamicSliceTo tss n "" ∅ (-1)
  = Returns (inl (appendSlice tss (dynamicS (mkVP n None)), Z.of_nat (List.length tss), ∅)).
Proof.
  unfold appendDynamicSliceTo. rewrite lookup_empty. cbn [String.eqb Z.leb].
  rewrite map_to_list_empty. reflexivity.
Qed.

Lemma eqb_append_brace (p r : string) : String.eqb (p +:+ String "{" r) "" = false.
Proof. destruct p; reflexivity. Qed.

(** *** [templateNameAndContent] on a string without a name *)

Lemma templateNameAndContent_unnamed (c : ascii) (body : string) :
  Ascii.eqb c "$" = false -> Ascii.eqb c "\" = false ->
  templateNameAndContent (String c body) = ("", String c body, None).
Proof.
  intros Hd Hb. unfold templateNameAndContent.
  rewrite bool_decide_eq_false_2
    by (intros [= ->]; discriminate Hd).
  rewrite (bool_decide_eq_false_2 (at_ (String c body) 0 = Some "\"%char))
    by (intros [= ->]; discriminate Hb).
  now rewrite andb_false_r.
Qed.

(** *** The slices around a wildcard *)

Lemma eqb_false_ne (a b : string) : a <> b -> String.eqb a b = false.
Proof. intros H. now destruct (String.eqb_spec a b). Qed.

Lemma IsStatic_wildcard_shape (nm p n q : string) (i : Z) :
  IsStatic (mkTemplate nm (optStatic p ++ [dynamicS (mkVP n None)] ++ optStatic q)%list i)
  = false.
Proof.
  unfold IsStatic, optStatic. cbn [slices].
  destruct (String.eqb p ""), (String.eqb q ""); reflexivity.
Qed.

Lemma optStatic_nonempty (p : string) : p <> "" -> optStatic p = [staticS p].
Proof. intros H. unfold optStatic. now rewrite (eqb_false_ne _ _ H). Qed.

End WithEngine.

Import MiniRegexp.

(** C7.  [{id:[0-9]+}abc] is parsed to a template whose pattern slice has the
    regexp [^[0-9]+]; the template is rendered as [$id:{id:^[0-9]+}abc], with
    the anchor, and that string is parsed to a template whose regexp is
    [^^[0-9]+]: the source strings of the regexps differ. *)
Lemma String_TryToParse_doubles_anchor :
  TryToParse "{id:[0-9]+}abc" = Returns (inl Examples.t_id_abc)
  /\ String_ Examples.t_id_abc = Returns "$id:{id:^[0-9]+}abc"
  /\ TryToParse "$id:{id:^[0-9]+}abc" = Returns (inl Examples.t_id2_abc)
  /\ templateImage Examples.t_id2_abc <> templateImage Examples.t_id_abc.
Proof.
  split; [reflexivity|]. split; [reflexivity|]. split; [reflexivity|].
  intros H. discriminate H.
Qed.

(** A value name that ends with a backslash: the rendered string of the
    parsed template [{a\}] is not a template. *)
Lemma String_TryToParse_backslash_name :
  TryToParse "{a\}" = Returns (inl Examples.t_a_backslash)
  /\ String_ Examples.t_a_backslash = Returns "$a\:{a\}"
  /\ TryToParse "$a\:{a\}" = Returns (inr ErrInvalidTemplate).
Proof. repeat split. Qed.

End RoundTripFacts.
(** ** template.go: the parser terminates and builds well-formed slices *)

Module ParseFacts.
Import GoStr GoStrFacts Tmpl.

Section WithEngine.
Context `{RE : RegexEngine}.

Lemma length_from (s : string) (i : Z) :
  String.length (from s i) = (String.length s - Z.to_nat i)%nat.
Proof. apply length_drop. Qed.

(** What [staticSlice] leaves is not longer than its argument. *)
Lemma staticLoop_left (rest s : string) (i idx : Z) (pch : ascii) (strb : string)
  (staticStr left : string) (err : option error) :
  staticLoop rest s i idx pch strb = (staticStr, left, err) ->
  (String.length left <= String.length s)%nat.
Proof.
  revert i idx pch strb.
  induction rest as [|ch rest IH]; intros i idx pch strb H; cbn [staticLoop] in H.
  - injection H as _ <- _. cbn. lia.
  - destruct (Ascii.eqb ch "{").
    + destruct (negb (Ascii.eqb pch "\")).
      * injection H as _ <- _. rewrite length_from. lia.
      * exact (IH _ _ _ _ H).
    + destruct (Ascii.eqb ch "}").
      * destruct (negb (Ascii.eqb pch "\")).
        -- injection H as _ <- _. cbn. lia.
        -- exact (IH _ _ _ _ H).
      * exact (IH _ _ _ _ H).
Qed.

Lemma staticSlice_left (s staticStr left : string) (err : option error) :
  staticSlice s = (staticStr, left, err) ->
  (String.length left <= String.length s)%nat.
Proof. apply staticLoop_left. Qed.

(** What [dynamicSlice] leaves is shorter than its non-empty argument. *)
Lemma dynLoop_left (rest s : string) (i : Z) (skip : bool) (st : dynState)
  (valueName pattern left : string) (err : option error) :
  s <> "" -> 0 <= i ->
  dynLoop rest s i skip st = (valueName, pattern, left, err) ->
  (String.length left < String.length s)%nat.
Proof.
  intros Hs. assert (Hlen : (0 < String.length s)%nat) by (destruct s; [congruence|cbn; lia]).
  assert (Hfrom : forall j, 0 <= j -> (String.length (from s (j + 1)) < String.length s)%nat)
    by (intros j Hj; rewrite length_from; lia).
  assert (Herr : forall r : dynResult, r = (valueName, pattern, left, err) ->
                 r = dynErr -> (String.length left < String.length s)%nat)
    by (intros r -> [= _ _ -> _]; exact Hlen).
  revert i skip st.
  induction rest as [|ch rest IH]; intros i skip st Hi H; cbn [dynLoop] in H.
  - destruct (0 <? depth st); injection H as _ _ <- _; exact Hlen.
  - assert (Hnext : forall b st', dynLoop rest s (i + 1) b st' = (valueName, pattern, left, err) ->
                    (String.length left < String.length s)%nat)
      by (intros b st'; apply IH; lia).
    repeat match type of H with
           | (if ?c then _ else _) = _ => destruct c
           | dynErr = _ => exact (Herr _ H eq_refl)
           | dynLoop _ _ _ _ _ = _ => exact (Hnext _ _ H)
           | (_, _, from s (i + 1), _) = _ => injection H as _ _ <- _; exact (Hfrom i Hi)
           end.
Qed.

Lemma dynamicSlice_left (s valueName pattern left : string) (err : option error) :
  s <> "" ->
  dynamicSlice s = (valueName, pattern, left, err) ->
  (String.length left < String.length s)%nat.
Proof. intros Hs. apply dynLoop_left; [assumption|lia]. Qed.

(** The fuel of [parseLoop] is never used up: with more fuel than the length
    of the template string the result does not depend on the fuel. *)
Lemma parseLoop_fuel (fuel1 fuel2 : nat) (s : string) (tss : list _TemplateSlice)
  (valuePatterns : gmap string _ValuePattern) (wildcardIdx : Z) :
  (String.length s < fuel1)%nat -> (String.length s < fuel2)%nat ->
  parseLoop fuel1 s tss valuePatterns wildcardIdx
  = parseLoop fuel2 s tss valuePatterns wildcardIdx.
Proof.
  revert fuel2 s tss valuePatterns wildcardIdx.
  induction fuel1 as [|fuel1 IH]; intros [|fuel2] s tss vps w H1 H2; try lia.
  cbn [parseLoop].
  destruct (0 <? len s); [|reflexivity].
  destruct (staticSlice s) as [[sstr left] err] eqn:Es.
  destruct err; [reflexivity|].
  destruct (String.eqb left "") eqn:El; [reflexivity|].
  destruct (dynamicSlice left) as [[[vName pattern] left'] err'] eqn:Ed.
  destruct err'; [reflexivity|].
  unfold obind. destruct (appendDynamicSliceTo _ _ _ _ _) as [[[[tss' w'] vps']|e]|];
    try reflexivity.
  apply staticSlice_left in Es.
  apply dynamicSlice_left in Ed; [|intros ->; discriminate].
  apply IH; lia.
Qed.

(** A successful [appendDynamicSliceTo] appends one dynamic slice. *)
Lemma appendDynamicSliceTo_slices (tss tss' : list _TemplateSlice) (vName pattern : string)
  (valuePatterns valuePatterns' : gmap string _ValuePattern) (wildCardIdx wildCardIdx' : Z) :
  appendDynamicSliceTo tss vName pattern valuePatterns wildCardIdx
  = Returns (inl (tss', wildCardIdx', valuePatterns')) ->
  exists vp, tss' = appendSlice tss (dynamicS vp).
Proof.
  unfold appendDynamicSliceTo. intros H.
  destruct (valuePatterns !! vName) as [vp|].
  - destruct (negb (String.eqb pattern "")).
    + destruct (vp_re vp); [|discriminate].
      destruct (negb _); [discriminate|]. injection H as <- _ _. now exists vp.
    + injection H as <- _ _. now exists vp.
  - destruct (String.eqb pattern "").
    + destruct (0 <=? wildCardIdx).
      * destruct (nth_error _ _); [|discriminate].
        unfold obind in H. destruct (slice_name _); [|discriminate].
        destruct (String.eqb _ _); discriminate.
      * unfold obind in H. destruct (reanchorLoop _ _) as [[vps|]|]; try discriminate.
        injection H as <- _ _. now eexists.
    + destruct (Compile _); [|discriminate]. injection H as <- _ _. now eexists.
Qed.

Lemma wfSlice_staticS (s : string) : s <> "" -> wfSlice (staticS s).
Proof. intros Hs. left. split; [exact Hs|reflexivity]. Qed.

Lemma wfSlice_dynamicS (vp : _ValuePattern) : wfSlice (dynamicS vp).
Proof. right. split; [reflexivity|discriminate]. Qed.

Lemma Forall_appendSlice {A : Type} (P : A -> Prop) (l : list A) (x : A) :
  Forall P l -> P x -> Forall P (appendSlice l x).
Proof. intros Hl Hx. apply Forall_app. split; [exact Hl|]. constructor; [exact Hx|constructor]. Qed.

(** The loop of [parse] keeps the slices well formed. *)
Lemma parseLoop_wf (fuel : nat) (s : string) (tss tss' : list _TemplateSlice)
  (valuePatterns : gmap string _ValuePattern) (wildcardIdx wildcardIdx' : Z) :
  Forall wfSlice tss ->
  parseLoop fuel s tss valuePatterns wildcardIdx = Returns (inl (tss', wildcardIdx')) ->
  Forall wfSlice tss'.
Proof.
  revert s tss valuePatterns wildcardIdx.
  induction fuel as [|fuel IH]; intros s tss vps w Hwf H; cbn [parseLoop] in H; [discriminate|].
  destruct (0 <? len s); [|now injection H as <- _].
  destruct (staticSlice s) as [[sstr left] err].
  destruct err; [discriminate|].
  assert (Hwf' : Forall wfSlice
                   (if negb (String.eqb sstr "") then appendSlice tss (staticS sstr) else tss)).
  { destruct (String.eqb_spec sstr ""); cbn [negb]; [exact Hwf|].
    apply Forall_appendSlice; [exact Hwf|now apply wfSlice_staticS]. }
  destruct (String.eqb left ""); [now injection H as <- _|].
  destruct (dynamicSlice left) as [[[vName pattern] left'] err'].
  destruct err'; [discriminate|].
  unfold obind in H.
  destruct (appendDynamicSliceTo _ _ _ _ _) as [[[[tss1 w1] vps1]|e]|] eqn:Ea;
    try discriminate.
  apply appendDynamicSliceTo_slices in Ea as [vp ->].
  apply (IH _ _ _ _ (Forall_appendSlice _ _ _ Hwf' (wfSlice_dynamicS vp)) H).
Qed.

(** The slices that [parse] returns are well formed. *)
Lemma parse_wf (tmplStr : string) (tmplSlcs : list _TemplateSlice) (wildcardIdx : Z) :
  parse tmplStr = Returns (inl (tmplSlcs, wildcardIdx)) -> Forall wfSlice tmplSlcs.
Proof.
  unfold parse. destruct (String.eqb tmplStr ""); [discriminate|].
  unfold obind.
  destruct (parseLoop _ _ _ _ _) as [[[tss w]|e]|] eqn:El; try discriminate.
  apply parseLoop_wf in El; [|constructor].
  intros H. destruct tss as [|slc [|slc' tss]]; try (injection H as <- _; exact El).
  destruct (valuePattern slc) as [[n [re|]]|] eqn:Evp; try (injection H as <- _; exact El).
  destruct (Compile _); [|discriminate]. injection H as <- _.
  constructor; [|constructor].
  apply Forall_inv in El. destruct El as [[_ Hn]|[Hs _]]; [congruence|].
  right. split; [exact Hs|discriminate].
Qed.

(** A template that [TryToParse] returns is well formed. *)
Lemma TryToParse_wf (tmplStr : string) (t : Template) :
  TryToParse tmplStr = Returns (inl t) -> wfTemplate t.
Proof.
  unfold TryToParse. destruct (String.eqb tmplStr ""); [discriminate|].
  destruct (templateNameAndContent tmplStr) as [[n content] err].
  destruct err; [discriminate|].
  unfold obind. destruct (parse content) as [[[tss w]|e]|] eqn:Ep; try discriminate.
  apply parse_wf in Ep. intros H.
  destruct (negb _ && _).
  - destruct (IsWildcard _).
    + destruct tss as [|slc tss]; [discriminate|].
      destruct (slice_name slc); [|discriminate]. injection H as <-. exact Ep.
    + injection H as <-. exact Ep.
  - injection H as <-. exact Ep.
Qed.

(** Rendering a well-formed template returns. *)
Lemma contentLoop_Returns (ts : list _TemplateSlice) (vns : gset string) (strb : string) :
  Forall wfSlice ts -> exists s, contentLoop ts vns strb = Returns s.
Proof.
  intros Hwf. revert vns strb.
  induction Hwf as [|slc ts Hslc _ IH]; intros vns strb; cbn [contentLoop]; [eauto|].
  destruct Hslc as [[Hs _]|[Hs Hvp]].
  - destruct (String.eqb_spec (staticStr slc) ""); [contradiction|]. apply IH.
  - rewrite Hs. cbn [String.eqb negb].
    destruct (valuePattern slc) as [vp|]; [|contradiction].
    destruct (vp_re vp); [destruct (negb _)|]; apply IH.
Qed.

Lemma String_Returns (t : Template) : wfTemplate t -> exists s, String_ t = Returns s.
Proof.
  intros Hwf. unfold String_, Content.
  destruct (contentLoop_Returns (slices t) ∅
              match slices t with
              | slc :: _ =>
                  if String.eqb (name t) "" && bool_decide (at_ (staticStr slc) 0 = Some "$"%char)
                  then "\" else ""
              | [] => ""
              end Hwf) as [c ->].
  cbn [obind]. eauto.
Qed.

End WithEngine.

End ParseFacts.
(** ** template.go: [SimilarityWith] on well-formed templates *)

Module SimilarityFacts.
Import GoStr Tmpl.

Section WithEngine.
Context `{RE : RegexEngine}.

Lemma IsStatic_inv (t : Template) :
  IsStatic t = true -> exists slc, slices t = [slc] /\ staticStr slc <> "".
Proof.
  unfold IsStatic. destruct (slices t) as [|slc [|]]; try discriminate.
  intros H. exists slc. split; [reflexivity|].
  destruct (String.eqb_spec (staticStr slc) ""); [discriminate|assumption].
Qed.

Lemma IsWildcard_inv (t : Template) :
  IsWildcard t = true ->
  exists slc vp, slices t = [slc] /\ valuePattern slc = Some vp /\ vp_re vp = None.
Proof.
  unfold IsWildcard. destruct (slices t) as [|slc [|]]; try discriminate.
  destruct (valuePattern slc) as [vp|] eqn:Evp; [|discriminate].
  destruct (vp_re vp) eqn:Ere; [discriminate|].
  intros _. now exists slc, vp.
Qed.

(** A well-formed template is not static and a wildcard at once. *)
Lemma IsStatic_not_IsWildcard (t : Template) :
  wfTemplate t -> IsStatic t = true -> IsWildcard t = false.
Proof.
  intros Hwf Hs. destruct (IsStatic_inv _ Hs) as (slc & Eslc & Hne).
  unfold wfTemplate in Hwf. rewrite Eslc in Hwf. apply Forall_inv in Hwf.
  unfold IsWildcard. rewrite Eslc.
  destruct Hwf as [[_ ->]|[? _]]; [reflexivity|contradiction].
Qed.

Lemma similarityLoop_refl (ts : list _TemplateSlice) (similarity : Similarity) :
  Forall wfSlice ts -> similarityLoop ts ts similarity = Returns (Some similarity).
Proof.
  induction 1 as [|slc ts Hslc _ IH]; [reflexivity|].
  cbn [similarityLoop]. destruct Hslc as [[Hs _]|[Hs Hvp]].
  - destruct (String.eqb_spec (staticStr slc) ""); [contradiction|]. cbn [negb].
    now rewrite String.eqb_refl.
  - rewrite Hs. cbn [String.eqb negb]. unfold slice_re, slice_name.
    destruct (valuePattern slc) as [vp|]; [|contradiction]. cbn [obind].
    destruct (vp_re vp) as [re|]; rewrite ?String.eqb_refl; cbn [negb]; exact IH.
Qed.

(** X7.  A well-formed template is the same as itself. *)
Lemma SimilarityWith_refl (t : Template) :
  wfTemplate t -> SimilarityWith t t = Returns TheSame.
Proof.
  intros Hwf. unfold SimilarityWith.
  destruct (IsStatic t) eqn:Es.
  - destruct (IsStatic_inv _ Es) as (slc & -> & _).
    now rewrite !String.eqb_refl.
  - destruct (IsWildcard t) eqn:Ew.
    + destruct (IsWildcard_inv _ Ew) as (slc & vp & -> & Evp & _).
      unfold slice_name. rewrite Evp. cbn [obind]. now rewrite !String.eqb_refl.
    + cbn [orb]. rewrite Z.eqb_refl, Nat.eqb_refl. cbn [negb].
      rewrite (similarityLoop_refl _ _ Hwf). cbn [obind].
      now rewrite String.eqb_refl, andb_false_r.
Qed.

Lemma similarityLoop_sym (ts1 ts2 : list _TemplateSlice) (similarity : Similarity)
  (x y : option Similarity) :
  Forall wfSlice ts1 -> Forall wfSlice ts2 ->
  similarityLoop ts1 ts2 similarity = Returns x ->
  similarityLoop ts2 ts1 similarity = Returns y ->
  x = y.
Proof.
  intros H1. revert ts2 similarity.
  induction H1 as [|slc1 ts1 Hslc1 _ IH]; intros [|slc2 ts2] similarity H2 Hx Hy;
    cbn [similarityLoop] in Hx, Hy; try congruence.
  apply Forall_cons in H2 as [Hslc2 H2].
  unfold slice_re, slice_name in Hx, Hy.
  destruct Hslc1 as [[Hs1 Hv1]|[Hs1 Hv1]], Hslc2 as [[Hs2 Hv2]|[Hs2 Hv2]].
  - destruct (String.eqb_spec (staticStr slc1) ""); [contradiction|].
    destruct (String.eqb_spec (staticStr slc2) ""); [contradiction|].
    cbn [negb] in Hx, Hy. rewrite (String.eqb_sym (staticStr slc2)) in Hy.
    destruct (String.eqb (staticStr slc1) (staticStr slc2)); cbn [negb] in Hx, Hy;
      [exact (IH _ _ H2 Hx Hy)|congruence].
  - rewrite Hs2, Hv1 in Hy. cbn [String.eqb negb] in Hy.
    destruct (valuePattern slc2) as [vp2|]; [|contradiction]. cbn [obind] in Hy.
    destruct (vp_re vp2); discriminate.
  - rewrite Hs1, Hv2 in Hx. cbn [String.eqb negb] in Hx.
    destruct (valuePattern slc1) as [vp1|]; [|contradiction]. cbn [obind] in Hx.
    destruct (vp_re vp1); discriminate.
  - rewrite Hs1 in Hx. rewrite Hs2 in Hy. cbn [String.eqb negb] in Hx, Hy.
    destruct (valuePattern slc1) as [vp1|]; [|contradiction].
    destruct (valuePattern slc2) as [vp2|]; [|contradiction].
    cbn [obind] in Hx, Hy.
    rewrite (String.eqb_sym (vp_name vp2)) in Hy.
    destruct (vp_re vp1) as [r1|], (vp_re vp2) as [r2|]; try congruence.
    + rewrite (String.eqb_sym (re_String r2)) in Hy.
      destruct (String.eqb (re_String r1) (re_String r2)); cbn [negb] in Hx, Hy;
        [exact (IH _ _ H2 Hx Hy)|congruence].
    + exact (IH _ _ H2 Hx Hy).
Qed.

(** X8.  On well-formed templates the comparison is symmetric whenever both
    calls return. *)
Lemma SimilarityWith_sym (a b : Template) (x y : Similarity) :
  wfTemplate a -> wfTemplate b ->
  SimilarityWith a b = Returns x ->
  SimilarityWith b a = Returns y ->
  x = y.
Proof.
  intros Ha Hb Hx Hy. unfold SimilarityWith in Hx, Hy.
  pose proof (IsStatic_not_IsWildcard _ Ha) as Hswa.
  pose proof (IsStatic_not_IsWildcard _ Hb) as Hswb.
  rewrite (String.eqb_sym (name b)) in Hy.
  destruct (IsStatic a) eqn:Esa.
  - rewrite (Hswa eq_refl) in Hy.
    destruct (IsStatic_inv _ Esa) as (s1 & Es1 & _). rewrite Es1 in Hx, Hy.
    destruct (IsStatic b) eqn:Esb.
    + destruct (IsStatic_inv _ Esb) as (s2 & Es2 & _). rewrite Es2 in Hx, Hy.
      cbn [andb] in Hx, Hy. rewrite (String.eqb_sym (staticStr s2)) in Hy.
      destruct (String.eqb (staticStr s1) (staticStr s2)); congruence.
    + assert (x = Different)
        by (destruct (slices b) as [|s2 [|]]; cbn [andb] in Hx; congruence).
      destruct (IsWildcard b); cbn [orb] in Hy; congruence.
  - destruct (IsStatic b) eqn:Esb.
    + rewrite (Hswb eq_refl) in Hx.
      destruct (IsStatic_inv _ Esb) as (s2 & Es2 & _). rewrite Es2 in Hy.
      assert (y = Different)
        by (destruct (slices a) as [|s1 [|]]; cbn [andb] in Hy; congruence).
      destruct (IsWildcard a); cbn [orb] in Hx; congruence.
    + destruct (IsWildcard a) eqn:Ewa, (IsWildcard b) eqn:Ewb; cbn [orb] in Hx, Hy;
        try congruence.
      * destruct (IsWildcard_inv _ Ewa) as (s1 & vp1 & Es1 & Ev1 & _).
        destruct (IsWildcard_inv _ Ewb) as (s2 & vp2 & Es2 & Ev2 & _).
        rewrite Es1, Es2 in Hx, Hy. unfold slice_name in Hx, Hy.
        rewrite Ev1, Ev2 in Hx, Hy. cbn [obind] in Hx, Hy.
        rewrite (String.eqb_sym (vp_name vp2)) in Hy.
        destruct (String.eqb (vp_name vp1) (vp_name vp2)); congruence.
      * rewrite (Z.eqb_sym (wildCardIdx b)) in Hy.
        destruct (wildCardIdx a =? wildCardIdx b); cbn [negb] in Hx, Hy; [|congruence].
        rewrite (Nat.eqb_sym (List.length (slices b))) in Hy.
        destruct (Nat.eqb (List.length (slices a)) (List.length (slices b)));
          cbn [negb] in Hx, Hy; [|congruence].
        unfold obind in Hx, Hy.
        destruct (similarityLoop (slices a) (slices b) TheSame) as [r1|] eqn:E1;
          [|discriminate].
        destruct (similarityLoop (slices b) (slices a) TheSame) as [r2|] eqn:E2;
          [|discriminate].
        assert (r1 = r2) as -> by exact (similarityLoop_sym _ _ _ _ _ Ha Hb E1 E2).
        destruct r2; congruence.
Qed.

End WithEngine.

End SimilarityFacts.

(** ** responder.go: configuration flags *)

Module ConfigFacts.
Import GoStr Tmpl Resp.

(** [cfs.has(flags)] holds when every bit of [flags] is set in [cfs]. *)
Lemma cfs_has_bits (c flags : Z) :
  cfs_has c flags = true <->
  (forall i, 0 <= i -> Z.testbit flags i = true -> Z.testbit c i = true).
Proof.
  unfold cfs_has. rewrite Z.eqb_eq. split.
  - intros H i Hi Hf. rewrite <- H in Hf. rewrite Z.land_spec in Hf.
    now apply andb_true_iff in Hf.
  - intros H. apply Z.bits_inj'. intros i Hi. rewrite Z.land_spec.
    destruct (Z.testbit flags i) eqn:E; [|apply andb_false_r].
    now rewrite (H i Hi E).
Qed.

Lemma uint8_high_bits (c i : Z) : is_uint8 c -> 8 <= i -> Z.testbit c i = false.
Proof.
  intros [H0 H1] Hi. destruct (Z.eq_dec c 0) as [->|Hc]; [apply Z.bits_0|].
  apply Z.bits_above_log2; [lia|].
  assert (Z.log2 c < 8) by (apply Z.log2_lt_pow2; lia). lia.
Qed.

Lemma cfs_has_unset (c flags : Z) :
  is_uint8 flags ->
  cfs_has c flags = false <-> bit_unset c flags.
Proof.
  intros Hu. split.
  - intros H.
    assert (Hex : forall n, 0 <= n ->
               (exists i, 0 <= i < n /\ Z.testbit flags i = true /\ Z.testbit c i = false)
               \/ (forall i, 0 <= i < n -> Z.testbit flags i = true -> Z.testbit c i = true)).
    { intros n Hn. pattern n. apply Z.right_induction with (z := 0); try assumption.
      - intros x y ->. reflexivity.
      - right. intros i Hi. lia.
      - intros m Hm [(i & Hi & Hf & Hc)|IH].
        + left. exists i. split; [lia | auto].
        + destruct (Z.testbit flags m) eqn:Ef, (Z.testbit c m) eqn:Ec;
            try (right; intros i Hi Hf;
                 destruct (Z.eq_dec i m) as [->|]; [congruence | apply IH; [lia | assumption]]).
          left. exists m. split; [lia | auto]. }
    destruct (Hex 8 ltac:(lia)) as [(i & Hi & Hf & Hc)|Hall].
    + exists i. split; [lia | auto].
    + exfalso. assert (cfs_has c flags = true); [|congruence].
      apply cfs_has_bits. intros i Hi Hf.
      destruct (Z.lt_ge_cases i 8) as [Hlt|Hge]; [apply Hall; [lia | assumption]|].
      rewrite (uint8_high_bits flags i Hu Hge) in Hf. discriminate.
  - intros (i & Hi & Hf & Hc). destruct (cfs_has c flags) eqn:E; [|reflexivity].
    rewrite cfs_has_bits in E. rewrite (E i Hi Hf) in Hc. discriminate.
Qed.

Lemma configCompatibilityFlags_inactive (rbcfs : Z) (secure tslash : bool) (c : option Z) :
  cfs_has rbcfs flagActive = false ->
  configCompatibilityFlags rbcfs secure tslash c = (configured rbcfs secure tslash c, None).
Proof.
  intros H. unfold configCompatibilityFlags, configured, cfs_set. rewrite H.
  destruct secure, tslash, c; rewrite ?Z.lor_0_r; reflexivity.
Qed.

Section WithEngine.
Context `{RE : RegexEngine} `{MR : MapRange}.

Lemma setCfs_same (rb : _ResponderBase) : setCfs rb (cfs rb) = rb.
Proof. now destruct rb. Qed.

Lemma configCompatibility_unfold (st : store) (r : addr) (rb : _ResponderBase)
  (secure tslash : bool) (c : option Z) :
  st !! r = Some rb ->
  configCompatibility r secure tslash c st =
    match configCompatibilityFlags (cfs rb) secure tslash c with
    | (_, Some e) => Returns (st, inr e)
    | (rbcfs, None) => Returns (<[r := setCfs rb rbcfs]> st, inl tt)
    end.
Proof.
  intros H. unfold configCompatibility, bind, load. rewrite H.
  destruct (configCompatibilityFlags _ _ _ _) as [rbcfs [e|]]; [reflexivity|].
  unfold modify. now rewrite H.
Qed.

(** The flag [flags] is set once it is or-ed in. *)
Lemma cfs_has_lor_r (c flags : Z) : cfs_has (Z.lor c flags) flags = true.
Proof.
  apply cfs_has_bits. intros i _ Hf. rewrite Z.lor_spec, Hf. apply orb_true_r.
Qed.

Lemma cfs_has_lor_l (c d flags : Z) :
  cfs_has c flags = true -> cfs_has (Z.lor c d) flags = true.
Proof.
  rewrite !cfs_has_bits. intros H i Hi Hf. now rewrite Z.lor_spec, (H i Hi Hf).
Qed.

(** C6.  [configCompatibility(secure, tslash, cfs)]: for a responder without
    the [active] flag no error is returned and the responder is written with
    new flags, its old flags or-ed with [active], with [secure] and
    [trailing_slash] when the arguments are true, and with the bits of [cfs]
    when it is given; nothing else of the responder and no other responder
    is changed.  For an active responder the call returns
    [ErrConflictingSecurity] when its [secure] flag differs from [secure];
    otherwise [ErrConflictingTrailingSlash] when it is not lenient on the
    trailing slash and its [trailing_slash] flag differs from [tslash];
    otherwise [ErrConflictingConfig] when [cfs] is given and one of its bits
    is not set in the flags of the responder; otherwise no error.  The heap,
    and so the flags of an active responder, is never changed. *)
Theorem configCompatibility_spec (st : store) (r : addr) (rb : _ResponderBase)
  (secure tslash : bool) (c : option Z) :
  st !! r = Some rb ->
  (forall cc, c = Some cc -> is_uint8 cc) ->
  let result := configCompatibility r secure tslash c st in
  let secureDiffers := cfs_has (cfs rb) flagSecure <> secure in
  let tslashDiffers :=
    cfs_has (cfs rb) flagLeniencyOnTrailingSlash = false
    /\ cfs_has (cfs rb) flagTrailingSlash <> tslash in
  let bitUnset := exists cc, c = Some cc /\ bit_unset (cfs rb) cc in
  (cfs_has (cfs rb) flagActive = false ->
     exists st' rb',
       result = Returns (st', inl tt)
       /\ st' !! r = Some rb'
       /\ (forall a, a <> r -> st' !! a = st !! a)
       /\ cfs rb'
          = Z.lor (Z.lor (Z.lor (Z.lor (cfs rb) flagActive)
                                (if secure then flagSecure else 0))
                         (if tslash then flagTrailingSlash else 0))
                  (match c with Some cc => cc | None => 0 end)
       /\ (forall i, 0 <= i ->
             Z.testbit (cfs rb') i
             = Z.testbit (cfs rb) i || Z.testbit flagActive i
               || secure && Z.testbit flagSecure i
               || tslash && Z.testbit flagTrailingSlash i
               || match c with Some cc => Z.testbit cc i | None => false end)
       /\ cfs_has (cfs rb') flagActive = true
       /\ (secure = true -> cfs_has (cfs rb') flagSecure = true)
       /\ (tslash = true -> cfs_has (cfs rb') flagTrailingSlash = true)
       /\ (forall cc, c = Some cc -> cfs_has (cfs rb') cc = true)
       /\ derived rb' = derived rb /\ tmpl rb' = tmpl rb /\ papa rb' = papa rb
       /\ staticResources rb' = staticResources rb
       /\ patternResources rb' = patternResources rb
       /\ wildcardResource rb' = wildcardResource rb
       /\ canHandle rb' = canHandle rb)
  /\ (cfs_has (cfs rb) flagActive = true ->
        (secureDiffers -> result = Returns (st, inr ErrConflictingSecurity))
        /\ (~ secureDiffers -> tslashDiffers ->
              result = Returns (st, inr ErrConflictingTrailingSlash))
        /\ (~ secureDiffers -> ~ tslashDiffers -> bitUnset ->
              result = Returns (st, inr ErrConflictingConfig))
        /\ (~ secureDiffers -> ~ tslashDiffers -> ~ bitUnset ->
              result = Returns (st, inl tt))).
Proof.
  intros Hr Hu result secureDiffers tslashDiffers bitUnset.
  subst result. rewrite (configCompatibility_unfold st r rb) by assumption.
  split.
  - intros Ha. rewrite configCompatibilityFlags_inactive by exact Ha.
    exists (<[r := setCfs rb (configured (cfs rb) secure tslash c)]> st),
      (setCfs rb (configured (cfs rb) secure tslash c)).
    split; [reflexivity|]. split; [apply lookup_insert_eq|].
    split; [intros a Ha'; now apply lookup_insert_ne|].
    cbn [cfs setCfs derived tmpl papa staticResources patternResources wildcardResource
           canHandle]. unfold configured.
    split; [reflexivity|]. split.
    { intros i Hi. rewrite !Z.lor_spec.
      destruct secure, tslash, c; cbn [andb]; rewrite ?Z.bits_0, ?orb_false_r; reflexivity. }
    split.
    { do 3 apply cfs_has_lor_l. apply cfs_has_lor_r. }
    split.
    { intros ->. do 2 apply cfs_has_lor_l. apply cfs_has_lor_r. }
    split.
    { intros ->. apply cfs_has_lor_l. apply cfs_has_lor_r. }
    split.
    { intros cc ->. apply cfs_has_lor_r. }
    repeat split.
  - intros Ha. unfold configCompatibilityFlags. rewrite Ha.
    subst secureDiffers tslashDiffers bitUnset.
    destruct (Bool.eqb (cfs_has (cfs rb) flagSecure) secure) eqn:Es.
    + apply Bool.eqb_prop in Es. cbn [negb].
      destruct (cfs_has (cfs rb) flagLeniencyOnTrailingSlash) eqn:El; cbn [negb andb].
      * (* lenient on the trailing slash *)
        split; [intros H; contradiction|]. split; [intros _ [H _]; discriminate|].
        destruct c as [cc|].
        -- destruct (cfs_has (cfs rb) cc) eqn:Ec; cbn [negb].
           ++ cbv beta iota; rewrite setCfs_same, insert_id by assumption.
              split; [|reflexivity].
              intros _ _ (cc' & [= <-] & Hb). apply cfs_has_unset in Hb; [congruence | eauto].
           ++ split; [reflexivity|]. intros _ _ Hn. exfalso. apply Hn.
              exists cc. split; [reflexivity|]. apply cfs_has_unset; eauto.
        -- cbv beta iota; rewrite setCfs_same, insert_id by assumption.
           split; [|reflexivity]. intros _ _ (cc' & [=] & _).
      * destruct (Bool.eqb (cfs_has (cfs rb) flagTrailingSlash) tslash) eqn:Et; cbn [negb].
        -- apply Bool.eqb_prop in Et.
           split; [intros H; contradiction|]. split; [intros _ [_ H]; contradiction|].
           destruct c as [cc|].
           ++ destruct (cfs_has (cfs rb) cc) eqn:Ec; cbn [negb].
              ** cbv beta iota; rewrite setCfs_same, insert_id by assumption.
                 split; [|reflexivity].
                 intros _ _ (cc' & [= <-] & Hb). apply cfs_has_unset in Hb; [congruence | eauto].
              ** split; [reflexivity|]. intros _ _ Hn. exfalso. apply Hn.
                 exists cc. split; [reflexivity|]. apply cfs_has_unset; eauto.
           ++ cbv beta iota; rewrite setCfs_same, insert_id by assumption.
              split; [|reflexivity]. intros _ _ (cc' & [=] & _).
        -- apply Bool.eqb_false_iff in Et.
           split; [intros H; contradiction|]. split; [reflexivity|].
           split; intros _ Hn; exfalso; apply Hn; auto.
    + apply Bool.eqb_false_iff in Es. cbn [negb].
      split; [reflexivity|]. repeat split; intros Hn; contradiction.
Qed.

End WithEngine.

(** [configCompatibility_spec] on a heap with one responder: a dummy
    resource gets the flags of [https://…/] with a subtree handler,
    [active], [subtree handler], [secure] and [trailing slash]: 23. *)
Lemma configCompatibility_spec_witness :
  let rb := mkResponder (RE := MiniRegexp.engine) DerivedResource
              (mkTemplatePtr 1%positive (mkTemplate "" [staticS "a"] (-1)))
              None ∅ [] None false 0 in
  exists st' rb',
    configCompatibility 1%positive true true (Some flagSubtreeHandler) {[1%positive := rb]}
    = Returns (st', inl tt)
    /\ st' !! 1%positive = Some rb'
    /\ cfs rb' = 23
    /\ cfs_has (cfs rb') flagActive = true
    /\ cfs_has (cfs rb') flagSecure = true
    /\ cfs_has (cfs rb') flagTrailingSlash = true
    /\ cfs_has (cfs rb') flagSubtreeHandler = true.
Proof.
  intros rb.
  assert (Hl : ({[1%positive := rb]} : gmap positive _) !! 1%positive = Some rb)
    by reflexivity.
  assert (Hu : forall cc, Some flagSubtreeHandler = Some cc -> is_uint8 cc)
    by (intros cc [= <-]; unfold is_uint8, flagSubtreeHandler; lia).
  destruct (configCompatibility_spec (RE := MiniRegexp.engine)
              {[1%positive := rb]} 1%positive rb true true (Some flagSubtreeHandler) Hl Hu)
    as [Hinactive _].
  destruct (Hinactive eq_refl)
    as (st' & rb' & Hres & Hlook & _ & Hcfs & _ & Ha & Hs & Ht & Hc & _).
  exists st', rb'. split; [exact Hres|]. split; [exact Hlook|].
  split; [rewrite Hcfs; reflexivity|]. split; [exact Ha|].
  split; [exact (Hs eq_refl)|]. split; [exact (Ht eq_refl)|]. exact (Hc _ eq_refl).
Defined.

End ConfigFacts.

(** ** responder.go: [ChildResourceNamed] *)

Module ChildFacts.
Import GoStr Tmpl Resp.

Section WithEngine.
Context `{RE : RegexEngine} `{MR : MapRange}.

Lemma firstNamed_find (st : store) (l : list addr) (name : string) :
  Forall (allocated st) l ->
  firstNamed l name st = Returns (st, inl (List.find (hasName st name) l)).
Proof.
  induction l as [|r l IH]; intros Hall; [reflexivity|].
  inversion Hall as [|? ? [node Hr] Hl]; subst.
  cbn [firstNamed List.find]. unfold bind at 1, nameOf, bind, load, ret.
  rewrite Hr. unfold hasName at 1. rewrite Hr.
  destruct (String.eqb _ name); [reflexivity | now apply IH].
Qed.

Lemma find_app {A : Type} (f : A -> bool) (l1 l2 : list A) :
  List.find f (l1 ++ l2)%list
  = match List.find f l1 with Some x => Some x | None => List.find f l2 end.
Proof.
  induction l1 as [|x l1 IH]; [reflexivity|]. cbn [List.find app].
  destruct (f x); [reflexivity | exact IH].
Qed.

(** C10.  [ChildResourceNamed(name)] returns nil for the empty name; otherwise
    it returns the first child named [name] in the order: the wildcard child,
    the pattern children in the order of registration, the static children
    (in the order in which the map is ranged over), and nil when no child
    has that name. *)
Theorem ChildResourceNamed_spec (st : store) (rb : addr) (node : _ResponderBase)
  (name : string) :
  st !! rb = Some node ->
  Forall (allocated st) (searchOrder node) ->
  ChildResourceNamed rb name st
  = Returns (st, inl (if String.eqb name "" then None
                      else List.find (hasName st name) (searchOrder node))).
Proof.
  intros Hrb Hall. unfold ChildResourceNamed.
  destruct (String.eqb name ""); [reflexivity|].
  unfold searchOrder in *.
  apply Forall_app in Hall as [Hw Hall]. apply Forall_app in Hall as [Hp Hs].
  unfold bind at 1, load. rewrite Hrb.
  unfold bind at 1. rewrite (firstNamed_find st _ name Hw).
  rewrite !find_app.
  destruct (List.find (hasName st name) (option_list (wildcardResource node)));
    [reflexivity|].
  unfold bind at 1. rewrite (firstNamed_find st _ name Hp).
  destruct (List.find (hasName st name) (patternResources node)); [reflexivity|].
  apply firstNamed_find, Hs.
Qed.

End WithEngine.

(** [ChildResourceNamed_spec] on the resource [p] at 1 with the pattern child
    [{id:[0-9]+}abc] at 2 and the wildcard child [$id:{w}] at 3, both named
    [id]: the wildcard child is found. *)
Lemma ChildResourceNamed_spec_witness :
  let node := mkResponder (RE := MiniRegexp.engine) DerivedResource
                (TreeExamples.staticT 1 "p") None ∅ [2%positive] (Some 3%positive) false 1 in
  let st : gmap positive _ :=
    {[ 1%positive := node;
       2%positive := TreeExamples.resource (mkTemplatePtr 2%positive Examples.t_id_abc)
                       (Some 1%positive) ∅ None true 1;
       3%positive := TreeExamples.resource
                       (mkTemplatePtr 3%positive
                          (mkTemplate "id" [dynamicS (mkVP "w" None)] 0))
                       (Some 1%positive) ∅ None true 1 ]} in
  ChildResourceNamed 1%positive "id" st = Returns (st, inl (Some 3%positive)).
Proof.
  intros node st.
  rewrite (ChildResourceNamed_spec st 1%positive node "id").
  - reflexivity.
  - reflexivity.
  - repeat constructor; eexists; reflexivity.
Defined.

End ChildFacts.

(** ** responder.go: collisions of templates *)

Module TreeFacts.
Import GoStr Tmpl Resp ParseFacts.

Section WithEngine.
Context `{RE : RegexEngine} `{MR : MapRange}.

(** *** Calls on the heap *)

Lemma bind_Returns {A B : Type} (m : M A) (k : A -> M B) (st st' : store) (res : B + error) :
  bind m k st = Returns (st', res) ->
  (exists st1 a, m st = Returns (st1, inl a) /\ k a st1 = Returns (st', res))
  \/ (exists e, m st = Returns (st', inr e) /\ res = inr e).
Proof.
  unfold bind. destruct (m st) as [[st1 [a|e]]|]; intros H; try discriminate.
  - left. eauto.
  - right. injection H as <- <-. eauto.
Qed.

Lemma load_Returns (a : addr) (st st' : store) (res : _ResponderBase + error) :
  load a st = Returns (st', res) ->
  st' = st /\ exists node, st !! a = Some node /\ res = inl node.
Proof.
  unfold load. destruct (st !! a) as [node|]; [|discriminate].
  intros [= <- <-]. eauto.
Qed.

Lemma bind_load_Returns {B : Type} (a : addr) (k : _ResponderBase -> M B)
  (st st' : store) (res : B + error) :
  bind (load a) k st = Returns (st', res) ->
  exists node, st !! a = Some node /\ k node st = Returns (st', res).
Proof.
  unfold bind, load. destruct (st !! a) as [node|]; [|discriminate]. eauto.
Qed.

Lemma modify_Returns (a : addr) (f : _ResponderBase -> _ResponderBase)
  (st st' : store) (res : unit + error) :
  modify a f st = Returns (st', res) ->
  exists node, st !! a = Some node /\ st' = <[a := f node]> st /\ res = inl tt.
Proof.
  unfold modify. destruct (st !! a) as [node|]; [|discriminate].
  intros [= <- <-]. eauto.
Qed.

Lemma lift_Returns {A : Type} (o : outcome A) (st st' : store) (res : A + error) :
  lift o st = Returns (st', res) -> st' = st /\ exists a, o = Returns a /\ res = inl a.
Proof. unfold lift. destruct o; [|discriminate]. intros [= <- <-]. eauto. Qed.

(** *** Footprints *)

Lemma writesWithin_refl (S : gset addr) (st : store) :
  closed S st -> writesWithin S st st.
Proof. intros H. repeat split; auto. Qed.

Lemma writesWithin_trans (S : gset addr) (st1 st2 st3 : store) :
  writesWithin S st1 st2 -> writesWithin S st2 st3 -> writesWithin S st1 st3.
Proof.
  intros (H1 & H2 & H3) (H4 & H5 & H6). repeat split; try assumption.
  - intros a Ha. rewrite H4, H1; auto.
  - intros H. apply H2, H5, H.
  - intros H. apply H5, H2, H.
Qed.

Lemma writesWithin_closed (S : gset addr) (st st' : store) :
  writesWithin S st st' -> closed S st'.
Proof. intros (_ & _ & H). exact H. Qed.

Lemma modify_writesWithin (S : gset addr) (a : addr)
  (f : _ResponderBase -> _ResponderBase) (st st' : store) (res : unit + error) :
  closed S st -> a ∈ S ->
  (forall node c, st !! a = Some node -> isChild (f node) c -> c ∈ S) ->
  modify a f st = Returns (st', res) ->
  writesWithin S st st'.
Proof.
  intros Hcl Ha Hf Hm. apply modify_Returns in Hm as (node & Hn & -> & _).
  repeat split.
  - intros b Hb. apply lookup_insert_ne. intros ->. contradiction.
  - intros [x Hx]. destruct (decide (a = a0)) as [<-|Hne]; [eauto|].
    rewrite lookup_insert_ne in Hx by assumption. eauto.
  - intros [x Hx]. destruct (decide (a = a0)) as [<-|Hne].
    + rewrite lookup_insert_eq. eauto.
    + rewrite lookup_insert_ne by assumption. eauto.
  - intros b nb c Hb Hnb Hc. destruct (decide (a = b)) as [<-|Hne].
    + rewrite lookup_insert_eq in Hnb. injection Hnb as <-. eauto.
    + rewrite lookup_insert_ne in Hnb by assumption. eauto.
Qed.

Lemma setParent_writesWithin (S : gset addr) (r : addr) (p : option _Parent)
  (st st' : store) (res : unit + error) :
  closed S st -> r ∈ S ->
  setParent r p st = Returns (st', res) ->
  writesWithin S st st'.
Proof.
  intros Hcl Hr H. unfold setParent in H. destruct p as [p|].
  - apply bind_load_Returns in H as (rb & Hn & H).
    destruct (_ && _); [injection H as <- _; now apply writesWithin_refl|].
    destruct (_ && _); [injection H as <- _; now apply writesWithin_refl|].
    eapply modify_writesWithin; [eassumption..| |exact H].
    intros nb c Hnb Hc. exact (Hcl _ _ _ Hr Hnb Hc).
  - eapply modify_writesWithin; [eassumption..| |exact H].
    intros nb c Hnb Hc. exact (Hcl _ _ _ Hr Hnb Hc).
Qed.

Lemma configCompatibility_writesWithin (S : gset addr) (r : addr) (secure tslash : bool)
  (c : option Z) (st st' : store) (res : unit + error) :
  closed S st -> r ∈ S ->
  configCompatibility r secure tslash c st = Returns (st', res) ->
  writesWithin S st st'.
Proof.
  intros Hcl Hr H. unfold configCompatibility in H.
  apply bind_load_Returns in H as (rb & Hn & H).
  destruct (configCompatibilityFlags _ _ _ _) as [rbcfs [e|]].
  - injection H as <- _. now apply writesWithin_refl.
  - eapply modify_writesWithin; [eassumption..| |exact H].
    intros nb x Hnb Hx. exact (Hcl _ _ _ Hr Hnb Hx).
Qed.

Lemma elem_of_list_insert_inv {A : Type} (l : list A) (i : nat) (x y : A) :
  y ∈ <[i := x]> l -> y = x \/ y ∈ l.
Proof.
  revert i. induction l as [|z l IH]; intros [|i] H; cbn in H; try (right; exact H).
  - apply elem_of_cons in H as [->|H]; [now left | right; now right].
  - apply elem_of_cons in H as [->|H]; [right; now left|].
    destruct (IH _ H) as [->|H']; [now left | right; now right].
Qed.

(** A child of a responder with one more child [r]. *)
Lemma isChild_static_insert (node : _ResponderBase) (k : string) (r c : addr) :
  isChild (setBuckets node (<[k := r]> (staticResources node))
             (patternResources node) (wildcardResource node)) c ->
  c = r \/ isChild node c.
Proof.
  intros [(k' & Hk)|[H|H]]; cbn in *.
  - destruct (decide (k = k')) as [<-|Hne].
    + rewrite lookup_insert_eq in Hk. injection Hk as <-. now left.
    + rewrite lookup_insert_ne in Hk by assumption. right. left. eauto.
  - right. right. now left.
  - right. right. now right.
Qed.

Lemma isChild_wildcard_set (node : _ResponderBase) (r c : addr) :
  isChild (setBuckets node (staticResources node) (patternResources node) (Some r)) c ->
  c = r \/ isChild node c.
Proof.
  intros [(k' & Hk)|[H|H]]; cbn in *.
  - right. left. eauto.
  - right. right. now left.
  - injection H as <-. now left.
Qed.

Lemma isChild_pattern_append (node : _ResponderBase) (r c : addr) :
  isChild (setBuckets node (staticResources node)
             (appendSlice (patternResources node) r) (wildcardResource node)) c ->
  c = r \/ isChild node c.
Proof.
  intros [(k' & Hk)|[H|H]]; cbn in *.
  - right. left. eauto.
  - unfold appendSlice in H. apply elem_of_app in H as [H|H].
    + right. right. now left.
    + apply list_elem_of_singleton in H. now left.
  - right. right. now right.
Qed.

Lemma isChild_pattern_insert (node : _ResponderBase) (i : nat) (r c : addr) :
  isChild (setBuckets node (staticResources node)
             (<[i := r]> (patternResources node)) (wildcardResource node)) c ->
  c = r \/ isChild node c.
Proof.
  intros [(k' & Hk)|[H|H]]; cbn in *.
  - right. left. eauto.
  - apply elem_of_list_insert_inv in H as [->|H]; [now left|]. right. right. now left.
  - right. right. now right.
Qed.

Lemma registerResource_writesWithin (S : gset addr) (rb r : addr)
  (st st' : store) (res : unit + error) :
  closed S st -> rb ∈ S -> r ∈ S ->
  registerResource rb r st = Returns (st', res) ->
  writesWithin S st st'.
Proof.
  intros Hcl Hrb Hr H. unfold registerResource in H.
  apply bind_load_Returns in H as (rrb & Hn & H).
  apply bind_Returns in H as [(st1 & [] & Hm & H)|(e & Hm & _)].
  - assert (Hw1 : writesWithin S st st1).
    { eapply modify_writesWithin; [exact Hcl | exact Hrb | | exact Hm].
      intros nb c Hnb Hc.
      destruct (IsStatic _); [apply isChild_static_insert in Hc|
        destruct (IsWildcard _); [apply isChild_wildcard_set in Hc|
                                  apply isChild_pattern_append in Hc]];
        (destruct Hc as [->|Hc]; [exact Hr | exact (Hcl _ _ _ Hrb Hnb Hc)]). }
    eapply writesWithin_trans; [exact Hw1|].
    eapply setParent_writesWithin; [exact (writesWithin_closed _ _ _ Hw1) | exact Hr | exact H].
  - eapply modify_writesWithin; [exact Hcl | exact Hrb | | exact Hm].
    intros nb c Hnb Hc.
    destruct (IsStatic _); [apply isChild_static_insert in Hc|
      destruct (IsWildcard _); [apply isChild_wildcard_set in Hc|
                                apply isChild_pattern_append in Hc]];
      (destruct Hc as [->|Hc]; [exact Hr | exact (Hcl _ _ _ Hrb Hnb Hc)]).
Qed.

Lemma isChild_replaceChild (node : _ResponderBase) (t : Template) (oldR newR c : addr) :
  isChild (replaceChild node t oldR newR) c -> c = newR \/ isChild node c.
Proof.
  unfold replaceChild. intros Hc.
  destruct (IsStatic t); [now apply isChild_static_insert in Hc|].
  destruct (IsWildcard t); [now apply isChild_wildcard_set in Hc|].
  now apply isChild_pattern_insert in Hc.
Qed.

Lemma replaceResource_writesWithin (S : gset addr) (rb oldR newR : addr)
  (st st' : store) (res : unit + error) :
  closed S st -> rb ∈ S -> oldR ∈ S -> newR ∈ S ->
  replaceResource rb oldR newR st = Returns (st', res) ->
  writesWithin S st st'.
Proof.
  intros Hcl Hrb Ho Hn H. unfold replaceResource in H.
  apply bind_load_Returns in H as (onode & Hnode & H).
  apply bind_load_Returns in H as (rbnode & Hnode' & H).
  assert (Hmod : forall st1 res1,
            modify rb (fun node => replaceChild node (tval (tmpl onode)) oldR newR) st
            = Returns (st1, res1) -> writesWithin S st st1).
  { intros st1 res1 Hm.
    eapply modify_writesWithin; [exact Hcl | exact Hrb | | exact Hm].
    intros nb c Hnb Hc. apply isChild_replaceChild in Hc as [->|Hc];
      [exact Hn | exact (Hcl _ _ _ Hrb Hnb Hc)]. }
  destruct (_ || _); [discriminate|].
  apply bind_Returns in H as [(st1 & [] & Hm & H)|(e & Hm & _)]; [|exact (Hmod _ _ Hm)].
  pose proof (Hmod _ _ Hm) as Hw1.
  eapply writesWithin_trans; [exact Hw1|].
  apply bind_Returns in H as [(st2 & [] & Hp & H)|(e & Hp & _)].
  - assert (Hw2 : writesWithin S st1 st2)
      by (eapply setParent_writesWithin;
          [exact (writesWithin_closed _ _ _ Hw1) | exact Hn | exact Hp]).
    eapply writesWithin_trans; [exact Hw2|].
    eapply setParent_writesWithin; [exact (writesWithin_closed _ _ _ Hw2) | exact Ho | exact H].
  - eapply setParent_writesWithin; [exact (writesWithin_closed _ _ _ Hw1) | exact Hn | exact Hp].
Qed.

(** *** The child with a similar template *)

Lemma similarChild_Returns (c : addr) (ctmpl t : TemplatePtr) (st st' : store)
  (res : option addr + error) :
  similarChild c ctmpl t st = Returns (st', res) ->
  st' = st /\ (forall x, res = inl (Some x) -> x = c).
Proof.
  unfold similarChild. destruct (Pos.eqb _ _).
  - intros [= <- <-]. split; [reflexivity|]. now intros x [= <-].
  - intros H. apply bind_Returns in H as [(st1 & sim & Hl & H)|(e & Hl & _)];
      apply lift_Returns in Hl as (-> & a & Ha & Heq); [|discriminate].
    injection Heq as <-.
    destruct sim; injection H as <- <-; (split; [reflexivity|]); intros x [=]; auto.
Qed.

Lemma patternWithTemplate_Returns (prs : list addr) (t : TemplatePtr) (st st' : store)
  (res : option addr + error) :
  patternWithTemplate prs t st = Returns (st', res) ->
  st' = st /\ (forall x, res = inl (Some x) -> x ∈ prs).
Proof.
  induction prs as [|pr prs IH]; cbn [patternWithTemplate].
  - intros [= <- <-]. split; [reflexivity|]. intros x [=].
  - intros H. apply bind_load_Returns in H as (prb & Hn & H).
    apply bind_Returns in H as [(st1 & found & Hs & H)|(e & Hs & ->)];
      apply similarChild_Returns in Hs as [-> Hc].
    + destruct found as [c|].
      * injection H as <- <-. split; [reflexivity|].
        intros x [= <-]. rewrite (Hc c eq_refl). now left.
      * destruct (IH H) as [-> Hin]. split; [reflexivity|].
        intros x Hx. right. now apply Hin.
    + split; [reflexivity|]. intros x [=].
Qed.

(** [resourceWithTemplate] does not write, and what it returns is a child. *)
Lemma resourceWithTemplate_Returns (rb : addr) (t : TemplatePtr) (st st' : store)
  (res : option addr + error) :
  resourceWithTemplate rb t st = Returns (st', res) ->
  st' = st
  /\ (forall x, res = inl (Some x) -> exists node, st !! rb = Some node /\ isChild node x).
Proof.
  unfold resourceWithTemplate. intros H.
  apply bind_load_Returns in H as (rbnode & Hn & H).
  destruct (IsStatic (tval t)).
  - destruct (staticResources rbnode !! _) as [r|] eqn:Er.
    + apply bind_load_Returns in H as (rrb & Hn' & H).
      assert (Hch : isChild rbnode r) by (left; eauto).
      destruct (Pos.eqb _ _); [|destruct (negb _)]; injection H as <- <-;
        (split; [reflexivity|]); intros x [=]; subst; eauto.
    + injection H as <- <-. split; [reflexivity|]. intros x [=].
  - destruct (IsWildcard (tval t)).
    + destruct (wildcardResource rbnode) as [w|] eqn:Ew.
      * apply bind_load_Returns in H as (wrb & Hn' & H).
        apply similarChild_Returns in H as [-> Hc]. split; [reflexivity|].
        intros x Hx. rewrite (Hc x Hx). exists rbnode. split; [assumption|].
        right. right. assumption.
      * injection H as <- <-. split; [reflexivity|]. intros x [=].
    + apply patternWithTemplate_Returns in H as [-> Hin]. split; [reflexivity|].
      intros x Hx. exists rbnode. split; [assumption|]. right. left. now apply Hin.
Qed.

(** *** Moving the children *)

Lemma forEach_writesWithin (S : gset addr) (l : list addr) (body : addr -> M unit) :
  (forall x st st' res, x ∈ l -> closed S st -> body x st = Returns (st', res) ->
     writesWithin S st st') ->
  forall st st' res, closed S st -> forEach l body st = Returns (st', res) ->
    writesWithin S st st'.
Proof.
  induction l as [|x l IH]; intros Hbody st st' res Hcl H; cbn [forEach] in H.
  - injection H as <- _. now apply writesWithin_refl.
  - apply bind_Returns in H as [(st1 & [] & Hx & H)|(e & Hx & _)].
    + assert (Hw : writesWithin S st st1).
      { eapply Hbody; [left | exact Hcl | exact Hx]. }
      eapply writesWithin_trans; [exact Hw|].
      eapply IH; [|exact (writesWithin_closed _ _ _ Hw)|exact H].
      intros y s1 s2 r0 Hy. apply Hbody. now right.
    + eapply Hbody; [left | exact Hcl | exact Hx].
Qed.

Lemma rangeMap_isChild (node : _ResponderBase) (x : addr) :
  x ∈ map snd (rangeMap (staticResources node)) -> isChild node x.
Proof.
  intros H. apply list_elem_of_In, in_map_iff in H as ([k y] & <- & Hin).
  apply list_elem_of_In in Hin. rewrite rangeMap_perm in Hin.
  apply elem_of_map_to_list in Hin. left. eauto.
Qed.

Lemma option_list_isChild (node : _ResponderBase) (x : addr) :
  x ∈ option_list (wildcardResource node) -> isChild node x.
Proof.
  intros Hx. right. right. destruct (wildcardResource node); cbn in Hx.
  - apply list_elem_of_singleton in Hx. now subst.
  - inversion Hx.
Qed.

Lemma passChildResourcesWith_writesWithin (S : gset addr)
  (keep : addr -> addr -> M unit) (rb r : addr) :
  (forall x st st' res, x ∈ S -> closed S st -> keep r x st = Returns (st', res) ->
     writesWithin S st st') ->
  forall st st' res, closed S st -> rb ∈ S ->
    passChildResourcesWith keep rb r st = Returns (st', res) ->
    writesWithin S st st'.
Proof.
  intros Hkeep st st' res Hcl Hrb H. unfold passChildResourcesWith in H.
  assert (Hloop : forall l s1 s2 r0 node, closed S s1 -> s1 !! rb = Some node ->
            (forall x, x ∈ l -> isChild node x) ->
            forEach l (keep r) s1 = Returns (s2, r0) -> writesWithin S s1 s2).
  { intros l s1 s2 r0 node Hc1 Hn Hl Hf.
    refine (forEach_writesWithin S l (keep r) _ s1 s2 r0 Hc1 Hf).
    intros x t1 t2 r1 Hx Hct. apply Hkeep; [|assumption].
    exact (Hc1 _ _ _ Hrb Hn (Hl x Hx)). }
  apply bind_load_Returns in H as (node & Hn & H).
  apply bind_Returns in H as [(st1 & [] & H1 & H)|(e & H1 & _)];
    [|exact (Hloop _ _ _ _ _ Hcl Hn (rangeMap_isChild node) H1)].
  pose proof (Hloop _ _ _ _ _ Hcl Hn (rangeMap_isChild node) H1) as Hw1.
  eapply writesWithin_trans; [exact Hw1|].
  pose proof (writesWithin_closed _ _ _ Hw1) as Hcl1.
  apply bind_load_Returns in H as (node1 & Hn1 & H).
  assert (Hpat : forall x, x ∈ patternResources node1 -> isChild node1 x)
    by (intros x Hx; right; now left).
  apply bind_Returns in H as [(st2 & [] & H2 & H)|(e & H2 & _)];
    [|exact (Hloop _ _ _ _ _ Hcl1 Hn1 Hpat H2)].
  pose proof (Hloop _ _ _ _ _ Hcl1 Hn1 Hpat H2) as Hw2.
  eapply writesWithin_trans; [exact Hw2|].
  pose proof (writesWithin_closed _ _ _ Hw2) as Hcl2.
  apply bind_load_Returns in H as (node2 & Hn2 & H).
  apply bind_Returns in H as [(st3 & [] & H3 & H)|(e & H3 & _)];
    [|exact (Hloop _ _ _ _ _ Hcl2 Hn2 (option_list_isChild node2) H3)].
  pose proof (Hloop _ _ _ _ _ Hcl2 Hn2 (option_list_isChild node2) H3) as Hw3.
  eapply writesWithin_trans; [exact Hw3|].
  eapply modify_writesWithin; [exact (writesWithin_closed _ _ _ Hw3)|exact Hrb| |exact H].
  intros nb c _ [(k & Hk)|[Hc|Hc]]; cbn in *.
  - rewrite lookup_empty in Hk. discriminate.
  - inversion Hc.
  - discriminate.
Qed.

(** [keepResourceOrItsChildResources] writes the receiver, the argument and
    their descendants only. *)
Lemma keep_writesWithin (S : gset addr) (fuel : nat) :
  forall rb r st st' res, closed S st -> rb ∈ S -> r ∈ S ->
    keepResourceOrItsChildResources fuel rb r st = Returns (st', res) ->
    writesWithin S st st'.
Proof.
  induction fuel as [|fuel IH]; intros rb r st st' res Hcl Hrb Hr H; [discriminate|].
  cbn [keepResourceOrItsChildResources] in H.
  apply bind_load_Returns in H as (rrb & Hn & H).
  apply bind_Returns in H as [(st0 & found & Hf & H)|(e & Hf & _)];
    apply resourceWithTemplate_Returns in Hf as [-> Hch];
    [|now apply writesWithin_refl].
  destruct found as [rwt|];
    [|exact (registerResource_writesWithin _ _ _ _ _ _ Hcl Hrb Hr H)].
  destruct (Hch rwt eq_refl) as (rbnode & Hrbn & Hchild).
  assert (Hrwt : rwt ∈ S) by exact (Hcl _ _ _ Hrb Hrbn Hchild).
  apply bind_Returns in H as [(st1 & [] & Hc & H)|(e & Hc & _)];
    [|exact (configCompatibility_writesWithin _ _ _ _ _ _ _ _ Hcl Hrwt Hc)].
  pose proof (configCompatibility_writesWithin _ _ _ _ _ _ _ _ Hcl Hrwt Hc) as Hw1.
  eapply writesWithin_trans; [exact Hw1|].
  pose proof (writesWithin_closed _ _ _ Hw1) as Hcl1.
  assert (Hpass : forall src dst s1 s2 r0, closed S s1 -> src ∈ S -> dst ∈ S ->
            passChildResourcesWith (keepResourceOrItsChildResources fuel) src dst s1
            = Returns (s2, r0) -> writesWithin S s1 s2).
  { intros src dst s1 s2 r0 Hc1 Hsrc Hdst Hp.
    eapply passChildResourcesWith_writesWithin; [|exact Hc1|exact Hsrc|exact Hp].
    intros x t1 t2 r1 Hx Hct. now apply IH. }
  destruct (negb (canHandle rrb)); [exact (Hpass _ _ _ _ _ Hcl1 Hr Hrwt H)|].
  apply bind_load_Returns in H as (rwtrb & Hn' & H).
  destruct (negb (canHandle rwtrb)).
  - apply bind_Returns in H as [(st2 & [] & Hp & H)|(e & Hp & _)];
      [|exact (Hpass _ _ _ _ _ Hcl1 Hrwt Hr Hp)].
    pose proof (Hpass _ _ _ _ _ Hcl1 Hrwt Hr Hp) as Hw2.
    eapply writesWithin_trans; [exact Hw2|].
    exact (replaceResource_writesWithin _ _ _ _ _ _ _
             (writesWithin_closed _ _ _ Hw2) Hrb Hrwt Hr H).
  - apply bind_Returns in H as [(st2 & x & Hl & H)|(e & Hl & _)];
      apply lift_Returns in Hl as (-> & _); [|now apply writesWithin_refl].
    injection H as <- _. now apply writesWithin_refl.
Qed.

End WithEngine.
End TreeFacts.

(** ** responder.go: [keepResourceOrItsChildResources] *)

Module CollisionFacts.
Import GoStr Tmpl Resp ParseFacts TreeFacts.

Section WithEngine.
Context `{RE : RegexEngine} `{MR : MapRange}.


Lemma setParent_Returns (r : addr) (p : option _Parent) (st st' : store) :
  setParent r p st = Returns (st', inl tt) ->
  exists node, st !! r = Some node /\ st' = <[r := setPapa node p]> st.
Proof.
  unfold setParent. destruct p as [p|]; intros H.
  - apply bind_load_Returns in H as (rb & Hn & H).
    destruct (_ && _); [discriminate|]. destruct (_ && _); [discriminate|].
    apply modify_Returns in H as (node & Hn' & -> & _).
    exists node. split; [assumption | reflexivity].
  - apply modify_Returns in H as (node & Hn' & -> & _).
    exists node. split; [assumption | reflexivity].
Qed.


(** After [passChildResourcesTo] the buckets of the receiver are empty. *)
Lemma passChildResourcesWith_Returns (keep : addr -> addr -> M unit) (rb r : addr)
  (st st' : store) :
  passChildResourcesWith keep rb r st = Returns (st', inl tt) ->
  exists node, st' !! rb = Some node /\ noChildren node.
Proof.
  unfold passChildResourcesWith. intros H.
  apply bind_load_Returns in H as (node & Hn & H).
  apply bind_Returns in H as [(st1 & [] & _ & H)|(e & _ & [=])].
  apply bind_load_Returns in H as (node1 & Hn1 & H).
  apply bind_Returns in H as [(st2 & [] & _ & H)|(e & _ & [=])].
  apply bind_load_Returns in H as (node2 & Hn2 & H).
  apply bind_Returns in H as [(st3 & [] & _ & H)|(e & _ & [=])].
  apply modify_Returns in H as (node3 & Hn3 & -> & _).
  eexists. split; [apply lookup_insert_eq|]. repeat split.
Qed.





End WithEngine.



End CollisionFacts.

(** ** template.go: the shape of the parsed templates *)

Module ShapeFacts.
Import GoStr GoStrFacts Tmpl TmplMore ParseFacts AnchorFacts.

Section WithEngine.
Context `{RE : RegexEngine}.

Lemma lookup_appendSlice {A : Type} (l : list A) (x y : A) (i : nat) :
  appendSlice l x !! i = Some y <->
  (i < List.length l)%nat /\ l !! i = Some y \/ i = List.length l /\ x = y.
Proof. unfold appendSlice. apply lookup_snoc_Some. Qed.

Lemma length_appendSlice {A : Type} (l : list A) (x : A) :
  List.length (appendSlice l x) = S (List.length l).
Proof. unfold appendSlice. rewrite length_app. cbn. lia. Qed.

Lemma staticS_not_wildcard (s : string) : ~ isWildcardSlice (staticS s).
Proof. intros (vp & H & _). discriminate. Qed.

Lemma pattern_not_wildcard (vp : _ValuePattern) :
  vp_re vp <> None -> ~ isWildcardSlice (dynamicS vp).
Proof. intros Hre (vp' & [= <-] & H). contradiction. Qed.

(** One more slice that is not a wildcard. *)
Lemma wildcardAt_append_other (tss : list _TemplateSlice) (w : Z) (x : _TemplateSlice) :
  wildcardAt tss w -> ~ isWildcardSlice x -> wildcardAt (appendSlice tss x) w.
Proof.
  intros [Hb Hi] Hx. split.
  - rewrite length_appendSlice. lia.
  - intros i slc Hl. apply lookup_appendSlice in Hl as [[Hlt Hl]|[-> <-]].
    + now apply Hi.
    + split; [contradiction | lia].
Qed.

(** The first wildcard slice. *)
Lemma wildcardAt_append_wildcard (tss : list _TemplateSlice) (w : Z) (x : _TemplateSlice) :
  wildcardAt tss w -> w < 0 -> isWildcardSlice x ->
  wildcardAt (appendSlice tss x) (Z.of_nat (List.length tss)).
Proof.
  intros [Hb Hi] Hw Hx. split.
  - rewrite length_appendSlice. lia.
  - intros i slc Hl. apply lookup_appendSlice in Hl as [[Hlt Hl]|[-> <-]].
    + split; [|lia]. intros Hs. apply (Hi i slc Hl) in Hs. lia.
    + split; auto.
Qed.

Lemma anchoredAround_append (tss : list _TemplateSlice) (w : Z) (x : _TemplateSlice) :
  anchoredAround tss w -> w < Z.of_nat (List.length tss) ->
  (forall vp re, valuePattern x = Some vp -> vp_re vp = Some re ->
     if w <? 0 then startsWithCaret re else endsWithDollar re) ->
  anchoredAround (appendSlice tss x) w.
Proof.
  intros Ha Hb Hx i slc vp re Hl Hvp Hre.
  apply lookup_appendSlice in Hl as [[Hlt Hl]|[-> <-]].
  - exact (Ha i slc vp re Hl Hvp Hre).
  - specialize (Hx vp re Hvp Hre).
    destruct (Z.ltb_spec w 0); cbn [orb]; [exact Hx|].
    destruct (Z.ltb_spec (Z.of_nat (List.length tss)) w); [lia | exact Hx].
Qed.

Lemma anchoredAround_append_wildcard (tss : list _TemplateSlice) (w : Z)
  (x : _TemplateSlice) :
  anchoredAround tss w -> w < 0 -> isWildcardSlice x ->
  anchoredAround (appendSlice tss x) (Z.of_nat (List.length tss)).
Proof.
  intros Ha Hw (vpx & Hvpx & Hrex) i slc vp re Hl Hvp Hre.
  apply lookup_appendSlice in Hl as [[Hlt Hl]|[-> <-]].
  - specialize (Ha i slc vp re Hl Hvp Hre).
    destruct (Z.ltb_spec w 0); [|lia]. cbn [orb] in Ha.
    destruct (Z.ltb_spec (Z.of_nat (List.length tss)) 0); [lia|]. cbn [orb].
    destruct (Z.ltb_spec (Z.of_nat i) (Z.of_nat (List.length tss))); [exact Ha | lia].
  - congruence.
Qed.

Lemma parseInv_nil : parseInv [] (-1) ∅.
Proof.
  split; [constructor|]. split; [|split; [|split]].
  - split; [now left|]. intros i slc H. discriminate.
  - intros i slc vp re H. discriminate.
  - intros _. apply startAnchored_empty.
  - lia.
Qed.

Lemma parseInv_bound (tss : list _TemplateSlice) (w : Z)
  (vps : gmap string _ValuePattern) :
  parseInv tss w vps -> w = -1 \/ 0 <= w < Z.of_nat (List.length tss).
Proof. intros (_ & [Hb _] & _). exact Hb. Qed.

(** What is recorded has a regexp. *)
Lemma parseInv_recorded (tss : list _TemplateSlice) (w : Z)
  (vps : gmap string _ValuePattern) (n : string) (vp : _ValuePattern) :
  parseInv tss w vps -> vps !! n = Some vp ->
  exists re, vp_re vp = Some re
             /\ if w <? 0 then startsWithCaret re else endsWithDollar re.
Proof.
  intros (_ & _ & _ & Hs & He) Hn. destruct (Z.ltb_spec w 0) as [Hw|Hw].
  - destruct (Hs Hw n vp Hn) as (_ & re & x & Hre & Hsrc). exists re. split; [exact Hre|].
    now exists x.
  - destruct (He Hw n vp Hn) as (_ & re & Hre & Hend). now exists re.
Qed.

Lemma parseInv_static (tss : list _TemplateSlice) (w : Z)
  (vps : gmap string _ValuePattern) (s : string) :
  parseInv tss w vps -> s <> "" -> parseInv (appendSlice tss (staticS s)) w vps.
Proof.
  intros Hinv Hs. pose proof (parseInv_bound _ _ _ Hinv) as Hb.
  destruct Hinv as (Hwf & Hw & Ha & Hst & Hen).
  split; [|split; [|split; [|split]]]; try assumption.
  - apply Forall_appendSlice; [exact Hwf | now apply wfSlice_staticS].
  - apply wildcardAt_append_other; [exact Hw | apply staticS_not_wildcard].
  - apply anchoredAround_append; [exact Ha | lia |]. intros vp re H. discriminate.
Qed.

(** The entries of the re-anchored map. *)
Lemma reanchored_endAnchored (vps vps' : gmap string _ValuePattern) :
  startAnchored vps ->
  reanchorLoop (map_to_list vps) vps = Returns (Some vps') ->
  endAnchored vps'.
Proof.
  intros Hsa Hloop.
  destruct (reanchorLoop_spec _ _ _ (NoDup_fst_map_to_list vps)
              (fun n vp Hin => proj1 (Hsa n vp (proj1 (elem_of_map_to_list _ n vp) Hin)))
              Hloop) as [Hin Hout].
  intros n vp' Hn. destruct (vps !! n) as [vp|] eqn:Eold.
  - destruct (Hin n vp (proj2 (elem_of_map_to_list _ n vp) Eold))
      as (re & re' & Hre & Hc & Hl).
    rewrite Hl in Hn. injection Hn as <-. split; [reflexivity|].
    exists re'. split; [reflexivity|]. eexists. exact (Compile_String _ _ Hc).
  - rewrite Hout in Hn; [congruence|].
    intros Hin'. apply list_elem_of_fmap in Hin' as ([m vp] & -> & Hm).
    apply elem_of_map_to_list in Hm. cbn in Eold. congruence.
Qed.

(** [appendDynamicSliceTo] keeps the invariant of the loop of [parse]. *)
Lemma parseInv_dynamic (tss tss' : list _TemplateSlice) (vName pattern : string)
  (vps vps' : gmap string _ValuePattern) (w w' : Z) :
  parseInv tss w vps ->
  appendDynamicSliceTo tss vName pattern vps w = Returns (inl (tss', w', vps')) ->
  parseInv tss' w' vps'.
Proof.
  intros Hinv H. pose proof (parseInv_bound _ _ _ Hinv) as Hb.
  pose proof (fun vp => parseInv_recorded tss w vps vName vp Hinv) as Hrec.
  destruct Hinv as (Hwf & Hw & Ha & Hst & Hen).
  unfold appendDynamicSliceTo in H.
  destruct (vps !! vName) as [vp|] eqn:Evp.
  - (* the value name is recorded *)
    assert (Hgoal : parseInv (appendSlice tss (dynamicS vp)) w vps).
    { destruct (Hrec vp eq_refl) as (re & Hre & Hanchor).
      split; [|split; [|split; [|split]]]; try assumption.
      - apply Forall_appendSlice; [exact Hwf | apply wfSlice_dynamicS].
      - apply wildcardAt_append_other; [exact Hw|].
        apply pattern_not_wildcard. congruence.
      - apply anchoredAround_append; [exact Ha | lia |].
        intros vp0 re0 [= <-] Hre0. assert (re0 = re) as -> by congruence. exact Hanchor. }
    destruct (negb (String.eqb pattern "")).
    + destruct (vp_re vp); [|discriminate].
      destruct (negb _); [discriminate|]. now injection H as <- <- <-.
    + now injection H as <- <- <-.
  - destruct (String.eqb pattern "").
    + (* the wildcard *)
      destruct (Z.leb_spec 0 w) as [Hge|Hlt].
      * destruct (nth_error _ _); [|discriminate].
        unfold obind in H. destruct (slice_name _); [|discriminate].
        destruct (String.eqb _ _); discriminate.
      * unfold obind in H.
        destruct (reanchorLoop _ _) as [[vps1|]|] eqn:Eloop; try discriminate.
        injection H as <- <- <-.
        assert (Hwild : isWildcardSlice (dynamicS (mkVP vName None)))
          by (now exists (mkVP vName None)).
        split; [|split; [|split; [|split]]].
        -- apply Forall_appendSlice; [exact Hwf | apply wfSlice_dynamicS].
        -- now apply (wildcardAt_append_wildcard tss w).
        -- now apply (anchoredAround_append_wildcard tss w).
        -- lia.
        -- intros _. exact (reanchored_endAnchored _ _ (Hst Hlt) Eloop).
    + (* a new pattern *)
      destruct (Compile (anchor pattern w)) as [re|] eqn:Ec; [|discriminate].
      injection H as <- <- <-.
      pose proof (Compile_String _ _ Ec) as Hsrc. unfold anchor in Hsrc.
      split; [|split; [|split; [|split]]].
      * apply Forall_appendSlice; [exact Hwf | apply wfSlice_dynamicS].
      * apply wildcardAt_append_other; [exact Hw|]. now apply pattern_not_wildcard.
      * apply anchoredAround_append; [exact Ha | lia |].
        intros vp0 re0 [= <-] [= <-].
        destruct (Z.ltb_spec w 0); destruct (Z.leb_spec 0 w); try lia;
          eexists; exact Hsrc.
      * intros Hlt n vp Hn. destruct (decide (vName = n)) as [->|Hne].
        -- rewrite lookup_insert_eq in Hn. injection Hn as <-. split; [reflexivity|].
           exists re. destruct (Z.leb_spec 0 w); [lia|]. eexists. split; [reflexivity|].
           exact Hsrc.
        -- rewrite lookup_insert_ne in Hn by assumption. exact (Hst Hlt n vp Hn).
      * intros Hge n vp Hn. destruct (decide (vName = n)) as [->|Hne].
        -- rewrite lookup_insert_eq in Hn. injection Hn as <-. split; [reflexivity|].
           exists re. split; [reflexivity|].
           destruct (Z.leb_spec 0 w); [|lia]. eexists. exact Hsrc.
        -- rewrite lookup_insert_ne in Hn by assumption. exact (Hen Hge n vp Hn).
Qed.

(** The loop of [parse] keeps the invariant. *)
Lemma parseLoop_inv (fuel : nat) (s : string) (tss tss' : list _TemplateSlice)
  (vps : gmap string _ValuePattern) (w w' : Z) :
  parseInv tss w vps ->
  parseLoop fuel s tss vps w = Returns (inl (tss', w')) ->
  exists vps', parseInv tss' w' vps'.
Proof.
  revert s tss vps w.
  induction fuel as [|fuel IH]; intros s tss vps w Hinv H; cbn [parseLoop] in H;
    [discriminate|].
  destruct (0 <? len s); [|injection H as <- <-; eauto].
  destruct (staticSlice s) as [[sstr left] err].
  destruct err; [discriminate|].
  assert (Hinv' : parseInv
                    (if negb (String.eqb sstr "") then appendSlice tss (staticS sstr) else tss)
                    w vps).
  { destruct (String.eqb_spec sstr ""); cbn [negb]; [exact Hinv|].
    now apply parseInv_static. }
  destruct (String.eqb left ""); [injection H as <- <-; eauto|].
  destruct (dynamicSlice left) as [[[vName pattern] left'] err'].
  destruct err'; [discriminate|].
  unfold obind in H.
  destruct (appendDynamicSliceTo _ _ _ _ _) as [[[[tss1 w1] vps1]|e]|] eqn:Ea;
    try discriminate.
  exact (IH _ _ _ _ (parseInv_dynamic _ _ _ _ _ _ _ _ Hinv' Ea) H).
Qed.

(** *** The parsed template has a slice *)

Lemma drop_S (n : nat) (s r : string) (c : ascii) :
  drop n s = String c r -> drop (S n) s = r.
Proof.
  revert s. induction n as [|n IH]; intros [|d s] H; cbn in *; try discriminate.
  - now injection H as _ ->.
  - now apply IH.
Qed.

Lemma append_empty (a b : string) : a +:+ b = "" -> a = "" /\ b = "".
Proof. destruct a; cbn; [auto | discriminate]. Qed.

Lemma staticLoop_progress (rest s : string) (i idx : Z) (pch : ascii) (strb : string)
  (sstr left : string) :
  0 <= i -> from s i = rest -> s <> "" -> strb <> "" \/ idx = 0 ->
  staticLoop rest s i idx pch strb = (sstr, left, None) ->
  sstr <> "" \/ left <> "".
Proof.
  revert i idx pch strb.
  induction rest as [|ch rest IH]; intros i idx pch strb Hi Hfrom Hs Hstrb H;
    cbn [staticLoop] in H.
  - injection H as <- _. left. intros Hempty. apply append_empty in Hempty as [H1 H2].
    destruct Hstrb as [Hne| ->]; [contradiction|].
    apply Hs. exact H2.
  - assert (Hnext : from s (i + 1) = rest).
    { unfold from in *. replace (Z.to_nat (i + 1)) with (S (Z.to_nat i)) by lia.
      exact (drop_S _ _ _ _ Hfrom). }
    assert (Hgrow : forall x y, strb +:+ x +:+ String y "" <> "").
    { intros x y Hempty. apply append_empty in Hempty as [_ Hempty].
      apply append_empty in Hempty as [_ Hy]. discriminate. }
    destruct (Ascii.eqb ch "{").
    + destruct (negb (Ascii.eqb pch "\")).
      * injection H as _ <-. right. rewrite Hfrom. discriminate.
      * apply (IH (i + 1) _ _ _ ltac:(lia) Hnext Hs) in H; [exact H|]. left.
        apply Hgrow.
    + destruct (Ascii.eqb ch "}").
      * destruct (negb (Ascii.eqb pch "\")); [discriminate|].
        apply (IH (i + 1) _ _ _ ltac:(lia) Hnext Hs) in H; [exact H|]. left.
        apply Hgrow.
      * exact (IH (i + 1) _ _ _ ltac:(lia) Hnext Hs Hstrb H).
Qed.

Lemma parseLoop_length (fuel : nat) (s : string) (tss tss' : list _TemplateSlice)
  (vps : gmap string _ValuePattern) (w w' : Z) :
  parseLoop fuel s tss vps w = Returns (inl (tss', w')) ->
  (List.length tss <= List.length tss')%nat /\ (s <> "" -> tss' <> []).
Proof.
  revert s tss vps w.
  induction fuel as [|fuel IH]; intros s tss vps w H; cbn [parseLoop] in H; [discriminate|].
  destruct (Z.ltb_spec 0 (len s)) as [Hlen|Hlen].
  - assert (Hs : s <> "") by (intros ->; unfold len in Hlen; simpl in Hlen; lia).
    destruct (staticSlice s) as [[sstr left] err] eqn:Es.
    destruct err; [discriminate|].
    unfold staticSlice in Es.
    assert (H0 : 0 <= 0) by lia.
    pose proof (staticLoop_progress s s 0 0 _ _ _ _ H0 eq_refl Hs (or_intror eq_refl) Es)
      as Hprog. clear Es H0. rename Hprog into Es.
    set (tss1 := if negb (String.eqb sstr "") then appendSlice tss (staticS sstr) else tss)
      in H.
    assert (Hlen1 : (List.length tss <= List.length tss1)%nat).
    { subst tss1. destruct (negb _); [rewrite length_appendSlice|]; lia. }
    destruct (String.eqb_spec left "") as [->|Hleft].
    + injection H as <- _. split; [exact Hlen1|]. intros _.
      destruct Es as [Hne|Hne]; [|contradiction].
      subst tss1. destruct (String.eqb_spec sstr ""); [contradiction|]. cbn [negb].
      unfold appendSlice. intros Hnil. now apply app_eq_nil in Hnil as [_ ?].
    + destruct (dynamicSlice left) as [[[vName pattern] left'] err'].
      destruct err'; [discriminate|].
      unfold obind in H.
      destruct (appendDynamicSliceTo _ _ _ _ _) as [[[[tss2 w2] vps2]|e]|] eqn:Ea;
        try discriminate.
      apply appendDynamicSliceTo_slices in Ea as [vp ->].
      apply IH in H as [Hle _]. rewrite length_appendSlice in Hle.
      split; [lia|]. intros _ ->. cbn in Hle. lia.
  - injection H as <- _. split; [lia|]. intros Hs. exfalso. apply Hs.
    destruct s; [reflexivity|]. unfold len in Hlen. cbn in Hlen. lia.
Qed.

(** What [parse] returns. *)
Lemma parse_inv (tmplStr : string) (tmplSlcs : list _TemplateSlice) (wildcardIdx : Z) :
  parse tmplStr = Returns (inl (tmplSlcs, wildcardIdx)) ->
  tmplSlcs <> [] /\ Forall wfSlice tmplSlcs /\ wildcardAt tmplSlcs wildcardIdx
  /\ anchoredAround tmplSlcs wildcardIdx.
Proof.
  unfold parse. destruct (String.eqb_spec tmplStr "") as [|Hne]; [discriminate|].
  unfold obind.
  destruct (parseLoop _ _ _ _ _) as [[[tss w]|e]|] eqn:El; try discriminate.
  pose proof (parseLoop_length _ _ _ _ _ _ _ El) as [_ Hnil]. specialize (Hnil Hne).
  apply parseLoop_inv in El as (vps & Hwf & Hw & Ha & _); [|apply parseInv_nil].
  intros H.
  assert (Hsame : tmplSlcs = tss /\ wildcardIdx = w ->
            tmplSlcs <> [] /\ Forall wfSlice tmplSlcs /\ wildcardAt tmplSlcs wildcardIdx
            /\ anchoredAround tmplSlcs wildcardIdx) by (intros [-> ->]; auto).
  destruct tss as [|slc [|slc' tss]]; try (injection H as <- <-; now apply Hsame).
  destruct (valuePattern slc) as [[n [re|]]|] eqn:Evp;
    try (injection H as <- <-; now apply Hsame).
  destruct (Compile _) as [re'|] eqn:Ec; [|discriminate]. injection H as <- <-.
  pose proof (Compile_String _ _ Ec) as Hsrc.
  assert (Hnw : ~ isWildcardSlice slc).
  { intros (vp & Hvp & Hre). rewrite Evp in Hvp. injection Hvp as <-. discriminate. }
  destruct Hw as [Hb Hi].
  assert (Hw1 : w = -1).
  { destruct Hb as [|Hb]; [assumption|]. cbn in Hb. assert (w = 0) as -> by lia.
    exfalso. apply Hnw. now apply (Hi 0%nat slc). }
  split; [discriminate|]. split; [|split].
  - constructor; [|constructor]. apply Forall_inv in Hwf.
    destruct Hwf as [[_ Hn]|[Hs _]]; [congruence|]. right. split; [exact Hs|discriminate].
  - split; [now left|]. intros [|i] slc0 Hl; [|discriminate]. injection Hl as <-.
    split; [|lia]. intros (vp & [= <-] & Hre). discriminate.
  - intros [|i] slc0 vp re0 Hl; [|discriminate]. injection Hl as <-.
    intros [= <-] [= <-]. subst w. cbn [Z.ltb Z.compare orb].
    specialize (Ha 0%nat slc (mkVP n (Some re)) re eq_refl Evp eq_refl).
    cbn [Z.ltb Z.compare orb] in Ha. destruct Ha as [x Hx].
    exists (x +:+ "$"). rewrite Hsrc, Hx. reflexivity.
Qed.

Lemma TryToParse_slices (tmplStr : string) (t : Template) :
  TryToParse tmplStr = Returns (inl t) ->
  exists content, parse content = Returns (inl (slices t, wildCardIdx t)).
Proof.
  unfold TryToParse. destruct (String.eqb tmplStr ""); [discriminate|].
  destruct (templateNameAndContent tmplStr) as [[n content] err].
  destruct err; [discriminate|].
  unfold obind. destruct (parse content) as [[[tss w]|e]|] eqn:Ep; try discriminate.
  intros H. exists content.
  destruct (negb _ && _).
  - destruct (IsWildcard _).
    + destruct tss as [|slc tss]; [discriminate|].
      destruct (slice_name slc); [|discriminate]. now injection H as <-.
    + now injection H as <-.
  - now injection H as <-.
Qed.

Lemma TryToParse_inv (tmplStr : string) (t : Template) :
  TryToParse tmplStr = Returns (inl t) ->
  slices t <> [] /\ Forall wfSlice (slices t) /\ wildcardAt (slices t) (wildCardIdx t)
  /\ anchoredAround (slices t) (wildCardIdx t).
Proof. intros H. apply TryToParse_slices in H as [content H]. now apply parse_inv in H. Qed.

(** X1.  A template that [TryToParse] returns has at least one slice, each of
    its slices is static or dynamic, and its wildcard index is [-1] or the
    index of its one wildcard slice: no other slice lacks a regexp. *)
Theorem TryToParse_shape (tmplStr : string) (t : Template) :
  TryToParse tmplStr = Returns (inl t) ->
  slices t <> [] /\ wfTemplate t /\ wildcardAt (slices t) (wildCardIdx t).
Proof. intros H. apply TryToParse_inv in H as (H1 & H2 & H3 & _). auto. Qed.

(** X2.  In a template that [TryToParse] returns, the regexp of a pattern slice
    left of the wildcard, or of any pattern slice when there is no wildcard,
    starts with [^]; the regexp of a pattern slice right of the wildcard ends
    with [$]. *)
Theorem TryToParse_anchors (tmplStr : string) (t : Template) :
  TryToParse tmplStr = Returns (inl t) ->
  anchoredAround (slices t) (wildCardIdx t).
Proof. intros H. now apply TryToParse_inv in H as (_ & _ & _ & H). Qed.

End WithEngine.

(** [TryToParse_shape] on [a{w}b]: three slices, the wildcard at index 1. *)
Lemma TryToParse_shape_witness :
  slices Examples.t_a_w_b <> []
  /\ wfTemplate Examples.t_a_w_b
  /\ wildcardAt (slices Examples.t_a_w_b) 1.
Proof.
  apply (TryToParse_shape (RE := MiniRegexp.engine) "a{w}b" Examples.t_a_w_b).
  reflexivity.
Defined.

(** [TryToParse_anchors] on [{id:[0-9]+}abc]: the regexp of [id] is
    [^[0-9]+]. *)
Lemma TryToParse_anchors_witness :
  anchoredAround (slices Examples.t_id_abc) (-1).
Proof.
  apply (TryToParse_anchors (RE := MiniRegexp.engine) "{id:[0-9]+}abc" Examples.t_id_abc).
  reflexivity.
Defined.

End ShapeFacts.

(** ** template.go: [Match], [Apply] and [HasPattern] on parsed templates *)

Module MatchFacts.
Import GoStr GoStrFacts Tmpl TmplMore ParseFacts ShapeFacts SimilarityFacts.

Section WithEngine.
Context `{RE : RegexEngine}.

Lemma nth_error_lookup {A : Type} (l : list A) (n : nat) : nth_error l n = l !! n.
Proof. revert n. induction l as [|x l IH]; intros [|n]; cbn; auto. Qed.

(** The first loop of [Match] returns on slices that are static or have a
    regexp. *)
Lemma matchLeft_Returns (ts : list _TemplateSlice) (str : string)
  (values : gmap string string) :
  Forall (fun slc => wfSlice slc /\ ~ isWildcardSlice slc) ts ->
  exists r, matchLeft ts str values = Returns r.
Proof.
  intros H. revert str values.
  induction H as [|slc ts [Hwf Hnw] _ IH]; intros str values; cbn [matchLeft]; [eauto|].
  destruct Hwf as [[Hs _]|[Hs Hvp]].
  - destruct (String.eqb_spec (staticStr slc) ""); [contradiction|]. cbn [negb].
    destruct (HasPrefix _ _); [apply IH | eauto].
  - rewrite Hs. cbn [String.eqb negb].
    destruct (valuePattern slc) as [vp|] eqn:E; [|contradiction].
    destruct (vp_re vp) as [re|] eqn:Ere; [|exfalso; apply Hnw; now exists vp].
    destruct (FindStringIndex re str) as [[i0 i1]|]; [|eauto].
    destruct (recordValue _ _ _); [apply IH | eauto].
Qed.

Lemma matchRight_Returns (ts : list _TemplateSlice) (str : string)
  (values : gmap string string) :
  Forall (fun slc => wfSlice slc /\ ~ isWildcardSlice slc) ts ->
  exists r, matchRight ts str values = Returns r.
Proof.
  intros H. revert str values.
  induction H as [|slc ts [Hwf Hnw] _ IH]; intros str values; cbn [matchRight]; [eauto|].
  destruct Hwf as [[Hs _]|[Hs Hvp]].
  - destruct (String.eqb_spec (staticStr slc) ""); [contradiction|]. cbn [negb].
    destruct (HasSuffix _ _); [apply IH | eauto].
  - rewrite Hs. cbn [String.eqb negb].
    destruct (valuePattern slc) as [vp|] eqn:E; [|contradiction].
    destruct (vp_re vp) as [re|] eqn:Ere; [|exfalso; apply Hnw; now exists vp].
    destruct (List.last _ _) as [[l0 l1]|]; [|eauto].
    destruct (recordValue _ _ _); [apply IH | eauto].
Qed.

(** X3.  [Match] does not panic on a template that [TryToParse] returns: every
    slice that its loops read has a regexp, and the slice at the wildcard
    index has a value name. *)
Theorem Match_never_panics (tmplStr : string) (t : Template) (str : string) :
  TryToParse tmplStr = Returns (inl t) ->
  exists matched values, Match t str = Returns (matched, values).
Proof.
  intros H. apply TryToParse_inv in H as (_ & Hwf & [Hb Hi] & _).
  assert (Hpair : forall o : outcome (bool * option (gmap string string)),
            (exists r, o = Returns r) -> exists matched values, o = Returns (matched, values)).
  { intros o [[m v] ->]. eauto. }
  apply Hpair. unfold Match.
  destruct (IsStatic t) eqn:Es.
  { destruct (IsStatic_inv _ Es) as (slc & -> & _). eauto. }
  destruct (IsWildcard t) eqn:Ew.
  { destruct (IsWildcard_inv _ Ew) as (slc & vp & -> & Evp & _).
    unfold slice_name. rewrite Evp. cbn [obind]. eauto. }
  set (w := wildCardIdx t) in *.
  set (k := if 0 <=? w then w else Z.of_nat (List.length (slices t))).
  assert (Hk : 0 <= k <= Z.of_nat (List.length (slices t)) /\ (0 <= w -> k = w)).
  { subst k. destruct (Z.leb_spec 0 w); lia. }
  assert (Hother : forall i slc, slices t !! i = Some slc -> Z.of_nat i <> w ->
                     wfSlice slc /\ ~ isWildcardSlice slc).
  { intros i slc Hl Hne. split.
    - exact (proj1 (Forall_lookup _ _) Hwf i slc Hl).
    - intros Hwild. apply Hne. now apply (Hi i slc Hl). }
  assert (Hleft : Forall (fun slc => wfSlice slc /\ ~ isWildcardSlice slc) (leftSlices t k)).
  { apply Forall_lookup. intros i slc Hl. unfold leftSlices in Hl.
    apply lookup_take_Some in Hl as [Hl Hlt]. apply (Hother i slc Hl). lia. }
  destruct (matchLeft_Returns _ str ∅ Hleft) as [l ->]. cbn [obind].
  destruct l as [[str1 values1]|]; [|eauto].
  destruct (Z.ltb_spec (Z.of_nat (List.length (slices t))) k); [lia|].
  assert (Hright : Forall (fun slc => wfSlice slc /\ ~ isWildcardSlice slc) (rightSlices t k)).
  { unfold rightSlices. apply Forall_rev. apply Forall_lookup. intros i slc Hl.
    rewrite lookup_drop in Hl. apply (Hother _ slc Hl). lia. }
  destruct (matchRight_Returns _ str1 values1 Hright) as [r ->]. cbn [obind].
  destruct r as [[str2 values2]|]; [|eauto].
  destruct (Z.leb_spec 0 w) as [Hw|Hw]; cbn [andb]; [|eauto].
  destruct (0 <? len str2); [|eauto].
  rewrite nth_error_lookup.
  destruct (lookup_lt_is_Some_2 (slices t) (Z.to_nat w) ltac:(lia)) as [slc Hl].
  rewrite Hl. destruct (proj2 (Hi _ slc Hl) ltac:(lia)) as (vp & Evp & _).
  unfold slice_name. rewrite Evp. cbn [obind]. eauto.
Qed.

Lemma applyLoop_Returns (ts : list _TemplateSlice) (values : gmap string string)
  (ignoreMissing : bool) (strb : string) :
  Forall wfSlice ts -> exists r, applyLoop ts values ignoreMissing strb = Returns r.
Proof.
  intros H. revert strb.
  induction H as [|slc ts Hwf _ IH]; intros strb; cbn [applyLoop]; [eauto|].
  destruct Hwf as [[Hs _]|[Hs Hvp]].
  - destruct (String.eqb_spec (staticStr slc) ""); [contradiction|]. apply IH.
  - rewrite Hs. cbn [String.eqb negb].
    destruct (valuePattern slc) as [vp|]; [|contradiction].
    destruct (values !! vp_name vp) as [v|].
    + match goal with |- context [if ?c then _ else _] => destruct c end; [eauto | apply IH].
    + destruct ignoreMissing; [apply IH | eauto].
Qed.

(** X4.  [Apply] and [String] do not panic on a template that [TryToParse]
    returns: a slice without a static string has a value pattern. *)
Theorem Apply_String_never_panic (tmplStr : string) (t : Template)
  (values : gmap string string) (ignoreMissing : bool) :
  TryToParse tmplStr = Returns (inl t) ->
  (exists str err, Apply t values ignoreMissing = Returns (str, err))
  /\ (exists str, String_ t = Returns str).
Proof.
  intros H. apply TryToParse_inv in H as (_ & Hwf & _). split.
  - destruct (applyLoop_Returns (slices t) values ignoreMissing "" Hwf) as [[str err] Hr].
    exists str, err. exact Hr.
  - now apply String_Returns.
Qed.

(** *** [HasPattern] *)

Lemma hasPatternLoop_false (ts : list _TemplateSlice) :
  hasPatternLoop ts = Returns false <-> Forall isWildcardSlice ts.
Proof.
  induction ts as [|slc ts IH]; cbn [hasPatternLoop]; [split; auto|].
  unfold slice_re. destruct (valuePattern slc) as [vp|] eqn:Evp; cbn [obind].
  - destruct (vp_re vp) as [re|] eqn:Ere.
    + split; [discriminate|]. intros Hall. apply Forall_inv in Hall as (vp' & Hvp' & Hre).
      congruence.
    + rewrite IH. split.
      * intros Hall. constructor; [now exists vp | exact Hall].
      * intros Hall. now apply Forall_inv_tail in Hall.
  - split; [discriminate|]. intros Hall. apply Forall_inv in Hall as (vp' & Hvp' & _).
    congruence.
Qed.

(** X5.  [HasPattern] on a template that [TryToParse] returns: it panics when the
    first slice is static, so on every static template; it returns true when
    the first slice is a pattern; it returns false exactly on a wildcard
    template. *)
Theorem HasPattern_on_parsed (tmplStr : string) (t : Template) :
  TryToParse tmplStr = Returns (inl t) ->
  (forall slc ts, slices t = slc :: ts -> staticStr slc <> "" -> HasPattern t = Panics)
  /\ (IsStatic t = true -> HasPattern t = Panics)
  /\ (forall slc ts, slices t = slc :: ts -> isPatternSlice slc ->
        HasPattern t = Returns true)
  /\ (HasPattern t = Returns false <-> IsWildcard t = true).
Proof.
  intros H. apply TryToParse_inv in H as (Hne & Hwf & [Hb Hi] & _).
  assert (Hstatic : forall slc ts, slices t = slc :: ts -> staticStr slc <> "" ->
                      HasPattern t = Panics).
  { intros slc ts Hs Hstr. unfold HasPattern. rewrite Hs in *. cbn [hasPatternLoop].
    apply Forall_inv in Hwf. destruct Hwf as [[_ Hvp]|[? _]]; [|contradiction].
    unfold slice_re. now rewrite Hvp. }
  split; [exact Hstatic|]. split; [|split].
  - intros Hs. destruct (IsStatic_inv _ Hs) as (slc & Hslc & Hstr).
    exact (Hstatic slc [] Hslc Hstr).
  - intros slc ts Hs (vp & re & Hvp & Hre). unfold HasPattern. rewrite Hs.
    cbn [hasPatternLoop]. unfold slice_re. rewrite Hvp. cbn [obind]. now rewrite Hre.
  - unfold HasPattern. rewrite hasPatternLoop_false. split.
    + intros Hall. unfold IsWildcard.
      destruct (slices t) as [|slc [|slc' ts]] eqn:Es; [contradiction| |].
      * apply Forall_inv in Hall as (vp & -> & ->). reflexivity.
      * exfalso.
        pose proof (proj1 (Hi 0%nat slc eq_refl) (Forall_inv Hall)) as H0.
        pose proof (proj1 (Hi 1%nat slc' eq_refl) (Forall_inv (Forall_inv_tail Hall))) as H1.
        lia.
    + intros Hw. destruct (IsWildcard_inv _ Hw) as (slc & vp & -> & Hvp & Hre).
      constructor; [now exists vp | constructor].
Qed.

(** *** [Apply] and [Match] around a wildcard *)

Lemma append_nil_r (s : string) : s +:+ "" = s.
Proof. induction s as [|c s IH]; cbn; [reflexivity | now rewrite IH]. Qed.

Lemma append_assoc3 (a b c : string) : (a +:+ b) +:+ c = a +:+ b +:+ c.
Proof. induction a as [|x a IH]; cbn; [reflexivity | now rewrite IH]. Qed.

Lemma HasSuffix_append (x b : string) : HasSuffix (x +:+ b) b = true.
Proof.
  unfold HasSuffix. rewrite length_append.
  replace (String.length x + String.length b - String.length b)%nat
    with (String.length x) by lia.
  rewrite drop_append, String.eqb_refl.
  destruct (Nat.leb_spec (String.length b) (String.length x + String.length b));
    [reflexivity | lia].
Qed.

Lemma upto_suffix (x b : string) : upto (x +:+ b) (len (x +:+ b) - len b) = x.
Proof.
  rewrite len_append. replace (len x + len b - len b) with (len x) by lia.
  apply upto_append.
Qed.

Lemma matchLeft_optStatic (a x : string) (values : gmap string string) :
  matchLeft (optStatic a) (a +:+ x) values = Returns (Some (x, values)).
Proof.
  unfold optStatic. destruct (String.eqb_spec a "") as [->|Hne]; [reflexivity|].
  cbn [matchLeft staticS staticStr]. destruct (String.eqb_spec a ""); [contradiction|].
  cbn [negb]. now rewrite HasPrefix_append, from_append.
Qed.

Lemma matchRight_optStatic (b x : string) (values : gmap string string) :
  matchRight (List.rev (optStatic b)) (x +:+ b) values = Returns (Some (x, values)).
Proof.
  unfold optStatic. destruct (String.eqb_spec b "") as [->|Hne].
  - cbn. now rewrite append_nil_r.
  - cbn [List.rev app matchRight staticS staticStr].
    destruct (String.eqb_spec b ""); [contradiction|].
    cbn [negb]. now rewrite HasSuffix_append, upto_suffix.
Qed.

Lemma applyLoop_optStatic (a : string) (ts : list _TemplateSlice)
  (values : gmap string string) (ignoreMissing : bool) (strb : string) :
  applyLoop (optStatic a ++ ts) values ignoreMissing strb
  = applyLoop ts values ignoreMissing (strb +:+ a).
Proof.
  unfold optStatic. destruct (String.eqb_spec a "") as [->|Hne].
  - cbn [app]. now rewrite append_nil_r.
  - cbn [app applyLoop staticS staticStr]. now destruct (String.eqb_spec a "").
Qed.

Lemma two_slices_general (t : Template) :
  (2 <= List.length (slices t))%nat -> IsStatic t = false /\ IsWildcard t = false.
Proof.
  unfold IsStatic, IsWildcard.
  destruct (slices t) as [|s1 [|s2 ts]]; cbn; intros Hl; solve [lia | auto].
Qed.

Lemma skipn_S_app {A : Type} (pre post : list A) (d : A) :
  skipn (S (List.length pre)) (pre ++ d :: post) = post.
Proof. induction pre as [|x pre IH]; [reflexivity | exact IH]. Qed.

Lemma firstn_length_app {A : Type} (pre post : list A) :
  firstn (List.length pre) (pre ++ post) = pre.
Proof. induction pre as [|x pre IH]; [reflexivity | cbn; now rewrite IH]. Qed.

(** [Match] on [a{w}b] when there is static text: what is between [a] and
    [b] is the value of [w], which is recorded unless it is empty. *)
Lemma Match_around (n a w b x : string) :
  (2 <= List.length (slices (aroundWildcard n a w b)))%nat ->
  Match (aroundWildcard n a w b) (a +:+ x +:+ b)
  = Returns (true, Some (if 0 <? len x then {[w := x]} else ∅)).
Proof.
  intros Hlen. unfold Match.
  destruct (two_slices_general (aroundWildcard n a w b) Hlen) as [-> ->].
  unfold leftSlices, rightSlices, aroundWildcard in *. cbn [slices wildCardIdx] in *.
  destruct (Z.leb_spec 0 (Z.of_nat (List.length (optStatic a)))); [|lia].
  rewrite Nat2Z.id, firstn_length_app, skipn_S_app.
  rewrite matchLeft_optStatic. cbn [obind].
  destruct (Z.ltb_spec (Z.of_nat (List.length (optStatic a ++ dynamicS (mkVP w None)
                                                 :: optStatic b)))
              (Z.of_nat (List.length (optStatic a)))) as [Hlt|_].
  { rewrite length_app in Hlt. lia. }
  rewrite matchRight_optStatic. cbn [obind andb].
  rewrite nth_error_lookup, list_lookup_middle by reflexivity.
  cbn [slice_name dynamicS valuePattern vp_name obind].
  destruct (0 <? len x); rewrite ?insert_empty; reflexivity.
Qed.

(** X6.  For a template [a{w}b] of static text around one wildcard, [Apply]
    puts the value of [w] between [a] and [b], and [Match] on that string
    gives the value back, when the value is not empty. *)
Theorem Apply_Match_roundtrip (n a w b v : string) (values : gmap string string)
  (ignoreMissing : bool) :
  v <> "" -> values !! w = Some v ->
  Apply (aroundWildcard n a w b) values ignoreMissing = Returns (a +:+ v +:+ b, None)
  /\ Match (aroundWildcard n a w b) (a +:+ v +:+ b) = Returns (true, Some {[w := v]}).
Proof.
  intros Hv Hw. split.
  - unfold Apply, aroundWildcard. cbn [slices].
    rewrite applyLoop_optStatic. cbn [applyLoop dynamicS staticStr String.eqb negb
      valuePattern vp_name vp_re]. rewrite Hw.
    rewrite <- (app_nil_r (optStatic b)), applyLoop_optStatic. cbn [applyLoop].
    now rewrite append_assoc3.
  - assert (Hpos : (0 <? len v) = true).
    { apply Z.ltb_lt. destruct v; [contradiction|]. unfold len. cbn. lia. }
    destruct (String.eqb_spec a "") as [->|Ha]; [destruct (String.eqb_spec b "") as [->|Hb]|].
    + (* the wildcard template *)
      cbn. rewrite append_nil_r. now rewrite insert_empty.
    + rewrite Match_around, Hpos; [reflexivity|].
      unfold aroundWildcard, optStatic. cbn [slices String.eqb app].
      destruct (String.eqb_spec b ""); [contradiction|]. cbn. lia.
    + rewrite Match_around, Hpos; [reflexivity|].
      unfold aroundWildcard, optStatic. cbn [slices].
      destruct (String.eqb_spec a ""); [contradiction|]. cbn. lia.
Qed.

End WithEngine.

(** [Match_never_panics] on the parsed template [{id:[0-9]+}abc]. *)
Lemma Match_never_panics_witness :
  exists matched values, Match Examples.t_id_abc "12abc" = Returns (matched, values).
Proof.
  apply (Match_never_panics (RE := MiniRegexp.engine) "{id:[0-9]+}abc" Examples.t_id_abc).
  reflexivity.
Defined.

(** [Apply_String_never_panic] on the parsed template [a{w}b]. *)
Lemma Apply_String_never_panic_witness :
  (exists str err, Apply Examples.t_a_w_b ∅ false = Returns (str, err))
  /\ (exists str, String_ Examples.t_a_w_b = Returns str).
Proof.
  apply (Apply_String_never_panic (RE := MiniRegexp.engine) "a{w}b" Examples.t_a_w_b).
  reflexivity.
Defined.

(** [HasPattern_on_parsed] on the parsed static template [abc]. *)
Lemma HasPattern_on_parsed_witness :
  HasPattern (mkTemplate (RE := MiniRegexp.engine) "" [staticS "abc"] (-1)) = Panics.
Proof.
  apply (HasPattern_on_parsed (RE := MiniRegexp.engine) "abc"
           (mkTemplate "" [staticS "abc"] (-1)) eq_refl).
  reflexivity.
Defined.

(** [Apply_Match_roundtrip] on [a{w}b], which [TryToParse] builds from the
    text [a{w}b], and the value [xyz]. *)
Lemma Apply_Match_roundtrip_witness :
  TryToParse (RE := MiniRegexp.engine) "a{w}b" = Returns (inl (aroundWildcard "w" "a" "w" "b"))
  /\ Apply (RE := MiniRegexp.engine) (aroundWildcard "w" "a" "w" "b") {["w" := "xyz"]} false
     = Returns ("axyzb", None)
  /\ Match (RE := MiniRegexp.engine) (aroundWildcard "w" "a" "w" "b") "axyzb"
     = Returns (true, Some {["w" := "xyz"]}).
Proof.
  split; [reflexivity|].
  apply (Apply_Match_roundtrip (RE := MiniRegexp.engine) "w" "a" "w" "b" "xyz"
           {["w" := "xyz"]} false).
  - discriminate.
  - reflexivity.
Defined.

End MatchFacts.

(** ** utils.go: [getHost] *)

Module HostFacts.
Import GoStr GoStrFacts Utils UtilsFacts UtilsMore.

Lemma contains_append (a b : string) (c : ascii) :
  contains (a +:+ b) c = contains a c || contains b c.
Proof. induction a as [|d a IH]; cbn; [reflexivity|]. now rewrite IH, orb_assoc. Qed.

(** A string without a slash does not start with a scheme. *)
Lemma no_slash_no_scheme (h : string) (sec : bool) :
  contains h "/" = false -> HasPrefix h (scheme sec) = false.
Proof.
  intros Hc. destruct (HasPrefix h (scheme sec)) eqn:E; [|reflexivity].
  apply HasPrefix_split in E. rewrite E, contains_append in Hc.
  now destruct sec.
Qed.

(** What follows the scheme of an absolute URL template. *)
Lemma getHost_absolute (sec : bool) (r : string) :
  getHost (scheme sec +:+ r) =
    let idx := IndexByte r "/" in
    if idx <? 0 then mkHost r sec false None
    else if String.eqb (from r idx) "/" then mkHost (upto r idx) sec true None
    else mkHost "" false false (Some ErrUnwantedPathTemplate).
Proof.
  unfold getHost.
  assert (Hne : String.eqb (scheme sec +:+ r) "" = false) by now destruct sec.
  rewrite Hne.
  rewrite (TrimPrefix_shorter _ "https://") by discriminate.
  destruct sec.
  - rewrite HasPrefix_append. unfold TrimPrefix. rewrite HasPrefix_append.
    rewrite drop_append. reflexivity.
  - assert (H1 : HasPrefix (scheme false +:+ r) "https://" = false) by reflexivity.
    rewrite H1. unfold TrimPrefix. rewrite H1, HasPrefix_append.
    rewrite drop_append. reflexivity.
Qed.

(** A template without a scheme. *)
Lemma getHost_relative (s : string) :
  s <> "" -> HasPrefix s "https://" = false -> HasPrefix s "http://" = false ->
  getHost s =
    let idx := IndexByte s "/" in
    if idx <? 0 then mkHost s false false None
    else if String.eqb (from s idx) "/" then mkHost (upto s idx) false true None
    else mkHost "" false false (Some ErrUnwantedPathTemplate).
Proof.
  intros Hne H1 H2. unfold getHost.
  destruct (String.eqb_spec s ""); [contradiction|].
  rewrite (TrimPrefix_shorter _ "https://") by discriminate. rewrite H1.
  unfold TrimPrefix. rewrite H1, H2. reflexivity.
Qed.

(** A template that is a host without a slash and one slash has no
    scheme. *)
Lemma host_slash_no_scheme (h : string) (sec : bool) :
  contains h "/" = false -> HasPrefix (h +:+ "/") (scheme sec) = false.
Proof.
  intros Hc. destruct (HasPrefix (h +:+ "/") (scheme sec)) eqn:E; [|reflexivity].
  apply HasPrefix_split in E.
  pose proof (IndexByte_append h "" "/" Hc) as Hi.
  pose proof (f_equal String.length E) as Hl.
  rewrite !length_append in Hl.
  set (r := drop (String.length (scheme sec)) (h +:+ "/")) in *.
  rewrite E in Hi. unfold len in Hi.
  destruct sec.
  - change (IndexByte (scheme true +:+ r) "/") with 6 in Hi.
    change (String.length (scheme true)) with 8%nat in Hl.
    change (String.length "/") with 1%nat in Hl. lia.
  - change (IndexByte (scheme false +:+ r) "/") with 5 in Hi.
    change (String.length (scheme false)) with 7%nat in Hl.
    change (String.length "/") with 1%nat in Hl. lia.
Qed.

(** X9.  [getHost]: a failed call returns no host and no flags.  The host of an
    absolute or relative template without a slash is the text after the
    scheme; one slash after the host sets [tslash]; anything after that
    slash is rejected with [ErrUnwantedPathTemplate].  The last two rules
    hold with a scheme and without one. *)
Theorem getHost_rules :
  (forall s, gh_err (getHost s) <> None ->
     gh_hostTmplStr (getHost s) = "" /\ gh_secure (getHost s) = false
     /\ gh_tslash (getHost s) = false)
  /\ getHost "" = mkHost "" false false (Some ErrEmptyHostTemplate)
  /\ (forall sec h, contains h "/" = false ->
        getHost (scheme sec +:+ h) = mkHost h sec false None)
  /\ (forall h, h <> "" -> contains h "/" = false ->
        getHost h = mkHost h false false None)
  /\ (forall sec h, contains h "/" = false ->
        getHost (scheme sec +:+ h +:+ "/") = mkHost h sec true None)
  /\ (forall sec h p, contains h "/" = false -> p <> "" ->
        getHost (scheme sec +:+ h +:+ "/" +:+ p)
        = mkHost "" false false (Some ErrUnwantedPathTemplate))
  /\ (forall h, contains h "/" = false ->
        getHost (h +:+ "/") = mkHost h false true None)
  /\ (forall h p, contains h "/" = false -> p <> "" ->
        HasPrefix (h +:+ "/" +:+ p) "https://" = false ->
        HasPrefix (h +:+ "/" +:+ p) "http://" = false ->
        getHost (h +:+ "/" +:+ p)
        = mkHost "" false false (Some ErrUnwantedPathTemplate)).
Proof.
  split; [|split; [reflexivity|split; [|split; [|split; [|split; [|split]]]]]].
  - intros s. unfold getHost.
    destruct (String.eqb s ""); [cbn; auto|].
    destruct (len _ <? len s);
      (destruct (IndexByte _ _ <? 0); [cbn; congruence|]);
      (destruct (String.eqb _ "/"); cbn; [congruence | auto]).
  - intros sec h Hc. rewrite getHost_absolute. cbv zeta.
    apply IndexByte_neg in Hc. now destruct (Z.ltb_spec (IndexByte h "/") 0); [|lia].
  - intros h Hne Hc.
    rewrite getHost_relative;
      [|assumption|exact (no_slash_no_scheme h true Hc)|exact (no_slash_no_scheme h false Hc)].
    cbv zeta. apply IndexByte_neg in Hc.
    now destruct (Z.ltb_spec (IndexByte h "/") 0); [|lia].
  - intros sec h Hc. rewrite getHost_absolute. cbv zeta.
    rewrite (IndexByte_append h "" "/" Hc).
    destruct (Z.ltb_spec (len h) 0) as [Hl|_]; [pose proof (len_nonneg h); lia|].
    now rewrite (upto_append h), (from_append h).
  - intros sec h p Hc Hp. rewrite getHost_absolute. cbv zeta.
    change ("/" +:+ p) with (String "/" p).
    rewrite (IndexByte_append h p "/" Hc).
    destruct (Z.ltb_spec (len h) 0) as [Hl|_]; [pose proof (len_nonneg h); lia|].
    rewrite (from_append h). destruct p; [contradiction | reflexivity].
  - intros h Hc.
    rewrite getHost_relative;
      [|now destruct h|exact (host_slash_no_scheme h true Hc)
       |exact (host_slash_no_scheme h false Hc)].
    cbv zeta. rewrite (IndexByte_append h "" "/" Hc).
    destruct (Z.ltb_spec (len h) 0) as [Hl|_]; [pose proof (len_nonneg h); lia|].
    now rewrite (upto_append h), (from_append h).
  - intros h p Hc Hp H1 H2.
    rewrite getHost_relative; [|now destruct h|exact H1|exact H2].
    cbv zeta. change ("/" +:+ p) with (String "/" p).
    rewrite (IndexByte_append h p "/" Hc).
    destruct (Z.ltb_spec (len h) 0) as [Hl|_]; [pose proof (len_nonneg h); lia|].
    rewrite (from_append h). destruct p; [contradiction | reflexivity].
Qed.

(** X10.  [getHost] and [splitHostAndPath] agree on an absolute template that
    [getHost] accepts: the same host, [secure] and [tslash], and no path
    (but for the template of a scheme and one slash). *)
Theorem getHost_splitHostAndPath (sec : bool) (r : string) :
  gh_err (getHost (scheme sec +:+ r)) = None ->
  gh_hostTmplStr (getHost (scheme sec +:+ r)) <> ""
  \/ gh_tslash (getHost (scheme sec +:+ r)) = false ->
  splitHostAndPath (scheme sec +:+ r)
  = mkSplit (gh_hostTmplStr (getHost (scheme sec +:+ r))) ""
      (gh_secure (getHost (scheme sec +:+ r))) (gh_tslash (getHost (scheme sec +:+ r))) None.
Proof.
  rewrite getHost_absolute, splitHostAndPath_absolute. cbv zeta.
  destruct (IndexByte r "/" <? 0); [reflexivity|].
  destruct (String.eqb_spec (from r (IndexByte r "/")) "/") as [Heq|Hne]; cbn.
  - intros _ [Hh|Ht]; [|discriminate].
    destruct (String.eqb_spec (upto r (IndexByte r "/")) ""); [contradiction|].
    reflexivity.
  - discriminate.
Qed.

(** [getHost_rules] on [https://example.com], [example.com],
    [http://example.com/], [http://example.com/a], [example.com/] and
    [example.com/a]. *)
Lemma getHost_rules_witness :
  getHost "https://example.com" = mkHost "example.com" true false None
  /\ getHost "example.com" = mkHost "example.com" false false None
  /\ getHost "http://example.com/" = mkHost "example.com" false true None
  /\ getHost "http://example.com/a" = mkHost "" false false (Some ErrUnwantedPathTemplate)
  /\ getHost "example.com/" = mkHost "example.com" false true None
  /\ getHost "example.com/a" = mkHost "" false false (Some ErrUnwantedPathTemplate).
Proof.
  destruct getHost_rules as (_ & _ & Habs & Hrel & Hslash & Hpath & Hrslash & Hrpath).
  split; [apply (Habs true "example.com"); reflexivity|].
  split; [apply (Hrel "example.com"); [discriminate | reflexivity]|].
  split; [apply (Hslash false "example.com"); reflexivity|].
  split; [apply (Hpath false "example.com" "a"); [reflexivity | discriminate]|].
  split; [apply (Hrslash "example.com"); reflexivity|].
  apply (Hrpath "example.com" "a"); [reflexivity | discriminate | reflexivity | reflexivity].
Defined.

(** [getHost_splitHostAndPath] on [https://example.com/]. *)
Lemma getHost_splitHostAndPath_witness :
  splitHostAndPath "https://example.com/" = mkSplit "example.com" "" true true None.
Proof.
  apply (getHost_splitHostAndPath true "example.com/").
  - reflexivity.
  - left. discriminate.
Defined.

End HostFacts.

(** ** utils.go: the path segments *)

Module PathFacts.
Import GoStr GoStrFacts Utils UtilsMore HostFacts.

Lemma decodeSlashes_clean (s : string) : contains s "%" = false -> decodeSlashes s = s.
Proof.
  induction s as [|a s1 IH]; intros H; [reflexivity|].
  cbn [contains] in H. apply orb_false_iff in H as [Ha Hs]. specialize (IH Hs).
  destruct s1 as [|b [|c s3]]; [reflexivity | reflexivity |].
  change (decodeSlashes (String a (String b (String c s3))))
    with (if Ascii.eqb a "%" && Ascii.eqb b "2" && (Ascii.eqb c "f" || Ascii.eqb c "F")
          then String "/" (decodeSlashes s3)
          else String a (decodeSlashes (String b (String c s3)))).
  rewrite Ha. cbn [andb]. now rewrite IH.
Qed.

Lemma decodeSlashes_nonempty (s : string) : s <> "" -> decodeSlashes s <> "".
Proof.
  destruct s as [|a [|b [|c s3]]]; intros H; [contradiction | discriminate | discriminate |].
  change (decodeSlashes (String a (String b (String c s3))))
    with (if Ascii.eqb a "%" && Ascii.eqb b "2" && (Ascii.eqb c "f" || Ascii.eqb c "F")
          then String "/" (decodeSlashes s3)
          else String a (decodeSlashes (String b (String c s3)))).
  destruct (_ && _); discriminate.
Qed.

Lemma length_from' (s : string) (i : Z) :
  String.length (from s i) = (String.length s - Z.to_nat i)%nat.
Proof. apply length_drop. Qed.

(** A call of [nextSegment] on a path that is not empty shortens it. *)
Lemma nextSegment_shrinks (psi : _PathSegmentIterator) :
  psi_path psi <> "" ->
  (String.length (psi_path (nextSegment psi).2) < String.length (psi_path psi))%nat.
Proof.
  intros Hne. unfold nextSegment.
  destruct (String.eqb_spec (psi_path psi) ""); [contradiction|].
  assert (Hpos : (0 < String.length (psi_path psi))%nat)
    by (destruct (psi_path psi); [contradiction | cbn; lia]).
  set (path := if bool_decide _ then _ else _).
  assert (Hle : (String.length path <= String.length (psi_path psi))%nat).
  { subst path. destruct (bool_decide _); [rewrite length_from'|]; lia. }
  destruct (Z.ltb_spec (IndexByte path "/") 0) as [|Hidx]; cbn [snd psi_path String.length];
    [lia|].
  pose proof (IndexByte_range path "/") as Hr. unfold len in Hr.
  rewrite length_from'. lia.
Qed.

(** Without a path there is no segment. *)
Lemma nextSegment_empty (psi : _PathSegmentIterator) :
  psi_path psi = "" -> nextSegment psi = ("", psi).
Proof. intros H. unfold nextSegment. now rewrite H. Qed.

Lemma nextSegment_flags (psi : _PathSegmentIterator) :
  psi_root (nextSegment psi).2 = psi_root psi
  /\ psi_tslash (nextSegment psi).2 = psi_tslash psi.
Proof.
  unfold nextSegment. destruct (String.eqb _ ""); [auto|].
  destruct (_ <? 0); auto.
Qed.

(** The loop of [splitPathSegments] ends before the fuel does, and the
    segments it gives are not empty. *)
Lemma segmentsLoop_Returns (fuel : nat) (psi : _PathSegmentIterator) (pss : list string) :
  (String.length (psi_path psi) < fuel)%nat ->
  Forall (fun ps => ps <> "") pss ->
  exists pss' psi', segmentsLoop fuel psi pss = Returns (pss', psi')
    /\ Forall (fun ps => ps <> "") pss' /\ psi_tslash psi' = psi_tslash psi.
Proof.
  revert psi pss. induction fuel as [|fuel IH]; intros psi pss Hfuel Hpss; [lia|].
  cbn [segmentsLoop].
  destruct (nextSegment psi) as [ps psi1] eqn:En.
  pose proof (nextSegment_flags psi) as [_ Hts]. rewrite En in Hts. cbn [snd] in Hts.
  destruct (String.eqb_spec ps "") as [->|Hps]; [eauto|].
  assert (Hne : psi_path psi <> "").
  { intros He. rewrite (nextSegment_empty psi He) in En. congruence. }
  pose proof (nextSegment_shrinks psi Hne) as Hs. rewrite En in Hs. cbn [snd] in Hs.
  destruct (IH psi1 (appendSlice pss ps)) as (pss' & psi' & Hl & Hall & Ht).
  - lia.
  - apply Forall_app. split; [exact Hpss|]. constructor; [exact Hps | constructor].
  - exists pss', psi'. split; [exact Hl|]. split; [exact Hall|]. congruence.
Qed.

(** X12.  [splitPathSegments] returns for every path; the segments it returns
    are not empty; its only error is [ErrEmptyPathSegmentTemplate]; and the
    path is reported as the root exactly when it is [/]. *)
Theorem splitPathSegments_total (path : string) :
  exists pss root tslash err,
    splitPathSegments path = Returns (pss, root, tslash, err)
    /\ Forall (fun ps => ps <> "") pss
    /\ (err = None \/ err = Some ErrEmptyPathSegmentTemplate)
    /\ (root = true <-> path = "/").
Proof.
  unfold splitPathSegments. destruct (String.eqb_spec path "/") as [->|Hne].
  - exists ["/"], true, false, None.
    split; [reflexivity|]. split; [constructor; [discriminate | constructor]|].
    split; [now left|]. split; auto.
  - destruct (segmentsLoop_Returns (S (String.length path)) (makePathSegmentIterator path) [])
      as (pss & psi & -> & Hall & _); [cbn; lia | constructor |].
    cbn [obind]. destruct (remainingPath psi) as [rest psi'].
    destruct (negb (String.eqb rest "")).
    + exists pss, false, false, (Some ErrEmptyPathSegmentTemplate).
      split; [reflexivity|]. split; [exact Hall|]. split; [now right|].
      split; [discriminate | intros ->; contradiction].
    + exists pss, false, (pathHasTrailingSlash psi'), None.
      split; [reflexivity|]. split; [exact Hall|]. split; [now left|].
      split; [discriminate | intros ->; contradiction].
Qed.

(** *** Clean paths *)

Lemma clean_first (s x : string) :
  cleanSegment s -> at_ (s +:+ x) 0 <> Some "/"%char.
Proof.
  intros (Hne & Hc & _). destruct s as [|c s]; [contradiction|].
  cbn in *. apply orb_false_iff in Hc as [Hc _].
  intros [= ->]. discriminate.
Qed.

Lemma append_nonempty_l (a b : string) : a <> "" -> a +:+ b <> "".
Proof. destruct a; [contradiction | discriminate]. Qed.

(** The segment before a slash. *)
Lemma nextSegment_slash (s rest : string) (r t : bool) :
  cleanSegment s ->
  nextSegment (mkPsi (s +:+ String "/" rest) r t) = (s, mkPsi rest r t).
Proof.
  intros Hs. pose proof (clean_first s (String "/" rest) Hs) as Hfirst.
  destruct Hs as (Hne & Hc & Hp). unfold nextSegment. cbn [psi_path psi_root psi_tslash].
  destruct (String.eqb_spec (s +:+ String "/" rest) "") as [He|_];
    [now apply append_nonempty_l in He|].
  rewrite bool_decide_eq_false_2 by exact Hfirst.
  rewrite (IndexByte_append s rest "/" Hc).
  destruct (Z.ltb_spec (len s) 0) as [Hl|_]; [pose proof (len_nonneg s); lia|].
  rewrite (upto_append s), (decodeSlashes_clean s Hp). f_equal. f_equal.
  unfold from. replace (Z.to_nat (len s + 1)) with (S (String.length s)) by (unfold len; lia).
  apply (ShapeFacts.drop_S _ _ _ "/"). apply drop_append.
Qed.

(** The last segment. *)
Lemma nextSegment_last (s : string) (r t : bool) :
  cleanSegment s -> nextSegment (mkPsi s r t) = (s, mkPsi "" r t).
Proof.
  intros Hs. pose proof (clean_first s "" Hs) as Hfirst.
  rewrite MatchFacts.append_nil_r in Hfirst.
  destruct Hs as (Hne & Hc & Hp). unfold nextSegment. cbn [psi_path psi_root psi_tslash].
  destruct (String.eqb_spec s ""); [contradiction|].
  rewrite bool_decide_eq_false_2 by exact Hfirst.
  apply IndexByte_neg in Hc. destruct (Z.ltb_spec (IndexByte s "/") 0); [|lia].
  now rewrite (decodeSlashes_clean s Hp).
Qed.

(** The leading slash is dropped by the first call. *)
Lemma nextSegment_leading (p : string) (r t : bool) :
  p <> "" -> at_ p 0 <> Some "/"%char ->
  nextSegment (mkPsi (String "/" p) r t) = nextSegment (mkPsi p r t).
Proof.
  intros Hne Hfirst. unfold nextSegment. cbn [psi_path psi_root psi_tslash].
  destruct (String.eqb_spec p ""); [contradiction|].
  rewrite (bool_decide_eq_false_2 _ Hfirst). reflexivity.
Qed.

Lemma joinSegments_cons (s : string) (segs : list string) :
  segs <> [] -> joinSegments (s :: segs) = s +:+ String "/" (joinSegments segs).
Proof. destruct segs; [contradiction | reflexivity]. Qed.

Lemma segmentsLoop_clean (segs : list string) (tail r t : bool) :
  segs <> [] -> Forall cleanSegment segs ->
  forall (fuel : nat) (acc : list string),
    (List.length segs < fuel)%nat ->
    segmentsLoop fuel (mkPsi (joinSegments segs +:+ tailSlash tail) r t) acc
    = Returns ((acc ++ segs)%list, mkPsi "" r t).
Proof.
  intros Hne Hall. induction Hall as [|s segs Hs Hall IH]; [contradiction|].
  intros [|fuel] acc Hfuel; [cbn in Hfuel; lia|]. cbn [List.length] in Hfuel.
  assert (Hsne : String.eqb s "" = false)
    by (destruct Hs as (H & _); now destruct (String.eqb_spec s "")).
  destruct segs as [|s2 segs].
  - (* the last segment *)
    cbn [joinSegments segmentsLoop].
    assert (Hnext : nextSegment (mkPsi (s +:+ tailSlash tail) r t) = (s, mkPsi "" r t)).
    { destruct tail; cbn [tailSlash].
      - apply (nextSegment_slash s "" r t Hs).
      - rewrite MatchFacts.append_nil_r. apply (nextSegment_last s r t Hs). }
    rewrite Hnext, Hsne.
    destruct fuel as [|fuel]; [cbn in Hfuel; lia|]. reflexivity.
  - rewrite joinSegments_cons by discriminate.
    replace ((s +:+ String "/" (joinSegments (s2 :: segs))) +:+ tailSlash tail)
      with (s +:+ String "/" (joinSegments (s2 :: segs) +:+ tailSlash tail))
      by (now rewrite MatchFacts.append_assoc3).
    cbn [segmentsLoop]. rewrite (nextSegment_slash s _ r t Hs), Hsne.
    rewrite (IH ltac:(discriminate) fuel (appendSlice acc s)) by lia.
    unfold appendSlice. now rewrite <- app_assoc.
Qed.

Lemma length_joinSegments (segs : list string) :
  Forall cleanSegment segs -> (List.length segs <= String.length (joinSegments segs))%nat.
Proof.
  induction 1 as [|s segs (Hne & _) Hall IH]; [cbn; lia|].
  assert (Hpos : (0 < String.length s)%nat) by (destruct s; [contradiction | cbn; lia]).
  destruct segs as [|s2 segs]; [cbn; lia|].
  rewrite joinSegments_cons by discriminate. rewrite length_append.
  cbn [String.length List.length] in *. lia.
Qed.

Lemma get_append_r (a b : string) (n : nat) :
  String.get (String.length a + n) (a +:+ b) = String.get n b.
Proof. induction a as [|c a IH]; [reflexivity | exact IH]. Qed.

Lemma last_append (a b : string) : b <> "" -> last (a +:+ b) = last b.
Proof.
  intros Hb. assert (Hpos : (0 < String.length b)%nat)
    by (destruct b; [contradiction | cbn; lia]).
  unfold last, at_, len. rewrite length_append.
  destruct (Z.ltb_spec (Z.of_nat (String.length a + String.length b) - 1) 0); [lia|].
  destruct (Z.ltb_spec (Z.of_nat (String.length b) - 1) 0); [lia|].
  replace (Z.to_nat (Z.of_nat (String.length a + String.length b) - 1))
    with (String.length a + Z.to_nat (Z.of_nat (String.length b) - 1))%nat by lia.
  apply get_append_r.
Qed.

Lemma get_contains (s : string) (n : nat) (c : ascii) :
  String.get n s = Some c -> contains s c = true.
Proof.
  revert n. induction s as [|d s IH]; intros [|n] H; cbn in *; try discriminate.
  - injection H as ->. now rewrite Ascii.eqb_refl.
  - rewrite (IH n H). apply orb_true_r.
Qed.

Lemma last_clean (s : string) : cleanSegment s -> last s <> Some "/"%char.
Proof.
  intros (_ & Hc & _) Hl. unfold last, at_ in Hl.
  destruct (_ <? 0); [discriminate|]. apply get_contains in Hl. congruence.
Qed.

Lemma joinSegments_nonempty (segs : list string) :
  segs <> [] -> Forall cleanSegment segs -> joinSegments segs <> "".
Proof.
  intros Hne Hall. destruct Hall as [|s segs (Hs & _) Hall]; [contradiction|].
  destruct segs; [exact Hs|]. rewrite joinSegments_cons by discriminate.
  now apply append_nonempty_l.
Qed.

Lemma last_joinSegments (segs : list string) :
  segs <> [] -> Forall cleanSegment segs -> last (joinSegments segs) <> Some "/"%char.
Proof.
  intros Hne Hall. induction Hall as [|s segs Hs Hall IH]; [contradiction|].
  destruct segs as [|s2 segs]; [exact (last_clean s Hs)|].
  rewrite joinSegments_cons by discriminate.
  assert (Hj : joinSegments (s2 :: segs) <> "")
    by (apply joinSegments_nonempty; [discriminate | exact Hall]).
  rewrite last_append by discriminate.
  change (String "/" (joinSegments (s2 :: segs))) with ("/" +:+ joinSegments (s2 :: segs)).
  rewrite last_append by exact Hj. apply IH. discriminate.
Qed.

Lemma joinSegments_first (segs : list string) (x : string) :
  segs <> [] -> Forall cleanSegment segs -> at_ (joinSegments segs +:+ x) 0 <> Some "/"%char.
Proof.
  intros Hne Hall. destruct Hall as [|s segs Hs Hall]; [contradiction|].
  destruct segs as [|s2 segs]; [exact (clean_first s x Hs)|].
  rewrite joinSegments_cons by discriminate.
  rewrite MatchFacts.append_assoc3. exact (clean_first s _ Hs).
Qed.

(** X13.  The path of clean segments comes back: [splitPathSegments] on
    [s1/.../sn], with or without a leading slash and with or without a
    trailing slash, returns the segments, and [tslash] tells whether the
    trailing slash is there. *)
Theorem splitPathSegments_roundtrip (segs : list string) (lead tail : bool) :
  segs <> [] -> Forall cleanSegment segs ->
  splitPathSegments (tailSlash lead +:+ joinSegments segs +:+ tailSlash tail)
  = Returns (segs, false, tail, None).
Proof.
  intros Hne Hall.
  set (body := joinSegments segs +:+ tailSlash tail).
  assert (Hbody : body <> "")
    by (apply append_nonempty_l; now apply joinSegments_nonempty).
  assert (Hfirst : at_ body 0 <> Some "/"%char) by now apply joinSegments_first.
  assert (Hnotroot : String.eqb (tailSlash lead +:+ body) "/" = false).
  { destruct lead; cbn [tailSlash String.append].
    - destruct body; [contradiction | reflexivity].
    - destruct (String.eqb_spec body "/") as [He|]; [|reflexivity].
      rewrite He in Hfirst. now contradiction Hfirst. }
  assert (Hnotempty : String.eqb (tailSlash lead +:+ body) "" = false).
  { destruct lead; cbn [tailSlash String.append]; [reflexivity|].
    now destruct (String.eqb_spec body ""). }
  assert (Hts : bool_decide (last (tailSlash lead +:+ body) = Some "/"%char) = tail).
  { rewrite last_append by exact Hbody. subst body. destruct tail; cbn [tailSlash].
    - rewrite last_append by discriminate. reflexivity.
    - rewrite MatchFacts.append_nil_r. apply bool_decide_eq_false_2.
      now apply last_joinSegments. }
  unfold splitPathSegments. rewrite Hnotroot.
  unfold makePathSegmentIterator. rewrite Hnotroot, Hnotempty, Hts. cbn [negb andb].
  assert (Hloop : segmentsLoop (S (String.length (tailSlash lead +:+ body)))
                    (mkPsi (tailSlash lead +:+ body) false tail) []
                  = Returns (segs, mkPsi "" false tail)).
  { assert (Hlen : (List.length segs <= String.length body)%nat).
    { subst body. rewrite length_append. pose proof (length_joinSegments segs Hall). lia. }
    destruct lead; cbn [tailSlash String.append].
    - cbn [segmentsLoop String.length]. rewrite (nextSegment_leading body _ _ Hbody Hfirst).
      pose proof (segmentsLoop_clean segs tail false tail Hne Hall
                    (S (S (String.length body))) [] ltac:(lia)) as Hl.
      cbn [segmentsLoop app] in Hl. exact Hl.
    - exact (segmentsLoop_clean segs tail false tail Hne Hall (S (String.length body)) []
               ltac:(lia)). }
  rewrite Hloop. reflexivity.
Qed.

(** [splitPathSegments_roundtrip] on [/a/b/]. *)
Lemma splitPathSegments_roundtrip_witness :
  splitPathSegments "/a/b/" = Returns (["a"; "b"], false, true, None).
Proof.
  apply (splitPathSegments_roundtrip ["a"; "b"] true true); [discriminate|].
  repeat constructor; discriminate.
Defined.

End PathFacts.

(** ** utils.go: [splitURL] *)

Module UrlFacts.
Import GoStr GoStrFacts Utils UtilsMore.

Lemma LastIndexByte_neg (s : string) (c : ascii) :
  LastIndexByte s c < 0 <-> contains s c = false.
Proof.
  induction s as [|d s IH]; cbn [LastIndexByte contains]; [split; [reflexivity | lia]|].
  destruct (Z.leb_spec 0 (LastIndexByte s c)) as [Hge|Hlt].
  - split; [lia|]. intros H. apply orb_false_iff in H as [_ H]. apply IH in H. lia.
  - apply IH in Hlt. rewrite Hlt, orb_false_r.
    destruct (Ascii.eqb d c); split; try reflexivity; try discriminate; lia.
Qed.

(** The last [c] of [s] splits it: no [c] comes after. *)
Lemma LastIndexByte_split (s : string) (c : ascii) :
  0 <= LastIndexByte s c ->
  s = upto s (LastIndexByte s c) +:+ String c (from s (LastIndexByte s c + 1))
  /\ contains (from s (LastIndexByte s c + 1)) c = false.
Proof.
  unfold upto, from. induction s as [|d s IH]; cbn [LastIndexByte]; [lia|].
  destruct (Z.leb_spec 0 (LastIndexByte s c)) as [Hge|Hlt].
  - intros _. destruct (IH Hge) as [H1 H2].
    replace (Z.to_nat (LastIndexByte s c + 1)) with (S (Z.to_nat (LastIndexByte s c)))
      in * by lia.
    replace (Z.to_nat (LastIndexByte s c + 1 + 1))
      with (S (S (Z.to_nat (LastIndexByte s c)))) by lia.
    cbn [take drop String.append]. split; [f_equal; exact H1 | exact H2].
  - destruct (Ascii.eqb_spec d c) as [->|]; [|lia]. intros _.
    cbn. split; [reflexivity|]. now apply LastIndexByte_neg.
Qed.

(** X11.  [splitURL] passes on the host, the flags and the error of
    [splitHostAndPath].  It cuts the path of [splitHostAndPath] at its last
    slash: the prefix path, a slash and the last segment make up the path,
    and the resource template is that segment with [%2f] decoded.  An empty
    path and the path [/] are the resource template as they are. *)
Theorem splitURL_parts (s : string) :
  let r := splitHostAndPath s in
  let u := splitURL s in
  su_hostTmplStr u = hostTmplStr r /\ su_secure u = secure r
  /\ su_tslash u = tslash r /\ su_err u = err r
  /\ (err r <> None -> su_prefixPathTmplStr u = "" /\ su_resourceTmplStr u = "")
  /\ (err r = None -> pathTmplStr r = "" \/ pathTmplStr r = "/" ->
        su_prefixPathTmplStr u = "" /\ su_resourceTmplStr u = pathTmplStr r)
  /\ (err r = None -> pathTmplStr r <> "" -> pathTmplStr r <> "/" ->
        exists raw, contains raw "/" = false
          /\ su_resourceTmplStr u = decodeSlashes raw
          /\ (su_prefixPathTmplStr u = "" /\ pathTmplStr r = raw
              \/ pathTmplStr r = su_prefixPathTmplStr u +:+ String "/" raw)).
Proof.
  intros r u. subst u. unfold splitURL. fold r.
  destruct (err r) as [e|] eqn:Ee.
  - cbn [su_hostTmplStr su_prefixPathTmplStr su_resourceTmplStr su_secure su_tslash su_err].
    do 4 (split; [reflexivity|]).
    split; [intros _; split; reflexivity|]. split; intros; discriminate.
  - destruct (String.eqb_spec (pathTmplStr r) "") as [He|Hne];
      [|destruct (String.eqb_spec (pathTmplStr r) "/") as [Hs|Hns]]; cbn [orb].
    + cbn [su_hostTmplStr su_prefixPathTmplStr su_resourceTmplStr su_secure su_tslash su_err].
      do 4 (split; [reflexivity|]).
      split; [intros H; now contradiction H|]. split; [intros _ _; split; reflexivity|].
      intros _ H. contradiction.
    + cbn [su_hostTmplStr su_prefixPathTmplStr su_resourceTmplStr su_secure su_tslash su_err].
      do 4 (split; [reflexivity|]).
      split; [intros H; now contradiction H|]. split; [intros _ _; split; reflexivity|].
      intros _ _ H. contradiction.
    + destruct (Z.ltb_spec (LastIndexByte (pathTmplStr r) "/") 0) as [Hlt|Hge];
        cbn [su_hostTmplStr su_prefixPathTmplStr su_resourceTmplStr su_secure su_tslash
             su_err];
        do 4 (split; [reflexivity|]);
        (split; [intros H; now contradiction H|]);
        (split; [intros _ [?|?]; contradiction|]); intros _ _ _.
      * exists (pathTmplStr r). split; [now apply LastIndexByte_neg|].
        split; [reflexivity|]. now left.
      * destruct (LastIndexByte_split _ _ Hge) as [H1 H2].
        eexists. split; [exact H2|]. split; [reflexivity|]. right. exact H1.
Qed.

(** [splitURL_parts] on [https://example.com/a/b%2fc/]. *)
Lemma splitURL_parts_witness :
  splitURL "https://example.com/a/b%2fc/" = mkUrl "example.com" "/a" "b/c" true true None
  /\ exists raw, contains raw "/" = false
       /\ su_resourceTmplStr (splitURL "https://example.com/a/b%2fc/") = decodeSlashes raw.
Proof.
  split; [reflexivity|].
  destruct (splitURL_parts "https://example.com/a/b%2fc/") as (_ & _ & _ & _ & _ & _ & H).
  destruct H as (raw & Hraw & Hres & _); [reflexivity | discriminate | discriminate |].
  exists raw. split; assumption.
Defined.

End UrlFacts.

(** ** utils.go: [_Args] *)

Module ArgsFacts.
Import UtilsMore.

Section Args.
Context {K V : Type} `{EqDecision K} (nil : V).







End Args.



End ArgsFacts.

(** ** responder.go: [Config] and the flags *)

Module ConfigMoreFacts.
Import GoStr Tmpl Resp RespMore ConfigFacts.

(** X16.  [asFlags] and [asConfig]: a [Config] comes back from its flags in a
    normal form, in which [RedirectInsecureRequest] implies [Secure] and
    [HandleThePathAsIs] stands for both leniencies; the flags of a normal
    form are the flags of the [Config]. *)
Theorem asConfig_asFlags (c : Config) :
  asConfig (asFlags c)
  = mkConfig (SubtreeHandler c) (Secure c || RedirectInsecureRequest c)
      (RedirectInsecureRequest c) (TrailingSlash c) (StrictOnTrailingSlash c)
      (LeniencyOnTrailingSlash c || HandleThePathAsIs c)
      (LeniencyOnUncleanPath c || HandleThePathAsIs c)
      (HandleThePathAsIs c || LeniencyOnTrailingSlash c && LeniencyOnUncleanPath c)
  /\ asFlags (asConfig (asFlags c)) = asFlags c
  /\ cfs_has (asFlags c) flagActive = false.
Proof. destruct c as [[] [] [] [] [] [] [] []]; repeat split; reflexivity. Qed.

(** The [active] flag is no part of a [Config]. *)
Lemma cfs_has_lor_active (c flags : Z) :
  Z.land flagActive flags = 0 ->
  cfs_has (Z.lor flagActive c) flags = cfs_has c flags.
Proof.
  intros H. unfold cfs_has. now rewrite Z.land_lor_distr_l, H, Z.lor_0_l.
Qed.

Lemma asConfig_active (c : Z) : asConfig (Z.lor flagActive c) = asConfig c.
Proof. unfold asConfig. now rewrite !cfs_has_lor_active by reflexivity. Qed.

(** X17.  The flags that come back from the [Config] of 8-bit flags: the
    [active] flag is lost, and [secure] is set when [redirect insecure]
    is. *)
Theorem asFlags_asConfig (c : Z) :
  is_uint8 c ->
  asFlags (asConfig c)
  = Z.lor (Z.land c 254) (if cfs_has c flagRedirectInsecure then flagSecure else 0).
Proof.
  intros [H0 H1].
  assert (Hall : forallb (fun n : nat =>
                   asFlags (asConfig (Z.of_nat n))
                   =? Z.lor (Z.land (Z.of_nat n) 254)
                        (if cfs_has (Z.of_nat n) flagRedirectInsecure then flagSecure else 0))
                   (seq 0 256) = true) by (vm_compute; reflexivity).
  rewrite forallb_forall in Hall.
  specialize (Hall (Z.to_nat c)). rewrite Z2Nat.id in Hall by lia.
  apply Z.eqb_eq, Hall, in_seq. lia.
Qed.

Section WithEngine.
Context `{RE : RegexEngine} `{MR : MapRange}.

(** X18.  [Config] after [Configure] returns the normal form of the [Config],
    whatever the flags of the responder were, the responder is active, and
    the getters of the responder return the fields of that normal form:
    [IsSecure] holds when [Secure] or [RedirectInsecureRequest] was set,
    both leniencies hold when [HandleThePathAsIs] was set, and
    [HandlesThePathAsIs] holds when both leniencies were set. *)
Theorem Configure_Config (st : store) (rb : addr) (node : _ResponderBase) (c : Config) :
  st !! rb = Some node ->
  (Configure rb c ;;; Config_ rb) st
  = Returns (<[rb := setCfs node (Z.lor flagActive (asFlags c))]> st,
             inl (asConfig (asFlags c)))
  /\ cfs_has (Z.lor flagActive (asFlags c)) flagActive = true
  /\ (let node' := setCfs node (Z.lor flagActive (asFlags c)) in
      IsSubtreeHandler node' = SubtreeHandler c
      /\ IsSecure node' = Secure c || RedirectInsecureRequest c
      /\ RedirectsInsecureRequest node' = RedirectInsecureRequest c
      /\ HasTrailingSlash node' = TrailingSlash c
      /\ IsStrictOnTrailingSlash node' = StrictOnTrailingSlash c
      /\ IsLenientOnTrailingSlash node' = LeniencyOnTrailingSlash c || HandleThePathAsIs c
      /\ IsLenientOnUncleanPath node' = LeniencyOnUncleanPath c || HandleThePathAsIs c
      /\ HandlesThePathAsIs node'
         = HandleThePathAsIs c || LeniencyOnTrailingSlash c && LeniencyOnUncleanPath c).
Proof.
  intros Hrb. split; [|split].
  - unfold Configure, Config_, bind, modify, load, ret. rewrite Hrb.
    rewrite lookup_insert_eq. cbn [cfs setCfs]. now rewrite asConfig_active.
  - unfold cfs_has. rewrite Z.land_lor_distr_l.
    destruct (asConfig_asFlags c) as (_ & _ & Hinactive). unfold cfs_has in Hinactive.
    apply Z.eqb_eq. apply Z.eqb_neq in Hinactive.
    assert (Hbit : Z.land (asFlags c) flagActive = 0 \/ Z.land (asFlags c) flagActive = 1).
    { change flagActive with (Z.ones 1). rewrite Z.land_ones by lia.
      pose proof (Z.mod_pos_bound (asFlags c) (2 ^ 1) ltac:(lia)). lia. }
    destruct Hbit as [->| ->]; reflexivity.
  - cbv zeta.
    unfold IsSubtreeHandler, IsSecure, RedirectsInsecureRequest, HasTrailingSlash,
      IsStrictOnTrailingSlash, IsLenientOnTrailingSlash, IsLenientOnUncleanPath,
      HandlesThePathAsIs.
    cbn [cfs setCfs]. rewrite !cfs_has_lor_active by reflexivity.
    destruct c as [[] [] [] [] [] [] [] []]; repeat split; reflexivity.
Qed.

End WithEngine.

(** [asFlags_asConfig] on the flags [active], [secure], [trailing slash]. *)
Lemma asFlags_asConfig_witness : asFlags (asConfig 21) = 20.
Proof. apply (asFlags_asConfig 21). unfold is_uint8. lia. Defined.

(** [Configure_Config] on a responder with the flags 21, configured as a
    subtree handler that redirects insecure requests. *)
Lemma Configure_Config_witness :
  let node := TreeExamples.resource (TreeExamples.staticT 1 "a") None ∅ None true 21 in
  let c := mkConfig true false true false false false false false in
  (Configure 1%positive c ;;; Config_ 1%positive) {[1%positive := node]}
  = Returns ({[1%positive := setCfs node 15]},
             inl (mkConfig true true true false false false false false)).
Proof.
  intros node c.
  destruct (Configure_Config (RE := MiniRegexp.engine) {[1%positive := node]} 1%positive
              node c (lookup_singleton_eq _ _)) as [H _].
  rewrite H. reflexivity.
Defined.

End ConfigMoreFacts.

(** ** responder.go: the children and the path of a responder *)

Module ChildrenFacts.
Import GoStr Tmpl Resp RespMore ParseFacts TreeFacts CollisionFacts.

Section WithEngine.
Context `{RE : RegexEngine} `{MR : MapRange}.

Lemma existsb_eqb_elem (r : addr) (l : list addr) :
  existsb (Pos.eqb r) l = true <-> r ∈ l.
Proof.
  rewrite existsb_exists, list_elem_of_In. split.
  - intros (x & Hin & Heq). apply Pos.eqb_eq in Heq. now subst.
  - intros Hin. exists r. split; [exact Hin|apply Pos.eqb_refl].
Qed.

Lemma rangeMap_values_nil (m : gmap string addr) : map snd (rangeMap m) = [] <-> m = ∅.
Proof.
  split.
  - intros H. apply map_eq_nil in H. apply map_to_list_empty_iff.
    apply Permutation_nil_r. rewrite <- H. symmetry. apply rangeMap_perm.
  - intros ->. pose proof (rangeMap_perm addr ∅) as H.
    rewrite map_to_list_empty in H. apply Permutation_nil_r in H. now rewrite H.
Qed.

Lemma rangeMap_values_elem (m : gmap string addr) (r : addr) :
  r ∈ map snd (rangeMap m) <-> exists k, m !! k = Some r.
Proof.
  rewrite list_elem_of_In, in_map_iff. split.
  - intros ([k y] & <- & Hin). apply list_elem_of_In in Hin.
    rewrite rangeMap_perm in Hin. apply elem_of_map_to_list in Hin. eauto.
  - intros (k & Hk). exists (k, r). split; [reflexivity|].
    apply list_elem_of_In. rewrite rangeMap_perm. now apply elem_of_map_to_list.
Qed.

(** The children that [ChildResources] lists are the entries of the three
    buckets. *)
Lemma elem_of_ChildResources (node : _ResponderBase) (r : addr) :
  r ∈ ChildResources node <-> isChild node r.
Proof.
  unfold ChildResources, isChild. rewrite !elem_of_app, rangeMap_values_elem.
  destruct (wildcardResource node) as [w|]; cbv [option_list option_rect].
  - rewrite list_elem_of_singleton. split; intros [H|[H|H]]; auto; right; right; congruence.
  - split; intros [H|[H|H]]; auto; [inversion H|discriminate].
Qed.

(** [HasAnyChildResources] tells whether [ChildResources] returns a
    resource. *)
Lemma HasAnyChildResources_iff (node : _ResponderBase) :
  HasAnyChildResources node = true <-> ChildResources node <> [].
Proof.
  unfold HasAnyChildResources, ChildResources.
  rewrite !orb_true_iff, !negb_true_iff, !bool_decide_eq_false, bool_decide_eq_true.
  split.
  - intros [[H|H]|H] Hnil; apply app_eq_nil in Hnil as [H1 Hnil];
      apply app_eq_nil in Hnil as [H2 H3].
    + now apply H, rangeMap_values_nil.
    + contradiction.
    + destruct (wildcardResource node); [discriminate|contradiction].
  - intros Hne.
    destruct (decide (staticResources node = ∅)) as [Es|Es]; [|now left; left].
    destruct (decide (patternResources node = [])) as [Ep|Ep]; [|now left; right].
    right. intros Ew. apply Hne.
    apply rangeMap_values_nil in Es. now rewrite Es, Ep, Ew.
Qed.

(** X19.  [HasChildResource] answers [true] only for a resource that
    [ChildResources] lists, and then [HasAnyChildResources] holds; it writes
    nothing. *)
Theorem HasChildResource_listed (st st' : store) (rb r : addr) :
  HasChildResource rb (Some r) st = Returns (st', inl true) ->
  st' = st
  /\ exists node, st !! rb = Some node
       /\ r ∈ ChildResources node
       /\ HasAnyChildResources node = true.
Proof.
  unfold HasChildResource. intros H.
  apply bind_load_Returns in H as (rrb & Hr & H).
  apply bind_load_Returns in H as (node & Hn & H).
  assert (Hin : st' = st /\ r ∈ ChildResources node).
  { unfold ChildResources. rewrite !elem_of_app.
    destruct (IsStatic _).
    - injection H as <- H. apply existsb_eqb_elem in H. auto.
    - destruct (IsWildcard _ && bool_decide _) eqn:Ew.
      + injection H as <-. apply andb_true_iff in Ew as [_ Ew].
        apply bool_decide_eq_true in Ew. rewrite Ew. cbv [option_list option_rect].
        split; [reflexivity|]. right. right. now apply list_elem_of_singleton.
      + injection H as <- H. apply existsb_eqb_elem in H. auto. }
  destruct Hin as [-> Hin]. split; [reflexivity|].
  exists node. split; [exact Hn|]. split; [exact Hin|].
  apply HasAnyChildResources_iff. intros Hnil. rewrite Hnil in Hin. inversion Hin.
Qed.

(** A child is found by [HasChildResource] when it is in the bucket of its
    own template. *)
Lemma HasChildResource_bucket (st : store) (rb r : addr) (node rrb : _ResponderBase) :
  st !! rb = Some node -> st !! r = Some rrb ->
  (if IsStatic (tval (tmpl rrb)) then exists k, staticResources node !! k = Some r
   else if IsWildcard (tval (tmpl rrb)) then wildcardResource node = Some r
   else r ∈ patternResources node) ->
  HasChildResource rb (Some r) st = Returns (st, inl true).
Proof.
  intros Hn Hr Hb. unfold HasChildResource, bind, load. rewrite Hr, Hn.
  destruct (IsStatic _).
  - apply rangeMap_values_elem, existsb_eqb_elem in Hb. unfold ret. now rewrite Hb.
  - destruct (IsWildcard _); cbn [andb].
    + now rewrite bool_decide_true.
    + apply existsb_eqb_elem in Hb. unfold ret. now rewrite Hb.
Qed.

(** X20.  [HasChildResource] returns and writes nothing.  A static resource is
    looked for among the static children only; any other resource is a
    child when it is a wildcard resource and the wildcard child, or when it
    is among the pattern children. *)
Theorem HasChildResource_spec (st : store) (rb r : addr) (node rrb : _ResponderBase) :
  st !! rb = Some node -> st !! r = Some rrb ->
  exists b, HasChildResource rb (Some r) st = Returns (st, inl b)
    /\ (b = true <->
        if IsStatic (tval (tmpl rrb)) then exists k, staticResources node !! k = Some r
        else (IsWildcard (tval (tmpl rrb)) = true /\ wildcardResource node = Some r)
             \/ r ∈ patternResources node).
Proof.
  intros Hn Hr. unfold HasChildResource, bind, load. rewrite Hr, Hn.
  destruct (IsStatic _).
  - eexists. split; [reflexivity|]. now rewrite existsb_eqb_elem, rangeMap_values_elem.
  - destruct (IsWildcard _); cbn [andb].
    + destruct (bool_decide_reflect (wildcardResource node = Some r)) as [Hw|Hw].
      * exists true. split; [reflexivity|]. split; [intros _; now left|reflexivity].
      * eexists. split; [reflexivity|]. rewrite existsb_eqb_elem. split.
        -- intros Hin. now right.
        -- intros [[_ Hw']|Hin]; [contradiction|exact Hin].
    + eexists. split; [reflexivity|]. rewrite existsb_eqb_elem. split.
      * intros Hin. now right.
      * intros [[[=] _]|Hin]. exact Hin.
Qed.

(** *** [resourcesInThePath] *)

Lemma pathLoop_chain (fuel : nat) (st : store) (p : option _Parent) (acc l : list addr) :
  pathLoop fuel st p acc = Returns l ->
  exists chain, l = (acc ++ chain)%list /\ isChain st p chain.
Proof.
  revert p acc. induction fuel as [|fuel IH]; intros p acc H; [discriminate|].
  cbn [pathLoop] in H. destruct p as [[|a]|].
  - injection H as <-. exists []. rewrite app_nil_r. split; [reflexivity|now right].
  - destruct (st !! a) as [node|] eqn:Ea; [|discriminate].
    apply IH in H as (chain & -> & Hc). exists (a :: chain). split.
    + unfold appendSlice. now rewrite <- app_assoc.
    + split; [reflexivity|]. eauto.
  - injection H as <-. exists []. rewrite app_nil_r. split; [reflexivity|now left].
Qed.

Lemma pathLoop_complete (fuel : nat) (st : store) (p : option _Parent)
  (acc chain : list addr) :
  isChain st p chain -> (length chain < fuel)%nat ->
  pathLoop fuel st p acc = Returns (acc ++ chain)%list.
Proof.
  revert fuel p acc. induction chain as [|a chain IH]; intros fuel p acc Hc Hf.
  - destruct fuel as [|fuel]; [cbn in Hf; lia|]. cbn [pathLoop].
    rewrite app_nil_r. now destruct Hc as [->| ->].
  - destruct fuel as [|fuel]; [cbn in Hf; lia|].
    destruct Hc as (-> & node & Ha & Hc). cbn [pathLoop]. rewrite Ha.
    rewrite (IH fuel (papa node) (appendSlice acc a) Hc) by (cbn in Hf; lia).
    unfold appendSlice. now rewrite <- app_assoc.
Qed.

(** X21.  [resourcesInThePath] returns the chain of the parents of the responder
    from the top down to the responder itself, which is its last entry; the
    chain ends below the router or at a responder without a parent.  With
    more fuel than the chain is long the call returns. *)
Theorem resourcesInThePath_chain (fuel : nat) (st : store) (rb : addr) :
  (forall l, resourcesInThePath fuel st rb = Returns l ->
     exists above, List.rev l = rb :: above
       /\ isChain st (Some (ParentResponder rb)) (rb :: above))
  /\ (forall chain, isChain st (Some (ParentResponder rb)) chain ->
        (length chain < fuel)%nat ->
        resourcesInThePath fuel st rb = Returns (List.rev chain)).
Proof.
  unfold resourcesInThePath. split.
  - intros l H. destruct (pathLoop _ _ _ _) as [resources|] eqn:Ep; [|discriminate].
    injection H as <-. apply pathLoop_chain in Ep as (chain & -> & Hc).
    rewrite rev_involutive. cbn [app].
    destruct chain as [|a above]; [destruct Hc; discriminate|].
    destruct Hc as ([= <-] & Hc). exists above. split; [reflexivity|].
    split; [reflexivity|exact Hc].
  - intros chain Hc Hf. now rewrite (pathLoop_complete _ _ _ [] _ Hc Hf).
Qed.

End WithEngine.

(** [HasChildResource_listed] on the tree of the collision: the resource at
    2 is a child of the resource at 1. *)
Lemma HasChildResource_listed_witness :
  exists node, TreeExamples.collisionTree !! 1%positive = Some node
    /\ 2%positive ∈ ChildResources node
    /\ HasAnyChildResources node = true.
Proof.
  assert (H : HasChildResource 1%positive (Some 2%positive) TreeExamples.collisionTree
              = Returns (TreeExamples.collisionTree, inl true)) by reflexivity.
  exact (proj2 (HasChildResource_listed (RE := MiniRegexp.engine) _ _ _ _ H)).
Defined.

(** [HasChildResource_spec] on the tree of the collision: the resource at
    4 is a child of the resource at 2 and no child of the resource at 1. *)
Lemma HasChildResource_spec_witness :
  (exists b, HasChildResource 2%positive (Some 4%positive) TreeExamples.collisionTree
             = Returns (TreeExamples.collisionTree, inl b)
     /\ (b = true <-> exists k : string,
           ({["x" := 3%positive; "y" := 4%positive]} : gmap string addr) !! k
           = Some 4%positive))
  /\ HasChildResource 1%positive (Some 4%positive) TreeExamples.collisionTree
     = Returns (TreeExamples.collisionTree, inl false).
Proof.
  split; [|reflexivity].
  exact (HasChildResource_spec (RE := MiniRegexp.engine) TreeExamples.collisionTree
           2%positive 4%positive _ _ eq_refl eq_refl).
Defined.

(** [resourcesInThePath_chain] on the tree of the collision: the path of
    the resource at 3. *)
Lemma resourcesInThePath_chain_witness :
  resourcesInThePath 4 TreeExamples.collisionTree 3%positive
  = Returns [1%positive; 2%positive; 3%positive].
Proof.
  apply (proj2 (resourcesInThePath_chain (RE := MiniRegexp.engine) 4
                  TreeExamples.collisionTree 3%positive)
           [3%positive; 2%positive; 1%positive]); [|cbn; lia].
  split; [reflexivity|]. eexists. split; [reflexivity|].
  split; [reflexivity|]. eexists. split; [reflexivity|].
  split; [reflexivity|]. eexists. split; [reflexivity|].
  left. reflexivity.
Defined.

End ChildrenFacts.

(** ** responder.go: what the registration keeps and what it adds *)

Module RegisterFacts.
Import GoStr Tmpl Resp RespMore ParseFacts SimilarityFacts TreeFacts CollisionFacts ChildrenFacts.

Section WithEngine.
Context `{RE : RegexEngine} `{MR : MapRange}.

(** *** The identity of the responders *)

Lemma sameIdentity_refl (st : store) : sameIdentity st st.
Proof. intros a. reflexivity. Qed.

Lemma sameIdentity_trans (st1 st2 st3 : store) :
  sameIdentity st1 st2 -> sameIdentity st2 st3 -> sameIdentity st1 st3.
Proof. intros H1 H2 a. now rewrite H2, H1. Qed.

Lemma keeps_readonly {A : Type} (m : M A) :
  (forall st st' res, m st = Returns (st', res) -> st' = st) -> keepsIdentity m.
Proof. intros H st st' res Hm. apply H in Hm as ->. apply sameIdentity_refl. Qed.

Lemma keeps_ret {A : Type} (a : A) : keepsIdentity (ret a).
Proof. apply keeps_readonly. now intros st st' res [= <- _]. Qed.

Lemma keeps_fail {A : Type} (e : error) : keepsIdentity (fail (A := A) e).
Proof. apply keeps_readonly. now intros st st' res [= <- _]. Qed.

Lemma keeps_panic {A : Type} : keepsIdentity (panic (A := A)).
Proof. intros st st' res [=]. Qed.

Lemma keeps_load (a : addr) : keepsIdentity (load a).
Proof. apply keeps_readonly. intros st st' res H. now apply load_Returns in H as [-> _]. Qed.

Lemma keeps_lift {A : Type} (o : outcome A) : keepsIdentity (lift o).
Proof. apply keeps_readonly. intros st st' res H. now apply lift_Returns in H as [-> _]. Qed.

Lemma keeps_check (c : store -> outcome (option error)) : keepsIdentity (check c).
Proof.
  apply keeps_readonly. intros st st' res. unfold check.
  destruct (c st) as [[e|]|]; [| |discriminate]; now intros [= <- _].
Qed.

Lemma keeps_bind {A B : Type} (m : M A) (k : A -> M B) :
  keepsIdentity m -> (forall a, keepsIdentity (k a)) -> keepsIdentity (bind m k).
Proof.
  intros Hm Hk st st' res H.
  apply bind_Returns in H as [(st1 & a & H1 & H2)|(e & H1 & _)].
  - exact (sameIdentity_trans _ _ _ (Hm _ _ _ H1) (Hk _ _ _ _ H2)).
  - exact (Hm _ _ _ H1).
Qed.

Lemma keeps_modify (a : addr) (f : _ResponderBase -> _ResponderBase) :
  (forall node, identityOf (f node) = identityOf node) -> keepsIdentity (modify a f).
Proof.
  intros Hf st st' res H. apply modify_Returns in H as (node & Hn & -> & _).
  intros b. destruct (decide (a = b)) as [<-|Hne].
  - rewrite lookup_insert_eq, Hn. cbn. now rewrite Hf.
  - now rewrite lookup_insert_ne.
Qed.

Lemma keeps_forEach (l : list addr) (body : addr -> M unit) :
  (forall x, keepsIdentity (body x)) -> keepsIdentity (forEach l body).
Proof.
  intros Hb. induction l as [|x l IH]; cbn [forEach]; [apply keeps_ret|].
  apply keeps_bind; [apply Hb | intros _; exact IH].
Qed.

Lemma keeps_setParent (r : addr) (p : option _Parent) : keepsIdentity (setParent r p).
Proof.
  unfold setParent. destruct p as [p|]; [|now apply keeps_modify].
  apply keeps_bind; [apply keeps_load|intros rb].
  destruct (_ && _); [apply keeps_fail|].
  destruct (_ && _); [apply keeps_fail|]. now apply keeps_modify.
Qed.

Lemma keeps_configCompatibility (r : addr) (secure tslash : bool) (c : option Z) :
  keepsIdentity (configCompatibility r secure tslash c).
Proof.
  unfold configCompatibility. apply keeps_bind; [apply keeps_load|intros rb].
  destruct (configCompatibilityFlags _ _ _ _) as [rbcfs [e|]];
    [apply keeps_fail|now apply keeps_modify].
Qed.

Lemma keeps_resourceWithTemplate (rb : addr) (t : TemplatePtr) :
  keepsIdentity (resourceWithTemplate rb t).
Proof.
  apply keeps_readonly. intros st st' res H.
  now apply resourceWithTemplate_Returns in H as [-> _].
Qed.

Lemma keeps_registerResource (rb r : addr) : keepsIdentity (registerResource rb r).
Proof.
  unfold registerResource. apply keeps_bind; [apply keeps_load|intros rrb].
  apply keeps_bind; [|intros _; apply keeps_setParent].
  apply keeps_modify. intros node.
  destruct (IsStatic _); [reflexivity|]. now destruct (IsWildcard _).
Qed.

Lemma keeps_replaceResource (rb oldR newR : addr) :
  keepsIdentity (replaceResource rb oldR newR).
Proof.
  unfold replaceResource. apply keeps_bind; [apply keeps_load|intros onode].
  apply keeps_bind; [apply keeps_load|intros node].
  apply keeps_bind.
  - destruct (_ || _); [apply keeps_panic|]. apply keeps_modify. intros n.
    unfold replaceChild. destruct (IsStatic _); [reflexivity|]. now destruct (IsWildcard _).
  - intros _. apply keeps_bind; intros; apply keeps_setParent.
Qed.

Lemma keeps_passChildResourcesWith (keep : addr -> addr -> M unit) (rb r : addr) :
  (forall x, keepsIdentity (keep r x)) ->
  keepsIdentity (passChildResourcesWith keep rb r).
Proof.
  intros Hk. unfold passChildResourcesWith.
  apply keeps_bind; [apply keeps_load|intros node].
  apply keeps_bind; [now apply keeps_forEach|intros _].
  apply keeps_bind; [apply keeps_load|intros node1].
  apply keeps_bind; [now apply keeps_forEach|intros _].
  apply keeps_bind; [apply keeps_load|intros node2].
  apply keeps_bind; [now apply keeps_forEach|intros _].
  now apply keeps_modify.
Qed.

Lemma keeps_keepResource (fuel : nat) (rb r : addr) :
  keepsIdentity (keepResourceOrItsChildResources fuel rb r).
Proof.
  revert rb r. induction fuel as [|fuel IH]; intros rb r; [apply keeps_panic|].
  cbn [keepResourceOrItsChildResources].
  apply keeps_bind; [apply keeps_load|intros rrb].
  apply keeps_bind; [apply keeps_resourceWithTemplate|intros [rwt|]];
    [|apply keeps_registerResource].
  apply keeps_bind; [apply keeps_configCompatibility|intros _].
  destruct (negb (canHandle rrb)); [apply keeps_passChildResourcesWith; intros; apply IH|].
  apply keeps_bind; [apply keeps_load|intros rwtrb].
  destruct (negb (canHandle rwtrb)).
  - apply keeps_bind; [apply keeps_passChildResourcesWith; intros; apply IH|].
    intros _. apply keeps_replaceResource.
  - apply keeps_bind; [apply keeps_lift|intros _; apply keeps_fail].
Qed.

(** X22.  Whatever [keepResourceOrItsChildResources] returns, a value or an
    error, it adds and removes no responder, and every responder keeps its
    template, its kind and its request handlers: the method writes parents,
    buckets and flags only. *)
Theorem keepResource_keeps_identity (fuel : nat) (rb r : addr)
  (st st' : store) (res : unit + error) :
  keepResourceOrItsChildResources fuel rb r st = Returns (st', res) ->
  sameIdentity st st'.
Proof. apply keeps_keepResource. Qed.

(** X23.  [passChildResourcesTo] too keeps the identity of the responders, and
    when it returns without an error the responder that passed its children
    on has none: [HasAnyChildResources] is false. *)
Theorem passChildResourcesTo_empties (fuel : nat) (rb r : addr) (st st' : store) :
  passChildResourcesTo fuel rb r st = Returns (st', inl tt) ->
  sameIdentity st st'
  /\ exists node, st' !! rb = Some node
       /\ ChildResources node = []
       /\ HasAnyChildResources node = false.
Proof.
  intros H. split.
  - revert H. apply keeps_passChildResourcesWith. intros x. apply keeps_keepResource.
  - apply passChildResourcesWith_Returns in H as (node & Hn & Hs & Hp & Hw).
    exists node. split; [exact Hn|].
    assert (Hnil : ChildResources node = []).
    { unfold ChildResources. rewrite Hs, Hp, Hw.
      now rewrite (proj2 (rangeMap_values_nil ∅) eq_refl). }
    split; [exact Hnil|].
    destruct (HasAnyChildResources node) eqn:E; [|reflexivity].
    now apply HasAnyChildResources_iff in E.
Qed.

(** *** The footprint *)

(** X24.  [keepResourceOrItsChildResources] writes the receiver, the
    argument and their descendants only, also when it returns an error: a
    set of responders that holds both and the children of its responders
    holds every responder that is written, no responder is added or
    removed, and the set still holds the children of its responders. *)
Theorem keepResource_footprint (S : gset addr) (fuel : nat) (rb r : addr)
  (st st' : store) (res : unit + error) :
  closed S st -> rb ∈ S -> r ∈ S ->
  keepResourceOrItsChildResources fuel rb r st = Returns (st', res) ->
  writesWithin S st st'.
Proof. intros Hcl Hrb Hr H. exact (keep_writesWithin S fuel rb r st st' res Hcl Hrb Hr H). Qed.

End WithEngine.

(** [keepResource_keeps_identity] on the merge that fails with the tree
    changed. *)
Lemma keepResource_keeps_identity_witness :
  sameIdentity TreeExamples.mergeTree TreeExamples.mergeTreeAfter.
Proof.
  apply (keepResource_keeps_identity (RE := MiniRegexp.engine) 3 1%positive
           4%positive TreeExamples.mergeTree TreeExamples.mergeTreeAfter
           (inr ErrDuplicateResourceTemplate)).
  reflexivity.
Defined.

(** [passChildResourcesTo_empties] on the tree of the collision: the
    resource at 2 passes its children to the resource at 5. *)
Lemma passChildResourcesTo_empties_witness :
  exists st', passChildResourcesTo 1 2%positive 5%positive TreeExamples.collisionTree
              = Returns (st', inl tt)
    /\ sameIdentity TreeExamples.collisionTree st'
    /\ exists node, st' !! 2%positive = Some node
         /\ ChildResources node = []
         /\ HasAnyChildResources node = false.
Proof.
  eexists. split; [reflexivity|].
  apply (passChildResourcesTo_empties (RE := MiniRegexp.engine) 1 2%positive 5%positive
           TreeExamples.collisionTree).
  reflexivity.
Defined.

(** [keepResource_footprint] on the tree of the collision: keeping the
    resource at 5 at the resource at 2 does not write the resource at 1. *)
Lemma keepResource_footprint_witness :
  writesWithin ({[2%positive; 3%positive; 4%positive; 5%positive]} : gset addr)
    TreeExamples.collisionTree TreeMoreExamples.registeredTree.
Proof.
  apply (keepResource_footprint (RE := MiniRegexp.engine)
           {[2%positive; 3%positive; 4%positive; 5%positive]} 3 2%positive 5%positive
           TreeExamples.collisionTree TreeMoreExamples.registeredTree (inl tt)).
  - intros a node c Ha Hn Hc.
    assert (H2 : TreeExamples.collisionTree !! 2%positive
                 = Some (TreeExamples.resource (TreeExamples.staticT 2 "a") (Some 1%positive)
                           {["x" := 3%positive; "y" := 4%positive]} None false 1))
      by reflexivity.
    assert (H3 : TreeExamples.collisionTree !! 3%positive
                 = Some (TreeExamples.resource (TreeExamples.staticT 3 "x") (Some 2%positive)
                           ∅ None true 1)) by reflexivity.
    assert (H4 : TreeExamples.collisionTree !! 4%positive
                 = Some (TreeExamples.resource (TreeExamples.staticT 4 "y") (Some 2%positive)
                           ∅ None true 1)) by reflexivity.
    assert (H5 : TreeExamples.collisionTree !! 5%positive
                 = Some (TreeExamples.resource (TreeExamples.staticT 5 "a") None
                           ∅ None true 1)) by reflexivity.
    assert (Hleaf : forall t p h f,
              isChild (TreeExamples.resource t p ∅ None h f) c -> False).
    { intros t p h f [(k & Hk)|[Hp|Hw]]; cbn in Hk || cbn in Hp || cbn in Hw.
      - rewrite lookup_empty in Hk. discriminate.
      - inversion Hp.
      - discriminate. }
    rewrite !elem_of_union, !elem_of_singleton in Ha.
    destruct Ha as [[[->| ->]| ->]| ->].
    + rewrite H2 in Hn. injection Hn as <-.
      destruct Hc as [(k & Hk)|[Hp|Hw]]; cbn in Hk || cbn in Hp || cbn in Hw.
      * apply lookup_insert_Some in Hk as [[_ <-]|[_ Hk]]; [set_solver|].
        apply lookup_singleton_Some in Hk as [_ <-]. set_solver.
      * inversion Hp.
      * discriminate.
    + rewrite H3 in Hn. injection Hn as <-. now apply Hleaf in Hc.
    + rewrite H4 in Hn. injection Hn as <-. now apply Hleaf in Hc.
    + rewrite H5 in Hn. injection Hn as <-. now apply Hleaf in Hc.
  - set_solver.
  - set_solver.
  - reflexivity.
Defined.

End RegisterFacts.

(** ** responder.go: keeping a resource with a new template *)

Module NewChildFacts.
Import GoStr Tmpl Resp RespMore ParseFacts SimilarityFacts TreeFacts CollisionFacts
  ChildrenFacts.

Section WithEngine.
Context `{RE : RegexEngine} `{MR : MapRange}.

Lemma registerResource_Returns (rb r : addr) (st st' : store) :
  rb <> r ->
  registerResource rb r st = Returns (st', inl tt) ->
  exists node rrb, st !! rb = Some node /\ st !! r = Some rrb
    /\ st' = <[r := setPapa rrb (Some (ParentResponder rb))]>
               (<[rb := withChild node (tval (tmpl rrb)) r]> st).
Proof.
  intros Hne H. unfold registerResource in H.
  apply bind_load_Returns in H as (rrb & Hr & H).
  apply bind_Returns in H as [(st1 & [] & Hm & H)|(e & _ & [=])].
  apply modify_Returns in Hm as (node & Hn & -> & _).
  apply setParent_Returns in H as (rrb' & Hr' & ->).
  rewrite lookup_insert_ne in Hr' by exact Hne. rewrite Hr in Hr'. injection Hr' as <-.
  exists node, rrb. split; [exact Hn|]. split; [exact Hr|reflexivity].
Qed.

(** The result of [similarChild] does not depend on the heap. *)
Lemma similarChild_frame (c : addr) (ctmpl t : TemplatePtr) (st st1 st2 : store)
  (res : option addr + error) :
  similarChild c ctmpl t st = Returns (st1, res) ->
  similarChild c ctmpl t st2 = Returns (st2, res).
Proof.
  unfold similarChild. destruct (Pos.eqb _ _); [now intros [= _ <-]|].
  unfold bind, lift. destruct (SimilarityWith _ _) as [[]|]; try discriminate;
    now intros [= _ <-].
Qed.

(** Two wildcard templates are never [Different]. *)
Lemma SimilarityWith_wildcards (a b : Template) :
  IsStatic a = false -> IsWildcard a = true -> IsWildcard b = true ->
  SimilarityWith a b <> Returns Different.
Proof.
  intros Hs Ha Hb. unfold SimilarityWith. rewrite Hs, Ha, Hb.
  unfold IsWildcard in Ha, Hb.
  destruct (slices a) as [|s1 [|]]; try discriminate.
  destruct (slices b) as [|s2 [|]]; try discriminate.
  unfold obind. destruct (slice_name s1); [|discriminate].
  destruct (slice_name s2); [|discriminate].
  destruct (String.eqb _ _); [|discriminate]. destruct (negb _); discriminate.
Qed.

(** The loop over the pattern children reads the templates only. *)
Lemma patternWithTemplate_frame (prs : list addr) (t : TemplatePtr) (st st2 : store)
  (res : option addr + error) :
  (forall a, a ∈ prs -> tmpl <$> (st2 !! a) = tmpl <$> (st !! a)) ->
  patternWithTemplate prs t st = Returns (st, res) ->
  patternWithTemplate prs t st2 = Returns (st2, res).
Proof.
  induction prs as [|pr prs IH]; intros Hsame H; cbn [patternWithTemplate] in *.
  - now injection H as <-.
  - apply bind_load_Returns in H as (prb & Hpr & H).
    pose proof (Hsame pr ltac:(left)) as Ht. rewrite Hpr in Ht.
    destruct (st2 !! pr) as [prb2|] eqn:Hpr2; [|discriminate]. injection Ht as Ht.
    unfold bind at 1, load. rewrite Hpr2, Ht.
    apply bind_Returns in H as [(st1 & found & Hs & H)|(e & Hs & ->)].
    + pose proof (similarChild_Returns _ _ _ _ _ _ Hs) as [-> _].
      unfold bind. rewrite (similarChild_frame _ _ _ _ _ st2 _ Hs).
      destruct found as [c|]; [now injection H as <-|].
      apply IH; [|exact H]. intros a Ha. apply Hsame. now right.
    + unfold bind. now rewrite (similarChild_frame _ _ _ _ _ st2 _ Hs).
Qed.

Lemma patternWithTemplate_app (prs l2 : list addr) (t : TemplatePtr) (st : store) :
  patternWithTemplate prs t st = Returns (st, inl None) ->
  patternWithTemplate (prs ++ l2) t st = patternWithTemplate l2 t st.
Proof.
  induction prs as [|pr prs IH]; intros H; [reflexivity|].
  cbn [app patternWithTemplate] in *.
  apply bind_load_Returns in H as (prb & Hpr & H).
  unfold bind at 1, load. rewrite Hpr.
  apply bind_Returns in H as [(st1 & found & Hs & H)|(e & Hs & [=])].
  pose proof (similarChild_Returns _ _ _ _ _ _ Hs) as [-> _].
  unfold bind. rewrite Hs. destruct found as [c|]; [discriminate|]. now apply IH.
Qed.

(** A lookup that finds no child with the template finds the bucket of the
    template without it. *)
Lemma resourceWithTemplate_None (rb : addr) (t : TemplatePtr) (st : store)
  (node : _ResponderBase) :
  st !! rb = Some node ->
  resourceWithTemplate rb t st = Returns (st, inl None) ->
  (IsStatic (tval t) = true -> staticResources node !! UnescapedContent (tval t) = None)
  /\ (IsStatic (tval t) = false -> IsWildcard (tval t) = false ->
      patternWithTemplate (patternResources node) t st = Returns (st, inl None)).
Proof.
  intros Hn H. unfold resourceWithTemplate, bind at 1, load in H. rewrite Hn in H.
  destruct (IsStatic (tval t)).
  - split; [intros _|discriminate].
    destruct (staticResources node !! _) as [r0|]; [|reflexivity].
    apply bind_load_Returns in H as (rrb & _ & H).
    destruct (Pos.eqb _ _); [discriminate|]. destruct (negb _); discriminate.
  - split; [discriminate|intros _ Hw]. now rewrite Hw in H.
Qed.

(** With a wildcard resource in the wildcard bucket, the lookup of a
    wildcard template never finds no child. *)
Lemma resourceWithTemplate_wildcard (rb w : addr) (t : TemplatePtr) (st : store)
  (node wnode : _ResponderBase) :
  st !! rb = Some node -> wildcardResource node = Some w -> st !! w = Some wnode ->
  IsStatic (tval (tmpl wnode)) = false /\ IsWildcard (tval (tmpl wnode)) = true ->
  IsStatic (tval t) = false -> IsWildcard (tval t) = true ->
  resourceWithTemplate rb t st <> Returns (st, inl None).
Proof.
  intros Hn Hw Hwn [Hws Hww] Hs Hwt H.
  unfold resourceWithTemplate, bind at 1, load in H. rewrite Hn, Hs, Hwt, Hw in H.
  unfold bind at 1, load in H. rewrite Hwn in H.
  unfold similarChild in H. destruct (Pos.eqb _ _); [discriminate|].
  unfold bind, lift in H.
  pose proof (SimilarityWith_wildcards _ _ Hws Hww Hwt) as Hd.
  destruct (SimilarityWith _ _) as [[]|]; try discriminate. now apply Hd.
Qed.

Lemma isChild_withChild (node : _ResponderBase) (t : Template) (r c : addr) :
  (IsStatic t = true -> staticResources node !! UnescapedContent t = None) ->
  (IsStatic t = false -> IsWildcard t = true -> wildcardResource node = None) ->
  isChild (withChild node t r) c <-> c = r \/ isChild node c.
Proof.
  intros Hs Hw. unfold withChild.
  destruct (IsStatic t); [|destruct (IsWildcard t)].
  - split; [apply isChild_static_insert|]. intros [->|[(k & Hk)|[H|H]]].
    + left. exists (UnescapedContent t). apply lookup_insert_eq.
    + left. exists k. cbn. rewrite lookup_insert_ne; [exact Hk|].
      intros <-. rewrite (Hs eq_refl) in Hk. discriminate.
    + right. now left.
    + right. now right.
  - split; [apply isChild_wildcard_set|]. intros [->|[(k & Hk)|[H|H]]].
    + right. now right.
    + left. eauto.
    + right. now left.
    + rewrite (Hw eq_refl eq_refl) in H. discriminate.
  - split; [apply isChild_pattern_append|]. intros [->|[(k & Hk)|[H|H]]].
    + right. left. cbn. unfold appendSlice. apply elem_of_app. right. now left.
    + left. eauto.
    + right. left. cbn. unfold appendSlice. apply elem_of_app. now left.
    + right. now right.
Qed.

(** X25.  [keepResourceOrItsChildResources] of a resource whose template no
    child of the receiver has, where the wildcard child of the receiver, if
    there is one, is a wildcard resource: when the call returns no error
    the resource is a child, next to the children that were there, its
    parent is the receiver, no other responder is written, and
    [HasChildResource] and the lookup by the template find it. *)
Theorem keepResource_new_child (fuel : nat) (st st' : store) (rb r : addr)
  (node rrb : _ResponderBase) :
  st !! rb = Some node -> st !! r = Some rrb -> rb <> r ->
  (forall w wnode, wildcardResource node = Some w -> st !! w = Some wnode ->
     IsStatic (tval (tmpl wnode)) = false /\ IsWildcard (tval (tmpl wnode)) = true) ->
  resourceWithTemplate rb (tmpl rrb) st = Returns (st, inl None) ->
  keepResourceOrItsChildResources fuel rb r st = Returns (st', inl tt) ->
  exists node', st' !! rb = Some node'
    /\ (forall c, isChild node' c <-> c = r \/ isChild node c)
    /\ st' !! r = Some (setPapa rrb (Some (ParentResponder rb)))
    /\ (forall a, a <> rb -> a <> r -> st' !! a = st !! a)
    /\ HasChildResource rb (Some r) st' = Returns (st', inl true)
    /\ resourceWithTemplate rb (tmpl rrb) st' = Returns (st', inl (Some r)).
Proof.
  intros Hn Hr Hne Hwild Hnone H.
  (* the call comes down to [registerResource] *)
  assert (Hreg : registerResource rb r st = Returns (st', inl tt)).
  { destruct fuel as [|fuel]; [discriminate|].
    cbn [keepResourceOrItsChildResources] in H.
    unfold bind at 1, load in H. rewrite Hr in H.
    unfold bind at 1 in H. rewrite Hnone in H. exact H. }
  apply registerResource_Returns in Hreg as (node0 & rrb0 & Hn0 & Hr0 & ->); [|exact Hne].
  rewrite Hn in Hn0. injection Hn0 as <-. rewrite Hr in Hr0. injection Hr0 as <-.
  set (t := tval (tmpl rrb)).
  destruct (resourceWithTemplate_None _ _ _ _ Hn Hnone) as [Hstatic Hpattern].
  fold t in Hstatic, Hpattern.
  assert (Hwnone : IsStatic t = false -> IsWildcard t = true -> wildcardResource node = None).
  { intros Es Ew. destruct (wildcardResource node) as [w|] eqn:Hw; [exfalso|reflexivity].
    destruct (st !! w) as [wnode|] eqn:Hwn.
    - exact (resourceWithTemplate_wildcard _ _ _ _ _ _ Hn Hw Hwn (Hwild _ _ eq_refl Hwn)
               Es Ew Hnone).
    - unfold resourceWithTemplate, bind at 1, load in Hnone. rewrite Hn in Hnone.
      fold t in Hnone. rewrite Es, Ew, Hw in Hnone.
      unfold bind, load in Hnone. rewrite Hwn in Hnone. discriminate. }
  set (st' := <[r := setPapa rrb (Some (ParentResponder rb))]>
                (<[rb := withChild node t r]> st)).
  assert (Hrb' : st' !! rb = Some (withChild node t r)).
  { unfold st'. rewrite lookup_insert_ne by congruence. apply lookup_insert_eq. }
  assert (Hr' : st' !! r = Some (setPapa rrb (Some (ParentResponder rb))))
    by apply lookup_insert_eq.
  exists (withChild node t r). split; [exact Hrb'|].
  split; [intros c; now apply isChild_withChild|].
  split; [exact Hr'|].
  split; [intros a Ha1 Ha2; unfold st'; now rewrite !lookup_insert_ne by congruence|].
  split.
  - apply (HasChildResource_bucket st' rb r _ _ Hrb' Hr'). cbn [tmpl setPapa]. fold t.
    unfold withChild. destruct (IsStatic t); [|destruct (IsWildcard t)]; cbn.
    + exists (UnescapedContent t). apply lookup_insert_eq.
    + reflexivity.
    + unfold appendSlice. apply elem_of_app. right. now left.
  - unfold resourceWithTemplate, bind at 1, load. rewrite Hrb'. fold t.
    unfold withChild.
    destruct (IsStatic t) eqn:Es; [|destruct (IsWildcard t) eqn:Ew];
      cbn [staticResources patternResources wildcardResource setBuckets].
    + rewrite lookup_insert_eq. unfold bind, load. rewrite Hr'.
      cbn [tmpl setPapa]. now rewrite Pos.eqb_refl.
    + unfold bind, load. rewrite Hr'. unfold similarChild. cbn [tmpl setPapa].
      now rewrite Pos.eqb_refl.
    + unfold appendSlice.
      assert (Hp : patternWithTemplate (patternResources node) (tmpl rrb) st'
                   = Returns (st', inl None)).
      { apply (patternWithTemplate_frame _ _ st); [|now apply Hpattern].
        intros a _. unfold st'.
        destruct (decide (a = r)) as [->|Har].
        - rewrite lookup_insert_eq, Hr. reflexivity.
        - rewrite lookup_insert_ne by congruence.
          destruct (decide (a = rb)) as [->|Harb].
          + rewrite lookup_insert_eq, Hn. unfold withChild. rewrite Es, Ew. reflexivity.
          + now rewrite lookup_insert_ne by congruence. }
      rewrite (patternWithTemplate_app _ _ _ _ Hp). cbn [patternWithTemplate].
      unfold bind, load. rewrite Hr'. unfold similarChild. cbn [tmpl setPapa].
      now rewrite Pos.eqb_refl.
Qed.

End WithEngine.

(** [keepResource_new_child] on the tree of the collision: the resource at
    5 is kept at the resource at 2. *)
Lemma keepResource_new_child_witness :
  HasChildResource 2%positive (Some 5%positive) TreeMoreExamples.registeredTree
  = Returns (TreeMoreExamples.registeredTree, inl true)
  /\ resourceWithTemplate 2%positive (TreeExamples.staticT 5 "a")
       TreeMoreExamples.registeredTree
     = Returns (TreeMoreExamples.registeredTree, inl (Some 5%positive)).
Proof.
  pose (node := TreeExamples.resource (TreeExamples.staticT 2 "a") (Some 1%positive)
                  {["x" := 3%positive; "y" := 4%positive]} None false 1).
  pose (rrb := TreeExamples.resource (TreeExamples.staticT 5 "a") None ∅ None true 1).
  assert (Hn : TreeExamples.collisionTree !! 2%positive = Some node) by reflexivity.
  assert (Hr : TreeExamples.collisionTree !! 5%positive = Some rrb) by reflexivity.
  assert (Hw : forall w wnode, wildcardResource node = Some w ->
               TreeExamples.collisionTree !! w = Some wnode ->
               IsStatic (tval (tmpl wnode)) = false
               /\ IsWildcard (tval (tmpl wnode)) = true) by (intros w wnode [=]).
  assert (Hnone : resourceWithTemplate 2%positive (tmpl rrb) TreeExamples.collisionTree
                  = Returns (TreeExamples.collisionTree, inl None)) by reflexivity.
  assert (H : keepResourceOrItsChildResources 3 2%positive 5%positive
                TreeExamples.collisionTree
              = Returns (TreeMoreExamples.registeredTree, inl tt)) by reflexivity.
  destruct (keepResource_new_child 3 _ _ 2%positive 5%positive node rrb Hn Hr
              ltac:(discriminate) Hw Hnone H)
    as (node' & _ & _ & _ & _ & H1 & H2).
  split; [exact H1|exact H2].
Defined.

End NewChildFacts.

(** ** template.go: [SimilarityWith] on the templates of the examples *)

Module SimilarityExamples.
Import GoStr Tmpl ParseFacts SimilarityFacts.

Lemma wfTemplate_id_abc : wfTemplate Examples.t_id_abc.
Proof.
  constructor; [apply wfSlice_dynamicS|].
  constructor; [now apply wfSlice_staticS|constructor].
Qed.

Lemma wfTemplate_id_x : wfTemplate Examples.t_id_x.
Proof.
  constructor; [apply wfSlice_dynamicS|].
  constructor; [now apply wfSlice_staticS|constructor].
Qed.

(** [SimilarityWith_refl] on [{id:[0-9]+}abc]. *)
Lemma SimilarityWith_refl_witness :
  SimilarityWith Examples.t_id_abc Examples.t_id_abc = Returns TheSame.
Proof. exact (SimilarityWith_refl Examples.t_id_abc wfTemplate_id_abc). Defined.

(** [SimilarityWith_sym] on [{id:[0-9]+}abc] and [{id:[0-9]+}x]. *)
Lemma SimilarityWith_sym_witness :
  SimilarityWith Examples.t_id_abc Examples.t_id_x = Returns Different
  /\ SimilarityWith Examples.t_id_x Examples.t_id_abc = Returns Different
  /\ Different = Different.
Proof.
  split; [reflexivity|]. split; [reflexivity|].
  exact (SimilarityWith_sym Examples.t_id_abc Examples.t_id_x Different Different
           wfTemplate_id_abc wfTemplate_id_x eq_refl eq_refl).
Defined.

End SimilarityExamples.

(** ** responder.go: the names in the path of a responder *)

Module NameFacts.
Import GoStr Tmpl Resp RespMore TreeFacts ChildrenFacts.

Section WithEngine.
Context `{RE : RegexEngine} `{MR : MapRange}.

Lemma elem_of_List_rev (a : addr) (l : list addr) : a ∈ List.rev l <-> a ∈ l.
Proof. rewrite !list_elem_of_In. symmetry. apply in_rev. Qed.

(** The loop of [resourcesInThePath] returns with fuel left for the end of
    the chain. *)
Lemma pathLoop_length (fuel : nat) (st : store) (p : option _Parent) (acc l : list addr) :
  pathLoop fuel st p acc = Returns l ->
  exists chain, l = (acc ++ chain)%list /\ isChain st p chain /\ (length chain < fuel)%nat.
Proof.
  revert p acc. induction fuel as [|fuel IH]; intros p acc H; [discriminate|].
  cbn [pathLoop] in H. destruct p as [[|a]|].
  - injection H as <-. exists []. rewrite app_nil_r.
    split; [reflexivity|]. split; [now right|cbn; lia].
  - destruct (st !! a) as [node|] eqn:Ea; [|discriminate].
    apply IH in H as (chain & -> & Hc & Hl). exists (a :: chain). split; [|split].
    + unfold appendSlice. now rewrite <- app_assoc.
    + split; [reflexivity|]. eauto.
    + cbn. lia.
  - injection H as <-. exists []. rewrite app_nil_r.
    split; [reflexivity|]. split; [now left|cbn; lia].
Qed.

(** The loop of [checkNamesAreUniqueInTheURL] along a chain of parents. *)
Lemma uniqueInTheURLLoop_chain (fuel : nat) (st : store) (p : option _Parent)
  (t : Template) (names : list string) (chain : list addr) :
  isChain st p chain -> (length chain < fuel)%nat ->
  exists res, uniqueInTheURLLoop fuel st p t names = Returns res
    /\ (res = None \/ res = Some ErrDuplicateNameInTheURL
        \/ res = Some ErrDuplicateValueNameInTheURL)
    /\ (res = None <->
        forall a node, a ∈ chain -> st !! a = Some node ->
          (name t = "" \/ Name (tval (tmpl node)) <> name t)
          /\ HasValueName (tval (tmpl node)) names = false).
Proof.
  revert fuel p. induction chain as [|a chain IH]; intros fuel p Hc Hf.
  - destruct fuel as [|fuel]; [cbn in Hf; lia|]. cbn [uniqueInTheURLLoop].
    exists None. split; [now destruct Hc as [->| ->]|]. split; [now left|].
    split; [|reflexivity]. intros _ a node Ha. inversion Ha.
  - destruct fuel as [|fuel]; [cbn in Hf; lia|].
    destruct Hc as (-> & node & Ha & Hc). cbn [uniqueInTheURLLoop]. rewrite Ha.
    destruct (String.eqb_spec (name t) "") as [Hn|Hn]; cbn [negb andb].
    + destruct (HasValueName (tval (tmpl node)) names) eqn:Hv.
      * exists (Some ErrDuplicateValueNameInTheURL). split; [reflexivity|].
        split; [now right; right|]. split; [discriminate|].
        intros Hall. destruct (Hall a node ltac:(left) Ha) as [_ Hv']. congruence.
      * destruct (IH fuel (papa node) Hc ltac:(cbn in Hf; lia)) as (res & -> & H3 & Hiff).
        exists res. split; [reflexivity|]. split; [exact H3|]. etransitivity; [exact Hiff|]. split.
        -- intros Hall b nb Hb Hnb. apply elem_of_cons in Hb as [->|Hb].
           ++ rewrite Ha in Hnb. injection Hnb as <-. split; [now left|exact Hv].
           ++ exact (Hall b nb Hb Hnb).
        -- intros Hall b nb Hb Hnb. apply (Hall b nb); [now right|exact Hnb].
    + destruct (String.eqb_spec (Name (tval (tmpl node))) (name t)) as [He|He].
      * exists (Some ErrDuplicateNameInTheURL). split; [reflexivity|].
        split; [now right; left|]. split; [discriminate|].
        intros Hall. destruct (Hall a node ltac:(left) Ha) as [[Hx|Hx] _]; contradiction.
      * destruct (HasValueName (tval (tmpl node)) names) eqn:Hv.
        -- exists (Some ErrDuplicateValueNameInTheURL). split; [reflexivity|].
           split; [now right; right|]. split; [discriminate|].
           intros Hall. destruct (Hall a node ltac:(left) Ha) as [_ Hv']. congruence.
        -- destruct (IH fuel (papa node) Hc ltac:(cbn in Hf; lia)) as (res & -> & H3 & Hiff).
           exists res. split; [reflexivity|]. split; [exact H3|]. etransitivity; [exact Hiff|]. split.
           ++ intros Hall b nb Hb Hnb. apply elem_of_cons in Hb as [->|Hb].
              ** rewrite Ha in Hnb. injection Hnb as <-. split; [now right|exact Hv].
              ** exact (Hall b nb Hb Hnb).
           ++ intros Hall b nb Hb Hnb. apply (Hall b nb); [now right|exact Hnb].
Qed.

(** X26.  [checkNamesAreUniqueInTheURL] and [resourcesInThePath]: when the
    path of the responder is returned, the check returns too, with no
    error or with one of its two errors, and it returns no error exactly
    when the template has no name and no value names, or no responder in
    the path has the name of the template or one of its value names. *)
Theorem checkNames_in_the_path (fuel : nat) (st : store) (rb : addr) (t : Template)
  (l : list addr) :
  resourcesInThePath fuel st rb = Returns l ->
  exists res, checkNamesAreUniqueInTheURL fuel st rb t = Returns res
    /\ (res = None \/ res = Some ErrDuplicateNameInTheURL
        \/ res = Some ErrDuplicateValueNameInTheURL)
    /\ (res = None <->
        (name t = "" /\ ValueNames t = [])
        \/ forall a node, a ∈ l -> st !! a = Some node ->
             (name t = "" \/ Name (tval (tmpl node)) <> name t)
             /\ HasValueName (tval (tmpl node)) (ValueNames t) = false).
Proof.
  unfold resourcesInThePath. intros H.
  destruct (pathLoop _ _ _ _) as [resources|] eqn:Ep; [|discriminate].
  injection H as <-. apply pathLoop_length in Ep as (chain & -> & Hc & Hf).
  cbn [app]. unfold checkNamesAreUniqueInTheURL.
  destruct (String.eqb_spec (name t) "") as [Hn|Hn]; cbn [andb].
  - destruct (bool_decide_reflect (ValueNames t = [])) as [Hv|Hv].
    + exists None. split; [reflexivity|]. split; [now left|]. split; auto.
    + destruct (uniqueInTheURLLoop_chain fuel st _ t (ValueNames t) chain Hc Hf)
        as (res & -> & H3 & Hiff).
      exists res. split; [reflexivity|]. split; [exact H3|]. etransitivity; [exact Hiff|]. split.
      * intros Hall. right. intros a node Ha Hnode.
        apply (Hall a node); [exact (proj1 (elem_of_List_rev _ _) Ha)|exact Hnode].
      * intros [[_ Hx]|Hall]; [contradiction|].
        intros a node Ha Hnode. apply (Hall a node); [exact (proj2 (elem_of_List_rev _ _) Ha)|exact Hnode].
  - destruct (uniqueInTheURLLoop_chain fuel st _ t (ValueNames t) chain Hc Hf)
      as (res & -> & H3 & Hiff).
    exists res. split; [reflexivity|]. split; [exact H3|]. etransitivity; [exact Hiff|]. split.
    + intros Hall. right. intros a node Ha Hnode.
      apply (Hall a node); [exact (proj1 (elem_of_List_rev _ _) Ha)|exact Hnode].
    + intros [[Hx _]|Hall]; [contradiction|].
      intros a node Ha Hnode. apply (Hall a node); [exact (proj2 (elem_of_List_rev _ _) Ha)|exact Hnode].
Qed.

End WithEngine.

(** [checkNames_in_the_path] on the tree of the collision: the template
    [$x:{x}] is checked at the resource at 3, below the resources at 1
    and 2. *)
Lemma checkNames_in_the_path_witness :
  exists res,
    checkNamesAreUniqueInTheURL 4 TreeExamples.collisionTree 3%positive
      (tval (TreeExamples.wildcardT 9 "x")) = Returns res
    /\ (res = None \/ res = Some ErrDuplicateNameInTheURL
        \/ res = Some ErrDuplicateValueNameInTheURL)
    /\ (res = None <->
        (name (tval (TreeExamples.wildcardT 9 "x")) = ""
         /\ ValueNames (tval (TreeExamples.wildcardT 9 "x")) = [])
        \/ forall a node, a ∈ [1%positive; 2%positive; 3%positive] ->
             TreeExamples.collisionTree !! a = Some node ->
             (name (tval (TreeExamples.wildcardT 9 "x")) = ""
              \/ Name (tval (tmpl node)) <> name (tval (TreeExamples.wildcardT 9 "x")))
             /\ HasValueName (tval (tmpl node))
                  (ValueNames (tval (TreeExamples.wildcardT 9 "x"))) = false).
Proof.
  apply (checkNames_in_the_path (RE := MiniRegexp.engine) 4 TreeExamples.collisionTree
           3%positive (tval (TreeExamples.wildcardT 9 "x"))
           [1%positive; 2%positive; 3%positive]).
  reflexivity.
Defined.

End NameFacts.

(** ** template.go: the name of a template string *)

Module NameRoundTripFacts.
Import GoStr GoStrFacts Tmpl RoundTripFacts.

Lemma escapeColons_no_colon (s : string) : contains s ":" = false -> escapeColons s = s.
Proof.
  induction s as [|c s IH]; cbn [contains escapeColons]; [reflexivity|].
  destruct (Ascii.eqb c ":"); [discriminate|]. intros H. now rewrite IH.
Qed.

Lemma escapeColons_colon (seg rest : string) :
  contains seg ":" = false ->
  escapeColons (seg +:+ String ":" rest)
  = seg +:+ String "\" (String ":" (escapeColons rest)).
Proof.
  induction seg as [|c seg IH]; cbn [contains escapeColons String.append]; [reflexivity|].
  destruct (Ascii.eqb c ":"); [discriminate|]. intros H. now rewrite IH.
Qed.

(** A string is without a colon, or it has a first colon. *)
Lemma first_colon (n : string) :
  contains n ":" = false
  \/ exists seg rest, n = seg +:+ String ":" rest /\ contains seg ":" = false.
Proof.
  induction n as [|c n IH]; [now left|]. cbn [contains].
  destruct (Ascii.eqb_spec c ":") as [->|Hc].
  - right. exists "", n. split; reflexivity.
  - destruct IH as [H|(seg & rest & -> & H)]; [now left|].
    right. exists (String c seg), rest. split; [reflexivity|].
    cbn [contains]. destruct (Ascii.eqb_spec c ":"); [contradiction|exact H].
Qed.

Lemma at_app (pre s : string) (j : Z) :
  0 <= j -> at_ (pre +:+ s) (len pre + j) = at_ s j.
Proof.
  intros Hj. unfold at_. pose proof (len_nonneg pre).
  destruct (Z.ltb_spec (len pre + j) 0); [lia|]. destruct (Z.ltb_spec j 0); [lia|].
  replace (Z.to_nat (len pre + j)) with (String.length pre + Z.to_nat j)%nat
    by (unfold len; lia).
  clear. induction pre as [|c pre IH]; [reflexivity|exact IH].
Qed.

(** The last byte of a non-empty string is one of its bytes. *)
Lemma at_last_of (n r : string) (c : ascii) :
  n <> "" -> contains n c = false -> at_ (n +:+ r) (len n - 1) <> Some c.
Proof.
  induction n as [|d n IH]; intros Hne Hc; [congruence|].
  cbn [contains] in Hc. destruct (Ascii.eqb_spec d c) as [|Hd]; [discriminate|].
  destruct n as [|d' n'].
  - change (at_ (String d "" +:+ r) (len (String d "") - 1)) with (Some d). congruence.
  - rewrite len_String.
    replace (len (String d' n') + 1 - 1) with (1 + (len (String d' n') - 1)) by lia.
    change (String d (String d' n') +:+ r) with (String d "" +:+ (String d' n' +:+ r)).
    change 1 with (len (String d "")) at 1.
    rewrite at_app by (rewrite len_String; pose proof (len_nonneg n'); lia).
    apply IH; [discriminate|exact Hc].
Qed.

Lemma slice_app (pre s r : string) :
  slice (pre +:+ s +:+ r) (len pre) (len pre + len s) = s.
Proof.
  unfold slice. replace (len pre + len s - len pre) with (len s) by lia.
  unfold len. rewrite !Nat2Z.id, drop_append. apply take_append.
Qed.

(** The loop of [templateNameAndContent] reads an escaped name back. *)
Lemma nameLoop_escaped (k : nat) :
  forall (n pre body strb : string) (idx0 : Z) (fuel : nat),
    (String.length n <= k)%nat -> (String.length n < fuel)%nat ->
    contains n "\" = false ->
    nameLoop fuel (pre +:+ escapeColons n +:+ String ":" body) (len pre) idx0 strb
    = (strb +:+ n, len pre + len (escapeColons n)).
Proof.
  induction k as [|k IH]; intros n pre body strb idx0 fuel Hk Hf Hb.
  - destruct n; [|cbn in Hk; lia]. destruct fuel as [|fuel]; [cbn in Hf; lia|].
    cbn [nameLoop escapeColons String.append].
    pose proof (len_nonneg pre). pose proof (len_nonneg body).
    rewrite len_append, len_String.
    destruct (Z.ltb_spec (len pre) (len pre + (len body + 1))); [|lia].
    rewrite from_append. cbn [IndexByte]. rewrite Ascii.eqb_refl. cbv zeta.
    destruct (Z.ltb_spec (0 + len pre) (len pre)); [lia|].
    destruct (Z.ltb_spec (len pre) (0 + len pre)); [lia|].
    rewrite append_empty_r. f_equal. change (len "") with 0. lia.
  - destruct fuel as [|fuel]; [lia|].
    pose proof (len_nonneg pre) as Hpre. pose proof (len_nonneg body) as Hbody.
    destruct (first_colon n) as [Hnc|(seg & rest & -> & Hseg)].
    + (* the name ends here *)
      rewrite (escapeColons_no_colon n Hnc). cbn [nameLoop].
      rewrite !len_append, len_String. pose proof (len_nonneg n) as Hn.
      destruct (Z.ltb_spec (len pre) (len pre + (len n + (len body + 1)))); [|lia].
      rewrite from_append, (IndexByte_append n body ":" Hnc). cbv zeta.
      destruct (Z.ltb_spec (len n + len pre) (len pre)); [lia|].
      destruct (Z.ltb_spec (len pre) (len n + len pre)) as [Hpos|Hzero].
      * replace (len n + len pre - 1) with (len pre + (len n - 1)) by lia.
        rewrite at_app by lia.
        rewrite bool_decide_eq_false_2
          by (apply at_last_of; [intros ->; change (len "") with 0 in Hpos; lia|exact Hb]).
        replace (len n + len pre) with (len pre + len n) by lia.
        now rewrite slice_app.
      * assert (n = "") as -> by (apply len_0; lia).
        rewrite append_empty_r. f_equal. change (len "") with 0. lia.
    + (* an escaped colon *)
      rewrite HostFacts.contains_append in Hb. apply orb_false_iff in Hb as [Hbs Hbr].
      cbn [contains] in Hbr.
      destruct (Ascii.eqb_spec ":"%char "\"%char) as [|_]; [discriminate|].
      cbn [orb] in Hbr.
      rewrite (escapeColons_colon seg rest Hseg).
      set (T := pre +:+ (seg +:+ String "\" (String ":" (escapeColons rest)))
                +:+ String ":" body).
      assert (HT1 : T = pre +:+ ((seg +:+ String "\" "")
                                 +:+ String ":" (escapeColons rest +:+ String ":" body))).
      { unfold T. rewrite !append_assoc. reflexivity. }
      assert (HT2 : T = pre +:+ seg +:+ String "\" (String ":" (escapeColons rest
                                                     +:+ String ":" body))).
      { unfold T. rewrite !append_assoc. reflexivity. }
      assert (HT3 : T = (pre +:+ seg +:+ String "\" (String ":" ""))
                        +:+ escapeColons rest +:+ String ":" body).
      { unfold T. rewrite !append_assoc. reflexivity. }
      pose proof (len_nonneg seg) as Hs. pose proof (len_nonneg (escapeColons rest)) as Hr.
      assert (HlenT : len T = len pre + len seg + 2 + len (escapeColons rest) + 1 + len body).
      { rewrite HT2, !len_append, !len_String, len_append, len_String. lia. }
      cbn [nameLoop]. rewrite HlenT.
      destruct (Z.ltb_spec (len pre)
                  (len pre + len seg + 2 + len (escapeColons rest) + 1 + len body)); [|lia].
      assert (Hfrom : from T (len pre)
                      = (seg +:+ String "\" "")
                        +:+ String ":" (escapeColons rest +:+ String ":" body))
        by (rewrite HT1; apply from_append).
      rewrite Hfrom.
      rewrite IndexByte_append
        by (rewrite HostFacts.contains_append, Hseg; reflexivity).
      rewrite len_append, len_String. change (len "") with 0. cbv zeta.
      destruct (Z.ltb_spec (len seg + (0 + 1) + len pre) (len pre)); [lia|].
      destruct (Z.ltb_spec (len pre) (len seg + (0 + 1) + len pre)); [|lia].
      replace (len seg + (0 + 1) + len pre - 1) with (len pre + len seg) by lia.
      assert (Hat : at_ T (len pre + len seg) = Some "\"%char).
      { rewrite HT2. rewrite <- (append_assoc pre seg), <- len_append.
        replace (len (pre +:+ seg)) with (len (pre +:+ seg) + 0) by lia.
        rewrite at_app by lia. reflexivity. }
      rewrite Hat, bool_decide_eq_true_2 by reflexivity.
      assert (Hslice : slice T (len pre) (len pre + len seg) = seg).
      { rewrite HT2. apply slice_app. }
      rewrite Hslice.
      replace (len seg + (0 + 1) + len pre + 1)
        with (len (pre +:+ seg +:+ String "\" (String ":" "")))
        by (rewrite !len_append, !len_String; change (len "") with 0; lia).
      rewrite HT3.
      rewrite (IH rest (pre +:+ seg +:+ String "\" (String ":" "")) body _ _ fuel).
      * repeat (rewrite len_append || rewrite len_String).
        change (len "") with 0. f_equal; [|lia].
        rewrite !append_assoc. reflexivity.
      * rewrite length_append in Hk. cbn [String.length] in Hk. lia.
      * rewrite length_append in Hf. cbn [String.length] in Hf. lia.
      * exact Hbr.
Qed.

(** X27.  [templateNameAndContent] reads back a name that is written as
    [String] writes it: for a name without a backslash, with or without
    colons, the template string [$], the name with every [:] written as
    [\:], [:] and a content gives the name and the content. *)
Theorem templateNameAndContent_escaped (n body : string) :
  contains n "\" = false ->
  templateNameAndContent (String "$" (escapeColons n +:+ String ":" body))
  = (n, body, None).
Proof.
  intros Hb. unfold templateNameAndContent.
  rewrite bool_decide_eq_true_2 by reflexivity.
  pose proof (len_nonneg (escapeColons n)) as Hn. pose proof (len_nonneg body) as Hbody.
  assert (Hlen : len (String "$" (escapeColons n +:+ String ":" body))
                 = len (escapeColons n) + len body + 2).
  { rewrite len_String, len_append, len_String. lia. }
  destruct (Z.eqb_spec (len (String "$" (escapeColons n +:+ String ":" body))) 1); [lia|].
  assert (Hesc : (String.length n <= String.length (escapeColons n))%nat).
  { clear. induction n as [|c n IH]; cbn [escapeColons String.length]; [lia|].
    destruct (Ascii.eqb c ":"); cbn [String.length]; lia. }
  pose proof (nameLoop_escaped (String.length n) n (String "$" "") body "" 1
                (String.length (String "$" (escapeColons n +:+ String ":" body)))
                ltac:(lia)) as Hloop.
  change (String "$" "" +:+ escapeColons n +:+ String ":" body)
    with (String "$" (escapeColons n +:+ String ":" body)) in Hloop.
  change (len (String "$" "")) with 1 in Hloop.
  rewrite Hloop; [|cbn [String.length]; rewrite length_append; cbn [String.length]; lia
                  |exact Hb].
  cbn [String.append]. f_equal. f_equal.
  unfold from. replace (Z.to_nat (1 + len (escapeColons n) + 1))
    with (S (String.length (escapeColons n +:+ String ":" "")))
    by (rewrite length_append; unfold len; cbn [String.length]; lia).
  cbn [drop].
  replace (escapeColons n +:+ String ":" body)
    with ((escapeColons n +:+ String ":" "") +:+ body)
    by (rewrite append_assoc; reflexivity).
  apply drop_append.
Qed.

(** [templateNameAndContent_escaped] on the name [a:b]. *)
Lemma templateNameAndContent_escaped_witness :
  templateNameAndContent "$a\:b:{id}" = ("a:b", "{id}", None).
Proof. apply (templateNameAndContent_escaped "a:b" "{id}"). reflexivity. Defined.

End NameRoundTripFacts.

(** ** template.go: static text, rendered and parsed again *)

Module StaticRenderFacts.
Import GoStr GoStrFacts Tmpl TmplRender RoundTripFacts.

(** *** Indices into a string that is read from the left *)

Lemma from_app_le (a b : string) (idx : Z) :
  0 <= idx <= len a -> from (a +:+ b) idx = from a idx +:+ b.
Proof.
  intros [H0 H1]. unfold from.
  assert (Hn : (Z.to_nat idx <= String.length a)%nat) by (unfold len in H1; lia).
  revert Hn. generalize (Z.to_nat idx) as n. clear.
  induction a as [|c a IH]; intros [|n] Hn; cbn in *; try reflexivity; try lia.
  apply IH. lia.
Qed.

Lemma from_all (a : string) : from a (len a) = "".
Proof.
  unfold from, len. rewrite Nat2Z.id. induction a as [|c a IH]; [reflexivity|exact IH].
Qed.

Lemma slice_prefix (a b : string) (idx : Z) :
  0 <= idx <= len a -> slice (a +:+ b) idx (len a) = from a idx.
Proof.
  intros [H0 H1]. unfold slice, from, len in *.
  replace (Z.to_nat (Z.of_nat (String.length a) - idx))
    with (String.length a - Z.to_nat idx)%nat by lia.
  assert (Hn : (Z.to_nat idx <= String.length a)%nat) by lia.
  revert Hn. generalize (Z.to_nat idx) as n. clear.
  induction a as [|c a IH]; intros [|n] Hn; cbn in *; try lia.
  - reflexivity.
  - f_equal. specialize (IH 0%nat ltac:(lia)). cbn in IH.
    rewrite Nat.sub_0_r in IH. destruct a; [reflexivity|exact IH].
  - apply IH. lia.
Qed.

Lemma at_here (a : string) (c : ascii) (b : string) :
  at_ (a +:+ String c b) (len a) = Some c.
Proof.
  unfold at_, len. destruct (Z.ltb_spec (Z.of_nat (String.length a)) 0) as [H|_]; [lia|].
  rewrite Nat2Z.id. clear. induction a as [|d a IH]; [reflexivity|exact IH].
Qed.

Lemma len_snoc (a : string) (c : ascii) : len (a +:+ String c "") = len a + 1.
Proof. rewrite len_append, len_String. reflexivity. Qed.

Lemma snoc_assoc (a : string) (c : ascii) (b : string) :
  (a +:+ String c "") +:+ b = a +:+ String c b.
Proof. now rewrite append_assoc. Qed.

Lemma last_snoc (a : string) (c : ascii) : last (a +:+ String c "") = Some c.
Proof. unfold last. rewrite len_snoc. replace (len a + 1 - 1) with (len a) by lia. apply at_here. Qed.

Lemma last_from (a : string) (idx : Z) :
  0 <= idx < len a -> last (from a idx) = last a.
Proof.
  intros [H0 H1].
  assert (Ha : a = upto a idx +:+ from a idx) by (symmetry; apply take_drop).
  rewrite Ha at 2. symmetry. apply PathFacts.last_append.
  intros He. apply (f_equal String.length) in He. unfold from in He.
  rewrite length_drop in He. cbn in He. unfold len in H1. lia.
Qed.

Lemma lastOr_last (d : ascii) (p : string) (c : ascii) :
  lastOr d p = c -> (p = "" /\ d = c) \/ (p <> "" /\ last p = Some c).
Proof.
  revert d. induction p as [|x p IH]; intros d H; cbn [lastOr] in H; [now left|].
  right. split; [discriminate|].
  destruct (IH x H) as [[-> <-]|[Hne Hl]]; [reflexivity|].
  change (String x p) with (String x "" +:+ p). now rewrite PathFacts.last_append.
Qed.

(** *** [staticSlice] on rendered text *)

(** The loop of [staticSlice] over the rendered text of [p] writes [p]. *)
Lemma staticLoop_escaped (p : string) :
  forall (a tail : string) (idx : Z) (pch : ascii) (strb : string),
    0 <= idx <= len a ->
    exists idx' strb',
      staticLoop (escapeBraces p +:+ tail) (a +:+ escapeBraces p +:+ tail) (len a) idx pch strb
      = staticLoop tail (a +:+ escapeBraces p +:+ tail) (len a + len (escapeBraces p))
          idx' (lastOr pch p) strb'
      /\ 0 <= idx' <= len a + len (escapeBraces p)
      /\ strb' +:+ from (a +:+ escapeBraces p) idx' = strb +:+ from a idx +:+ p.
Proof.
  induction p as [|c p IH]; intros a tail idx pch strb Hidx.
  - exists idx, strb. cbn [escapeBraces String.append lastOr].
    change (len "") with 0. rewrite Z.add_0_r, !append_empty_r.
    split; [reflexivity|]. split; [exact Hidx|reflexivity].
  - cbn [escapeBraces lastOr].
    destruct (Ascii.eqb c "{" || Ascii.eqb c "}") eqn:Ebrace.
    + (* a brace, written with a backslash *)
      cbn [String.append staticLoop]. cbn [Ascii.eqb Bool.eqb].
      set (s := a +:+ String "\" (String c (escapeBraces p +:+ tail))).
      assert (Hs : s = (a +:+ String "\" (String c "")) +:+ escapeBraces p +:+ tail).
      { unfold s. rewrite append_assoc. reflexivity. }
      assert (Hlen : len (a +:+ String "\" (String c "")) = len a + 1 + 1).
      { rewrite len_append, !len_String. change (len "") with 0. lia. }
      assert (Hslice : slice s idx (len a + 1 - 1) = from a idx).
      { replace (len a + 1 - 1) with (len a) by lia. unfold s. now apply slice_prefix. }
      destruct (IH (a +:+ String "\" (String c "")) tail (len a + 1 + 1) c
                  (strb +:+ from a idx +:+ String c "")) as (idx' & strb' & Heq & Hb & Hd).
      { rewrite Hlen. pose proof (len_nonneg a). lia. }
      rewrite <- Hs, Hlen in Heq.
      exists idx', strb'.
      replace (len a + len (String "\" (String c (escapeBraces p))))
        with (len a + 1 + 1 + len (escapeBraces p))
        by (rewrite !len_String; lia).
      split.
      * destruct (Ascii.eqb_spec c "{") as [->|Hc1].
        -- cbn [negb Ascii.eqb Bool.eqb]. rewrite Hslice. exact Heq.
        -- destruct (Ascii.eqb_spec c "}") as [->|Hc2]; [|discriminate].
           cbn [negb Ascii.eqb Bool.eqb]. rewrite Hslice. exact Heq.
      * split; [rewrite Hlen in Hb; exact Hb|].
        replace (a +:+ String "\" (String c (escapeBraces p)))
          with ((a +:+ String "\" (String c "")) +:+ escapeBraces p)
          by (rewrite append_assoc; reflexivity).
        rewrite Hd. rewrite <- Hlen, from_all. cbn [String.append].
        rewrite !append_assoc. reflexivity.
    + (* any other byte *)
      apply orb_false_iff in Ebrace as [E1 E2].
      cbn [String.append staticLoop]. rewrite E1, E2.
      set (s := a +:+ String c (escapeBraces p +:+ tail)).
      assert (Hs : s = (a +:+ String c "") +:+ escapeBraces p +:+ tail).
      { unfold s. now rewrite snoc_assoc. }
      destruct (IH (a +:+ String c "") tail idx c strb) as (idx' & strb' & Heq & Hb & Hd).
      { rewrite len_snoc. lia. }
      rewrite <- Hs, len_snoc in Heq.
      exists idx', strb'.
      replace (len a + len (String c (escapeBraces p)))
        with (len a + 1 + len (escapeBraces p)) by (rewrite len_String; lia).
      split; [exact Heq|]. split; [rewrite len_snoc in Hb; exact Hb|].
      replace (a +:+ String c (escapeBraces p)) with ((a +:+ String c "") +:+ escapeBraces p)
        by now rewrite snoc_assoc.
      rewrite Hd, from_app_le by exact Hidx.
      rewrite !append_assoc. reflexivity.
Qed.

(** The rendered text of [q] is read back to the end. *)
Lemma staticSlice_escaped (q : string) :
  staticSlice (escapeBraces q) = (q, "", None).
Proof.
  unfold staticSlice.
  destruct (staticLoop_escaped q "" "" 0 "0" "") as (idx' & strb' & Heq & Hb & Hd);
    [change (len "") with 0; lia|].
  cbn [String.append] in Heq, Hd. rewrite append_empty_r in Heq.
  change (len "") with 0 in Heq. rewrite Heq. cbn [staticLoop].
  change (from "" 0) with "" in Hd. cbn [String.append] in Hd. now rewrite Hd.
Qed.

(** The rendered text of [p] before a dynamic slice is read back up to the
    brace, when [p] does not end with a backslash. *)
Lemma staticSlice_escaped_brace (p r : string) :
  last p <> Some "\"%char ->
  staticSlice (escapeBraces p +:+ String "{" r) = (p, String "{" r, None).
Proof.
  intros Hlast. unfold staticSlice.
  destruct (staticLoop_escaped p "" (String "{" r) 0 "0" "") as (idx' & strb' & Heq & Hb & Hd);
    [change (len "") with 0; lia|].
  cbn [String.append] in Heq, Hd. change (len "") with 0 in Heq, Hb.
  rewrite Heq. cbn [staticLoop]. cbn [Ascii.eqb Bool.eqb].
  assert (Hpch : Ascii.eqb (lastOr "0" p) "\" = false).
  { destruct (Ascii.eqb_spec (lastOr "0" p) "\") as [E|]; [|reflexivity].
    apply lastOr_last in E as [[_ E]|[_ E]]; [discriminate|contradiction]. }
  rewrite Hpch. cbn [negb].
  rewrite Z.add_0_l in *.
  rewrite (slice_prefix (escapeBraces p) (String "{" r) idx' Hb).
  change (from "" 0) with "" in Hd. cbn [String.append] in Hd. rewrite Hd.
  now rewrite from_append.
Qed.

(** *** What [staticSlice] returns before a dynamic slice *)

Lemma staticLoop_before_brace (rest : string) :
  forall (a : string) (idx : Z) (pch : ascii) (strb p left : string),
    0 <= idx <= len a ->
    (idx < len a -> last a = Some pch) ->
    last strb <> Some "\"%char ->
    staticLoop rest (a +:+ rest) (len a) idx pch strb = (p, left, None) ->
    left <> "" ->
    last p <> Some "\"%char /\ exists r, left = String "{" r.
Proof.
  induction rest as [|c rest IH]; intros a idx pch strb p left Hidx Hpch Hstrb H Hleft.
  - cbn [staticLoop] in H. injection H as _ <-. contradiction.
  - cbn [staticLoop] in H.
    assert (Hs : a +:+ String c rest = (a +:+ String c "") +:+ rest) by now rewrite snoc_assoc.
    assert (Hnext : forall strb', last strb' <> Some "\"%char ->
              staticLoop rest (a +:+ String c rest) (len a + 1) (len a + 1) c strb'
              = (p, left, None) ->
              last p <> Some "\"%char /\ exists r, left = String "{" r).
    { intros strb' Hstrb' H'. rewrite Hs, <- (len_snoc a c) in H'.
      apply (IH (a +:+ String c "") (len (a +:+ String c "")) c strb' p left);
        [pose proof (len_nonneg (a +:+ String c "")); lia | lia | exact Hstrb'
        | exact H' | exact Hleft]. }
    destruct (Ascii.eqb_spec c "{") as [->|Hc1].
    + destruct (Ascii.eqb_spec pch "\") as [->|Hp]; cbn [negb] in H.
      * eapply Hnext; [|exact H]. rewrite <- append_assoc, last_snoc. discriminate.
      * injection H as <- <-. split.
        -- rewrite slice_prefix by exact Hidx.
           destruct (Z.eq_dec idx (len a)) as [->|Hne].
           ++ now rewrite from_all, append_empty_r.
           ++ rewrite PathFacts.last_append.
              ** rewrite last_from by lia. rewrite Hpch by lia. congruence.
              ** intros He. apply (f_equal String.length) in He. unfold from in He.
                 rewrite length_drop in He. cbn in He. unfold len in *. lia.
        -- exists rest. apply from_append.
    + destruct (Ascii.eqb_spec c "}") as [->|Hc2].
      * destruct (Ascii.eqb_spec pch "\") as [->|Hp]; cbn [negb] in H; [|discriminate].
        eapply Hnext; [|exact H]. rewrite <- append_assoc, last_snoc. discriminate.
      * rewrite Hs in H.
        apply (IH (a +:+ String c "") idx c strb p left);
          [rewrite len_snoc; lia | intros _; apply last_snoc | exact Hstrb
          | rewrite len_snoc; exact H | exact Hleft].
Qed.

(** The static text that [staticSlice] returns before a dynamic slice does
    not end with a backslash, and what is left starts with a brace. *)
Lemma staticSlice_before_brace (s p left : string) :
  staticSlice s = (p, left, None) -> left <> "" ->
  last p <> Some "\"%char /\ exists r, left = String "{" r.
Proof.
  unfold staticSlice. intros H Hleft.
  apply (staticLoop_before_brace s "" 0 "0" "" p left); try assumption.
  - change (len "") with 0. lia.
  - change (len "") with 0. lia.
  - discriminate.
Qed.

End StaticRenderFacts.

(** ** template.go: a value name, rendered and parsed again *)

Module DynamicRenderFacts.
Import GoStr GoStrFacts Tmpl TmplRender RoundTripFacts StaticRenderFacts.

Lemma braceDepth_app (x y : string) (d : Z) :
  braceDepth (x +:+ y) d
  = match braceDepth x d with Some d' => braceDepth y d' | None => None end.
Proof.
  revert d. induction x as [|c x IH]; intros d; cbn [String.append braceDepth]; [reflexivity|].
  destruct (Ascii.eqb c "{"); [apply IH|].
  destruct (Ascii.eqb c "}"); [|apply IH].
  destruct (0 <? d - 1); [apply IH|reflexivity].
Qed.

Lemma braceDepth_other (c : ascii) (d : Z) :
  Ascii.eqb c "{" = false -> Ascii.eqb c "}" = false ->
  braceDepth (String c "") d = Some d.
Proof. intros H1 H2. cbn [braceDepth]. now rewrite H1, H2. Qed.

Lemma at_app_l (a b : string) (i : Z) : i < len a -> at_ (a +:+ b) i = at_ a i.
Proof.
  intros Hi. unfold at_. destruct (Z.ltb_spec i 0); [reflexivity|].
  assert (Hn : (Z.to_nat i < String.length a)%nat) by (unfold len in Hi; lia).
  revert Hn. generalize (Z.to_nat i) as n. clear.
  induction a as [|c a IH]; intros n Hn; cbn in Hn; [lia|].
  destruct n as [|n]; [reflexivity|]. cbn. apply IH. lia.
Qed.

Lemma from_after (a : string) (c : ascii) (r : string) :
  from (a +:+ String c r) (len a + 1) = r.
Proof. rewrite <- snoc_assoc, <- (len_snoc a c). apply from_append. Qed.

Lemma snoc_nonempty (a : string) (c : ascii) : a +:+ String c "" <> "".
Proof. destruct a; discriminate. Qed.

Lemma append_nonempty_r (a b : string) : b <> "" -> a +:+ b <> "".
Proof. destruct a; [trivial|discriminate]. Qed.

Lemma from_nonempty (a : string) (idx : Z) : 0 <= idx < len a -> from a idx <> "".
Proof.
  intros [H0 H1] He. apply (f_equal String.length) in He. unfold from in He.
  rewrite length_drop in He. cbn in He. unfold len in H1. lia.
Qed.

(** A string with a last byte is a string and that byte. *)
Lemma last_split (a : string) (c : ascii) :
  last a = Some c -> exists a0, a = a0 +:+ String c "".
Proof.
  induction a as [|d a IH]; [discriminate|]. intros H.
  destruct a as [|d' a'].
  - exists "". injection H as ->. reflexivity.
  - destruct IH as [a0 Ha0].
    + change (String d (String d' a')) with (String d "" +:+ String d' a') in H.
      rewrite PathFacts.last_append in H by discriminate. exact H.
    + exists (String d a0). rewrite Ha0. reflexivity.
Qed.

(** *** [dynamicSlice] on a rendered wildcard *)

(** The loop of [dynamicSlice] over a rendered value name and the closing
    brace writes the name: the escaped colons are read back, the braces of
    the name are counted and the brace after the name closes the slice. *)
Lemma dynLoop_escaped (v : string) :
  forall (a r : string) (idx d cc : Z) (strb vn : string),
    1 <= len a -> 0 <= idx <= len a ->
    braceDepth v d = Some 1 ->
    (strb <> "" \/ idx < len a \/ v <> "") ->
    dynLoop (escapeColons v +:+ String "}" r) (a +:+ escapeColons v +:+ String "}" r)
      (len a) false (mkDyn 0 d idx cc strb vn)
    = (strb +:+ from a idx +:+ v, "", r, None).
Proof.
  induction v as [|c v IH]; intros a r idx d cc strb vn Ha Hidx Hd Hne.
  - cbn [braceDepth] in Hd. injection Hd as ->.
    cbn [escapeColons String.append dynLoop sliceType depth dyn_idx dyn_strb].
    cbn [Ascii.eqb Bool.eqb Z.eqb andb]. cbn [Z.sub Z.add Z.opp Z.pos_sub Z.ltb Z.compare].
    rewrite slice_prefix by exact Hidx. rewrite from_after, append_empty_r.
    destruct (String.eqb_spec strb "") as [->|Hs]; cbn [negb]; [|reflexivity].
    destruct (Z.eqb_spec (len a) idx) as [He|_].
    + destruct Hne as [Hne|[Hne|Hne]]; [congruence|lia|congruence].
    + reflexivity.
  - cbn [escapeColons].
    destruct (Ascii.eqb_spec c ":") as [->|Hcolon].
    + (* a colon, written with a backslash *)
      cbn [braceDepth] in Hd. cbn [Ascii.eqb Bool.eqb] in Hd.
      cbn [String.append dynLoop sliceType depth dyn_idx dyn_strb chClsIdx dyn_valueName].
      cbn [Ascii.eqb Bool.eqb Z.eqb andb].
      set (s := a +:+ String "\" (String ":" (escapeColons v +:+ String "}" r))).
      assert (Hs : s = (a +:+ String "\" (String ":" "")) +:+ escapeColons v +:+ String "}" r).
      { unfold s. rewrite append_assoc. reflexivity. }
      assert (Hlen : len (a +:+ String "\" (String ":" "")) = len a + 1 + 1).
      { rewrite len_append, !len_String. change (len "") with 0. lia. }
      destruct (Z.ltb_spec 1 (len a + 1)); [|lia].
      replace (len a + 1 - 1) with (len a) by lia.
      assert (Hat : at_ s (len a) = Some "\"%char) by apply at_here.
      rewrite Hat, bool_decide_eq_true_2 by reflexivity. cbn [andb].
      assert (Hslice : slice s idx (len a) = from a idx) by (apply slice_prefix; exact Hidx).
      rewrite Hslice, Hs, <- Hlen.
      rewrite (IH (a +:+ String "\" (String ":" "")) r _ d cc _ vn).
      * rewrite from_all. cbn [String.append]. rewrite !append_assoc. reflexivity.
      * lia.
      * pose proof (len_nonneg (a +:+ String "\" (String ":" ""))). lia.
      * exact Hd.
      * left. rewrite <- append_assoc. apply snoc_nonempty.
    + cbn [String.append dynLoop sliceType depth dyn_idx dyn_strb chClsIdx dyn_valueName].
      cbn [Z.eqb andb].
      set (s := a +:+ String c (escapeColons v +:+ String "}" r)).
      assert (Hs : s = (a +:+ String c "") +:+ escapeColons v +:+ String "}" r).
      { unfold s. now rewrite snoc_assoc. }
      assert (Hfrom : forall strb0, strb0 +:+ from (a +:+ String c "") idx +:+ v
                                    = strb0 +:+ from a idx +:+ String c v).
      { intros strb0. rewrite from_app_le by exact Hidx. now rewrite !append_assoc. }
      assert (Hne' : strb <> "" \/ idx < len (a +:+ String c "") \/ v <> "").
      { right. left. rewrite len_snoc. lia. }
      assert (Ha' : 1 <= len (a +:+ String c "")) by (rewrite len_snoc; lia).
      assert (Hidx' : 0 <= idx <= len (a +:+ String c "")) by (rewrite len_snoc; lia).
      cbn [braceDepth] in Hd.
      destruct (Ascii.eqb_spec c "{") as [->|Hopen].
      * rewrite Hs, <- (len_snoc a "{").
        rewrite (IH _ r idx (d + 1) cc strb vn Ha' Hidx' Hd Hne'). now rewrite Hfrom.
      * destruct (Ascii.eqb_spec c "}") as [->|Hclose].
        -- destruct (0 <? d - 1); [|discriminate].
           rewrite Hs, <- (len_snoc a "}").
           rewrite (IH _ r idx (d - 1) cc strb vn Ha' Hidx' Hd Hne'). now rewrite Hfrom.
        -- destruct (Ascii.eqb_spec c ":") as [|_]; [contradiction|].
           rewrite Hs, <- (len_snoc a c).
           rewrite (IH _ r idx d cc strb vn Ha' Hidx' Hd Hne'). now rewrite Hfrom.
Qed.

(** A rendered wildcard slice is read back, with what follows it. *)
Lemma dynamicSlice_escaped (v r : string) :
  goodName v ->
  dynamicSlice (String "{" (escapeColons v +:+ String "}" r)) = (v, "", r, None).
Proof.
  intros [Hne Hd]. unfold dynamicSlice.
  change (from (String "{" (escapeColons v +:+ String "}" r)) 1)
    with (escapeColons v +:+ String "}" r).
  pose proof (dynLoop_escaped v (String "{" "") r 1 1 (-1) "" "") as H.
  change (len (String "{" "")) with 1 in H.
  change (String "{" "" +:+ escapeColons v +:+ String "}" r)
    with (String "{" (escapeColons v +:+ String "}" r)) in H.
  rewrite H; [reflexivity|lia|lia|exact Hd|right; right; exact Hne].
Qed.

(** *** The value name that [dynamicSlice] returns *)

(** Whatever the loop of [dynamicSlice] returns as the value name is not
    empty and has its braces in pairs.  In the value name the string
    written so far counts the depth; the name of a pattern is kept when the
    colon is read at the depth one. *)
Lemma dynLoop_goodName (rest : string) :
  forall (a : string) (skip : bool) (sl dp idx cc : Z) (strb vn v pat left : string),
    1 <= dp ->
    ((sl = 0 /\ skip = false /\ 0 <= idx <= len a
      /\ braceDepth (strb +:+ from a idx) 1 = Some dp
      /\ (idx = 1 \/ at_ a (idx - 1) = Some ":"%char))
     \/ (sl = 1 /\ goodName vn)) ->
    dynLoop rest (a +:+ rest) (len a) skip (mkDyn sl dp idx cc strb vn)
    = (v, pat, left, None) ->
    goodName v.
Proof.
  induction rest as [|c rest IH]; intros a skip sl dp idx cc strb vn v pat left Hdp Hinv H.
  - cbn [dynLoop depth] in H. destruct (Z.ltb_spec 0 dp); [discriminate|lia].
  - assert (Hs : a +:+ String c rest = (a +:+ String c "") +:+ rest) by now rewrite snoc_assoc.
    assert (Hnext : forall skip' sl' dp' idx' cc' strb' vn',
               1 <= dp' ->
               ((sl' = 0 /\ skip' = false /\ 0 <= idx' <= len a + 1
                 /\ braceDepth (strb' +:+ from (a +:+ String c "") idx') 1 = Some dp'
                 /\ (idx' = 1 \/ at_ (a +:+ String c "") (idx' - 1) = Some ":"%char))
                \/ (sl' = 1 /\ goodName vn')) ->
               dynLoop rest (a +:+ String c rest) (len a + 1) skip'
                 (mkDyn sl' dp' idx' cc' strb' vn') = (v, pat, left, None) ->
               goodName v).
    { intros skip' sl' dp' idx' cc' strb' vn' Hdp' Hinv' H'.
      rewrite Hs, <- (len_snoc a c) in H'.
      apply (IH _ _ _ _ _ _ _ _ _ _ _ Hdp' ltac:(rewrite len_snoc; exact Hinv') H'). }
    cbn [dynLoop sliceType depth dyn_idx dyn_strb chClsIdx dyn_valueName] in H.
    cbv zeta in H.
    destruct Hinv as [(-> & -> & Hidx & Hbd & Hprev)|[-> Hgood]].
    + (* in the value name *)
      cbn [Z.eqb andb] in H.
      assert (Hcur : forall dp', braceDepth (String c "") dp = Some dp' ->
                braceDepth (strb +:+ from (a +:+ String c "") idx) 1 = Some dp').
      { intros dp' Hc. rewrite from_app_le by exact Hidx.
        rewrite <- append_assoc, braceDepth_app, Hbd. exact Hc. }
      assert (Hprev' : idx = 1 \/ at_ (a +:+ String c "") (idx - 1) = Some ":"%char).
      { destruct Hprev as [Hp|Hp]; [now left|right].
        destruct (Z.eq_dec idx 0) as [->|Hz]; [discriminate Hp|].
        rewrite at_app_l by lia. exact Hp. }
      destruct (Ascii.eqb_spec c "{") as [->|Hopen].
      { eapply Hnext; [ | |exact H]; [lia|].
        left. repeat split; try lia; [apply Hcur; reflexivity|exact Hprev']. }
      destruct (Ascii.eqb_spec c ":") as [->|Hcolon].
      { destruct (Z.ltb_spec 1 (len a)) as [Hlt|Hge]; cbn [andb] in H.
        - destruct (bool_decide_reflect (at_ (a +:+ String ":" rest) (len a - 1) = Some "\"%char))
            as [Hesc|Hnesc].
          + (* an escaped colon *)
            rewrite at_app_l in Hesc by lia.
            assert (Hlt' : idx < len a).
            { destruct (Z.eq_dec idx (len a)) as [->|]; [|lia].
              destruct Hprev as [Hp|Hp]; [lia|congruence]. }
            destruct (last_split a "\" Hesc) as [a0 ->].
            rewrite len_snoc in *.
            replace (len a0 + 1 - 1) with (len a0) in H by lia.
            assert (Hsl : slice ((a0 +:+ String "\" "") +:+ String ":" rest) idx (len a0)
                          = from a0 idx)
              by (rewrite append_assoc; apply slice_prefix; lia).
            rewrite Hsl in H.
            rewrite from_app_le in Hbd by lia.
            rewrite <- append_assoc, braceDepth_app in Hbd.
            destruct (braceDepth (strb +:+ from a0 idx) 1) as [d0|] eqn:Hd0; [|discriminate].
            cbn [braceDepth Ascii.eqb Bool.eqb] in Hbd. injection Hbd as ->.
            eapply Hnext; [exact Hdp| |exact H].
            left. repeat split; try lia.
            * replace (len a0 + 1 + 1) with (len ((a0 +:+ String "\" "") +:+ String ":" ""))
                by (rewrite !len_snoc; lia).
              rewrite from_all, append_empty_r, <- append_assoc, braceDepth_app, Hd0.
              reflexivity.
            * right. replace (len a0 + 1 + 1 - 1) with (len (a0 +:+ String "\" "")).
              -- apply at_here.
              -- rewrite len_snoc. lia.
          + (* the colon before the pattern *)
            destruct (Z.ltb_spec 1 dp); [discriminate|]. assert (dp = 1) as -> by lia.
            rewrite slice_prefix in H by exact Hidx.
            destruct (String.eqb_spec (strb +:+ from a idx) "") as [|Hne]; [discriminate|].
            eapply Hnext; [exact Hdp| |exact H].
            right. split; [reflexivity|]. split; assumption.
        - destruct (Z.ltb_spec 1 dp); [discriminate|]. assert (dp = 1) as -> by lia.
          rewrite slice_prefix in H by exact Hidx.
          destruct (String.eqb_spec (strb +:+ from a idx) "") as [|Hne]; [discriminate|].
          eapply Hnext; [exact Hdp| |exact H].
          right. split; [reflexivity|]. split; assumption. }
      destruct (Ascii.eqb_spec c "}") as [->|Hclose].
      { destruct (Z.ltb_spec 0 (dp - 1)) as [Hdeep|Hone].
        - eapply Hnext; [ | |exact H]; [lia|].
          left. repeat split; try lia; [|exact Hprev'].
          apply Hcur. cbn [braceDepth Ascii.eqb Bool.eqb].
          destruct (Z.ltb_spec 0 (dp - 1)); [reflexivity|lia].
        - assert (dp = 1) as -> by lia.
          rewrite slice_prefix in H by exact Hidx.
          destruct (String.eqb_spec strb "") as [->|Hne]; cbn [negb] in H.
          + destruct (Z.eqb_spec (len a) idx) as [|Hni]; [discriminate|].
            injection H as <- _ _. split; [apply from_nonempty; lia|exact Hbd].
          + injection H as <- _ _. split; [|exact Hbd].
            destruct strb; [congruence|discriminate]. }
      cbn [Z.eqb] in H.
      eapply Hnext; [exact Hdp| |exact H].
      left. repeat split; try lia; [|exact Hprev'].
      apply Hcur. apply braceDepth_other; [now destruct (Ascii.eqb_spec c "{")
                                          |now destruct (Ascii.eqb_spec c "}")].
    + (* in the pattern *)
      assert (Hkeep : forall skip' dp' cc',
                 1 <= dp' ->
                 dynLoop rest (a +:+ String c rest) (len a + 1) skip'
                   (mkDyn 1 dp' idx cc' strb vn) = (v, pat, left, None) ->
                 goodName v).
      { intros skip' dp' cc' Hdp' H'.
        eapply Hnext; [exact Hdp'| |exact H']. right. split; [reflexivity|exact Hgood]. }
      cbn [Z.eqb andb] in H.
      repeat match type of H with
             | context [if ?b then _ else _] => destruct b eqn:?
             end;
        try discriminate;
        try (apply Hkeep in H; [exact H|lia]);
        try (injection H as <- _ _; exact Hgood).
      all: apply Hkeep in H; [exact H|]; try lia.
      all: match goal with E : (0 <? _ - 1) = true |- _ => apply Z.ltb_lt in E; lia end.
Qed.

(** The value name of a dynamic slice is not empty and has its braces in
    pairs. *)
Lemma dynamicSlice_goodName (c : ascii) (r v pat left : string) :
  dynamicSlice (String c r) = (v, pat, left, None) -> goodName v.
Proof.
  unfold dynamicSlice. change (from (String c r) 1) with r.
  intros H.
  apply (dynLoop_goodName r (String c "") false 0 1 1 (-1) "" "" v pat left); [lia| |exact H].
  left. repeat split; try lia; change (len (String c "")) with 1; lia.
Qed.

End DynamicRenderFacts.

(** ** template.go: the name of a template, rendered and parsed again *)

Module NameRenderFacts.
Import GoStr GoStrFacts Tmpl TmplRender RoundTripFacts StaticRenderFacts DynamicRenderFacts.
Import NameRoundTripFacts.

Lemma last_after_colon (seg rest : string) :
  last (seg +:+ String ":" rest) <> Some "\"%char -> last rest <> Some "\"%char.
Proof.
  intros H. destruct rest as [|c rest]; [discriminate|].
  rewrite <- snoc_assoc in H. rewrite PathFacts.last_append in H by discriminate. exact H.
Qed.

(** The loop of [templateNameAndContent] reads back a rendered name that
    does not end with a backslash. *)
Lemma nameLoop_rendered (k : nat) :
  forall (n pre body strb : string) (idx0 : Z) (fuel : nat),
    (String.length n <= k)%nat -> (String.length n < fuel)%nat ->
    last n <> Some "\"%char ->
    nameLoop fuel (pre +:+ escapeColons n +:+ String ":" body) (len pre) idx0 strb
    = (strb +:+ n, len pre + len (escapeColons n)).
Proof.
  induction k as [|k IH]; intros n pre body strb idx0 fuel Hk Hf Hb.
  - destruct n; [|cbn in Hk; lia]. destruct fuel as [|fuel]; [cbn in Hf; lia|].
    cbn [nameLoop escapeColons String.append].
    pose proof (len_nonneg pre). pose proof (len_nonneg body).
    rewrite len_append, len_String.
    destruct (Z.ltb_spec (len pre) (len pre + (len body + 1))); [|lia].
    rewrite from_append. cbn [IndexByte]. rewrite Ascii.eqb_refl. cbv zeta.
    destruct (Z.ltb_spec (0 + len pre) (len pre)); [lia|].
    destruct (Z.ltb_spec (len pre) (0 + len pre)); [lia|].
    rewrite append_empty_r. f_equal. change (len "") with 0. lia.
  - destruct fuel as [|fuel]; [lia|].
    pose proof (len_nonneg pre) as Hpre. pose proof (len_nonneg body) as Hbody.
    destruct (first_colon n) as [Hnc|(seg & rest & -> & Hseg)].
    + (* the name ends here *)
      rewrite (escapeColons_no_colon n Hnc). cbn [nameLoop].
      rewrite !len_append, len_String. pose proof (len_nonneg n) as Hn.
      destruct (Z.ltb_spec (len pre) (len pre + (len n + (len body + 1)))); [|lia].
      rewrite from_append, (IndexByte_append n body ":" Hnc). cbv zeta.
      destruct (Z.ltb_spec (len n + len pre) (len pre)); [lia|].
      destruct (Z.ltb_spec (len pre) (len n + len pre)) as [Hpos|Hzero].
      * replace (len n + len pre - 1) with (len pre + (len n - 1)) by lia.
        rewrite at_app by lia.
        rewrite bool_decide_eq_false_2
          by (rewrite at_app_l by lia; exact Hb).
        replace (len n + len pre) with (len pre + len n) by lia.
        now rewrite slice_app.
      * assert (n = "") as -> by (apply len_0; lia).
        rewrite append_empty_r. f_equal. change (len "") with 0. lia.
    + (* an escaped colon *)
      pose proof (last_after_colon seg rest Hb) as Hbr.
      rewrite (escapeColons_colon seg rest Hseg).
      set (T := pre +:+ (seg +:+ String "\" (String ":" (escapeColons rest)))
                +:+ String ":" body).
      assert (HT1 : T = pre +:+ ((seg +:+ String "\" "")
                                 +:+ String ":" (escapeColons rest +:+ String ":" body))).
      { unfold T. rewrite !append_assoc. reflexivity. }
      assert (HT2 : T = pre +:+ seg +:+ String "\" (String ":" (escapeColons rest
                                                     +:+ String ":" body))).
      { unfold T. rewrite !append_assoc. reflexivity. }
      assert (HT3 : T = (pre +:+ seg +:+ String "\" (String ":" ""))
                        +:+ escapeColons rest +:+ String ":" body).
      { unfold T. rewrite !append_assoc. reflexivity. }
      pose proof (len_nonneg seg) as Hs. pose proof (len_nonneg (escapeColons rest)) as Hr.
      assert (HlenT : len T = len pre + len seg + 2 + len (escapeColons rest) + 1 + len body).
      { rewrite HT2, !len_append, !len_String, len_append, len_String. lia. }
      cbn [nameLoop]. rewrite HlenT.
      destruct (Z.ltb_spec (len pre)
                  (len pre + len seg + 2 + len (escapeColons rest) + 1 + len body)); [|lia].
      assert (Hfrom : from T (len pre)
                      = (seg +:+ String "\" "")
                        +:+ String ":" (escapeColons rest +:+ String ":" body))
        by (rewrite HT1; apply from_append).
      rewrite Hfrom.
      rewrite IndexByte_append
        by (rewrite HostFacts.contains_append, Hseg; reflexivity).
      rewrite len_append, len_String. change (len "") with 0. cbv zeta.
      destruct (Z.ltb_spec (len seg + (0 + 1) + len pre) (len pre)); [lia|].
      destruct (Z.ltb_spec (len pre) (len seg + (0 + 1) + len pre)); [|lia].
      replace (len seg + (0 + 1) + len pre - 1) with (len pre + len seg) by lia.
      assert (Hat : at_ T (len pre + len seg) = Some "\"%char).
      { rewrite HT2. rewrite <- (append_assoc pre seg), <- len_append.
        replace (len (pre +:+ seg)) with (len (pre +:+ seg) + 0) by lia.
        rewrite at_app by lia. reflexivity. }
      rewrite Hat, bool_decide_eq_true_2 by reflexivity.
      assert (Hslice : slice T (len pre) (len pre + len seg) = seg).
      { rewrite HT2. apply slice_app. }
      rewrite Hslice.
      replace (len seg + (0 + 1) + len pre + 1)
        with (len (pre +:+ seg +:+ String "\" (String ":" "")))
        by (rewrite !len_append, !len_String; change (len "") with 0; lia).
      rewrite HT3.
      rewrite (IH rest (pre +:+ seg +:+ String "\" (String ":" "")) body _ _ fuel).
      * repeat (rewrite len_append || rewrite len_String).
        change (len "") with 0. f_equal; [|lia].
        rewrite !append_assoc. reflexivity.
      * rewrite length_append in Hk. cbn [String.length] in Hk. lia.
      * rewrite length_append in Hf. cbn [String.length] in Hf. lia.
      * exact Hbr.
Qed.

(** [templateNameAndContent] reads back the name that [String] writes, when
    the name does not end with a backslash. *)
Lemma templateNameAndContent_rendered (n body : string) :
  last n <> Some "\"%char ->
  templateNameAndContent (String "$" (escapeColons n +:+ String ":" body))
  = (n, body, None).
Proof.
  intros Hb. unfold templateNameAndContent.
  rewrite bool_decide_eq_true_2 by reflexivity.
  pose proof (len_nonneg (escapeColons n)) as Hn. pose proof (len_nonneg body) as Hbody.
  assert (Hlen : len (String "$" (escapeColons n +:+ String ":" body))
                 = len (escapeColons n) + len body + 2).
  { rewrite len_String, len_append, len_String. lia. }
  destruct (Z.eqb_spec (len (String "$" (escapeColons n +:+ String ":" body))) 1); [lia|].
  assert (Hesc : (String.length n <= String.length (escapeColons n))%nat).
  { clear. induction n as [|c n IH]; cbn [escapeColons String.length]; [lia|].
    destruct (Ascii.eqb c ":"); cbn [String.length]; lia. }
  pose proof (nameLoop_rendered (String.length n) n (String "$" "") body "" 1
                (String.length (String "$" (escapeColons n +:+ String ":" body)))
                ltac:(lia)) as Hloop.
  change (String "$" "" +:+ escapeColons n +:+ String ":" body)
    with (String "$" (escapeColons n +:+ String ":" body)) in Hloop.
  change (len (String "$" "")) with 1 in Hloop.
  rewrite Hloop; [|cbn [String.length]; rewrite length_append; cbn [String.length]; lia
                  |exact Hb].
  cbn [String.append]. f_equal. f_equal.
  unfold from. replace (Z.to_nat (1 + len (escapeColons n) + 1))
    with (S (String.length (escapeColons n +:+ String ":" "")))
    by (rewrite length_append; unfold len; cbn [String.length]; lia).
  cbn [drop].
  replace (escapeColons n +:+ String ":" body)
    with ((escapeColons n +:+ String ":" "") +:+ body)
    by (rewrite append_assoc; reflexivity).
  apply drop_append.
Qed.

(** The first byte of rendered static text is a dollar sign when the text
    starts with one. *)
Lemma escapeBraces_first_dollar (p : string) :
  at_ (escapeBraces p) 0 = Some "$"%char -> at_ p 0 = Some "$"%char.
Proof.
  destruct p as [|c p]; [discriminate|]. cbn [escapeBraces].
  destruct (Ascii.eqb c "{" || Ascii.eqb c "}"); [discriminate|trivial].
Qed.

(** [templateNameAndContent] on the text that [Content] writes for a static
    template without a name: the backslash that [Content] writes before a
    dollar sign is taken off, and no name is read, unless the text itself
    starts with a backslash and a dollar sign. *)
Lemma templateNameAndContent_static (p : string) :
  p <> "" ->
  ~ (at_ p 0 = Some "\"%char /\ at_ p 1 = Some "$"%char) ->
  templateNameAndContent
    ((if bool_decide (at_ p 0 = Some "$"%char) then "\" else "") +:+ escapeBraces p)
  = ("", escapeBraces p, None).
Proof.
  intros Hne Hesc. destruct p as [|c p]; [congruence|]. clear Hne.
  destruct (Ascii.eqb_spec c "$") as [->|Hd].
  - rewrite bool_decide_eq_true_2 by reflexivity. cbn [escapeBraces Ascii.eqb Bool.eqb orb].
    unfold templateNameAndContent. cbn [String.append].
    rewrite bool_decide_eq_false_2 by discriminate.
    rewrite !len_String. pose proof (len_nonneg (escapeBraces p)).
    destruct (Z.ltb_spec 1 (len (escapeBraces p) + 1 + 1)); [|lia].
    rewrite !bool_decide_eq_true_2 by reflexivity. reflexivity.
  - rewrite bool_decide_eq_false_2 by (intros [= ->]; congruence).
    cbn [String.append escapeBraces].
    destruct (Ascii.eqb c "{" || Ascii.eqb c "}") eqn:Ebrace.
    + unfold templateNameAndContent.
      rewrite bool_decide_eq_false_2 by discriminate.
      rewrite (bool_decide_eq_false_2 (at_ _ 1 = Some "$"%char))
        by (intros [= ->]; discriminate Ebrace).
      now rewrite andb_false_r.
    + destruct (Ascii.eqb_spec c "\") as [->|Hb].
      * unfold templateNameAndContent.
        rewrite bool_decide_eq_false_2 by discriminate.
        rewrite (bool_decide_eq_false_2 (at_ _ 1 = Some "$"%char)).
        -- now rewrite andb_false_r.
        -- intros H1. apply Hesc. split; [reflexivity|].
           change (at_ (String "\" (escapeBraces p)) 1) with (at_ (escapeBraces p) 0) in H1.
           apply escapeBraces_first_dollar in H1. exact H1.
      * apply templateNameAndContent_unnamed.
        -- now destruct (Ascii.eqb_spec c "$").
        -- now destruct (Ascii.eqb_spec c "\").
Qed.

End NameRenderFacts.

(** ** template.go: the templates that [String] renders to a string of
    themselves *)

Module RenderFacts.
Import GoStr GoStrFacts Tmpl TmplRender RoundTripFacts.
Import StaticRenderFacts DynamicRenderFacts NameRenderFacts.

Section WithEngine.
Context `{RE : RegexEngine}.

(** *** The slices of a parsed template without patterns *)

(** The static text that [staticSlice] returns for a whole non-empty string
    is not empty. *)
Lemma staticLoop_nonempty (rest : string) :
  forall (a : string) (idx : Z) (pch : ascii) (strb p : string),
    a +:+ rest <> "" -> (strb <> "" \/ idx = 0) ->
    staticLoop rest (a +:+ rest) (len a) idx pch strb = (p, "", None) -> p <> "".
Proof.
  induction rest as [|c rest IH]; intros a idx pch strb p Hne Hinv H.
  - cbn [staticLoop] in H. injection H as <-.
    destruct Hinv as [Hs| ->].
    + destruct strb; [congruence|discriminate].
    + rewrite append_empty_r in *. rewrite from_0. intros He. apply Hne.
      destruct strb; [exact He|discriminate].
  - assert (Hs : a +:+ String c rest = (a +:+ String c "") +:+ rest) by now rewrite snoc_assoc.
    assert (Hnext : forall idx' strb', (strb' <> "" \/ idx' = 0) ->
               staticLoop rest (a +:+ String c rest) (len a + 1) idx' c strb' = (p, "", None) ->
               p <> "").
    { intros idx' strb' Hinv' H'. rewrite Hs, <- (len_snoc a c) in H'.
      apply (IH (a +:+ String c "") idx' c strb' p); [|exact Hinv'|exact H'].
      rewrite <- Hs. exact Hne. }
    cbn [staticLoop] in H.
    destruct (Ascii.eqb c "{").
    + destruct (negb (Ascii.eqb pch "\")).
      * rewrite from_append in H. discriminate.
      * eapply Hnext; [|exact H]. left. rewrite <- append_assoc. apply snoc_nonempty.
    + destruct (Ascii.eqb c "}").
      * destruct (negb (Ascii.eqb pch "\")); [discriminate|].
        eapply Hnext; [|exact H]. left. rewrite <- append_assoc. apply snoc_nonempty.
      * eapply Hnext; [exact Hinv|exact H].
Qed.

Lemma staticSlice_nonempty (s p : string) :
  s <> "" -> staticSlice s = (p, "", None) -> p <> "".
Proof.
  intros Hne H. unfold staticSlice in H.
  apply (staticLoop_nonempty s "" 0 "0" "" p); [exact Hne|now right|exact H].
Qed.

(** [appendSlice] as [optStatic]. *)
Lemma append_optStatic (tss : list _TemplateSlice) (p : string) :
  (if negb (String.eqb p "") then appendSlice tss (staticS p) else tss)
  = (tss ++ optStatic p)%list.
Proof.
  unfold optStatic, appendSlice. destruct (String.eqb p ""); cbn [negb]; [|reflexivity].
  now rewrite app_nil_r.
Qed.

(** The loop of [parse] only appends slices. *)
Lemma parseLoop_extends (fuel : nat) :
  forall (s : string) (tss : list _TemplateSlice) (vps : gmap string _ValuePattern)
         (w : Z) (tss' : list _TemplateSlice) (w' : Z),
    parseLoop fuel s tss vps w = Returns (inl (tss', w')) ->
    exists ext, tss' = (tss ++ ext)%list.
Proof.
  induction fuel as [|fuel IH]; intros s tss vps w tss' w' H; [discriminate|].
  cbn [parseLoop] in H.
  destruct (0 <? len s); [|injection H as <- _; exists []; now rewrite app_nil_r].
  destruct (staticSlice s) as [[p left] [e|]]; [discriminate|].
  rewrite append_optStatic in H.
  destruct (String.eqb left ""); [injection H as <- _; eauto|].
  destruct (dynamicSlice left) as [[[v pat] left2] [e|]]; [discriminate|].
  destruct (appendDynamicSliceTo (tss ++ optStatic p) v pat vps w)
    as [[[[tss2 w2] vps2]|e]|] eqn:Happ; cbn [obind] in H; try discriminate.
  apply IH in H as [ext ->].
  assert (Hone : exists x, tss2 = ((tss ++ optStatic p) ++ [x])%list).
  { unfold appendDynamicSliceTo, appendSlice in Happ.
    destruct (vps !! v) as [vp|].
    - destruct (negb (String.eqb pat "")).
      + destruct (vp_re vp) as [re|]; [|discriminate].
        destruct (negb (String.eqb (anchor pat w) (re_String re))); [discriminate|].
        injection Happ as <- _ _. eauto.
      + injection Happ as <- _ _. eauto.
    - destruct (String.eqb pat "").
      + destruct (0 <=? w).
        * destruct (nth_error _ _) as [wc|]; [|discriminate].
          destruct (slice_name wc) as [n|]; cbn [obind] in Happ; [|discriminate].
          destruct (String.eqb v n); discriminate.
        * destruct (reanchorLoop _ _) as [[vps'|]|]; cbn [obind] in Happ; try discriminate.
          injection Happ as <- _ _. eauto.
      + destruct (Compile _) as [re|]; [|discriminate].
        injection Happ as <- _ _. eauto. }
  destruct Hone as [x ->]. exists (optStatic p ++ [x] ++ ext)%list.
  now rewrite <- !app_assoc.
Qed.

(** A slice list that holds a pattern slice. *)
Lemma existsb_isPattern_app (l1 l2 : list _TemplateSlice) (n : string) (re : Regexp) :
  existsb isPattern ((l1 ++ [dynamicS (mkVP n (Some re))]) ++ l2)%list = true.
Proof. rewrite !existsb_app. cbn. now rewrite orb_true_r. Qed.

(** With no pattern recorded, [appendDynamicSliceTo] appends a wildcard
    slice for an empty pattern and a pattern slice otherwise; a second
    wildcard is refused. *)
Lemma appendDynamicSliceTo_empty (tss : list _TemplateSlice) (v pat : string) (w : Z)
  (tss' : list _TemplateSlice) (w' : Z) (vps' : gmap string _ValuePattern) :
  appendDynamicSliceTo tss v pat ∅ w = Returns (inl (tss', w', vps')) ->
  (pat = "" /\ w < 0 /\ tss' = (tss ++ [dynamicS (mkVP v None)])%list
   /\ w' = Z.of_nat (List.length tss) /\ vps' = ∅)
  \/ (exists re, tss' = (tss ++ [dynamicS (mkVP v (Some re))])%list).
Proof.
  unfold appendDynamicSliceTo, appendSlice. rewrite lookup_empty.
  destruct (String.eqb_spec pat "") as [->|Hpat].
  - destruct (Z.leb_spec 0 w) as [Hw|Hw].
    + destruct (nth_error tss (Z.to_nat w)) as [wc|]; [|discriminate].
      destruct (slice_name wc) as [n|]; cbn [obind]; [|discriminate].
      destruct (String.eqb v n); discriminate.
    + rewrite map_to_list_empty. cbn [reanchorLoop obind].
      intros [= <- <- <-]. left. repeat split; try reflexivity. lia.
  - destruct (Compile (anchor pat w)) as [re|]; [|discriminate].
    intros [= <- <- <-]. right. eauto.
Qed.

(** [parse] changes the slices of a template with a single pattern slice
    only. *)
Lemma parse_no_pattern (content : string) (sl : list _TemplateSlice) (w : Z) :
  parse content = Returns (inl (sl, w)) -> existsb isPattern sl = false ->
  content <> ""
  /\ parseLoop (S (String.length content)) content [] ∅ (-1) = Returns (inl (sl, w)).
Proof.
  unfold parse. destruct (String.eqb_spec content "") as [|Hne]; [discriminate|].
  destruct (parseLoop _ content [] ∅ (-1)) as [[[tss w']|e]|]; cbn [obind];
    try discriminate.
  intros H Hnp. split; [exact Hne|].
  destruct tss as [|[st [[n [re|]]|]] [|slc2 tss]]; cbn [valuePattern] in H;
    try (injection H as <- <-; reflexivity).
  destruct (Compile (re_String re +:+ "$")); [|discriminate].
  injection H as <- <-. discriminate Hnp.
Qed.

(** The slices of a parsed template without a pattern slice: one static
    slice, or a wildcard slice with static text before it (that does not
    end with a backslash) and after it. *)
Lemma parse_shape (content : string) (sl : list _TemplateSlice) (w : Z) :
  parse content = Returns (inl (sl, w)) -> existsb isPattern sl = false ->
  (exists p, p <> "" /\ sl = [staticS p] /\ w = -1)
  \/ (exists p v q,
        last p <> Some "\"%char /\ goodName v
        /\ sl = (optStatic p ++ [dynamicS (mkVP v None)] ++ optStatic q)%list
        /\ w = Z.of_nat (List.length (optStatic p))).
Proof.
  intros Hparse Hnp. destruct (parse_no_pattern _ _ _ Hparse Hnp) as [Hne H].
  destruct content as [|c0 content0] eqn:Econtent; [congruence|]. rewrite <- Econtent in *.
  assert (Hfuel : S (String.length content) = S (S (String.length content0)))
    by (rewrite Econtent; reflexivity).
  rewrite Hfuel in H. clear Hfuel.
  remember (S (String.length content0)) as fuel1 eqn:Efuel.
  cbn [parseLoop] in H.
  destruct (Z.ltb_spec 0 (len content)) as [_|Hl];
    [|rewrite Econtent, len_String in Hl; pose proof (len_nonneg content0); lia].
  destruct (staticSlice content) as [[p left] [e|]] eqn:Hss; [discriminate|].
  rewrite append_optStatic in H. cbn [app] in H.
  destruct (String.eqb_spec left "") as [->|Hleft].
  { (* static text only *)
    injection H as <- <-. left. exists p.
    pose proof (staticSlice_nonempty _ _ Hne Hss) as Hp.
    split; [exact Hp|]. split; [apply optStatic_nonempty; exact Hp|reflexivity]. }
  destruct (staticSlice_before_brace _ _ _ Hss Hleft) as [Hlast [r ->]].
  destruct (dynamicSlice (String "{" r)) as [[[v pat] left2] [e|]] eqn:Hds; [discriminate|].
  pose proof (dynamicSlice_goodName _ _ _ _ _ Hds) as Hgood.
  destruct (appendDynamicSliceTo (optStatic p) v pat ∅ (-1))
    as [[[[tss2 w2] vps2]|e]|] eqn:Happ; cbn [obind] in H; try discriminate.
  apply appendDynamicSliceTo_empty in Happ as [(-> & _ & -> & -> & ->)|[re ->]].
  2:{ (* a pattern slice *)
      apply parseLoop_extends in H as [ext ->].
      rewrite existsb_isPattern_app in Hnp. discriminate. }
  right. exists p, v.
  subst fuel1. cbn [parseLoop] in H.
  destruct (0 <? len left2).
  2:{ injection H as <- <-. exists "".
      split; [exact Hlast|]. split; [exact Hgood|]. split; reflexivity. }
  destruct (staticSlice left2) as [[q left3] [e|]] eqn:Hss2; [discriminate|].
  rewrite append_optStatic in H.
  destruct (String.eqb_spec left3 "") as [->|Hleft3].
  { injection H as <- <-. exists q.
    split; [exact Hlast|]. split; [exact Hgood|]. split; [|reflexivity].
    now rewrite <- app_assoc. }
  destruct (dynamicSlice left3) as [[[v2 pat2] left4] [e|]]; [discriminate|].
  destruct (appendDynamicSliceTo _ v2 pat2 ∅ _)
    as [[[[tss3 w3] vps3]|e]|] eqn:Happ2; cbn [obind] in H; try discriminate.
  apply appendDynamicSliceTo_empty in Happ2 as [(_ & Hneg & _)|[re ->]]; [lia|].
  apply parseLoop_extends in H as [ext ->].
  rewrite existsb_isPattern_app in Hnp. discriminate.
Qed.

(** *** [parse] on the rendered content *)

Lemma escapeBraces_nonempty (p : string) : p <> "" -> escapeBraces p <> "".
Proof.
  destruct p as [|c p]; [congruence|]. intros _. cbn [escapeBraces].
  destruct (Ascii.eqb c "{" || Ascii.eqb c "}"); discriminate.
Qed.

Lemma escapeBraces_empty (p : string) : String.eqb (escapeBraces p) "" = String.eqb p "".
Proof.
  destruct p as [|c p]; [reflexivity|]. cbn [escapeBraces].
  destruct (Ascii.eqb c "{" || Ascii.eqb c "}"); reflexivity.
Qed.

Lemma parse_rendered_static (p : string) :
  p <> "" -> parse (escapeBraces p) = Returns (inl ([staticS p], -1)).
Proof.
  intros Hne. unfold parse. pose proof (escapeBraces_nonempty p Hne) as He.
  rewrite (eqb_false_ne _ _ He).
  cbn [parseLoop]. pose proof (len_pos_nonempty _ He) as Hl.
  destruct (Z.ltb_spec 0 (len (escapeBraces p))); [|lia].
  rewrite staticSlice_escaped. rewrite (eqb_false_ne _ _ Hne). reflexivity.
Qed.

Lemma parseLoop_rendered_wildcard (fuel : nat) (p v q : string) :
  last p <> Some "\"%char -> goodName v ->
  parseLoop (S (S fuel))
    (escapeBraces p +:+ String "{" (escapeColons v +:+ String "}" (escapeBraces q))) [] ∅ (-1)
  = Returns (inl ((optStatic p ++ [dynamicS (mkVP v None)] ++ optStatic q)%list,
                  Z.of_nat (List.length (optStatic p)))).
Proof.
  intros Hp Hv.
  remember (S fuel) as fuel1 eqn:Ef. cbn [parseLoop].
  set (body := String "{" (escapeColons v +:+ String "}" (escapeBraces q))).
  assert (Hl : 0 < len (escapeBraces p +:+ body)).
  { rewrite len_append. unfold body. rewrite len_String. pose proof (len_nonneg (escapeBraces p)).
    pose proof (len_nonneg (escapeColons v +:+ String "}" (escapeBraces q))). lia. }
  destruct (Z.ltb_spec 0 (len (escapeBraces p +:+ body))); [|lia].
  unfold body. rewrite (staticSlice_escaped_brace p _ Hp).
  cbn [String.eqb]. rewrite (dynamicSlice_escaped v _ Hv).
  rewrite appendDynamicSliceTo_first_wildcard. cbn [obind].
  subst fuel1. cbn [parseLoop].
  rewrite (append_optStatic [] p). cbn [app].
  destruct (String.eqb_spec q "") as [->|Hqne].
  - cbn [escapeBraces]. replace (0 <? len "") with false by reflexivity.
    reflexivity.
  - pose proof (escapeBraces_nonempty q Hqne) as He.
    pose proof (len_pos_nonempty _ He).
    destruct (Z.ltb_spec 0 (len (escapeBraces q))); [|lia].
    rewrite staticSlice_escaped. rewrite append_optStatic. cbn [String.eqb].
    unfold appendSlice. now rewrite <- app_assoc.
Qed.

Lemma parse_rendered_wildcard (p v q : string) :
  last p <> Some "\"%char -> goodName v ->
  parse (escapeBraces p +:+ String "{" (escapeColons v +:+ String "}" (escapeBraces q)))
  = Returns (inl ((optStatic p ++ [dynamicS (mkVP v None)] ++ optStatic q)%list,
                  Z.of_nat (List.length (optStatic p)))).
Proof.
  intros Hp Hv. unfold parse. rewrite eqb_append_brace.
  assert (Hlen : exists k, String.length
                   (escapeBraces p +:+ String "{" (escapeColons v +:+ String "}" (escapeBraces q)))
                 = S k).
  { rewrite length_append. cbn [String.length]. eexists. rewrite Nat.add_succ_r. reflexivity. }
  destruct Hlen as [k ->].
  rewrite (parseLoop_rendered_wildcard k p v q Hp Hv). cbn [obind].
  unfold optStatic.
  destruct (String.eqb p ""), (String.eqb q ""); reflexivity.
Qed.

(** *** Rendering *)

Lemma contentLoop_static (p strb : string) (ts : list _TemplateSlice) (vns : gset string) :
  contentLoop (optStatic p ++ ts)%list vns strb = contentLoop ts vns (strb +:+ escapeBraces p).
Proof.
  unfold optStatic. destruct (String.eqb_spec p "") as [->|Hne].
  - cbn [escapeBraces]. now rewrite append_empty_r.
  - cbn [app contentLoop staticS staticStr]. now rewrite (eqb_false_ne _ _ Hne).
Qed.

(** What [Content] writes for a named template with a wildcard slice. *)
Lemma Content_wildcard (nm p v q : string) (i : Z) :
  nm <> "" ->
  Content (mkTemplate nm (optStatic p ++ [dynamicS (mkVP v None)] ++ optStatic q)%list i)
  = Returns (escapeBraces p +:+ String "{" (escapeColons v +:+ String "}" (escapeBraces q))).
Proof.
  intros Hnn. unfold Content. cbn [slices name]. rewrite (eqb_false_ne _ _ Hnn). cbn [andb].
  assert (Hs0 : match (optStatic p ++ [dynamicS (mkVP v None)] ++ optStatic q)%list with
                | [] => "" | _ :: _ => "" end = "")
    by now destruct (_ ++ _)%list.
  rewrite Hs0. rewrite (contentLoop_static p "" _ _).
  cbn [app contentLoop dynamicS staticStr valuePattern String.eqb negb vp_name vp_re].
  rewrite <- (app_nil_r (optStatic q)).
  rewrite (contentLoop_static q _ [] _). cbn [contentLoop].
  f_equal. cbn [String.append]. rewrite !append_assoc. reflexivity.
Qed.

(** *** Rendering and parsing again *)

(** A static template: the name does not end with a backslash and, without
    a name, the text does not start with a backslash and a dollar sign. *)
Lemma renders_back_static (nm p : string) :
  p <> "" -> last nm <> Some "\"%char ->
  (nm = "" -> ~ (at_ p 0 = Some "\"%char /\ at_ p 1 = Some "$"%char)) ->
  exists str, String_ (mkTemplate nm [staticS p] (-1)) = Returns str
              /\ TryToParse str = Returns (inl (mkTemplate nm [staticS p] (-1))).
Proof.
  intros Hne Hlast Hesc.
  assert (Hstatic : IsStatic (mkTemplate nm [staticS p] (-1)) = true).
  { unfold IsStatic. cbn [slices staticS staticStr]. now rewrite (eqb_false_ne _ _ Hne). }
  unfold String_, Content. cbn [slices name staticS staticStr contentLoop obind].
  rewrite (eqb_false_ne _ _ Hne). cbn [negb obind].
  destruct (String.eqb_spec nm "") as [->|Hnn]; cbn [negb andb].
  - set (pre := if bool_decide (at_ p 0 = Some "$"%char) then "\" else "").
    exists (pre +:+ escapeBraces p). split; [reflexivity|].
    assert (Hstr : pre +:+ escapeBraces p <> "")
      by (apply append_nonempty_r, escapeBraces_nonempty; exact Hne).
    unfold TryToParse. rewrite (eqb_false_ne _ _ Hstr).
    unfold pre. rewrite (templateNameAndContent_static p Hne (Hesc eq_refl)).
    rewrite (parse_rendered_static p Hne). cbn [obind]. rewrite Hstatic. reflexivity.
  - exists (String "$" (escapeColons nm +:+ String ":" (escapeBraces p))). split.
    + cbn [String.append]. now rewrite !append_assoc.
    + unfold TryToParse. cbn [String.eqb].
      rewrite (templateNameAndContent_rendered nm _ Hlast).
      rewrite (parse_rendered_static p Hne). cbn [obind]. rewrite Hstatic. reflexivity.
Qed.

(** A template with a wildcard slice: it has a name, which does not end
    with a backslash. *)
Lemma renders_back_wildcard (nm p v q : string) :
  nm <> "" -> last nm <> Some "\"%char ->
  last p <> Some "\"%char -> goodName v ->
  let t := mkTemplate nm (optStatic p ++ [dynamicS (mkVP v None)] ++ optStatic q)%list
             (Z.of_nat (List.length (optStatic p))) in
  exists str, String_ t = Returns str /\ TryToParse str = Returns (inl t).
Proof.
  intros Hnn Hlast Hp Hv t.
  unfold String_. subst t. rewrite (Content_wildcard nm p v q _ Hnn). cbn [obind name].
  rewrite (eqb_false_ne _ _ Hnn). cbn [negb].
  exists (String "$" (escapeColons nm +:+ String ":"
            (escapeBraces p +:+ String "{" (escapeColons v +:+ String "}" (escapeBraces q))))).
  split.
  - cbn [String.append]. now rewrite !append_assoc.
  - unfold TryToParse. cbn [String.eqb].
    rewrite (templateNameAndContent_rendered nm _ Hlast).
    rewrite (parse_rendered_wildcard p v q Hp Hv). cbn [obind].
    rewrite IsStatic_wildcard_shape. cbn [negb andb].
    rewrite (eqb_false_ne _ _ Hnn). reflexivity.
Qed.

(** The name that [TryToParse] gives to a template with a wildcard slice
    and no name is the value name. *)
Lemma wildcard_shape_name (p v q : string) (w : Z) (t : Template) :
  (let sl := (optStatic p ++ [dynamicS (mkVP v None)] ++ optStatic q)%list in
   if IsWildcard (mkTemplate "" sl w)
   then match sl with
        | slc :: _ => do! n <- slice_name slc; Returns (inl (mkTemplate n sl w))
        | [] => Panics
        end
   else Returns (inl (B := error) (mkTemplate (singleDynamicName sl None) sl w)))
  = Returns (inl t) ->
  t = mkTemplate v (optStatic p ++ [dynamicS (mkVP v None)] ++ optStatic q)%list w.
Proof.
  unfold optStatic, IsWildcard.
  destruct (String.eqb p ""), (String.eqb q ""); cbn; intros [= <-]; reflexivity.
Qed.

(** C7, as the code has it.  A parsed template is rendered by [String] to a
    string that [TryToParse] parses to the template itself (the same name,
    the same slices, the same wildcard index) when it has no pattern slice,
    its name does not end with a backslash and it is not a template without
    a name whose text starts with a backslash and a dollar sign. *)
Theorem String_TryToParse_renders_back (s : string) (t : Template) :
  TryToParse s = Returns (inl t) ->
  rendersBack t = true ->
  exists str, String_ t = Returns str /\ TryToParse str = Returns (inl t).
Proof.
  intros Hparse Hback. unfold rendersBack in Hback.
  apply andb_true_iff in Hback as [Hback Hdollar].
  apply andb_true_iff in Hback as [Hpat Hname].
  apply negb_true_iff in Hpat, Hname, Hdollar.
  unfold hasPatternSlice in Hpat.
  unfold nameEndsWithBackslash in Hname. apply bool_decide_eq_false in Hname.
  unfold TryToParse in Hparse.
  destruct (String.eqb s ""); [discriminate|].
  destruct (templateNameAndContent s) as [[name0 content] [e|]]; [discriminate|].
  destruct (parse content) as [[[sl w]|e]|] eqn:Hp; cbn [obind] in Hparse; try discriminate.
  assert (Hsl : slices t = sl).
  { destruct (negb (IsStatic (mkTemplate name0 sl w)) && String.eqb name0 "").
    - destruct (IsWildcard (mkTemplate name0 sl w)).
      + destruct sl as [|slc sl']; [discriminate|].
        destruct (slice_name slc); cbn [obind] in Hparse; [|discriminate].
        now injection Hparse as <-.
      + now injection Hparse as <-.
    - now injection Hparse as <-. }
  rewrite Hsl in Hpat.
  destruct (parse_shape content sl w Hp Hpat)
    as [(p & Hne & -> & ->)|(p & v & q & Hlast & Hgood & -> & ->)].
  - (* a static template *)
    assert (Hstatic : IsStatic (mkTemplate name0 [staticS p] (-1)) = true).
    { unfold IsStatic. cbn [slices staticS staticStr]. now rewrite (eqb_false_ne _ _ Hne). }
    rewrite Hstatic in Hparse. cbn [negb andb] in Hparse. injection Hparse as <-.
    cbn [name] in Hname. apply renders_back_static; [exact Hne|exact Hname|].
    intros -> [H0 H1]. unfold startsWithEscapedDollar in Hdollar.
    cbn [name slices staticS staticStr String.eqb andb] in Hdollar.
    now rewrite !bool_decide_eq_true_2 in Hdollar.
  - (* a template with a wildcard slice *)
    rewrite IsStatic_wildcard_shape in Hparse. cbn [negb andb] in Hparse.
    destruct (String.eqb_spec name0 "") as [->|Hnn].
    + apply wildcard_shape_name in Hparse. subst t. cbn [name] in Hname.
      apply renders_back_wildcard; [apply Hgood|exact Hname|exact Hlast|exact Hgood].
    + injection Hparse as <-. cbn [name] in Hname.
      apply renders_back_wildcard; [exact Hnn|exact Hname|exact Hlast|exact Hgood].
Qed.

End WithEngine.

Import MiniRegexp.

(** A static text that starts with a backslash and a dollar sign, in a
    template without a name: [$:\$x] is parsed to the template of the text
    [\$x], which is rendered as [\$x]; in that string the backslash escapes
    the dollar sign, and it is parsed to the template of the text [$x]. *)
Lemma String_TryToParse_escaped_dollar :
  TryToParse "$:\$x" = Returns (inl Examples.t_escaped_dollar)
  /\ String_ Examples.t_escaped_dollar = Returns "\$x"
  /\ TryToParse "\$x" = Returns (inl Examples.t_dollar)
  /\ templateImage Examples.t_dollar <> templateImage Examples.t_escaped_dollar.
Proof.
  split; [reflexivity|]. split; [reflexivity|]. split; [reflexivity|].
  intros H. discriminate H.
Qed.

(** [String_TryToParse_renders_back] on the parsed template of
    [$n\:m:a\{b{v\:w}c], with a colon in its name and in its value name and a
    brace in its static text. *)
Lemma String_TryToParse_renders_back_witness :
  TryToParse "$n\:m:a\{b{v\:w}c" = Returns (inl Examples.t_escapes)
  /\ exists str, String_ Examples.t_escapes = Returns str
                 /\ TryToParse str = Returns (inl Examples.t_escapes).
Proof.
  assert (Hparse : TryToParse "$n\:m:a\{b{v\:w}c" = Returns (inl Examples.t_escapes))
    by reflexivity.
  split; [exact Hparse|].
  apply (String_TryToParse_renders_back (RE := MiniRegexp.engine)
           "$n\:m:a\{b{v\:w}c" Examples.t_escapes Hparse).
  reflexivity.
Defined.

End RenderFacts.
